(** * YoutubeDataVisualize: the data loader of js/data-loader.js

    A shallow embedding of the [DataLoader] class: the CSV record parser,
    the trending-date parser and the aggregation functions that feed the
    charts, with the helpers of the main script and of js/visualizations.js
    that prepare what the loader is asked for and what it returns,
    followed by the properties proved about them.

    Modelling conventions.
    - A JavaScript string is a [string]; each [ascii] stands for one UTF-16
      code unit below 256, so [String.length] is the JavaScript [length].
    - A JavaScript number that the program keeps integral (counts, views,
      likes, parsed integers, time values in milliseconds) is a [Z]; the
      doubles of the program agree with it while magnitudes stay below 2^53.
      A quotient is a [Num]: an exact rational, an infinity or NaN; the
      rounding of a double is not part of the model.
    - An object used as a dictionary is modelled by its own properties, in
      the order [Object.keys] lists them. A key taken from the data that
      names a member every object inherits from [Object.prototype] is
      found by the code where the model finds nothing: [getAllChannels]
      and [getTagFlowData], which then throw, are modelled with it. In
      [getTagEvolutionData] and [getTagRacingData] such a tag is counted
      on the inherited object and nothing is thrown; there the model is
      of tables whose tags name no inherited member. Country codes and
      category names are taken not to name one.
    - The time zone of the runtime is a parameter, a [TimeZone]: the
      constructor [new Date(year, month, day)] and the getters [getDay],
      [getHours] and [getFullYear] read local time, [getTime] and
      [toISOString] read UTC. An example that names no zone is read in
      UTC. *)

From Stdlib Require Import ZArith QArith Qminmax String Ascii List Lia.
From Stdlib Require Import Sorted Permutation OrdersEx Qround.
From stdpp Require Import base option list gmap strings pretty sorting.

Local Open Scope string_scope.
Local Open Scope Z_scope.

(** ** Strings *)

Module JsString.

Definition nl : ascii := ascii_of_nat 10.
Definition dquote : ascii := ascii_of_nat 34.

Definition code (c : ascii) : Z := Z.of_N (N_of_ascii c).

(** The characters [trim] and [parseInt] strip: TAB, LF, VT, FF, CR, SP
    and NBSP (the white space and line terminators below 256). *)
Definition isWhiteSpace (c : ascii) : bool :=
  ((9 <=? code c) && (code c <=? 13)) || (code c =? 32) || (code c =? 160).

Fixpoint trimStart (s : string) : string :=
  match s with
  | EmptyString => EmptyString
  | String c rest => if isWhiteSpace c then trimStart rest else s
  end.

Fixpoint trimEnd (s : string) : string :=
  match s with
  | EmptyString => EmptyString
  | String c rest =>
      match trimEnd rest with
      | EmptyString => if isWhiteSpace c then EmptyString else String c EmptyString
      | kept => String c kept
      end
  end.

Definition trim (s : string) : string := trimEnd (trimStart s).

(** [s.split(sep)] for a one-character separator. *)
Fixpoint split (sep : ascii) (s : string) : list string :=
  match s with
  | EmptyString => [EmptyString]
  | String c rest =>
      if Ascii.eqb c sep then EmptyString :: split sep rest
      else match split sep rest with
           | first :: others => String c first :: others
           | [] => [String c EmptyString]
           end
  end.

(** [l.join(sep)]. *)
Definition join (sep : ascii) (l : list string) : string :=
  String.concat (String sep EmptyString) l.

Definition lowerChar (c : ascii) : ascii :=
  let n := code c in
  if ((65 <=? n) && (n <=? 90))
     || ((192 <=? n) && (n <=? 222) && negb (n =? 215))
  then ascii_of_N (Z.to_N (n + 32)) else c.

Fixpoint toLowerCase (s : string) : string :=
  match s with
  | EmptyString => EmptyString
  | String c rest => String (lowerChar c) (toLowerCase rest)
  end.

(** [s.replace] of every double-quote character by the empty string. *)
Fixpoint removeQuotes (s : string) : string :=
  match s with
  | EmptyString => EmptyString
  | String c rest =>
      if Ascii.eqb c dquote then removeQuotes rest else String c (removeQuotes rest)
  end.

Fixpoint startsWith (s p : string) {struct p} : bool :=
  match p, s with
  | EmptyString, _ => true
  | String c p', String d s' => Ascii.eqb c d && startsWith s' p'
  | String _ _, EmptyString => false
  end.

Fixpoint includes (s p : string) : bool :=
  startsWith s p ||
  match s with
  | EmptyString => false
  | String _ rest => includes rest p
  end.

Definition endsWith (s p : string) : bool :=
  let n := String.length s in
  let k := String.length p in
  (k <=? n)%nat && String.eqb (String.substring (n - k) k s) p.

(** [s.slice(1, -1)]. *)
Definition sliceInner (s : string) : string :=
  String.substring 1 (String.length s - 2) s.

Definition truthy (s : string) : bool := negb (String.eqb s EmptyString).

(** *** parseInt *)

Definition digitValue (c : ascii) : option Z :=
  let n := code c in
  if (48 <=? n) && (n <=? 57) then Some (n - 48)
  else if (97 <=? n) && (n <=? 122) then Some (n - 87)
  else if (65 <=? n) && (n <=? 90) then Some (n - 55)
  else None.

(** The longest prefix of digits of the radix; [None] when there is none. *)
Fixpoint parseDigits (radix : Z) (acc : option Z) (s : string) : option Z :=
  match s with
  | EmptyString => acc
  | String c rest =>
      match digitValue c with
      | Some d =>
          if d <? radix
          then parseDigits radix (Some (radix * default 0 acc + d)) rest
          else acc
      | None => acc
      end
  end.

Fixpoint skip (n : nat) (s : string) : string :=
  match n, s with
  | S n', String _ rest => skip n' rest
  | _, _ => s
  end.

(** [parseInt(s)] with no radix argument; [None] is NaN. White space is
    stripped, then a sign, then a 0x or 0X prefix, which selects radix 16;
    the digits that follow are read as far as they go. *)
Definition parseInt (s : string) : option Z :=
  let s1 := trimStart s in
  let sign := if startsWith s1 "-" then -1 else 1 in
  let s2 := if startsWith s1 "-" || startsWith s1 "+" then skip 1 s1 else s1 in
  let hex := startsWith s2 "0x" || startsWith s2 "0X" in
  let radix := if hex then 16 else 10 in
  let s3 := if hex then skip 2 s2 else s2 in
  Z.mul sign <$> parseDigits radix None s3.

(** [parseInt(x)] of a property that may be [undefined]. *)
Definition parseIntProp (x : option string) : option Z :=
  match x with
  | Some s => parseInt s
  | None => parseInt "undefined"
  end.

(** [n || 0] on a number: NaN and 0 are falsy. *)
Definition orZero (n : option Z) : Z := default 0 n.

End JsString.

(** ** Dates *)

Module JsDate.

(** A [Date] object: its time value in milliseconds, or an invalid date
    (time value NaN). *)
Inductive Date : Type :=
| InvalidDate
| DateAt (ms : Z).

Definition msPerDay : Z := 86400000.
Definition msPerWeek : Z := 7 * 24 * 60 * 60 * 1000.
Definition maxTime : Z := 8640000000000000.

Definition daysFromYear (y : Z) : Z :=
  365 * (y - 1970) + (y - 1969) / 4 - (y - 1901) / 100 + (y - 1601) / 400.

Definition inLeapYear (y : Z) : bool :=
  ((y mod 4 =? 0) && negb (y mod 100 =? 0)) || (y mod 400 =? 0).

Definition leapDay (y : Z) : Z := if inLeapYear y then 1 else 0.

(** Days of the year before month [m] (0 = January). *)
Definition daysBeforeMonth (y m : Z) : Z :=
  match m with
  | 0 => 0
  | 1 => 31
  | 2 => 59 + leapDay y
  | 3 => 90 + leapDay y
  | 4 => 120 + leapDay y
  | 5 => 151 + leapDay y
  | 6 => 181 + leapDay y
  | 7 => 212 + leapDay y
  | 8 => 243 + leapDay y
  | 9 => 273 + leapDay y
  | 10 => 304 + leapDay y
  | _ => 334 + leapDay y
  end.

(** MakeDay of ECMAScript: months and days outside their range carry. *)
Definition makeDay (year month date : Z) : Z :=
  let ym := year + month / 12 in
  let mn := month mod 12 in
  daysFromYear ym + daysBeforeMonth ym mn + date - 1.

Definition timeClip (t : Z) : Date :=
  if Z.abs t <=? maxTime then DateAt t else InvalidDate.

(** The time zone of the runtime: the offset of local time from UTC, in
    milliseconds. [offsetAt t] is [LocalTZA(t, true)], the offset in
    force at the time value [t]; [offsetOf t] is [LocalTZA(t, false)],
    the offset with which the local time [t] is read, which for a local
    time that a change of the clock skips or repeats is the offset in
    force before the change. *)
Class TimeZone : Type := {
  offsetAt : Z -> Z;
  offsetOf : Z -> Z
}.

(** [LocalTime(t)] and [UTC(t)] of ECMAScript. *)
Definition localTime {zone : TimeZone} (t : Z) : Z := t + offsetAt t.
Definition utcTime {zone : TimeZone} (t : Z) : Z := t - offsetOf t.

(** The zone of Greenwich, whose clock never changes. *)
Definition utc : TimeZone := {| offsetAt := fun _ => 0; offsetOf := fun _ => 0 |}.

(** [new Date(year, month, day)]: midnight of that day in local time. A
    NaN argument gives an invalid date and a year from 0 to 99 stands
    for 1900 + year. *)
Definition newDate {zone : TimeZone} (year month day : option Z) : Date :=
  match year, month, day with
  | Some y, Some m, Some d =>
      let yr := if (0 <=? y) && (y <=? 99) then 1900 + y else y in
      timeClip (utcTime (makeDay yr m d * msPerDay))
  | _, _, _ => InvalidDate
  end.

Definition yearFromDay (d : Z) : Z :=
  let y0 := 1970 + (400 * d) / 146097 in
  if d <? daysFromYear y0 then y0 - 1
  else if daysFromYear (y0 + 1) <=? d then y0 + 1
  else y0.

Definition day (t : Z) : Z := t / msPerDay.

(** The year of a time value. [getFullYear()] of a valid date is the year
    of its local time, and the year that [toISOString()] writes is that of
    the time value itself; so for the month and the day below. *)
Definition getFullYear (t : Z) : Z := yearFromDay (day t).

Definition dayWithinYear (t : Z) : Z := day t - daysFromYear (getFullYear t).

Definition getTime (d : Date) : option Z :=
  match d with
  | DateAt t => Some t
  | InvalidDate => None
  end.

(** The month (0 = January) and the day of the month of a time value. *)
Definition monthOfYearDay (y n : Z) : Z :=
  if n <? 31 then 0
  else if n <? daysBeforeMonth y 2 then 1
  else if n <? daysBeforeMonth y 3 then 2
  else if n <? daysBeforeMonth y 4 then 3
  else if n <? daysBeforeMonth y 5 then 4
  else if n <? daysBeforeMonth y 6 then 5
  else if n <? daysBeforeMonth y 7 then 6
  else if n <? daysBeforeMonth y 8 then 7
  else if n <? daysBeforeMonth y 9 then 8
  else if n <? daysBeforeMonth y 10 then 9
  else if n <? daysBeforeMonth y 11 then 10
  else 11.

Definition getMonth (t : Z) : Z := monthOfYearDay (getFullYear t) (dayWithinYear t).

Definition getDate (t : Z) : Z :=
  dayWithinYear t - daysBeforeMonth (getFullYear t) (getMonth t) + 1.

Definition daysInMonth (y m : Z) : Z :=
  match m with
  | 1 => 28 + leapDay y
  | 3 | 5 | 8 | 10 => 30
  | _ => 31
  end.

(** *** Reading a timestamp

    [new Date(text)] is left to the engine except on the date-time format
    of the standard. [parseIsoUtc] reads that format in its full UTC form,
    YYYY-MM-DDTHH:mm:ss.sssZ, and takes any other text for an invalid
    date; it stands for the engine where an example needs one. *)

Definition number (s : string) : option Z :=
  if JsString.truthy s
     && forallb (fun c => (48 <=? JsString.code c) && (JsString.code c <=? 57))
          (list_ascii_of_string s)
  then JsString.parseDigits 10 None s
  else None.

Definition parseIsoUtc (text : string) : Date :=
  let part := fun start len => number (String.substring start len text) in
  let mark := fun index c =>
                match String.get index text with
                | Some d => Ascii.eqb c d
                | None => false
                end in
  if (String.length text =? 24)%nat
     && mark 4%nat "-"%char && mark 7%nat "-"%char && mark 10%nat "T"%char
     && mark 13%nat ":"%char && mark 16%nat ":"%char && mark 19%nat "."%char
     && mark 23%nat "Z"%char
  then
    match part 0%nat 4%nat, part 5%nat 2%nat, part 8%nat 2%nat,
          part 11%nat 2%nat, part 14%nat 2%nat, part 17%nat 2%nat,
          part 20%nat 3%nat with
    | Some y, Some m, Some d, Some h, Some mi, Some sec, Some ms =>
        if (1 <=? m) && (m <=? 12) && (1 <=? d) && (d <=? daysInMonth y (m - 1))
           && (h <=? 23) && (mi <=? 59) && (sec <=? 59)
        then DateAt (makeDay y (m - 1) d * msPerDay
                     + h * 3600000 + mi * 60000 + sec * 1000 + ms)
        else InvalidDate
    | _, _, _, _, _, _, _ => InvalidDate
    end
  else InvalidDate.

End JsDate.

(** ** Numbers *)

Module JsNum.

(** The value of a division of two integral numbers. *)
Inductive Num : Type :=
| NaN
| PosInf
| NegInf
| Fin (q : Q).

(** [a / b]: 0/0 is NaN, a nonzero number over 0 is an infinity, and a
    finite quotient is kept in lowest terms. *)
Definition div (a b : Z) : Num :=
  if b =? 0 then
    if a =? 0 then NaN else if 0 <? a then PosInf else NegInf
  else Fin (Qred (Qmake (a * Z.sgn b) (Z.to_pos (Z.abs b)))).

(** [Math.round(a / b)] for a positive [b]: the nearest integer, halves
    rounded up. *)
Definition roundDiv (a b : Z) : Z := (2 * a + b) / (2 * b).

End JsNum.

(** ** Objects used as dictionaries, arrays and sets *)

Module JsObj.
Import JsString.

(** The names of the members that every object inherits from
    [Object.prototype]. Reading one of them on a dictionary that has no
    own property of that name finds the inherited member, a function or
    an object, which is truthy. *)
Definition inherited (k : string) : bool :=
  existsb (String.eqb k)
    ["constructor"; "__defineGetter__"; "__defineSetter__"; "hasOwnProperty";
     "__lookupGetter__"; "__lookupSetter__"; "isPrototypeOf";
     "propertyIsEnumerable"; "toString"; "valueOf"; "__proto__";
     "toLocaleString"].

Section Obj.
Context {V : Type}.

(** The own properties of an object in the order [Object.keys],
    [Object.values] and [Object.entries] list them. *)
Definition t : Type := list (string * V).

Fixpoint get (o : t) (k : string) : option V :=
  match o with
  | [] => None
  | (k', v) :: rest => if String.eqb k' k then Some v else get rest k
  end.

Definition has (o : t) (k : string) : bool :=
  match get o k with Some _ => true | None => false end.

Definition keys (o : t) : list string := map fst o.
Definition values (o : t) : list V := map snd o.

Definition isDigit (c : ascii) : bool := (48 <=? code c) && (code c <=? 57).

Fixpoint allDigits (s : string) : bool :=
  match s with
  | EmptyString => true
  | String c rest => isDigit c && allDigits rest
  end.

(** An array index: the canonical decimal numeral of an integer below
    2^32 - 1. Such keys are listed first, in ascending order. *)
Definition arrayIndex (k : string) : option Z :=
  match k with
  | EmptyString => None
  | String c rest =>
      if allDigits k && (negb (Ascii.eqb c "0") || String.eqb rest EmptyString)
      then match parseDigits 10 None k with
           | Some n => if n <? 4294967295 then Some n else None
           | None => None
           end
      else None
  end.

(** A new key [k] is listed before the existing key [k']. *)
Definition precedes (k k' : string) : bool :=
  match arrayIndex k, arrayIndex k' with
  | Some n, Some n' => n <? n'
  | Some _, None => true
  | None, _ => false
  end.

Fixpoint place (k : string) (v : V) (o : t) : t :=
  match o with
  | [] => [(k, v)]
  | (k', v') :: rest =>
      if precedes k k' then (k, v) :: o else (k', v') :: place k v rest
  end.

Fixpoint replace (k : string) (v : V) (o : t) : t :=
  match o with
  | [] => []
  | (k', v') :: rest =>
      if String.eqb k' k then (k, v) :: rest else (k', v') :: replace k v rest
  end.

(** [o[k] = v]: an existing property keeps its place. *)
Definition set (o : t) (k : string) (v : V) : t :=
  if has o k then replace k v o else place k v o.

End Obj.

Arguments t : clear implicits.

End JsObj.

Module JsArray.

Section Arr.
Context {A : Type}.

(** [l.slice(0, n)] for an integral [n]: a negative [n] counts from the
    end of the array. *)
Definition slice0 (n : Z) (l : list A) : list A :=
  if n <? 0 then take (Z.to_nat (Z.of_nat (length l) + n)) l
  else take (Z.to_nat n) l.

(** [l.sort(cmp)] for a consistent comparator: the sort is stable, so
    its result is that of the insertion sort below. *)
Fixpoint insert (cmp : A -> A -> Z) (x : A) (l : list A) : list A :=
  match l with
  | [] => [x]
  | y :: rest => if cmp x y <=? 0 then x :: l else y :: insert cmp x rest
  end.

Definition sort (cmp : A -> A -> Z) (l : list A) : list A :=
  foldr (insert cmp) [] l.

End Arr.

(** The default comparator of [sort()]: strings by code units. *)
Definition compareStrings (a b : string) : Z :=
  match String.compare a b with
  | Lt => -1
  | Eq => 0
  | Gt => 1
  end.

Definition sortStrings (l : list string) : list string := sort compareStrings l.

Definition includes (l : list string) (x : string) : bool :=
  existsb (String.eqb x) l.

(** [s.add(x)] on a [Set] of strings, kept in insertion order. *)
Definition setAdd (s : list string) (x : string) : list string :=
  if includes s x then s else s ++ [x].

End JsArray.

(** ** The record parser *)

Module DataLoader.
Import JsString JsDate.

(** A parsed row. [props] holds the properties of the row that are texts
    copied from the file; the other fields are the properties the parser
    assigns afterwards, which replace what a header of the same name had
    put there. [trending_date_parsed] is [None] when the parser assigns
    nothing, [Some None] for null and [Some (Some d)] for a [Date]
    object. *)
Record Row : Type := mkRow {
  props : gmap string string;
  country : string;
  views : Z;
  likes : Z;
  dislikes : Z;
  comment_count : Z;
  category_id : Z;
  category_name : string;
  trending_date_parsed : option (option Date)
}.

(** [this.categories]: country code to (category id to display name). *)
Abbreviation Categories := (gmap string (gmap string string)).

(** [parseCSVLine]: the loop over the characters of the line. *)
Fixpoint parseCSVLine_loop (line : string) (result : list string)
    (current : string) (inQuotes : bool) : list string :=
  match line with
  | EmptyString => result ++ [current]
  | String char rest =>
      if Ascii.eqb char dquote then
        parseCSVLine_loop rest result current (negb inQuotes)
      else if Ascii.eqb char "," && negb inQuotes then
        parseCSVLine_loop rest (result ++ [current]) EmptyString inQuotes
      else
        parseCSVLine_loop rest result (current +:+ String char EmptyString) inQuotes
  end.

Definition parseCSVLine (line : string) : list string :=
  parseCSVLine_loop line [] EmptyString false.

(** [parseTrendingDate]: [None] is null. The [try] block cannot throw on
    a string argument, so the [catch] branch has no counterpart. *)
Definition parseTrendingDate {zone : TimeZone} (dateStr : string) : option Date :=
  let parts := split "." dateStr in
  if (length parts =? 3)%nat then
    let year := Z.add 2000 <$> parseIntProp (parts !! 0%nat) in
    let day := parseIntProp (parts !! 1%nat) in
    let month := parseIntProp (parts !! 2%nat) in
    Some (newDate year ((fun m => m - 1) <$> month) day)
  else None.

(** [values[index] ? values[index].trim() : ''] *)
Definition cell (values : list string) (index : nat) : string :=
  match values !! index with
  | Some v => if truthy v then trim v else EmptyString
  | None => EmptyString
  end.

(** [headers.forEach((header, index) => row[header.trim()] = ...)] *)
Fixpoint assignHeaders (headers : list string) (index : nat)
    (values : list string) (row : gmap string string) : gmap string string :=
  match headers with
  | [] => row
  | header :: rest =>
      assignHeaders rest (S index) values (<[trim header := cell values index]> row)
  end.

(** [this.categories[country] ? this.categories[country][id] || 'Unknown'
    : 'Unknown'] *)
Definition categoryName (categories : Categories) (country : string)
    (id : Z) : string :=
  match categories !! country with
  | Some names =>
      match names !! pretty id with
      | Some title => if truthy title then title else "Unknown"
      | None => "Unknown"
      end
  | None => "Unknown"
  end.

(** The properties that [parseCSV] assigns to every row after the
    headers: what a header of one of these names had put there is
    replaced. *)
Definition assigned : list string :=
  ["country"; "views"; "likes"; "dislikes"; "comment_count"; "category_id";
   "category_name"].

(** The body of the loop of [parseCSV] for a line that has enough values:
    [row] holds the texts copied under the headers, from which the
    numbers, the category name and the date are read; the texts that
    remain are those of the other properties. *)
Definition makeRow {zone : TimeZone} (categories : Categories) (country : string)
    (headers values : list string) : Row :=
  let row := assignHeaders headers 0 values ∅ in
  let id := orZero (parseIntProp (row !! "category_id")) in
  let date :=
    match row !! "trending_date" with
    | Some s => if truthy s then Some (parseTrendingDate s) else None
    | None => None
    end in
  {| props :=
       foldr delete row
         (match date with
          | Some _ => "trending_date_parsed" :: assigned
          | None => assigned
          end);
     country := country;
     views := orZero (parseIntProp (row !! "views"));
     likes := orZero (parseIntProp (row !! "likes"));
     dislikes := orZero (parseIntProp (row !! "dislikes"));
     comment_count := orZero (parseIntProp (row !! "comment_count"));
     category_id := id;
     category_name := categoryName categories country id;
     trending_date_parsed := date |}.

(** The value of a property of a row. *)
Inductive Value : Type :=
| Text (s : string)
| Number (n : Z)
| DateValue (d : Date)
| Null.

(** [row[name]]: [None] is undefined. *)
Definition prop (row : Row) (name : string) : option Value :=
  if String.eqb name "country" then Some (Text (country row))
  else if String.eqb name "views" then Some (Number (views row))
  else if String.eqb name "likes" then Some (Number (likes row))
  else if String.eqb name "dislikes" then Some (Number (dislikes row))
  else if String.eqb name "comment_count" then Some (Number (comment_count row))
  else if String.eqb name "category_id" then Some (Number (category_id row))
  else if String.eqb name "category_name" then Some (Text (category_name row))
  else
    match trending_date_parsed row with
    | Some date =>
        if String.eqb name "trending_date_parsed"
        then Some (match date with
                   | Some d => DateValue d
                   | None => Null
                   end)
        else Text <$> props row !! name
    | None => Text <$> props row !! name
    end.

(** One iteration of [for (let i = 1; i < maxRows; i++)]. *)
Definition parseCSV_step {zone : TimeZone} (categories : Categories)
    (country : string) (lines headers : list string) (data : list Row) (i : nat)
  : list Row :=
  let values := parseCSVLine (default EmptyString (lines !! i)) in
  if (length headers <=? length values)%nat
  then data ++ [makeRow categories country headers values]
  else data.

Definition parseCSV {zone : TimeZone} (categories : Categories)
    (text country : string) : list Row :=
  let lines := split nl (trim text) in
  let headers := split "," (default EmptyString (lines !! 0%nat)) in
  let maxRows := Nat.min (length lines) 1001 in
  fold_left (parseCSV_step categories country lines headers)
    (seq 1 (maxRows - 1)) [].

(** *** The loaded rows *)

(** [this.videoData]: country code to the rows parsed for it. *)
Abbreviation VideoData := (JsObj.t (list Row)).

(** [loadVideoData] for the fetches that succeed, in the order in which
    they complete: [this.videoData[country] = this.parseCSV(text, country)]. *)
Definition loadVideoData {zone : TimeZone} (categories : Categories)
    (fetched : list (string * string)) (videoData : VideoData) : VideoData :=
  fold_left
    (fun data '(country, text) =>
       JsObj.set data country (parseCSV categories text country))
    fetched videoData.

(** [Object.values(this.videoData).flat()] *)
Definition allVideos (videoData : VideoData) : list Row :=
  concat (JsObj.values videoData).

(** [this.videoData[country] || []] *)
Definition countryVideos (videoData : VideoData) (country : string) : list Row :=
  default [] (JsObj.get videoData country).

(** The rows a selector stands for; [everything] is the selector of all
    countries ('all' or 'global'). *)
Definition videosToProcess (videoData : VideoData) (everything selected : string)
  : list Row :=
  if String.eqb selected everything then allVideos videoData
  else countryVideos videoData selected.

(** *** getViewsByCountry *)

Module CountryViews.
Record t : Type := mk {
  totalViews : Z;
  avgViews : JsNum.Num;
  videoCount : Z
}.
End CountryViews.

(** [rows.reduce((sum, video) => sum + video.views, 0)] *)
Definition sumViews (rows : list Row) : Z :=
  fold_left (fun sum video => sum + views video) rows 0.

Definition getViewsByCountry (videoData : VideoData) : JsObj.t CountryViews.t :=
  fold_left
    (fun result country =>
       let rows := countryVideos videoData country in
       let totalViews := sumViews rows in
       let avgViews := JsNum.div totalViews (Z.of_nat (length rows)) in
       JsObj.set result country
         (CountryViews.mk totalViews avgViews (Z.of_nat (length rows))))
    (JsObj.keys videoData) [].

(** *** getViewsVsLikes *)

Module Filters.
(** A bound is [Some q] when the property is a finite number and [None]
    otherwise ([Number.isFinite] fails on undefined, NaN, infinities and
    values that are not numbers). *)
Record t : Type := mk {
  minViews : option Q;
  maxViews : option Q;
  minLikes : option Q;
  maxLikes : option Q
}.
End Filters.

Module Point.
Record t : Type := mk {
  views : Z;
  likes : Z;
  title : option string;
  country : string;
  category : string
}.
End Point.

(** [x >= min], with [min] 0 when the bound is absent. *)
Definition atLeast (x : Z) (bound : option Q) : bool :=
  Qle_bool (default 0%Q bound) (inject_Z x).

(** [x <= max], with [max] Infinity when the bound is absent. *)
Definition atMost (x : Z) (bound : option Q) : bool :=
  match bound with
  | Some q => Qle_bool (inject_Z x) q
  | None => true
  end.

Section ViewsVsLikes.

(** [sort(() => 0.5 - Math.random())]: the comparator answers at random,
    so the order the engine leaves the rows in is a parameter. *)
Variable shuffle : list Row -> list Row.

Definition getViewsVsLikes (videoData : VideoData) (sampleSize : Z)
    (selectedCountry : string) (filters : Filters.t) : list Point.t :=
  let videos := videosToProcess videoData "all" selectedCountry in
  let sampled :=
    JsArray.slice0 sampleSize
      (shuffle
         (List.filter
            (fun video => atLeast (likes video) (Filters.minLikes filters)
                          && atMost (likes video) (Filters.maxLikes filters))
            (List.filter
               (fun video => atLeast (views video) (Filters.minViews filters)
                             && atMost (views video) (Filters.maxViews filters))
               (List.filter
                  (fun video => (0 <? views video) && (0 <? likes video))
                  videos)))) in
  map (fun video =>
         Point.mk (views video) (likes video) (props video !! "title")
           (country video) (category_name video))
    sampled.

End ViewsVsLikes.

(** *** getHeatmapData *)

Module HeatCell.
Record t : Type := mk {
  country : string;
  category : string;
  value : Q;
  count : Z;
  totalVideos : Z
}.
End HeatCell.

Module Heatmap.
Record t : Type := mk {
  data : list HeatCell.t;
  categories : list string;
  countries : list string
}.
End Heatmap.

(** The categories of all rows, as the [Set] collects them. *)
Definition collectCategories (videos : list Row) : list string :=
  fold_left
    (fun allCategories video =>
       if truthy (category_name video)
       then JsArray.setAdd allCategories (category_name video)
       else allCategories)
    videos [].

(** [categoryCounts[name] = (categoryCounts[name] || 0) + 1] over the rows
    of one country. *)
Definition countCategories (videos : list Row) : gmap string Z :=
  fold_left
    (fun categoryCounts video =>
       if truthy (category_name video)
       then <[category_name video :=
                default 0 (categoryCounts !! category_name video) + 1]>
              categoryCounts
       else categoryCounts)
    videos ∅.

(** [totalVideos > 0 ? (count / totalVideos) * 100 : 0] *)
Definition percentage (count totalVideos : Z) : Q :=
  if 0 <? totalVideos
  then (inject_Z count / inject_Z totalVideos * 100)%Q
  else 0%Q.

Definition heatmapCells (videoData : VideoData) (categories : list string)
    (country : string) : list HeatCell.t :=
  let videos := countryVideos videoData country in
  let categoryCounts := countCategories videos in
  map (fun category =>
         let count := default 0 (categoryCounts !! category) in
         let totalVideos := Z.of_nat (length videos) in
         HeatCell.mk country category (percentage count totalVideos)
           count totalVideos)
    categories.

(** Nothing in the [try] block throws, so the [catch] branch has no
    counterpart. *)
Definition getHeatmapData (videoData : VideoData) : Heatmap.t :=
  let categories := JsArray.sortStrings (collectCategories (allVideos videoData)) in
  let countries := JsObj.keys videoData in
  Heatmap.mk (flat_map (heatmapCells videoData categories) countries)
    categories countries.

(** *** getPublishingTimingData *)

Module VideoRef.
Record t : Type := mk {
  title : option string;
  views : Z;
  country : string
}.
End VideoRef.

Module Slot.
Record t : Type := mk {
  count : Z;
  totalViews : Z;
  totalLikes : Z;
  totalComments : Z;
  videos : list VideoRef.t
}.
Definition empty : t := mk 0 0 0 0 [].
End Slot.

Module TimingCell.
Record t : Type := mk {
  day : nat;
  dayName : string;
  hour : nat;
  count : Z;
  avgViews : Q;
  avgLikes : Q;
  avgComments : Q;
  totalViews : Z;
  successRate : Q;
  videos : list VideoRef.t
}.
End TimingCell.

Module Timing.
Record t : Type := mk {
  data : list TimingCell.t;
  days : list string;
  selectedCountry : string
}.
End Timing.

Definition daysOfWeek : list string :=
  ["Sunday"; "Monday"; "Tuesday"; "Wednesday"; "Thursday"; "Friday"; "Saturday"].

(** The day of the week and the hour of a time value; [getDay()] and
    [getHours()] of a valid date are those of its local time. *)
Definition getDay (t : Z) : Z := (day t + 4) mod 7.
Definition getHours (t : Z) : Z := (t / 3600000) mod 24.

(** The 7x24 grid of empty slots. *)
Definition emptyGrid : list (list Slot.t) := replicate 7 (replicate 24 Slot.empty).

(** [timingData[day][hour]] *)
Definition slotAt (timingData : list (list Slot.t)) (day hour : nat) : Slot.t :=
  default Slot.empty (timingData !! day ≫= (fun row => row !! hour)).

Definition addVideo (video : Row) (slot : Slot.t) : Slot.t :=
  Slot.mk (Slot.count slot + 1)
    (Slot.totalViews slot + views video)
    (Slot.totalLikes slot + likes video)
    (Slot.totalComments slot + comment_count video)
    (Slot.videos slot
       ++ [VideoRef.mk (props video !! "title") (views video) (country video)]).

(** [total / count] when [count > 0], else 0. *)
Definition average (total count : Z) : Q :=
  if 0 <? count then (inject_Z total / inject_Z count)%Q else 0%Q.

Definition Qlt_bool (x y : Q) : bool := negb (Qle_bool y x).

(** [Math.min(100, x)] *)
Definition capAt100 (x : Q) : Q := if Qlt_bool x 100 then x else 100%Q.

Definition successRateOf (slot : Slot.t) (overallAvgViews : Q) : Q :=
  if (0 <? Slot.count slot) && Qlt_bool 0 overallAvgViews
  then capAt100 (average (Slot.totalViews slot) (Slot.count slot)
                 / overallAvgViews * 100)%Q
  else 0%Q.

(** The (day, hour) pairs in the order of the two nested loops. *)
Definition gridIndices : list (nat * nat) :=
  flat_map (fun day => map (fun hour => (day, hour)) (seq 0 24)) (seq 0 7).

Section PublishingTiming.
Context {zone : TimeZone}.

(** [new Date(text)]: how a timestamp string is read is left to the
    engine, so the reader is a parameter. *)
Variable Date_parse : string -> Date.

(** The body of [videosToProcess.forEach]. *)
Definition timingStep (timingData : list (list Slot.t)) (video : Row)
  : list (list Slot.t) :=
  match props video !! "publish_time" with
  | Some publish_time =>
      if truthy publish_time then
        match Date_parse publish_time with
        | DateAt t =>
            let day := getDay (localTime t) in
            let hour := getHours (localTime t) in
            if (0 <=? day) && (day <=? 6) && (0 <=? hour) && (hour <=? 23)
            then alter (alter (addVideo video) (Z.to_nat hour))
                   (Z.to_nat day) timingData
            else timingData
        | InvalidDate => timingData
        end
      else timingData
  | None => timingData
  end.

Definition fillGrid (videos : list Row) : list (list Slot.t) :=
  fold_left timingStep videos emptyGrid.

(** The sums over the slots that hold at least one video. *)
Definition overallTotals (timingData : list (list Slot.t)) : Z * Z :=
  fold_left
    (fun '(totalViews, totalVideos) '(day, hour) =>
       let slot := slotAt timingData day hour in
       if 0 <? Slot.count slot
       then (totalViews + Slot.totalViews slot, totalVideos + Slot.count slot)
       else (totalViews, totalVideos))
    gridIndices (0, 0).

Definition timingCell (timingData : list (list Slot.t)) (overallAvgViews : Q)
    (day hour : nat) : TimingCell.t :=
  let slot := slotAt timingData day hour in
  TimingCell.mk day (default "undefined" (daysOfWeek !! day)) hour
    (Slot.count slot)
    (average (Slot.totalViews slot) (Slot.count slot))
    (average (Slot.totalLikes slot) (Slot.count slot))
    (average (Slot.totalComments slot) (Slot.count slot))
    (Slot.totalViews slot)
    (successRateOf slot overallAvgViews)
    (Slot.videos slot).

(** The display name of the selection and the largest rate, which are
    computed from the fields below, are left out of the result. *)
Definition getPublishingTimingData (videoData : VideoData)
    (selectedCountry : string) : Timing.t :=
  let videos := videosToProcess videoData "global" selectedCountry in
  let timingData := fillGrid videos in
  let '(totalViews, totalVideos) := overallTotals timingData in
  let overallAvgViews := average totalViews totalVideos in
  Timing.mk
    (map (fun '(day, hour) => timingCell timingData overallAvgViews day hour)
       gridIndices)
    daysOfWeek selectedCountry.

End PublishingTiming.

(** *** Tag cleaning *)

Definition nonePatterns : list string :=
  ["none"; "[none]"; "n/a"; "na"; "null"; "undefined";
   "no tag"; "no tags"; "notag"; "notags";
   "empty"; "blank"; "-"; "_"; ".";
   "[n/a]"; "[na]"; "[null]"; "[empty]"; "[blank]"].

(** [tags.split('|').map(tag => tag.replace(quotes).trim().toLowerCase())] *)
Definition rawTags (tags : string) : list string :=
  map (fun tag => toLowerCase (trim (removeQuotes tag))) (split "|" tags).

(** The filter on cleaned tags. The three copies in the source differ in
    the length bound and in whether "none" as a word is rejected. *)
Definition keepTag (maxLength : nat) (noneWords : bool) (tag : string) : bool :=
  if negb (truthy tag) || (String.length tag <=? 2)%nat
     || (maxLength <=? String.length tag)%nat then false
  else if JsArray.includes nonePatterns tag then false
  else if startsWith tag "[" && endsWith tag "]"
          && JsArray.includes nonePatterns (sliceInner tag) then false
  else if noneWords && includes tag "none"
          && (String.eqb tag "none" || startsWith tag "none "
              || endsWith tag " none" || includes tag " none ") then false
  else true.

(** [videoTags] of [getTagEvolutionData] and [getTagRacingData]. *)
Definition videoTags (tags : string) : list string :=
  take 8 (List.filter (keepTag 30 true) (rawTags tags)).

(** [videoTags] of [getTagFlowData]. *)
Definition flowTags (tags : string) : list string :=
  List.filter (keepTag 25 false) (rawTags tags).

(** *** getTagRacingData *)

Module PeriodStats.
Record t : Type := mk {
  count : Z;
  totalViews : Z;
  totalLikes : Z
}.
End PeriodStats.

Module RacingTag.
Record t : Type := mk {
  tag : string;
  count : Z;
  totalViews : Z;
  totalLikes : Z
}.
End RacingTag.

Module RacingPeriod.
Record t : Type := mk {
  period : string;
  tags : list RacingTag.t
}.
End RacingPeriod.

Module Racing.
(** The [stats] of the result are the lengths of [tags] and [periods]. *)
Record t : Type := mk {
  racingData : list RacingPeriod.t;
  tags : list string;
  periods : list string
}.
End Racing.

(** What [video.trending_date_parsed] reads: nothing truthy, a text copied
    from a header of that name, or a [Date] object. *)
Inductive DateProp : Type :=
| FalsyDate
| TextDate (s : string)
| ObjectDate (d : Date).

Definition trendingDateParsed (video : Row) : DateProp :=
  match trending_date_parsed video with
  | Some (Some d) => ObjectDate d
  | Some None => FalsyDate
  | None =>
      match props video !! "trending_date_parsed" with
      | Some s => if truthy s then TextDate s else FalsyDate
      | None => FalsyDate
      end
  end.

(** [Math.floor((d.getTime() - new Date(d.getFullYear(), 0, 1).getTime())
    / (7 * 24 * 60 * 60 * 1000))]; [None] is NaN. *)
Definition weekNumber {zone : TimeZone} (trendingDate : Date) : option Z :=
  match trendingDate with
  | DateAt t =>
      match newDate (Some (getFullYear (localTime t))) (Some 0) (Some 1) with
      | DateAt start => Some ((t - start) / msPerWeek)
      | InvalidDate => None
      end
  | InvalidDate => None
  end.

(** [`Week ${weekNumber + 1}`] *)
Definition periodKey {zone : TimeZone} (trendingDate : Date) : string :=
  "Week " +:+ match weekNumber trendingDate with
              | Some n => pretty (n + 1)
              | None => "NaN"
              end.

(** A [forEach] whose callback may throw: [None] is the exception. *)
Fixpoint forEachM {A S : Type} (f : S -> A -> option S) (l : list A) (s : S)
  : option S :=
  match l with
  | [] => Some s
  | x :: rest =>
      match f s x with
      | Some s' => forEachM f rest s'
      | None => None
      end
  end.

Abbreviation TagPeriodData := (JsObj.t (JsObj.t PeriodStats.t)).

(** The body of [videoTags.forEach] in [getTagRacingData]. *)
Definition racingTagStep (video : Row) (period : string)
    (tagPeriodData : TagPeriodData) (tag : string) : TagPeriodData :=
  let periodData := default [] (JsObj.get tagPeriodData tag) in
  let old := default (PeriodStats.mk 0 0 0) (JsObj.get periodData period) in
  JsObj.set tagPeriodData tag
    (JsObj.set periodData period
       (PeriodStats.mk (PeriodStats.count old + 1)
          (PeriodStats.totalViews old + views video)
          (PeriodStats.totalLikes old + likes video))).

(** The body of [videosToProcess.forEach] in [getTagRacingData]. A text
    in place of the date has no [getTime] method: the call throws. *)
Definition racingStep {zone : TimeZone} (state : TagPeriodData * list string)
    (video : Row) : option (TagPeriodData * list string) :=
  let '(tagPeriodData, periods) := state in
  match props video !! "tags" with
  | Some tags =>
      if truthy tags then
        match trendingDateParsed video with
        | FalsyDate => Some state
        | TextDate _ => None
        | ObjectDate trendingDate =>
            let period := periodKey trendingDate in
            Some (fold_left (racingTagStep video period) (videoTags tags)
                    tagPeriodData,
                  JsArray.setAdd periods period)
        end
      else Some state
  | None => Some state
  end.

(** [Object.values(periodData).reduce((sum, data) => sum + data.count, 0)] *)
Definition totalCount (periodData : JsObj.t PeriodStats.t) : Z :=
  fold_left (fun sum data => sum + PeriodStats.count data)
    (JsObj.values periodData) 0.

(** The [switch] on [filterType]: (tagLimit, minOccurrences). *)
Definition racingPreset (filterType : string) : Z * Z :=
  if String.eqb filterType "top-tags" then (10, 10)
  else if String.eqb filterType "trending" then (8, 15)
  else (15, 5).

Definition significantTags (tagPeriodData : TagPeriodData)
    (tagLimit minOccurrences : Z) : list string :=
  map fst
    (JsArray.slice0 tagLimit
       (JsArray.sort (fun a b => totalCount (snd b) - totalCount (snd a))
          (List.filter (fun entry => minOccurrences <=? totalCount (snd entry))
             tagPeriodData))).

Definition racingEntry (tagPeriodData : TagPeriodData) (period tag : string)
  : RacingTag.t :=
  let stats := JsObj.get tagPeriodData tag ≫= (fun data => JsObj.get data period) in
  RacingTag.mk tag
    (from_option PeriodStats.count 0 stats)
    (from_option PeriodStats.totalViews 0 stats)
    (from_option PeriodStats.totalLikes 0 stats).

Definition getTagRacingData {zone : TimeZone} (videoData : VideoData)
    (filterType selectedCountry : string) : Racing.t :=
  let videos := videosToProcess videoData "global" selectedCountry in
  match forEachM racingStep videos ([], []) with
  | Some (tagPeriodData, periods) =>
      let sortedPeriods := JsArray.sortStrings periods in
      let '(tagLimit, minOccurrences) := racingPreset filterType in
      let tags := significantTags tagPeriodData tagLimit minOccurrences in
      let racingData :=
        map (fun period =>
               RacingPeriod.mk period
                 (JsArray.sort
                    (fun a b => RacingTag.count b - RacingTag.count a)
                    (map (racingEntry tagPeriodData period) tags)))
          sortedPeriods in
      Racing.mk racingData tags sortedPeriods
  | None => Racing.mk [] [] []
  end.

(** *** getTagFlowData *)

Module Pair.
Record t : Type := mk {
  tag : string;
  category : string;
  count : Z;
  totalViews : Z;
  totalLikes : Z
}.
End Pair.

Module TagStats.
Record t : Type := mk {
  count : Z;
  totalViews : Z;
  categories : list string
}.
End TagStats.

Module CategoryStats.
Record t : Type := mk {
  count : Z;
  totalViews : Z;
  tags : list string
}.
End CategoryStats.

Inductive NodeType : Type := TagNode | CategoryNode.

Module Node.
(** [links] is the [categories] of a tag node and the [tags] of a
    category node: the size of the set of its partners. *)
Record t : Type := mk {
  id : string;
  name : string;
  type : NodeType;
  count : Z;
  totalViews : Z;
  avgViews : Z;
  links : nat
}.
End Node.

Module Link.
Record t : Type := mk {
  source : nat;
  target : nat;
  value : Z;
  tag : string;
  category : string;
  totalViews : Z;
  totalLikes : Z;
  avgViews : Z;
  avgLikes : Z
}.
End Link.

Module Flow.
(** The [stats] of the result are the lengths of the lists below and the
    threshold of the preset. *)
Record t : Type := mk {
  nodes : list Node.t;
  links : list Link.t;
  selectedCountry : string
}.
End Flow.

(** [tagCategoryPairs]. Its keys join the tag and the category with a
    separator that holds code units above 255, so a key determines the
    pair and is never an array index: the object is a list of pairs in
    insertion order. *)
Abbreviation PairTable := (list (string * string * Pair.t)).

Definition samePair (key key' : string * string) : bool :=
  String.eqb (fst key) (fst key') && String.eqb (snd key) (snd key').

Fixpoint pairGet (pairs : PairTable) (key : string * string) : option Pair.t :=
  match pairs with
  | [] => None
  | (key', entry) :: rest => if samePair key' key then Some entry else pairGet rest key
  end.

Fixpoint pairSet (pairs : PairTable) (key : string * string) (entry : Pair.t)
  : PairTable :=
  match pairs with
  | [] => [(key, entry)]
  | (key', entry') :: rest =>
      if samePair key' key then (key, entry) :: rest
      else (key', entry') :: pairSet rest key entry
  end.

Module FlowState.
Record t : Type := mk {
  tagCategoryPairs : PairTable;
  tagStats : JsObj.t TagStats.t;
  categoryStats : JsObj.t CategoryStats.t
}.
End FlowState.

(** The three tables after the body of [videoTags.forEach] in
    [getTagFlowData], for a tag and a category that name no inherited
    member. *)
Definition flowTagUpdate (category : string) (views likes : Z)
    (state : FlowState.t) (tag : string) : FlowState.t :=
  let pairs := FlowState.tagCategoryPairs state in
  let entry := default (Pair.mk tag category 0 0 0) (pairGet pairs (tag, category)) in
  let tagInfo :=
    default (TagStats.mk 0 0 []) (JsObj.get (FlowState.tagStats state) tag) in
  let categoryInfo :=
    default (CategoryStats.mk 0 0 [])
      (JsObj.get (FlowState.categoryStats state) category) in
  FlowState.mk
    (pairSet pairs (tag, category)
       (Pair.mk (Pair.tag entry) (Pair.category entry) (Pair.count entry + 1)
          (Pair.totalViews entry + views) (Pair.totalLikes entry + likes)))
    (JsObj.set (FlowState.tagStats state) tag
       (TagStats.mk (TagStats.count tagInfo + 1)
          (TagStats.totalViews tagInfo + views)
          (JsArray.setAdd (TagStats.categories tagInfo) category)))
    (JsObj.set (FlowState.categoryStats state) category
       (CategoryStats.mk (CategoryStats.count categoryInfo + 1)
          (CategoryStats.totalViews categoryInfo + views)
          (JsArray.setAdd (CategoryStats.tags categoryInfo) tag))).

(** The body of [videoTags.forEach] in [getTagFlowData]. For a tag that
    names an inherited member, [tagStats[tag]] is that member: no entry
    is made, and [add] is called on the [categories] that the member does
    not have, which throws; so does a category that names one, at
    [categoryStats[category].tags.add]. [None] is the exception. *)
Definition flowTagStep (category : string) (views likes : Z)
    (state : FlowState.t) (tag : string) : option FlowState.t :=
  if JsObj.inherited tag || JsObj.inherited category then None
  else Some (flowTagUpdate category views likes state tag).

(** The body of [videosToProcess.forEach] in [getTagFlowData]; the views
    and likes of a row are numbers already, which [parseInt] returns. *)
Definition flowStep (state : FlowState.t) (video : Row) : option FlowState.t :=
  match props video !! "tags" with
  | Some tags =>
      if truthy tags && truthy (category_name video) then
        forEachM
          (flowTagStep (trim (category_name video)) (views video) (likes video))
          (flowTags tags) state
      else Some state
  | None => Some state
  end.

(** The [switch] on [filterType]: (minFlowValue, tagLimit, categoryLimit). *)
Definition flowPreset (filterType : string) : Z * Z * Z :=
  if String.eqb filterType "focused" then (8, 12, 6)
  else if String.eqb filterType "detailed" then (3, 20, 8)
  else (5, 15, 7).

Definition topTags (tagStats : JsObj.t TagStats.t) (tagLimit : Z) : list string :=
  map fst
    (JsArray.slice0 tagLimit
       (JsArray.sort (fun a b => TagStats.count (snd b) - TagStats.count (snd a))
          tagStats)).

Definition topCategories (categoryStats : JsObj.t CategoryStats.t)
    (categoryLimit : Z) : list string :=
  map fst
    (JsArray.slice0 categoryLimit
       (JsArray.sort
          (fun a b => CategoryStats.count (snd b) - CategoryStats.count (snd a))
          categoryStats)).

Definition significantFlows (pairs : PairTable) (minFlowValue : Z)
    (tags categories : list string) : list Pair.t :=
  List.filter
    (fun entry => (minFlowValue <=? Pair.count entry)
                  && JsArray.includes tags (Pair.tag entry)
                  && JsArray.includes categories (Pair.category entry))
    (map snd pairs).

Definition tagNode (tagStats : JsObj.t TagStats.t) (index : nat) (tag : string)
  : Node.t :=
  let tagInfo := default (TagStats.mk 0 0 []) (JsObj.get tagStats tag) in
  Node.mk ("tag_" +:+ pretty index) tag TagNode
    (TagStats.count tagInfo) (TagStats.totalViews tagInfo)
    (JsNum.roundDiv (TagStats.totalViews tagInfo) (TagStats.count tagInfo))
    (length (TagStats.categories tagInfo)).

Definition categoryNode (categoryStats : JsObj.t CategoryStats.t) (index : nat)
    (category : string) : Node.t :=
  let categoryInfo :=
    default (CategoryStats.mk 0 0 []) (JsObj.get categoryStats category) in
  Node.mk ("category_" +:+ pretty index) category CategoryNode
    (CategoryStats.count categoryInfo) (CategoryStats.totalViews categoryInfo)
    (JsNum.roundDiv (CategoryStats.totalViews categoryInfo)
       (CategoryStats.count categoryInfo))
    (length (CategoryStats.tags categoryInfo)).

(** [nodeIndex]: the two [forEach] loops that number the nodes. *)
Fixpoint indexNodes (prefix : string) (names : list string) (index : nat)
    (nodeIndex : gmap string nat) : gmap string nat :=
  match names with
  | [] => nodeIndex
  | name :: rest =>
      indexNodes prefix rest (S index) (<[prefix +:+ name := index]> nodeIndex)
  end.

Definition flowLink (nodeIndex : gmap string nat) (flow : Pair.t) : list Link.t :=
  match nodeIndex !! ("tag_" +:+ Pair.tag flow),
        nodeIndex !! ("category_" +:+ Pair.category flow) with
  | Some sourceIndex, Some targetIndex =>
      [Link.mk sourceIndex targetIndex (Pair.count flow)
         (Pair.tag flow) (Pair.category flow)
         (Pair.totalViews flow) (Pair.totalLikes flow)
         (JsNum.roundDiv (Pair.totalViews flow) (Pair.count flow))
         (JsNum.roundDiv (Pair.totalLikes flow) (Pair.count flow))]
  | _, _ => []
  end.

(** The result for the tables that the loop has filled. *)
Definition flowOf (state : FlowState.t) (selectedCountry filterType : string)
  : Flow.t :=
  let '(minFlowValue, tagLimit, categoryLimit) := flowPreset filterType in
  let tags := topTags (FlowState.tagStats state) tagLimit in
  let categories := topCategories (FlowState.categoryStats state) categoryLimit in
  let flows :=
    significantFlows (FlowState.tagCategoryPairs state) minFlowValue
      tags categories in
  let nodeIndex :=
    indexNodes "category_" categories (length tags)
      (indexNodes "tag_" tags 0 ∅) in
  Flow.mk
    (imap (tagNode (FlowState.tagStats state)) tags
     ++ imap (categoryNode (FlowState.categoryStats state)) categories)
    (flat_map (flowLink nodeIndex) flows)
    selectedCountry.

(** The [catch] branch returns the result without nodes and links. *)
Definition getTagFlowData (videoData : VideoData)
    (selectedCountry filterType : string) : Flow.t :=
  let videos := videosToProcess videoData "global" selectedCountry in
  match forEachM flowStep videos (FlowState.mk [] [] []) with
  | Some state => flowOf state selectedCountry filterType
  | None => Flow.mk [] [] selectedCountry
  end.

End DataLoader.

(** ** The other methods of the class *)

Module Aggregation.
Import JsString JsDate DataLoader.

(** *** Category files *)

Module Item.
(** An element of [data.items]. [snippet] is [item.snippet.title]; it is
    [None] for an item without a [snippet] object, on which reading
    [title] throws. *)
Record t : Type := mk {
  id : string;
  snippet : option string
}.
End Item.

(** [processCategoryData(data)], from [data.items]; [None] is the
    exception of an item without snippet. *)
Definition processCategoryData (items : option (list Item.t))
  : option (gmap string string) :=
  match items with
  | Some items =>
      forEachM
        (fun categoryMap item =>
           (fun title => <[Item.id item := title]> categoryMap)
             <$> Item.snippet item)
        items ∅
  | None => Some ∅
  end.

(** [loadCategories] for the files that are fetched and read as JSON, in
    the order in which they complete; a file on which
    [processCategoryData] throws leaves [this.categories] as it is. *)
Definition loadCategories (fetched : list (string * option (list Item.t)))
    (categories : Categories) : Categories :=
  fold_left
    (fun categories '(country, items) =>
       match processCategoryData items with
       | Some categoryMap => <[country := categoryMap]> categories
       | None => categories
       end)
    fetched categories.

(** *** getCategoryDistribution *)

(** [categoryCount[category] = (categoryCount[category] || 0) + 1] *)
Definition countCategory (categoryCount : JsObj.t Z) (video : Row) : JsObj.t Z :=
  JsObj.set categoryCount (category_name video)
    (default 0 (JsObj.get categoryCount (category_name video)) + 1).

Definition getCategoryDistribution (videoData : VideoData) : JsObj.t Z :=
  fold_left countCategory (allVideos videoData) [].

Definition getCategoryDistributionByCountry (videoData : VideoData)
    (country : string) : JsObj.t Z :=
  if String.eqb country "all" then getCategoryDistribution videoData
  else fold_left countCategory (countryVideos videoData country) [].

(** *** getAvailableCountriesLegacy *)

(** [this.videoData[country] && this.videoData[country].length > 0] *)
Definition hasVideos (videoData : VideoData) (country : string) : bool :=
  match JsObj.get videoData country with
  | Some rows => (0 <? length rows)%nat
  | None => false
  end.

Definition getAvailableCountriesLegacy (videoData : VideoData) : list string :=
  JsArray.sortStrings (List.filter (hasVideos videoData) (JsObj.keys videoData)).

(** *** getTimelineData *)

Definition digitChar (d : Z) : ascii := ascii_of_N (Z.to_N (48 + d)).

(** The last [width] decimal digits of a number that is not negative. *)
Fixpoint padStart (width : nat) (n : Z) : string :=
  match width with
  | O => EmptyString
  | S w => padStart w (n / 10) +:+ String (digitChar (n mod 10)) EmptyString
  end.

(** The year of the date-time format: four digits from 0 to 9999, and a
    sign with six digits otherwise. *)
Definition yearString (y : Z) : string :=
  if (0 <=? y) && (y <=? 9999) then padStart 4 y
  else (if y <? 0 then "-" else "+") +:+ padStart 6 (Z.abs y).

Definition getMinutes (t : Z) : Z := (t / 60000) mod 60.
Definition getSeconds (t : Z) : Z := (t / 1000) mod 60.
Definition getMilliseconds (t : Z) : Z := t mod 1000.

(** [toISOString()] of a valid date: YYYY-MM-DDTHH:mm:ss.sssZ. *)
Definition toISOString (t : Z) : string :=
  yearString (getFullYear t) +:+ "-" +:+ padStart 2 (getMonth t + 1)
  +:+ "-" +:+ padStart 2 (getDate t)
  +:+ "T" +:+ padStart 2 (getHours t) +:+ ":" +:+ padStart 2 (getMinutes t)
  +:+ ":" +:+ padStart 2 (getSeconds t) +:+ "." +:+ padStart 3 (getMilliseconds t)
  +:+ "Z".

(** [date.toISOString().split('T')[0]] *)
Definition dateKey (t : Z) : string :=
  default EmptyString (head (split "T" (toISOString t))).

Module TimelineEntry.
(** [date] is the time value of the [Date] object of the entry, which is
    valid: [toISOString] has returned on it. *)
Record t : Type := mk {
  date : Z;
  count : Z;
  totalViews : Z
}.
End TimelineEntry.

(** The body of the [forEach] of [getTimelineData]; [None] is an
    exception: [toISOString] throws on an invalid date, and a text in
    place of the date has no such method. *)
Definition timelineStep (timelineData : JsObj.t TimelineEntry.t) (video : Row)
  : option (JsObj.t TimelineEntry.t) :=
  match trendingDateParsed video with
  | FalsyDate => Some timelineData
  | TextDate _ => None
  | ObjectDate InvalidDate => None
  | ObjectDate (DateAt t) =>
      let key := dateKey t in
      let old :=
        default (TimelineEntry.mk t 0 0) (JsObj.get timelineData key) in
      Some (JsObj.set timelineData key
              (TimelineEntry.mk (TimelineEntry.date old)
                 (TimelineEntry.count old + 1)
                 (TimelineEntry.totalViews old + views video)))
  end.

(** The loop and the final sort, which the two methods share. *)
Definition timelineOf (videos : list Row) : option (list TimelineEntry.t) :=
  (fun timelineData =>
     JsArray.sort (fun a b => TimelineEntry.date a - TimelineEntry.date b)
       (JsObj.values timelineData))
    <$> forEachM timelineStep videos [].

Definition getTimelineData (videoData : VideoData) : option (list TimelineEntry.t) :=
  timelineOf (allVideos videoData).

Definition getTimelineDataByCountry (videoData : VideoData) (country : string)
  : option (list TimelineEntry.t) :=
  if String.eqb country "all" then getTimelineData videoData
  else timelineOf (countryVideos videoData country).

(** *** Engagement *)

Module Engagement.
Record t : Type := mk {
  Likes : Z;
  Dislikes : Z;
  Comments : Z
}.
End Engagement.

(** [rows.reduce((sum, v) => sum + v.field, 0)] *)
Definition sumOf (field : Row -> Z) (rows : list Row) : Z :=
  fold_left (fun sum v => sum + field v) rows 0.

Definition engagementOf (videos : list Row) : Engagement.t :=
  Engagement.mk (sumOf likes videos) (sumOf dislikes videos)
    (sumOf comment_count videos).

Definition getEngagementMetrics (videoData : VideoData) : Engagement.t :=
  engagementOf (allVideos videoData).

Definition getFilteredEngagementMetrics (videoData : VideoData)
    (country category : string) : Engagement.t :=
  let filteredVideos := allVideos videoData in
  let filteredVideos :=
    if negb (String.eqb country "all")
    then List.filter (fun video => String.eqb (DataLoader.country video) country)
           filteredVideos
    else filteredVideos in
  let filteredVideos :=
    if negb (String.eqb category "all")
    then List.filter (fun video => String.eqb (category_name video) category)
           filteredVideos
    else filteredVideos in
  engagementOf filteredVideos.

Definition getAvailableCategories (videoData : VideoData) : list string :=
  JsArray.sortStrings (collectCategories (allVideos videoData)).

(** *** Top videos *)

Module TopVideo.
Record t : Type := mk {
  title : string;
  views : Z;
  likes : Z;
  comments : Z;
  channel : option string;
  country : string;
  category : string
}.
End TopVideo.

(** [title.length > 30 ? title.substring(0, 30) + '...' : title] *)
Definition shortTitle (title : string) : string :=
  if (30 <? String.length title)%nat
  then String.substring 0 30 title +:+ "..."
  else title.

(** [None] is the exception of reading [length] on the title of a row
    that has none. *)
Definition getTopVideosByViews (videoData : VideoData) (limit : Z)
  : option (list TopVideo.t) :=
  mapM
    (fun video =>
       (fun title =>
          TopVideo.mk (shortTitle title) (views video) (likes video)
            (comment_count video) (props video !! "channel_title")
            (country video) (category_name video))
         <$> props video !! "title")
    (JsArray.slice0 limit
       (JsArray.sort (fun a b => views b - views a) (allVideos videoData))).

Module RankedVideo.
Record t : Type := mk {
  id : option string;
  title : option string;
  views : Z;
  likes : Z;
  comments : Z;
  country : string;
  category : string;
  ratio : Q
}.
End RankedVideo.

(** [video.video_id || video.title] *)
Definition videoId (video : Row) : option string :=
  match props video !! "video_id" with
  | Some video_id => if truthy video_id then Some video_id else props video !! "title"
  | None => props video !! "title"
  end.

Definition getTopVideosByViewsFiltered (videoData : VideoData) (limit : Z)
    (selectedCountry : string) : list RankedVideo.t :=
  let videos := allVideos videoData in
  let videos :=
    if negb (String.eqb selectedCountry "all")
    then List.filter (fun v => String.eqb (country v) selectedCountry) videos
    else videos in
  map (fun video =>
         RankedVideo.mk (videoId video) (props video !! "title")
           (views video) (likes video) (comment_count video)
           (country video) (category_name video)
           (if 0 <? views video
            then (inject_Z (likes video) / inject_Z (views video))%Q
            else 0%Q))
    (JsArray.slice0 limit
       (JsArray.sort (fun a b => views b - views a)
          (List.filter (fun v => 0 <? views v) videos))).

(** *** getCategoryEngagementByCountry *)

(** [v.category_name || 'Unknown'] *)
Definition categoryOrUnknown (v : Row) : string :=
  if truthy (category_name v) then category_name v else "Unknown".

Definition addEngagement (result : JsObj.t Engagement.t) (v : Row)
  : JsObj.t Engagement.t :=
  let cat := categoryOrUnknown v in
  let old := default (Engagement.mk 0 0 0) (JsObj.get result cat) in
  JsObj.set result cat
    (Engagement.mk (Engagement.Likes old + likes v)
       (Engagement.Dislikes old + dislikes v)
       (Engagement.Comments old + comment_count v)).

Definition getCategoryEngagementByCountry (videoData : VideoData)
    (country : string) : JsObj.t Engagement.t :=
  fold_left addEngagement (videosToProcess videoData "all" country) [].

(** *** Performance tables *)

Module Performance.
(** [name] is the [category] or the [country] of the entry. *)
Record t : Type := mk {
  name : string;
  totalViews : Z;
  totalLikes : Z;
  totalComments : Z;
  videoCount : Z;
  avgViews : JsNum.Num
}.
End Performance.

(** The entry of a list of rows that is not empty; [None] is null. *)
Definition performanceOf (name : string) (videos : list Row)
  : option Performance.t :=
  if (0 <? length videos)%nat then
    Some (Performance.mk name (sumOf views videos) (sumOf likes videos)
            (sumOf comment_count videos) (Z.of_nat (length videos))
            (JsNum.div (sumOf views videos) (Z.of_nat (length videos))))
  else None.

Definition byTotalViews (a b : Performance.t) : Z :=
  Performance.totalViews b - Performance.totalViews a.

Definition getCategoryPerformance (videoData : VideoData) : list Performance.t :=
  JsArray.sort byTotalViews
    (omap (fun category =>
             performanceOf category
               (List.filter (fun video => String.eqb (category_name video) category)
                  (allVideos videoData)))
       (getAvailableCategories videoData)).

Definition getCountryPerformance (videoData : VideoData) : list Performance.t :=
  JsArray.sort byTotalViews
    (omap (fun country => performanceOf country (countryVideos videoData country))
       (JsObj.keys videoData)).

Definition getCountryVideoCounts (videoData : VideoData) : JsObj.t Z :=
  fold_left
    (fun countryCounts country =>
       JsObj.set countryCounts country
         (Z.of_nat (length (countryVideos videoData country))))
    (JsObj.keys videoData) [].

(** *** Channels *)

(** [video.channel_title]: undefined for a row without that header. *)
Definition channel_title (video : Row) : option string :=
  props video !! "channel_title".

(** [s.add(x)] on a [Set] of values that may be undefined. *)
Definition addValue (s : list (option string)) (x : option string)
  : list (option string) :=
  if bool_decide (x ∈ s) then s else s ++ [x].

Definition getTotalChannelCount (videoData : VideoData) : nat :=
  length (fold_left (fun uniqueChannels video =>
                       addValue uniqueChannels (channel_title video))
            (allVideos videoData) []).

Module Channel.
(** [name] is the channel title of the first row of the channel. *)
Record t : Type := mk {
  name : option string;
  videoCount : Z;
  totalViews : Z;
  countries : list string
}.
End Channel.

(** The property key an optional title is used as. *)
Definition channelKey (channel : option string) : string :=
  default "undefined" channel.

(** The body of the loop of [getAllChannels]. For a title that names an
    inherited member, [channelData[channel]] is that member: no entry is
    made, and [add] is called on the [countries] that the member does
    not have, which throws; [None] is the exception. *)
Definition addChannel (channelData : JsObj.t Channel.t) (video : Row)
  : option (JsObj.t Channel.t) :=
  let channel := channel_title video in
  if JsObj.inherited (channelKey channel) then None
  else
    let old :=
      default (Channel.mk channel 0 0 [])
        (JsObj.get channelData (channelKey channel)) in
    Some (JsObj.set channelData (channelKey channel)
            (Channel.mk (Channel.name old) (Channel.videoCount old + 1)
               (Channel.totalViews old + views video)
               (JsArray.setAdd (Channel.countries old) (country video)))).

(** The four methods have no [try]: the exception of the loop is theirs. *)
Definition getAllChannels (videoData : VideoData) : option (list Channel.t) :=
  (fun channelData =>
     JsArray.sort (fun a b => Channel.totalViews b - Channel.totalViews a)
       (JsObj.values channelData))
    <$> forEachM addChannel (allVideos videoData) [].

Definition getTopChannels (videoData : VideoData) (limit : Z)
  : option (list Channel.t) :=
  JsArray.slice0 limit <$> getAllChannels videoData.

Definition getChannelsByCountry (videoData : VideoData) (country : string)
    (limit : Z) : option (list Channel.t) :=
  (fun allChannels =>
     JsArray.slice0 limit
       (List.filter
          (fun channel => JsArray.includes (Channel.countries channel) country)
          allChannels))
    <$> getAllChannels videoData.

Definition getChannelLeaderboard (videoData : VideoData) (limit : Z)
    (country : string) : option (list Channel.t) :=
  (fun channels =>
     let channels :=
       if negb (String.eqb country "all")
       then List.filter (fun ch => JsArray.includes (Channel.countries ch) country)
              channels
       else channels in
     JsArray.slice0 limit channels)
    <$> getAllChannels videoData.

(** *** getTagEvolutionData *)

Module DayStats.
Record t : Type := mk {
  count : Z;
  totalViews : Z;
  totalLikes : Z;
  videos : list VideoRef.t
}.
End DayStats.

Module TimelinePoint.
(** [date], which is [new Date(dateKey)], is left out. *)
Record t : Type := mk {
  dateKey : string;
  count : Z;
  totalViews : Z;
  totalLikes : Z;
  avgViews : Q
}.
End TimelinePoint.

Module TagTimeline.
Record t : Type := mk {
  tag : string;
  timeline : list TimelinePoint.t
}.
End TagTimeline.

Module Evolution.
(** [totalUsage] is [stats.totalUsage], and [None] in the result of the
    [catch] branch, whose [stats] is empty; the other statistics are
    computed from the fields below. *)
Record t : Type := mk {
  timelineData : list TagTimeline.t;
  tags : list string;
  dates : list string;
  totalUsage : option Z
}.
End Evolution.

Abbreviation TagTimelineData := (JsObj.t (JsObj.t DayStats.t)).

Module TagEvolution.

(** The body of [videoTags.forEach]. *)
Definition tagStep (video : Row) (key : string)
    (tagTimelineData : TagTimelineData) (tag : string) : TagTimelineData :=
  let timeData := default [] (JsObj.get tagTimelineData tag) in
  let old := default (DayStats.mk 0 0 0 []) (JsObj.get timeData key) in
  JsObj.set tagTimelineData tag
    (JsObj.set timeData key
       (DayStats.mk (DayStats.count old + 1)
          (DayStats.totalViews old + views video)
          (DayStats.totalLikes old + likes video)
          (DayStats.videos old
             ++ [VideoRef.mk (props video !! "title") (views video)
                   (country video)]))).

(** The body of the [forEach] over the rows; [None] is the exception of
    [toISOString]. *)
Definition step (state : TagTimelineData * list string) (video : Row)
  : option (TagTimelineData * list string) :=
  let '(tagTimelineData, allDates) := state in
  match props video !! "tags" with
  | Some tags =>
      if truthy tags then
        match trendingDateParsed video with
        | FalsyDate => Some state
        | TextDate _ => None
        | ObjectDate InvalidDate => None
        | ObjectDate (DateAt t) =>
            let key := dateKey t in
            Some (fold_left (tagStep video key) (videoTags tags) tagTimelineData,
                  JsArray.setAdd allDates key)
        end
      else Some state
  | None => Some state
  end.

(** [Object.values(timeData).reduce((sum, dayData) => sum + dayData.count, 0)] *)
Definition totalCount (timeData : JsObj.t DayStats.t) : Z :=
  fold_left (fun sum dayData => sum + DayStats.count dayData)
    (JsObj.values timeData) 0.

(** The [switch] on [filterType]: (tagLimit, minOccurrences). *)
Definition preset (filterType : string) : Z * Z :=
  if String.eqb filterType "top-tags" then (10, 10)
  else if String.eqb filterType "trending" then (8, 15)
  else (15, 5).

Definition significantTags (tagTimelineData : TagTimelineData)
    (tagLimit minOccurrences : Z) : list string :=
  map fst
    (JsArray.slice0 tagLimit
       (JsArray.sort (fun a b => totalCount (snd b) - totalCount (snd a))
          (List.filter (fun entry => minOccurrences <=? totalCount (snd entry))
             tagTimelineData))).

Definition point (tagTimelineData : TagTimelineData) (tag key : string)
  : TimelinePoint.t :=
  let dayData :=
    JsObj.get tagTimelineData tag ≫= (fun timeData => JsObj.get timeData key) in
  TimelinePoint.mk key
    (from_option DayStats.count 0 dayData)
    (from_option DayStats.totalViews 0 dayData)
    (from_option DayStats.totalLikes 0 dayData)
    (average (from_option DayStats.totalViews 0 dayData)
       (from_option DayStats.count 0 dayData)).

(** [timeline.reduce((tagSum, day) => tagSum + day.count, 0)], added up
    over the tags. *)
Definition totalTagUsage (timelineData : list TagTimeline.t) : Z :=
  fold_left
    (fun sum tagData =>
       sum + fold_left (fun tagSum day => tagSum + TimelinePoint.count day)
               (TagTimeline.timeline tagData) 0)
    timelineData 0.

End TagEvolution.

Definition getTagEvolutionData (videoData : VideoData) (filterType : string)
  : Evolution.t :=
  match forEachM TagEvolution.step (allVideos videoData) ([], []) with
  | Some (tagTimelineData, allDates) =>
      let '(tagLimit, minOccurrences) := TagEvolution.preset filterType in
      let significantTags :=
        TagEvolution.significantTags tagTimelineData tagLimit minOccurrences in
      let sortedDates := JsArray.sortStrings allDates in
      let timelineData :=
        map (fun tag =>
               TagTimeline.mk tag
                 (map (TagEvolution.point tagTimelineData tag) sortedDates))
          significantTags in
      Evolution.mk timelineData significantTags sortedDates
        (Some (TagEvolution.totalTagUsage timelineData))
  | None => Evolution.mk [] [] [] None
  end.

End Aggregation.

(** ** The application: the functions of the main script that prepare
    what the data loader is asked for *)

Module App.
Import JsString JsDate DataLoader Aggregation.

(** The swap of [getScatterFilters]: two bounds that are both finite
    numbers are put in order. *)
Definition ordered (lower upper : option Q) : option Q * option Q :=
  match lower, upper with
  | Some a, Some b => if Qlt_bool b a then (upper, lower) else (lower, upper)
  | _, _ => (lower, upper)
  end.

(** [getScatterFilters], from the four numbers read in the input fields:
    a field that is empty or holds no finite number gives no bound. *)
Definition getScatterFilters (typed : Filters.t) : Filters.t :=
  let '(minViews, maxViews) :=
    ordered (Filters.minViews typed) (Filters.maxViews typed) in
  let '(minLikes, maxLikes) :=
    ordered (Filters.minLikes typed) (Filters.maxLikes typed) in
  Filters.mk minViews maxViews minLikes maxLikes.

Section Scatter.
Variable shuffle : list Row -> list Row.

(** The data of the scatter plot, as [renderVisualization] and
    [updateScatterByCountry] ask for it. *)
Definition scatterData (videoData : VideoData) (selectedCountry : string)
    (typed : Filters.t) : list Point.t :=
  getViewsVsLikes shuffle videoData 300 selectedCountry (getScatterFilters typed).

End Scatter.

Module Stats.
Record t : Type := mk {
  totalVideos : Z;
  totalViews : Z;
  totalLikes : Z;
  countriesCount : Z;
  categoriesCount : Z;
  avgViewsPerVideo : JsNum.Num;
  avgLikesPerVideo : JsNum.Num
}.
End Stats.

(** [getStats] once the data is loaded. *)
Definition getStats (videoData : VideoData) : Stats.t :=
  let allVideos := allVideos videoData in
  let totalViews := sumOf views allVideos in
  let totalLikes := sumOf likes allVideos in
  let countries := JsObj.keys videoData in
  let categories :=
    fold_left JsArray.setAdd (map category_name allVideos) [] in
  Stats.mk (Z.of_nat (length allVideos)) totalViews totalLikes
    (Z.of_nat (length countries)) (Z.of_nat (length categories))
    (JsNum.div totalViews (Z.of_nat (length allVideos)))
    (JsNum.div totalLikes (Z.of_nat (length allVideos))).

End App.

(** ** The charts: the helper of js/visualizations.js that prepares the
    bars of the tag race from the data of [getTagRacingData] *)

Module Visualizations.
Import JsString DataLoader JsNum.

Module TagTotal.
Record t : Type := mk {
  tag : string;
  count : Z;
  totalViews : Z;
  totalLikes : Z;
  periods : Z
}.
End TagTotal.

Module AverageTag.
Record t : Type := mk {
  tag : string;
  count : Z;
  totalViews : Z;
  totalLikes : Z;
  avgViews : Num;
  avgLikes : Num
}.
End AverageTag.

(** [Math.round] of a quotient: the nearest integer, halves rounded up;
    NaN and the infinities are kept. *)
Definition round (x : Num) : Num :=
  match x with
  | Fin q => Fin (inject_Z (Qfloor (q + (1 # 2))))
  | _ => x
  end.

(** The body of [period.tags.forEach]. *)
Definition addTag (tagTotals : JsObj.t TagTotal.t) (tag : RacingTag.t)
  : JsObj.t TagTotal.t :=
  let old :=
    default (TagTotal.mk (RacingTag.tag tag) 0 0 0 0)
      (JsObj.get tagTotals (RacingTag.tag tag)) in
  JsObj.set tagTotals (RacingTag.tag tag)
    (TagTotal.mk (TagTotal.tag old)
       (TagTotal.count old + RacingTag.count tag)
       (TagTotal.totalViews old + RacingTag.totalViews tag)
       (TagTotal.totalLikes old + RacingTag.totalLikes tag)
       (TagTotal.periods old + 1)).

(** The callback of [map]. The [periods] of an entry of [tagTotals] are
    positive, so [Math.round(tag.count / tag.periods)] is an integer. *)
Definition averageOf (tag : TagTotal.t) : AverageTag.t :=
  AverageTag.mk (TagTotal.tag tag)
    (roundDiv (TagTotal.count tag) (TagTotal.periods tag))
    (TagTotal.totalViews tag)
    (TagTotal.totalLikes tag)
    (round (div (TagTotal.totalViews tag) (TagTotal.count tag)))
    (round (div (TagTotal.totalLikes tag) (TagTotal.count tag))).

Definition calculateAverageTagData (racingData : list RacingPeriod.t)
  : list AverageTag.t :=
  let tagTotals :=
    fold_left
      (fun tagTotals period =>
         fold_left addTag (RacingPeriod.tags period) tagTotals)
      racingData [] in
  JsArray.sort (fun a b => AverageTag.count b - AverageTag.count a)
    (map averageOf (JsObj.values tagTotals)).

End Visualizations.

(** * Notions the properties are stated with *)

Module Notions.
Import JsString JsDate DataLoader.

Definition Zsum (l : list Z) : Z := foldr Z.add 0 l.
Definition Qsum (l : list Q) : Q := foldr Qplus 0%Q l.

(** ** The parser *)

(** The values of the lines that have enough of them, as rows. *)
Definition rowsOfLines {zone : TimeZone} (categories : Categories)
    (country : string) (headers : list string) (dataLines : list string)
  : list Row :=
  map (makeRow categories country headers)
    (List.filter (fun values => (length headers <=? length values)%nat)
       (map parseCSVLine dataLines)).

(** The text that a line holds for a field: the value at the place of the
    last header of that name, without the white space around it, which
    is the empty text when the line ends before that place; [None] when
    no header has the name. *)
Definition fieldText (headers values : list string) (name : string)
  : option string :=
  last (omap (fun '(index, header) =>
                if String.eqb (trim header) name
                then Some (trim (default EmptyString (values !! index)))
                else None)
          (imap pair headers)).

(** The four counters of a row, with the header each is read from. *)
Definition numericFields : list (string * (Row -> Z)) :=
  [("views", views); ("likes", likes); ("dislikes", dislikes);
   ("comment_count", comment_count)].

(** A number below 100 written with two digits. *)
Definition twoDigits (n : Z) : string :=
  String (ascii_of_N (Z.to_N (48 + n / 10)))
    (String (ascii_of_N (Z.to_N (48 + n mod 10))) EmptyString).

(** The text of a trending date: year, day and month, two digits each. *)
Definition dateText (year day month : Z) : string :=
  twoDigits year +:+ "." +:+ twoDigits day +:+ "." +:+ twoDigits month.

(** The string holds no separator. *)
Fixpoint without (sep : ascii) (s : string) : bool :=
  match s with
  | EmptyString => true
  | String c rest => negb (Ascii.eqb c sep) && without sep rest
  end.

(** ** The scatter sample *)

(** [x] lies within the inclusive bounds that are present. *)
Definition withinBounds (x : Z) (lower upper : option Q) : Prop :=
  (forall q, lower = Some q -> (q <= inject_Z x)%Q)
  /\ (forall q, upper = Some q -> (inject_Z x <= q)%Q).

(** The point the result holds for a row. *)
Definition pointOf (video : Row) : Point.t :=
  Point.mk (views video) (likes video) (props video !! "title")
    (country video) (category_name video).

(** ** The heat map *)

(** The number of rows of a category. *)
Definition rowsOfCategory (category : string) (rows : list Row) : Z :=
  Z.of_nat (length (List.filter
                      (fun row => String.eqb (category_name row) category) rows)).

(** ** Buckets: the classes of a classifier *)

Section Buckets.
Context {A K : Type} `{EqDecision K}.
Variable classify : A -> option K.

Definition bucket (k : K) (l : list A) : list A :=
  List.filter (fun x => bool_decide (classify x = Some k)) l.

Definition classified (l : list A) : list A :=
  List.filter (fun x => bool_decide (is_Some (classify x))) l.

End Buckets.

(** ** The publishing grid *)

Definition hasSlot (timingData : list (list Slot.t)) (day hour : nat) : Prop :=
  is_Some (timingData !! day ≫= (fun row : list Slot.t => row !! hour)).

Section Timing.
Context {zone : TimeZone}.
Variable Date_parse : string -> Date.

(** The slot a row is counted in, if any: the day of the week and the
    hour of its timestamp in local time. *)
Definition slotOf (video : Row) : option (nat * nat) :=
  match props video !! "publish_time" with
  | Some publish_time =>
      if truthy publish_time then
        match Date_parse publish_time with
        | DateAt t =>
            if (0 <=? getDay (localTime t)) && (getDay (localTime t) <=? 6)
               && (0 <=? getHours (localTime t))
               && (getHours (localTime t) <=? 23)
            then Some (Z.to_nat (getDay (localTime t)),
                       Z.to_nat (getHours (localTime t)))
            else None
        | InvalidDate => None
        end
      else None
  | None => None
  end.

(** A row has a timestamp when the property is present and the engine
    reads it as a valid date. *)
Definition timed (video : Row) : Prop :=
  exists publish_time t,
    props video !! "publish_time" = Some publish_time
    /\ publish_time <> EmptyString
    /\ Date_parse publish_time = DateAt t.

(** The rows that are counted, in order. *)
Definition timedRows (videos : list Row) : list Row := classified slotOf videos.

End Timing.

(** ** The flow graph *)

(** One occurrence of a tag in a row that is processed: the tag, the
    category, and the views and likes of the row. *)
Definition Occurrence : Type := string * string * (Z * Z).

Definition occurrencesOf (video : Row) : list Occurrence :=
  match props video !! "tags" with
  | Some tags =>
      if truthy tags && truthy (category_name video)
      then map (fun tag => (tag, trim (category_name video),
                            (views video, likes video)))
             (flowTags tags)
      else []
  | None => []
  end.

Definition occurrences (videos : list Row) : list Occurrence :=
  flat_map occurrencesOf videos.

Definition occurrenceStep (state : FlowState.t) (o : Occurrence) : FlowState.t :=
  let '(tag, category, (views, likes)) := o in
  flowTagUpdate category views likes state tag.

(** An occurrence on which the loop throws: its tag or its category names
    a member that objects inherit. *)
Definition throwing (o : Occurrence) : bool :=
  JsObj.inherited (fst (fst o)) || JsObj.inherited (snd (fst o)).

(** The numbers of occurrences of a tag, of a category and of a pair. *)
Definition countWhere (test : Occurrence -> bool) (l : list Occurrence) : Z :=
  Z.of_nat (length (List.filter test l)).

Definition ofTag (tag : string) (o : Occurrence) : bool :=
  String.eqb (fst (fst o)) tag.
Definition ofCategory (category : string) (o : Occurrence) : bool :=
  String.eqb (snd (fst o)) category.
Definition ofPair (key : string * string) (o : Occurrence) : bool :=
  samePair (fst o) key.

(** The state of the loop after the occurrences [done]: every table holds
    each key once, with the number of its occurrences. *)
Record Counted (done : list Occurrence) (state : FlowState.t) : Prop := {
  counted_tags_NoDup : NoDup (JsObj.keys (FlowState.tagStats state));
  counted_categories_NoDup : NoDup (JsObj.keys (FlowState.categoryStats state));
  counted_pairs_NoDup : NoDup (map fst (FlowState.tagCategoryPairs state));
  counted_tag : forall tag,
    match JsObj.get (FlowState.tagStats state) tag with
    | Some info => TagStats.count info = countWhere (ofTag tag) done
                   /\ 0 < TagStats.count info
    | None => countWhere (ofTag tag) done = 0
    end;
  counted_category : forall category,
    match JsObj.get (FlowState.categoryStats state) category with
    | Some info => CategoryStats.count info = countWhere (ofCategory category) done
                   /\ 0 < CategoryStats.count info
    | None => countWhere (ofCategory category) done = 0
    end;
  counted_pair : forall key,
    match pairGet (FlowState.tagCategoryPairs state) key with
    | Some entry => Pair.tag entry = fst key /\ Pair.category entry = snd key
                    /\ Pair.count entry = countWhere (ofPair key) done
    | None => countWhere (ofPair key) done = 0
    end
}.

(** The keys of the entries with the largest counts, as [topTags] and
    [topCategories] select them. *)
Section Top.
Context {V : Type}.
Variables (count : V -> Z) (o : JsObj.t V) (limit : Z).

Definition ranked : list (string * V) :=
  JsArray.sort (fun a b => count (snd b) - count (snd a)) o.

Definition top : list string := map fst (JsArray.slice0 limit ranked).

End Top.

(** ** Weeks *)

(** The label of the week numbered [n]. *)
Definition week (n : Z) : string := "Week " +:+ pretty n.

End Notions.

(** * Example data *)

Module Examples.
Import JsString JsDate DataLoader Notions.

(** The files of the examples are read in the zone of Greenwich. *)
#[local] Existing Instance utc.

(** A zone whose clock is always [offset] milliseconds ahead of
    Greenwich. *)
Definition fixedZone (offset : Z) : TimeZone :=
  {| offsetAt := fun _ => offset; offsetOf := fun _ => offset |}.

(** Central European time in 2018: one hour ahead of Greenwich, and two
    hours from 25 March, 1:00 UTC, to 28 October, 1:00 UTC. The local
    hour from 2:00 that the change of March skips and the one that the
    change of October repeats are read with the offset before the
    change. *)
Definition cet2018 : TimeZone :=
  {| offsetAt := fun t =>
       if (1521939600000 <=? t) && (t <? 1540688400000)
       then 7200000 else 3600000;
     offsetOf := fun t =>
       if (1521946800000 <=? t) && (t <? 1540695600000)
       then 7200000 else 3600000 |}.

(** A file of one header and 1500 data lines. *)
Definition longText : string := join nl ("views" :: replicate 1500 "7").

(** A file whose one data line holds a negative count of views. *)
Definition negativeText : string := join nl ["views,likes"; "-5,abc"].

(** The rows the parser makes of a file with the two views 100 and 300. *)
Definition usData : VideoData :=
  loadVideoData ∅ [("US", join nl ["views"; "100"; "300"])] [].

(** A country whose file holds the header line only. *)
Definition emptyData : VideoData :=
  loadVideoData ∅ [("US", "views")] [].

(** Four rows, of which three have views and likes. *)
Definition sampleData : VideoData :=
  loadVideoData ∅
    [("US", join nl ["title,views,likes"; "a,100,10"; "b,200,0"; "c,300,30";
                     "d,400,40"])] [].

Definition noFilters : Filters.t := Filters.mk None None None None.

Definition musicAndComedy : Categories :=
  {[ "US" := {[ "10" := "Music"; "23" := "Comedy" ]} ]}.

(** Three rows for US, two of one category and one of another, and one
    row for CA, for which no category names are loaded. *)
Definition heatFiles : list (string * string) :=
  [("US", join nl ["tags,category_id"; "abc,10"; "abc,10"; "abc,23"]);
   ("CA", join nl ["tags,category_id"; "xyz,23"])].

Definition heatData : VideoData := loadVideoData musicAndComedy heatFiles [].

(** Two rows published on a Monday, at 17 and at 18 hours, and one whose
    timestamp is not a date. The first has a negative count of views. *)
Definition mondayData : VideoData :=
  loadVideoData ∅
    [("US", join nl ["publish_time,views";
                     "2017-11-13T17:00:00.000Z,-5";
                     "2017-11-13T18:00:00.000Z,100";
                     "yesterday,7"])] [].

(** The same rows with the views 5 and 100. *)
Definition tuesdayData : VideoData :=
  loadVideoData ∅
    [("US", join nl ["publish_time,views";
                     "2017-11-14T17:00:00.000Z,5";
                     "2017-11-14T18:00:00.000Z,100";
                     "yesterday,7"])] [].

(** The tag list of the example, joined as a row holds it. *)
Definition exampleTags : string :=
  join "|" ["gaming"; "NONE"; "[n/a]"; "x";
            "thisistoolongtobevalidasatagbecauseitexceedsthirtychars"].

(** The same list with every tag quoted, as the data files write it. *)
Definition quotedTags : string :=
  join "|" (map (fun tag => String dquote (tag +:+ String dquote EmptyString))
              ["Gaming"; "NONE"; "[n/a]"; "x";
               "thisistoolongtobevalidasatagbecauseitexceedsthirtychars"]).

(** Four rows with the one tag abc, three of them in the category Music
    and one in Comedy. *)
Definition flowData : VideoData :=
  loadVideoData musicAndComedy
    [("US", join nl ["tags,category_id"; "abc,10"; "abc,10"; "abc,23"; "abc,10"])]
    [].

(** The rows of [flowData], followed by one whose tag is the name of a
    member that objects inherit. *)
Definition constructorData : VideoData :=
  loadVideoData musicAndComedy
    [("US", join nl ["tags,category_id"; "abc,10"; "abc,10"; "abc,23"; "abc,10";
                     "constructor,10"])]
    [].

(** Rows trending on January 8 and on March 5 of 2018, in that order. *)
Definition winterData : VideoData :=
  loadVideoData ∅
    [("US", join nl ["trending_date,tags"; "18.08.01,abc"; "18.05.03,abc"])] [].

(** Three rows of the channel A and one of the channel B, in two
    countries. *)
Definition channelsData : VideoData :=
  loadVideoData ∅
    [("US", join nl ["channel_title,views"; "A,100"; "B,200"; "A,50"]);
     ("CA", join nl ["channel_title,views"; "A,10"])] [].

(** A channel whose title is the name of a member that objects inherit. *)
Definition inheritedData : VideoData :=
  loadVideoData ∅
    [("US", join nl ["channel_title,views"; "A,100"; "constructor,200"])] [].

(** A row whose channel title is the text undefined, and a row of a file
    that has no channel titles. *)
Definition untitledData : VideoData :=
  loadVideoData ∅
    [("US", join nl ["channel_title,views"; "undefined,100"]);
     ("CA", join nl ["views"; "10"])] [].

(** Rows trending on January 1 and on March 5 of 2018. *)
Definition sparseData : VideoData :=
  loadVideoData ∅
    [("US", join nl ["trending_date,tags"; "18.01.01,abc"; "18.05.03,abc"])] [].

End Examples.

(** * Notions the further properties are stated with *)

Module Terms.
Import JsString JsDate DataLoader Aggregation Notions.

(** ** Lines of a file *)

(** A value as a file writes it: between double quotes or as it is. *)
Definition written (field : string * bool) : string :=
  if snd field
  then String dquote (fst field +:+ String dquote EmptyString)
  else fst field.

(** A value that can be written: it holds no double quote, and no comma
    unless it is written between quotes. *)
Definition writable (field : string * bool) : Prop :=
  without dquote (fst field) = true
  /\ (snd field = false -> without "," (fst field) = true).

(** A name or a value that a table can hold as it is: it is not empty,
    has no white space around it, and holds no comma, double quote or
    line feed. *)
Definition cleanValue (value : string) : Prop :=
  value <> EmptyString
  /\ trim value = value
  /\ without "," value = true
  /\ without dquote value = true
  /\ without nl value = true.

(** The text of a table: the line of the headers and the lines of the
    rows, the values of a line joined by commas. *)
Definition tableText (headers : list string) (rows : list (list string))
  : string :=
  join nl (map (join ",") (headers :: rows)).

(** ** Category files *)

(** The titles a file gives for an id, in the order of the file. *)
Definition titlesOf (key : string) (items : list Item.t) : list string :=
  omap (fun item =>
          if String.eqb (Item.id item) key then Item.snippet item else None)
    items.

Definition titled (item : Item.t) : Prop := is_Some (Item.snippet item).

(** The name a title stands for. *)
Definition nameOf (title : option string) : string :=
  match title with
  | Some title => if truthy title then title else "Unknown"
  | None => "Unknown"
  end.

(** ** Tables built by a loop

    The loops that fill an object keyed by a property of the rows have
    one shape: the entry of the key is created from the first row that
    has the key and updated with every row that has it. *)

Section Grouping.
Context {A V : Type}.
Variables (key : A -> string) (init : A -> V) (upd : A -> V -> V).

Definition groupStep (o : JsObj.t V) (x : A) : JsObj.t V :=
  JsObj.set o (key x) (upd x (default (init x) (JsObj.get o (key x)))).

(** The elements with the key [k], in order. *)
Definition groupOf (k : string) (l : list A) : list A :=
  List.filter (fun x => String.eqb (key x) k) l.

(** The entry that a group which is not empty ends with. *)
Definition groupValue (xs : list A) : option V :=
  match xs with
  | [] => None
  | x :: _ => Some (fold_left (fun v y => upd y v) xs (init x))
  end.

End Grouping.

(** ** Loaded rows *)

(** The texts fetched for a country, in the order of their arrival. *)
Definition textsOf (country : string) (fetched : list (string * string))
  : list string :=
  omap (fun '(country', text) =>
          if String.eqb country' country then Some text else None)
    fetched.

(** Every country is listed once, and its rows carry its code. *)
Definition Tagged (videoData : VideoData) : Prop :=
  NoDup (JsObj.keys videoData)
  /\ Forall (fun '(code, rows) => Forall (fun row => country row = code) rows)
       videoData.

(** ** Channels *)

(** The key a row is counted under in the table of channels. *)
Definition channelOf (video : Row) : string := channelKey (channel_title video).

(** ** The timeline *)

(** The date part of [toISOString]. *)
Definition isoDate (t : Z) : string :=
  yearString (getFullYear t) +:+ "-" +:+ padStart 2 (getMonth t + 1)
  +:+ "-" +:+ padStart 2 (getDate t).

(** A row on which [toISOString] cannot be called: its trending date is
    an invalid date, or a text in place of a date. *)
Definition badDate (video : Row) : bool :=
  match trendingDateParsed video with
  | TextDate _ | ObjectDate InvalidDate => true
  | FalsyDate | ObjectDate (DateAt _) => false
  end.

(** The time value of the trending date of a row that has a valid one. *)
Definition timeOf (video : Row) : option Z :=
  match trendingDateParsed video with
  | ObjectDate (DateAt t) => Some t
  | _ => None
  end.

(** The rows with a valid trending date, each with its time value. *)
Definition dated (videos : list Row) : list (Z * Row) :=
  omap (fun video => (fun t => (t, video)) <$> timeOf video) videos.

(** ** Tags over time *)

(** A row that has tags. *)
Definition tagged (video : Row) : bool :=
  match props video !! "tags" with
  | Some tags => truthy tags
  | None => false
  end.

(** The day key of a row that has tags and a valid trending date. *)
Definition dayOf (video : Row) : option string :=
  if tagged video then dateKey <$> timeOf video else None.

(** The days collected from rows, in the order of their first rows. *)
Definition daysOf (videos : list Row) (start : list string) : list string :=
  fold_left
    (fun allDates video =>
       match dayOf video with
       | Some key => JsArray.setAdd allDates key
       | None => allDates
       end)
    videos start.

(** ** Weeks of the racing chart *)

(** A row whose trending date is a text, on which [getTime] cannot be
    called. *)
Definition textDate (video : Row) : bool :=
  match trendingDateParsed video with
  | TextDate _ => true
  | _ => false
  end.

(** The period of a row that has tags and a date object. *)
Definition periodOf {zone : TimeZone} (video : Row) : option string :=
  if tagged video then
    match trendingDateParsed video with
    | ObjectDate d => Some (periodKey d)
    | _ => None
    end
  else None.

(** The periods collected from rows, in the order of their first rows. *)
Definition periodsOf {zone : TimeZone} (videos : list Row) (start : list string)
  : list string :=
  fold_left
    (fun periods video =>
       match periodOf video with
       | Some period => JsArray.setAdd periods period
       | None => periods
       end)
    videos start.

End Terms.

(** * Properties *)

Module JsObjFacts.
Import JsObj.
Import Notions Examples.

Section Obj.
Context {V : Type}.
Implicit Types (o : JsObj.t V) (k : string) (v : V).

Lemma get_replace o k v k' :
  has o k = true ->
  get (replace k v o) k' = if String.eqb k k' then Some v else get o k'.
Proof.
  unfold has. induction o as [|[k0 v0] o IH]; simpl; [discriminate|].
  destruct (String.eqb_spec k0 k) as [->|Hne]; simpl.
  - intros _. now destruct (String.eqb k k').
  - intros H. rewrite (IH H).
    destruct (String.eqb_spec k k') as [->|]; [|reflexivity].
    now rewrite (proj2 (String.eqb_neq k0 k')).
Qed.

Lemma get_place o k v k' :
  get o k = None ->
  get (place k v o) k' = if String.eqb k k' then Some v else get o k'.
Proof.
  induction o as [|[k0 v0] o IH]; simpl; [reflexivity|].
  destruct (String.eqb_spec k0 k) as [->|Hne]; [discriminate|].
  intros H. destruct (precedes k k0); simpl; [reflexivity|].
  rewrite (IH H).
  destruct (String.eqb_spec k k') as [->|]; [|reflexivity].
  now rewrite (proj2 (String.eqb_neq k0 k')).
Qed.

Lemma get_set o k v k' :
  get (set o k v) k' = if String.eqb k k' then Some v else get o k'.
Proof.
  unfold set. destruct (has o k) eqn:E.
  - now apply get_replace.
  - apply get_place. unfold has in E. now destruct (get o k).
Qed.

Lemma get_Some_keys o k v : get o k = Some v -> In k (keys o).
Proof.
  induction o as [|[k0 v0] o IH]; simpl; [discriminate|].
  destruct (String.eqb_spec k0 k); auto.
Qed.

Lemma keys_get o k : In k (keys o) -> exists v, get o k = Some v.
Proof.
  induction o as [|[k0 v0] o IH]; simpl; [tauto|].
  destruct (String.eqb_spec k0 k); eauto.
  intros [?|?]; [congruence|auto].
Qed.

Lemma get_Some_In o k v : get o k = Some v -> In (k, v) o.
Proof.
  induction o as [|[k0 v0] o IH]; simpl; [discriminate|].
  destruct (String.eqb_spec k0 k) as [->|]; [intros [= ->]; auto|auto].
Qed.

End Obj.

(** The result of a [forEach] over keys that sets each key to a value
    computed from the key. *)
Lemma get_fold_set {V : Type} (f : string -> V) (ks : list string)
    (o : JsObj.t V) (k : string) :
  get (fold_left (fun r c => set r c (f c)) ks o) k
  = if existsb (String.eqb k) ks then Some (f k) else get o k.
Proof.
  revert o. induction ks as [|c ks IH]; intros o; simpl; [reflexivity|].
  rewrite IH, get_set.
  destruct (existsb (String.eqb k) ks); simpl.
  - now rewrite Bool.orb_true_r.
  - rewrite Bool.orb_false_r, String.eqb_sym.
    now destruct (String.eqb_spec k c) as [->|].
Qed.

End JsObjFacts.

Module JsStringFacts.
Import JsString.
Import Notions Examples.

Lemma digitValue_nonneg c d : digitValue c = Some d -> 0 <= d.
Proof.
  unfold digitValue.
  repeat match goal with
         | |- context [if ?b then _ else _] => destruct b eqn:?
         end; intros [= <-]; lia.
Qed.

Lemma parseDigits_nonneg radix s acc n :
  0 <= radix ->
  (forall a, acc = Some a -> 0 <= a) ->
  parseDigits radix acc s = Some n -> 0 <= n.
Proof.
  intros Hr. revert acc. induction s as [|c s IH]; intros acc Hacc; simpl.
  - apply Hacc.
  - destruct (digitValue c) as [d|] eqn:Hd; [|apply Hacc].
    destruct (d <? radix); [|apply Hacc].
    apply IH. intros a [= <-].
    pose proof (digitValue_nonneg _ _ Hd).
    destruct acc as [a0|]; simpl; [specialize (Hacc a0 eq_refl)|]; nia.
Qed.

(** [parseInt] reads a negative number only behind a minus sign. *)
Lemma parseInt_negative s n :
  parseInt s = Some n -> n < 0 -> startsWith (trimStart s) "-" = true.
Proof.
  unfold parseInt. intros H Hn.
  destruct (startsWith (trimStart s) "-"); [reflexivity|exfalso].
  match type of H with
  | _ <$> parseDigits ?radix None ?t = _ =>
      destruct (parseDigits radix None t) as [m|] eqn:Hm; [|discriminate];
      assert (0 <= radix) by (destruct (_ || _); lia)
  end.
  injection H as <-.
  apply parseDigits_nonneg in Hm; [lia|lia|discriminate].
Qed.

Lemma trimEnd_head c r :
  isWhiteSpace c = false -> exists r', trimEnd (String c r) = String c r'.
Proof.
  intros Hc. simpl. destruct (trimEnd r); rewrite ?Hc; eauto.
Qed.

Lemma trimStart_head s :
  trimStart s = EmptyString
  \/ exists c r, trimStart s = String c r /\ isWhiteSpace c = false.
Proof.
  induction s as [|c s IH]; simpl; [auto|].
  destruct (isWhiteSpace c) eqn:E; [exact IH|right; eauto].
Qed.

(** A trimmed string has no white space left at its start. *)
Lemma trimStart_trim s : trimStart (trim s) = trim s.
Proof.
  unfold trim. destruct (trimStart_head s) as [->|(c & r & -> & Hc)];
    [reflexivity|].
  destruct (trimEnd_head c r Hc) as [r' ->]. simpl. now rewrite Hc.
Qed.

End JsStringFacts.

Module JsArrayFacts.
Import JsArray.
Import Notions Examples.

Section Arr.
Context {A : Type}.
Implicit Types (l : list A) (cmp : A -> A -> Z).

Lemma slice0_length n l : 0 <= n -> Z.of_nat (length (slice0 n l)) <= n.
Proof.
  intros Hn. unfold slice0. destruct (Z.ltb_spec n 0); [lia|].
  rewrite length_take. lia.
Qed.

Lemma slice0_length_le n l : (length (slice0 n l) <= length l)%nat.
Proof.
  unfold slice0. destruct (n <? 0); rewrite length_take; lia.
Qed.

Lemma slice0_prefix n l : exists rest, l = (slice0 n l ++ rest)%list.
Proof.
  unfold slice0. destruct (n <? 0); eexists; symmetry; apply take_drop.
Qed.

Lemma slice0_In n l x : In x (slice0 n l) -> In x l.
Proof.
  destruct (slice0_prefix n l) as [rest E]. rewrite E at 2.
  intros H. apply in_or_app. now left.
Qed.

Lemma insert_perm cmp x l : Permutation (insert cmp x l) (x :: l).
Proof.
  induction l as [|y l IH]; simpl; [reflexivity|].
  destruct (cmp x y <=? 0); [reflexivity|].
  rewrite IH. apply perm_swap.
Qed.

Lemma sort_perm cmp l : Permutation (sort cmp l) l.
Proof.
  induction l as [|x l IH]; simpl; [reflexivity|].
  rewrite insert_perm. now constructor.
Qed.

Lemma sort_In cmp l x : In x (sort cmp l) <-> In x l.
Proof.
  split; apply Permutation_in; [|symmetry]; apply sort_perm.
Qed.

(** Sorting with a comparator that orders by a relation [R] which is
    total and transitive leaves every element in relation with all
    that follow it. *)
Section Sorted.
Variables (cmp : A -> A -> Z) (R : A -> A -> Prop).
Hypothesis cmp_le : forall x y, cmp x y <= 0 -> R x y.
Hypothesis cmp_gt : forall x y, 0 < cmp x y -> R y x.
Hypothesis R_trans : forall x y z, R x y -> R y z -> R x z.

Lemma insert_sorted x l :
  StronglySorted R l -> StronglySorted R (insert cmp x l).
Proof.
  induction 1 as [|y l Hl IH Hy]; simpl.
  - repeat constructor.
  - destruct (Z.leb_spec (cmp x y) 0) as [Hle|Hgt].
    + constructor; [now constructor|].
      constructor; [now apply cmp_le|].
      eapply Forall_impl; [exact Hy|].
      intros z Hz. eapply R_trans; [apply cmp_le|]; eauto.
    + constructor; [exact IH|].
      rewrite List.Forall_forall. intros z Hz.
      apply (Permutation_in _ (insert_perm cmp x l)) in Hz.
      destruct Hz as [<-|Hz]; [now apply cmp_gt|].
      rewrite List.Forall_forall in Hy. now apply Hy.
Qed.

Lemma sort_sorted l : StronglySorted R (sort cmp l).
Proof.
  induction l as [|x l IH]; simpl; [constructor|].
  now apply insert_sorted.
Qed.
End Sorted.

(** Sorting in descending order of an integer key. *)
Lemma sort_descending (key : A -> Z) l :
  StronglySorted (fun a b => key b <= key a)
    (sort (fun a b => key b - key a) l).
Proof.
  apply sort_sorted; intros; lia.
Qed.

End Arr.

Lemma compare_OT a b : String.compare a b = String_as_OT.compare a b.
Proof.
  revert b. induction a as [|c a IH]; destruct b as [|d b]; simpl; auto.
Qed.

Lemma compare_Lt_trans a b c :
  String.compare a b = Lt -> String.compare b c = Lt -> String.compare a c = Lt.
Proof.
  rewrite !compare_OT. apply String_as_OT.lt_strorder.
Qed.

Lemma leb_trans a b c :
  String.leb a b = true -> String.leb b c = true -> String.leb a c = true.
Proof.
  unfold String.leb.
  destruct (String.compare a b) eqn:Hab; [|intros _|discriminate].
  - apply String.compare_eq_iff in Hab as ->. auto.
  - destruct (String.compare b c) eqn:Hbc; [|intros _|discriminate].
    + apply String.compare_eq_iff in Hbc as ->. now rewrite Hab.
    + now rewrite (compare_Lt_trans _ _ _ Hab Hbc).
Qed.

(** [sort()] leaves strings in ascending order of their code units. *)
Lemma sortStrings_sorted l :
  StronglySorted (fun a b => String.leb a b = true) (sortStrings l).
Proof.
  apply sort_sorted; unfold compareStrings, String.leb.
  - intros x y. destruct (String.compare x y); auto; lia.
  - intros x y. rewrite (String.compare_antisym y x).
    destruct (String.compare x y); simpl; auto; lia.
  - apply leb_trans.
Qed.

Lemma sortStrings_perm l : Permutation (sortStrings l) l.
Proof. apply sort_perm. Qed.

Lemma includes_In l x : includes l x = true <-> In x l.
Proof.
  unfold includes. rewrite existsb_exists. split.
  - intros (y & Hy & E). apply String.eqb_eq in E. now subst.
  - intros H. exists x. split; [exact H|apply String.eqb_refl].
Qed.

Lemma includes_not_In l x : includes l x = false <-> ~ In x l.
Proof.
  rewrite <- includes_In. destruct (includes l x); split; congruence.
Qed.

Lemma setAdd_In s x y : In y (setAdd s x) <-> In y s \/ y = x.
Proof.
  unfold setAdd. destruct (includes s x) eqn:E.
  - apply includes_In in E. split; [auto|]. intros [? | ->]; auto.
  - rewrite in_app_iff. simpl. intuition.
Qed.

Lemma setAdd_NoDup s x : NoDup s -> NoDup (setAdd s x).
Proof.
  intros H. unfold setAdd. destruct (includes s x) eqn:E; [exact H|].
  apply includes_not_In in E.
  apply NoDup_app. split; [exact H|]. split; [|apply NoDup_singleton].
  intros y Hy Hy'. apply list_elem_of_In in Hy.
  apply list_elem_of_singleton in Hy'. now subst.
Qed.

End JsArrayFacts.

Module ParserFacts.
Import JsString JsDate DataLoader JsStringFacts.
Import Notions Examples.

Section Zone.
Context {zone : JsDate.TimeZone}.

Lemma lookup_seq_take_drop (l : list string) (d : string) (n start : nat) :
  (start + n <= length l)%nat ->
  map (fun i => default d (l !! i)) (seq start n) = take n (drop start l).
Proof.
  revert start. induction n as [|n IH]; intros start Hlen; simpl.
  - now rewrite take_0.
  - destruct (lookup_lt_is_Some_2 l start ltac:(lia)) as [x Hx].
    rewrite (drop_S _ _ _ Hx), Hx. simpl. f_equal.
    apply IH. lia.
Qed.

Lemma parseCSV_loop categories country lines headers (indices : list nat)
    (data : list Row) :
  fold_left (parseCSV_step categories country lines headers) indices data
  = (data ++ rowsOfLines categories country headers
              (map (fun i => default EmptyString (lines !! i)) indices))%list.
Proof.
  revert data. induction indices as [|i indices IH]; intros data; simpl.
  - unfold rowsOfLines. simpl. now rewrite app_nil_r.
  - rewrite IH. unfold parseCSV_step, rowsOfLines. simpl.
    destruct (_ <=? _)%nat; simpl; [now rewrite <- app_assoc|reflexivity].
Qed.

(** [parseCSV] reads the header line and the first 1000 of the lines
    that follow it. *)
Lemma parseCSV_rows categories text country :
  parseCSV categories text country
  = rowsOfLines categories country
      (split "," (default EmptyString (head (split nl (trim text)))))
      (take 1000 (tail (split nl (trim text)))).
Proof.
  unfold parseCSV. set (lines := split nl (trim text)).
  rewrite parseCSV_loop. simpl. rewrite <- head_lookup.
  f_equal. destruct lines as [|header dataLines]; [reflexivity|].
  rewrite lookup_seq_take_drop by (simpl; lia).
  simpl. rewrite drop_0.
  destruct (Nat.le_gt_cases (length dataLines) 1000) as [Hle|Hgt].
  - rewrite !take_ge by lia. reflexivity.
  - f_equal. lia.
Qed.

Lemma rowsOfLines_length categories country headers dataLines :
  (length (rowsOfLines categories country headers dataLines)
   <= length dataLines)%nat.
Proof.
  unfold rowsOfLines. rewrite length_map.
  match goal with
  | |- (length (List.filter ?f ?l) <= _)%nat =>
      pose proof (List.filter_length f l) as Hf
  end.
  rewrite length_map in Hf. lia.
Qed.

Lemma rowsOfLines_all categories country headers dataLines :
  Forall (fun line => (length headers <= length (parseCSVLine line))%nat)
    dataLines ->
  length (rowsOfLines categories country headers dataLines) = length dataLines.
Proof.
  unfold rowsOfLines. rewrite length_map. intros H.
  induction H as [|line rest Hline _ IH]; simpl; [reflexivity|].
  apply Nat.leb_le in Hline. rewrite Hline. simpl. now rewrite IH.
Qed.

(** C4. [parseCSV] reads the header line and the first 1000 of the lines
    that follow it: it returns at most 1000 rows, and exactly 1000 for a
    longer file whose lines all have enough values. *)
Theorem parseCSV_cap (categories : Categories) (text country : string) :
  let lines := split nl (trim text) in
  let headers := split "," (default EmptyString (head lines)) in
  parseCSV categories text country
  = rowsOfLines categories country headers (take 1000 (tail lines))
  /\ (length (parseCSV categories text country) <= 1000)%nat
  /\ (Forall (fun line => (length headers <= length (parseCSVLine line))%nat)
        (tail lines) ->
      length (parseCSV categories text country)
      = Nat.min (length (tail lines)) 1000)
  /\ length (split nl (trim longText)) = 1501%nat
  /\ length (parseCSV categories longText country) = 1000%nat.
Proof.
  intros lines headers. split; [apply parseCSV_rows|].
  split; [|split].
  - rewrite parseCSV_rows.
    etransitivity; [apply rowsOfLines_length|]. rewrite length_take. lia.
  - intros Hall. rewrite parseCSV_rows. fold lines. fold headers.
    rewrite rowsOfLines_all, length_take; [lia|].
    now apply Forall_take.
  - split; [vm_compute; reflexivity|].
    rewrite parseCSV_rows.
    unfold rowsOfLines. rewrite length_map. vm_compute. reflexivity.
Qed.

Lemma parseCSV_makeRow categories text country row :
  In row (parseCSV categories text country) ->
  exists headers values, row = makeRow categories country headers values.
Proof.
  rewrite parseCSV_rows. unfold rowsOfLines. intros Hin.
  apply in_map_iff in Hin as (values & <- & _). eauto.
Qed.

Lemma cell_trimmed values index :
  trimStart (cell values index) = cell values index.
Proof.
  unfold cell. destruct (values !! index) as [v|]; [|reflexivity].
  destruct (truthy v); [apply trimStart_trim|reflexivity].
Qed.

Lemma assignHeaders_lookup headers index values (row : gmap string string)
    (name text : string) :
  assignHeaders headers index values row !! name = Some text ->
  row !! name = Some text \/ exists i, text = cell values i.
Proof.
  revert index row. induction headers as [|header rest IH];
    intros index row; simpl; [auto|].
  intros H. apply IH in H as [H|H]; [|auto].
  rewrite lookup_insert in H. case_decide; [|auto].
  injection H as <-. eauto.
Qed.

Lemma lookup_foldr_delete_Some (m : gmap string string) names k v :
  foldr delete m names !! k = Some v -> m !! k = Some v.
Proof.
  induction names as [|name names IH]; cbn [foldr]; [auto|].
  intros H. apply lookup_delete_Some in H as [_ H]. auto.
Qed.

Lemma lookup_foldr_delete_other (m : gmap string string) names k :
  ~ In k names -> foldr delete m names !! k = m !! k.
Proof.
  induction names as [|name names IH]; cbn [foldr In]; [auto|].
  intros H. rewrite lookup_delete_ne by auto. auto.
Qed.

(** The texts of a row are texts copied under the headers. *)
Lemma makeRow_props categories country headers values name text :
  props (makeRow categories country headers values) !! name = Some text ->
  assignHeaders headers 0 values ∅ !! name = Some text.
Proof. apply lookup_foldr_delete_Some. Qed.

(** The text under a name that the parser assigns nothing to. *)
Lemma makeRow_props_other categories country headers values name :
  ~ In name ("trending_date_parsed" :: assigned) ->
  props (makeRow categories country headers values) !! name
  = assignHeaders headers 0 values ∅ !! name.
Proof.
  intros Hname. cbn [makeRow props]. apply lookup_foldr_delete_other.
  destruct (match _ !! "trending_date" with Some _ => _ | None => _ end);
    [exact Hname|]. intros H. apply Hname. now right.
Qed.

Lemma makeRow_prop_trimmed categories country headers values name text :
  props (makeRow categories country headers values) !! name = Some text ->
  trimStart text = text.
Proof.
  intros H. apply makeRow_props in H.
  apply assignHeaders_lookup in H as [H|[i ->]].
  - now rewrite lookup_empty in H.
  - apply cell_trimmed.
Qed.

Lemma assignHeaders_app headers header index values (row : gmap string string) :
  assignHeaders (headers ++ [header]) index values row
  = <[trim header := cell values (index + length headers)]>
      (assignHeaders headers index values row).
Proof.
  revert index row. induction headers as [|h headers IH]; intros index row;
    cbn [app assignHeaders length].
  - now rewrite Nat.add_0_r.
  - rewrite IH. now rewrite Nat.add_succ_r.
Qed.

Lemma cell_trim values index :
  cell values index = trim (default EmptyString (values !! index)).
Proof.
  unfold cell. destruct (values !! index) as [[|c v]|]; reflexivity.
Qed.

(** What the loop over the headers leaves under a name is the text of
    the field of that name. *)
Lemma assignHeaders_fieldText headers values name :
  assignHeaders headers 0 values ∅ !! name = fieldText headers values name.
Proof.
  unfold fieldText.
  induction headers as [|header headers IH] using rev_ind; [reflexivity|].
  rewrite assignHeaders_app, imap_app, omap_app.
  change (omap _ (imap _ [header]))
    with (match (if String.eqb (trim header) name
                 then Some (trim (default EmptyString
                                    (values !! (length headers + 0)%nat)))
                 else None) with
          | Some t => [t]
          | None => []
          end).
  rewrite Nat.add_0_r, Nat.add_0_l, lookup_insert, cell_trim.
  destruct (String.eqb_spec (trim header) name) as [->|Hne].
  - rewrite decide_True by reflexivity. now rewrite last_snoc.
  - rewrite decide_False by exact Hne. now rewrite app_nil_r.
Qed.

Lemma fieldText_trimmed headers values name text :
  fieldText headers values name = Some text -> trimStart text = text.
Proof.
  rewrite <- assignHeaders_fieldText. intros H.
  apply assignHeaders_lookup in H as [H|[i ->]].
  - now rewrite lookup_empty in H.
  - apply cell_trimmed.
Qed.

Lemma makeRow_numeric categories country headers values :
  Forall (fun '(name, field) =>
            field (makeRow categories country headers values)
            = orZero (parseIntProp (fieldText headers values name)))
    numericFields.
Proof.
  repeat constructor;
    cbn [makeRow views likes dislikes comment_count];
    now rewrite assignHeaders_fieldText.
Qed.

Lemma Forall2_filter_map {A B C : Type} (g : A -> B) (p : B -> bool)
    (f : B -> C) (R : A -> C -> Prop) (l : list A) :
  (forall a, R a (f (g a))) ->
  Forall2 R (List.filter (fun a => p (g a)) l)
    (map f (List.filter p (map g l))).
Proof.
  intros H. induction l as [|a l IH]; cbn [map List.filter]; [constructor|].
  destruct (p (g a)); cbn [map]; [constructor; auto|exact IH].
Qed.

(** C2, as amended. [parseCSV] makes one row of every line, of the first
    1000 after the header line, that has a value for every header, in
    the order of the lines. Each of views, likes, dislikes and
    comment_count of the row is what [parseInt] reads in the text that
    the line holds for the field, and 0 when that text is not a number
    or no header names the field; it is negative only when the text
    starts with a minus sign. *)
Theorem parseCSV_counters (categories : Categories) (text country : string) :
  let lines := split nl (trim text) in
  let headers := split "," (default EmptyString (head lines)) in
  let dataLines :=
    List.filter
      (fun line => (length headers <=? length (parseCSVLine line))%nat)
      (take 1000 (tail lines)) in
  Forall2
    (fun line row =>
       Forall (fun '(name, field) =>
                 let text := fieldText headers (parseCSVLine line) name in
                 (forall s n,
                     text = Some s -> parseInt s = Some n -> field row = n)
                 /\ (forall s,
                       text = Some s -> parseInt s = None -> field row = 0)
                 /\ (text = None -> field row = 0)
                 /\ (field row < 0 ->
                     exists s, text = Some s /\ startsWith s "-" = true))
         numericFields)
    dataLines (parseCSV categories text country).
Proof.
  intros lines headers dataLines. rewrite parseCSV_rows.
  fold lines headers. unfold rowsOfLines, dataLines.
  apply (Forall2_filter_map parseCSVLine
           (fun values => (length headers <=? length values)%nat)).
  intros line.
  eapply Forall_impl; [apply makeRow_numeric|].
  intros [name field] Hfield. cbv zeta. rewrite Hfield.
  destruct (fieldText headers (parseCSVLine line) name) as [s|] eqn:Hs;
    cbn [parseIntProp].
  - split; [|split; [|split]].
    + intros s' n [= <-] ->. reflexivity.
    + intros s' [= <-] ->. reflexivity.
    + discriminate.
    + destruct (parseInt s) as [n|] eqn:Hn; cbn [orZero default];
        [|lia].
      intros Hneg. exists s. split; [reflexivity|].
      rewrite <- (fieldText_trimmed _ _ _ _ Hs).
      now apply (parseInt_negative s n).
  - split; [discriminate|]. split; [discriminate|].
    split; [reflexivity|]. vm_compute. discriminate.
Qed.

End Zone.

(** The examples are read in the zone of Greenwich. *)
#[local] Existing Instance JsDate.utc.

Lemma parseCSV_cap_witness :
  Forall (fun line =>
            (length (split "," "views,likes") <= length (parseCSVLine line))%nat)
    (tail (split nl (trim negativeText)))
  /\ length (parseCSV ∅ negativeText "US")
     = Nat.min (length (tail (split nl (trim negativeText)))) 1000.
Proof.
  assert (H : Forall
                (fun line =>
                   (length (split "," "views,likes")
                    <= length (parseCSVLine line))%nat)
                (tail (split nl (trim negativeText)))).
  { repeat constructor. }
  split; [exact H|].
  exact (proj1 (proj2 (proj2 (parseCSV_cap ∅ negativeText "US"))) H).
Defined.

Lemma parseCSV_counters_witness :
  exists row,
    parseCSV ∅ negativeText "US" = [row]
    /\ fieldText ["views"; "likes"] (parseCSVLine "-5,abc") "views" = Some "-5"
    /\ views row = -5
    /\ fieldText ["views"; "likes"] (parseCSVLine "-5,abc") "likes" = Some "abc"
    /\ likes row = 0.
Proof.
  pose proof (parseCSV_counters ∅ negativeText "US") as H. cbv zeta in H.
  change (List.filter _ (take 1000 (tail (split nl (trim negativeText)))))
    with ["-5,abc"] in H.
  change (split "," (default EmptyString (head (split nl (trim negativeText)))))
    with ["views"; "likes"] in H.
  destruct (parseCSV ∅ negativeText "US") as [|row rows];
    [exfalso; inversion H|].
  apply Forall2_cons_1 in H as [Hrow Hrows].
  apply Forall2_nil_inv_l in Hrows as ->.
  exists row. split; [reflexivity|].
  apply Forall_cons_1 in Hrow as [(Hviews & _) Hrow].
  apply Forall_cons_1 in Hrow as [(_ & Hlikes & _) _].
  split; [reflexivity|]. split; [now apply (Hviews "-5")|].
  split; [reflexivity|]. now apply (Hlikes "abc").
Defined.

(** The claim as it stands fails on a count written with a minus sign. *)
Lemma parseCSV_negative_views :
  map (fun row => (views row, likes row)) (parseCSV ∅ negativeText "US")
  = [(-5, 0)]
  /\ exists row, In row (parseCSV ∅ negativeText "US") /\ views row < 0.
Proof.
  split; [vm_compute; reflexivity|].
  eexists. split; [left; reflexivity|]. vm_compute. reflexivity.
Qed.

End ParserFacts.

Module ViewsByCountryFacts.
Import JsString DataLoader JsNum JsObjFacts.
Import Notions Examples.

Lemma fold_sumViews rows a :
  fold_left (fun sum video => sum + views video) rows a
  = a + foldr Z.add 0 (map views rows).
Proof.
  revert a. induction rows as [|r rows IH]; intros a; simpl; [lia|].
  rewrite IH. lia.
Qed.

Lemma sumViews_foldr rows : sumViews rows = foldr Z.add 0 (map views rows).
Proof. unfold sumViews. rewrite fold_sumViews. lia. Qed.

Lemma div_zero_zero : JsNum.div 0 0 = NaN.
Proof. reflexivity. Qed.

Lemma div_positive a b :
  0 < b -> exists q, JsNum.div a b = Fin q /\ (q == inject_Z a / inject_Z b)%Q.
Proof.
  intros Hb. unfold JsNum.div.
  destruct (Z.eqb_spec b 0) as [->|_]; [lia|].
  eexists; split; [reflexivity|].
  rewrite Qred_correct.
  replace (Z.sgn b) with 1 by lia. rewrite Z.mul_1_r.
  rewrite Qmake_Qdiv. rewrite Z.abs_eq by lia. rewrite Z2Pos.id by lia.
  reflexivity.
Qed.

(** C1. For every loaded country, [getViewsByCountry] returns a record whose
    [totalViews] is the sum of the views of the rows of the country, whose
    [videoCount] is the number of those rows and whose [avgViews] is the
    quotient of the two: NaN when the country has no row. Two rows for US
    with the views 100 and 300 give 400, 200 and 2. *)
Theorem getViewsByCountry_totals :
  (forall (videoData : VideoData) (country : string) (rows : list Row),
      JsObj.get videoData country = Some rows ->
      exists r,
        JsObj.get (getViewsByCountry videoData) country = Some r
        /\ CountryViews.totalViews r = foldr Z.add 0 (map views rows)
        /\ CountryViews.videoCount r = Z.of_nat (length rows)
        /\ (rows = [] -> CountryViews.avgViews r = NaN)
        /\ (rows <> [] ->
            exists q, CountryViews.avgViews r = Fin q
                      /\ (q == inject_Z (CountryViews.totalViews r)
                               / inject_Z (CountryViews.videoCount r))%Q))
  /\ map views (countryVideos usData "US") = [100; 300]
  /\ JsObj.get (getViewsByCountry usData) "US"
     = Some (CountryViews.mk 400 (Fin 200) 2)
  /\ countryVideos emptyData "US" = []
  /\ JsObj.get (getViewsByCountry emptyData) "US"
     = Some (CountryViews.mk 0 NaN 0).
Proof.
  split; [|repeat split; vm_compute; reflexivity].
  intros videoData country rows Hget.
  unfold getViewsByCountry. rewrite get_fold_set.
  assert (Hin : existsb (String.eqb country) (JsObj.keys videoData) = true).
  { apply existsb_exists. exists country. split.
    - eapply get_Some_keys; eauto.
    - apply String.eqb_refl. }
  rewrite Hin. unfold countryVideos. rewrite Hget. simpl.
  eexists; split; [reflexivity|]. simpl.
  split; [apply sumViews_foldr|]. split; [reflexivity|]. split.
  - intros ->. reflexivity.
  - intros Hne. apply div_positive. destruct rows; [congruence|simpl; lia].
Qed.

Lemma getViewsByCountry_totals_witness :
  JsObj.get usData "US" = Some (countryVideos usData "US")
  /\ exists r,
      JsObj.get (getViewsByCountry usData) "US" = Some r
      /\ CountryViews.totalViews r = 400.
Proof.
  split; [reflexivity|].
  destruct (proj1 getViewsByCountry_totals usData "US" _ eq_refl)
    as (r & Hr & Ht & _).
  exists r. split; [exact Hr|]. rewrite Ht. reflexivity.
Defined.
End ViewsByCountryFacts.

Module ViewsVsLikesFacts.
Import JsString DataLoader JsArrayFacts.
Import Notions Examples.

Lemma atLeast_atMost x lower upper :
  atLeast x lower && atMost x upper = true -> withinBounds x lower upper.
Proof.
  intros H. apply andb_prop in H as [Hl Hu]. split; intros q ->.
  - now apply Qle_bool_iff in Hl.
  - now apply Qle_bool_iff in Hu.
Qed.

(** C5. Whatever order the random sort leaves the rows in, the result of
    [getViewsVsLikes] has at most [sampleSize] elements, [sampleSize]
    being a size and so not negative, and every element comes from a
    selected row, has positive views and likes, and lies within the
    inclusive bounds that are present. *)
Theorem getViewsVsLikes_sample (shuffle : list Row -> list Row)
    (videoData : VideoData) (sampleSize : Z) (selectedCountry : string)
    (filters : Filters.t) :
  (forall rows, Permutation (shuffle rows) rows) ->
  (0 <= sampleSize ->
   Z.of_nat (length (getViewsVsLikes shuffle videoData sampleSize
                       selectedCountry filters)) <= sampleSize)
  /\ Forall (fun point =>
               0 < Point.views point
               /\ 0 < Point.likes point
               /\ withinBounds (Point.views point)
                    (Filters.minViews filters) (Filters.maxViews filters)
               /\ withinBounds (Point.likes point)
                    (Filters.minLikes filters) (Filters.maxLikes filters)
               /\ exists video,
                   In video (videosToProcess videoData "all" selectedCountry)
                   /\ point = pointOf video)
       (getViewsVsLikes shuffle videoData sampleSize selectedCountry filters).
Proof.
  intros Hperm. unfold getViewsVsLikes. split.
  - intros Hn. rewrite length_map. now apply slice0_length.
  - apply List.Forall_forall. intros point Hin.
    apply in_map_iff in Hin as (video & <- & Hin).
    apply slice0_In in Hin.
    apply (Permutation_in _ (Hperm _)) in Hin.
    apply filter_In in Hin as [Hin Hlikes].
    apply filter_In in Hin as [Hin Hviews].
    apply filter_In in Hin as [Hin Hpos].
    apply andb_prop in Hpos as [Hv Hl]. simpl.
    split; [lia|]. split; [lia|].
    split; [now apply atLeast_atMost|].
    split; [now apply atLeast_atMost|].
    exists video. split; [exact Hin|reflexivity].
Qed.

Lemma getViewsVsLikes_sample_witness :
  (forall rows : list Row, Permutation (rev rows) rows)
  /\ 0 <= 2
  /\ Z.of_nat (length (getViewsVsLikes (@rev Row) sampleData 2 "all" noFilters))
     <= 2.
Proof.
  assert (Hperm : forall rows : list Row, Permutation (rev rows) rows).
  { intros rows. symmetry. apply Permutation_rev. }
  split; [exact Hperm|]. split; [lia|].
  apply (getViewsVsLikes_sample (@rev Row) sampleData 2 "all" noFilters Hperm).
  lia.
Defined.

End ViewsVsLikesFacts.

Module HeatmapFacts.
Import JsString DataLoader JsArrayFacts JsObjFacts.
Import Notions Examples.

Lemma truthy_ne s : truthy s = true <-> s <> EmptyString.
Proof.
  unfold truthy. destruct (String.eqb_spec s EmptyString); simpl;
    split; congruence.
Qed.

Lemma collectCategories_In videos category :
  In category (collectCategories videos)
  <-> exists row, In row videos /\ category_name row = category
                  /\ category <> EmptyString.
Proof.
  unfold collectCategories.
  enough (H : forall acc,
             In category
               (fold_left
                  (fun allCategories video =>
                     if truthy (category_name video)
                     then JsArray.setAdd allCategories (category_name video)
                     else allCategories) videos acc)
             <-> In category acc
                 \/ exists row, In row videos /\ category_name row = category
                                /\ category <> EmptyString).
  { rewrite H. simpl. tauto. }
  induction videos as [|video videos IH]; intros acc; simpl.
  - split; [auto|]. intros [?|(? & [] & _)]; auto.
  - rewrite IH. destruct (truthy (category_name video)) eqn:E.
    + rewrite setAdd_In. apply truthy_ne in E. split.
      * intros [[?| ->]|(row & ? & ? & ?)]; eauto 8.
      * intros [?|(row & [<-|?] & ? & ?)]; eauto 8.
    + split.
      * intros [?|(row & ? & ? & ?)]; eauto 8.
      * intros [?|(row & [<-|?] & Hc & Hne)]; eauto 8.
        subst category. apply truthy_ne in Hne. congruence.
Qed.

Lemma collectCategories_NoDup videos : NoDup (collectCategories videos).
Proof.
  unfold collectCategories.
  enough (H : forall acc, NoDup acc ->
             NoDup (fold_left
                      (fun allCategories video =>
                         if truthy (category_name video)
                         then JsArray.setAdd allCategories (category_name video)
                         else allCategories) videos acc)).
  { apply H. constructor. }
  induction videos as [|video videos IH]; intros acc Hacc; simpl; [exact Hacc|].
  apply IH. destruct (truthy _); [now apply setAdd_NoDup|exact Hacc].
Qed.

Lemma countCategories_lookup rows category :
  category <> EmptyString ->
  default 0 (countCategories rows !! category) = rowsOfCategory category rows.
Proof.
  intros Hne. unfold countCategories, rowsOfCategory.
  enough (H : forall (acc : gmap string Z),
             default 0
               (fold_left
                  (fun categoryCounts video =>
                     if truthy (category_name video)
                     then <[category_name video :=
                              default 0 (categoryCounts !! category_name video) + 1]>
                            categoryCounts
                     else categoryCounts) rows acc !! category)
             = default 0 (acc !! category)
               + Z.of_nat (length (List.filter
                                     (fun row => String.eqb (category_name row) category)
                                     rows))).
  { rewrite H, lookup_empty. simpl. lia. }
  induction rows as [|row rows IH]; intros acc; simpl; [lia|].
  rewrite IH. destruct (String.eqb_spec (category_name row) category) as [E|E].
  - rewrite E. rewrite (proj2 (truthy_ne category) Hne).
    rewrite lookup_insert_eq. simpl length. simpl. lia.
  - destruct (truthy (category_name row)); [|lia].
    rewrite lookup_insert_ne by exact E. lia.
Qed.

Lemma Zsum_cons x l : Zsum (x :: l) = x + Zsum l.
Proof. reflexivity. Qed.

Lemma Zsum_indicator_absent (categories : list string) (name : string) :
  ~ In name categories ->
  Zsum (map (fun category => if String.eqb name category then 1 else 0)
          categories) = 0.
Proof.
  induction categories as [|c cs IH]; cbn [map]; [reflexivity|].
  intros Hnotin. rewrite Zsum_cons, IH by (intros ?; apply Hnotin; now right).
  rewrite (proj2 (String.eqb_neq name c)); [reflexivity|].
  intros ->. apply Hnotin. now left.
Qed.

Lemma Zsum_indicator (categories : list string) (name : string) :
  NoDup categories -> In name categories ->
  Zsum (map (fun category => if String.eqb name category then 1 else 0)
          categories) = 1.
Proof.
  induction 1 as [|category categories Hnotin Hnd IH]; cbn [map]; [intros []|].
  rewrite Zsum_cons. intros [->|Hin].
  - rewrite String.eqb_refl, Zsum_indicator_absent; [reflexivity|].
    intros Hin. apply Hnotin. now apply list_elem_of_In.
  - rewrite IH by exact Hin.
    destruct (String.eqb_spec name category) as [->|_]; [|reflexivity].
    exfalso. apply Hnotin. now apply list_elem_of_In.
Qed.

Lemma Zsum_rowsOfCategory categories rows :
  NoDup categories ->
  (forall row, In row rows -> In (category_name row) categories) ->
  Zsum (map (fun category => rowsOfCategory category rows) categories)
  = Z.of_nat (length rows).
Proof.
  intros Hnd. induction rows as [|row rows IH]; intros Hall.
  - clear. induction categories as [|c cs IHc]; cbn [map]; [reflexivity|].
    now rewrite Zsum_cons, IHc.
  - transitivity
      (Zsum (map (fun category =>
                    if String.eqb (category_name row) category then 1 else 0)
               categories)
       + Zsum (map (fun category => rowsOfCategory category rows) categories)).
    + clear. induction categories as [|c cs IHc]; cbn [map]; [reflexivity|].
      rewrite !Zsum_cons, IHc. unfold rowsOfCategory. cbn [List.filter].
      destruct (String.eqb (category_name row) c); cbn [length]; lia.
    + rewrite Zsum_indicator, IH; cbn [length]; try lia; try exact Hnd.
      * intros r Hr. apply Hall. now right.
      * apply Hall. now left.
Qed.

Lemma Qsum_cons x l : (Qsum (x :: l) == x + Qsum l)%Q.
Proof. reflexivity. Qed.

Lemma inject_Z_nonzero n : 0 < n -> ~ (inject_Z n == 0)%Q.
Proof. intros Hn. unfold Qeq, inject_Z. simpl. lia. Qed.

Lemma percentage_positive count totalVideos :
  0 < totalVideos ->
  (percentage count totalVideos
   == 100 * inject_Z count / inject_Z totalVideos)%Q.
Proof.
  intros Hn. unfold percentage.
  destruct (Z.ltb_spec 0 totalVideos); [|lia].
  field. now apply inject_Z_nonzero.
Qed.

Lemma Qsum_percentage (count : string -> Z) totalVideos categories :
  0 < totalVideos ->
  (Qsum (map (fun category => percentage (count category) totalVideos)
           categories)
   == 100 * inject_Z (Zsum (map count categories)) / inject_Z totalVideos)%Q.
Proof.
  intros Hn. pose proof (inject_Z_nonzero _ Hn) as Hnz.
  induction categories as [|c cs IH]; cbn [map].
  - unfold Qsum, Zsum. simpl. field. exact Hnz.
  - rewrite Qsum_cons, IH, Zsum_cons, inject_Z_plus, percentage_positive by exact Hn.
    field. exact Hnz.
Qed.

Lemma heatmapCells_filter_same videoData categories country :
  List.filter (fun cell => String.eqb (HeatCell.country cell) country)
    (heatmapCells videoData categories country)
  = heatmapCells videoData categories country.
Proof.
  unfold heatmapCells. induction categories as [|c cs IH]; cbn [map List.filter];
    [reflexivity|].
  cbn [HeatCell.country]. rewrite String.eqb_refl. now rewrite IH.
Qed.

Lemma heatmapCells_filter_other videoData categories country country' :
  country' <> country ->
  List.filter (fun cell => String.eqb (HeatCell.country cell) country)
    (heatmapCells videoData categories country')
  = [].
Proof.
  intros Hne. unfold heatmapCells.
  induction categories as [|c cs IH]; cbn [map List.filter]; [reflexivity|].
  cbn [HeatCell.country]. now rewrite (proj2 (String.eqb_neq _ _) Hne).
Qed.

Lemma heatmap_filter_absent videoData categories countries country :
  ~ In country countries ->
  List.filter (fun cell => String.eqb (HeatCell.country cell) country)
    (flat_map (heatmapCells videoData categories) countries)
  = [].
Proof.
  induction countries as [|c cs IH]; cbn [flat_map]; [reflexivity|].
  intros Hnotin. rewrite List.filter_app, IH by (intros ?; apply Hnotin; now right).
  rewrite heatmapCells_filter_other; [reflexivity|].
  intros ->. apply Hnotin. now left.
Qed.

Lemma heatmap_filter_country videoData categories countries country :
  NoDup countries -> In country countries ->
  List.filter (fun cell => String.eqb (HeatCell.country cell) country)
    (flat_map (heatmapCells videoData categories) countries)
  = heatmapCells videoData categories country.
Proof.
  induction 1 as [|c cs Hnotin Hnd IH]; cbn [flat_map]; [intros []|].
  rewrite List.filter_app. intros [->|Hin].
  - rewrite heatmapCells_filter_same, heatmap_filter_absent, app_nil_r;
      [reflexivity|].
    intros Hin. apply Hnotin. now apply list_elem_of_In.
  - rewrite IH by exact Hin. rewrite heatmapCells_filter_other; [reflexivity|].
    intros ->. apply Hnotin. now apply list_elem_of_In.
Qed.

Lemma heatmap_pairs videoData categories countries :
  map (fun cell => (HeatCell.country cell, HeatCell.category cell))
    (flat_map (heatmapCells videoData categories) countries)
  = list_prod countries categories.
Proof.
  induction countries as [|c cs IH]; cbn [flat_map list_prod]; [reflexivity|].
  rewrite map_app, IH. f_equal.
  unfold heatmapCells. rewrite map_map. reflexivity.
Qed.

Lemma countryVideos_all videoData country rows row :
  JsObj.get videoData country = Some rows -> In row rows ->
  In row (allVideos videoData).
Proof.
  intros Hget Hin. unfold allVideos. apply in_concat.
  exists rows. split; [|exact Hin].
  apply get_Some_In in Hget. unfold JsObj.values.
  apply in_map_iff. now exists (country, rows).
Qed.

(** The categories of the result: the distinct names of all rows. *)
Lemma heatmap_categories videoData category :
  In category (Heatmap.categories (getHeatmapData videoData))
  <-> exists row, In row (allVideos videoData)
                  /\ category_name row = category
                  /\ category <> EmptyString.
Proof.
  cbn [getHeatmapData Heatmap.categories].
  rewrite <- collectCategories_In.
  split; apply Permutation_in; [|symmetry]; apply sortStrings_perm.
Qed.

Lemma heatmap_categories_NoDup videoData :
  NoDup (Heatmap.categories (getHeatmapData videoData)).
Proof.
  cbn [getHeatmapData Heatmap.categories].
  rewrite sortStrings_perm. apply collectCategories_NoDup.
Qed.

(** C6. [getHeatmapData] holds one entry for every pair of a country and a
    category, whose value is 100 times the number of rows of the category
    over the number of rows of the country, and 0 for a country without
    rows; for a country with rows, the values of its entries add up to
    100. *)
Theorem getHeatmapData_percentages (videoData : VideoData) :
  let result := getHeatmapData videoData in
  map (fun cell => (HeatCell.country cell, HeatCell.category cell))
    (Heatmap.data result)
  = list_prod (JsObj.keys videoData) (Heatmap.categories result)
  /\ Forall
       (fun cell =>
          let rows := countryVideos videoData (HeatCell.country cell) in
          HeatCell.count cell = rowsOfCategory (HeatCell.category cell) rows
          /\ HeatCell.totalVideos cell = Z.of_nat (length rows)
          /\ (rows <> [] ->
              (HeatCell.value cell
               == 100 * inject_Z (HeatCell.count cell)
                  / inject_Z (HeatCell.totalVideos cell))%Q)
          /\ (rows = [] -> HeatCell.value cell = 0%Q))
       (Heatmap.data result)
  /\ (forall country rows,
        NoDup (JsObj.keys videoData) ->
        JsObj.get videoData country = Some rows ->
        rows <> [] ->
        (forall row, In row rows -> category_name row <> EmptyString) ->
        (Qsum (map HeatCell.value
                 (List.filter
                    (fun cell => String.eqb (HeatCell.country cell) country)
                    (Heatmap.data result)))
         == 100)%Q).
Proof.
  intros result. split; [apply heatmap_pairs|]. split.
  - apply List.Forall_forall. intros cell Hin.
    cbn [result getHeatmapData Heatmap.data] in Hin.
    apply in_flat_map in Hin as (country & _ & Hin).
    unfold heatmapCells in Hin.
    apply in_map_iff in Hin as (category & <- & Hcat).
    cbn [HeatCell.country HeatCell.category HeatCell.count HeatCell.value
           HeatCell.totalVideos].
    assert (Hne : category <> EmptyString).
    { apply (heatmap_categories videoData) in Hcat as (_ & _ & _ & H). exact H. }
    rewrite countCategories_lookup by exact Hne.
    split; [reflexivity|]. split; [reflexivity|]. split.
    + intros Hrows. apply percentage_positive.
      destruct (countryVideos videoData country); [congruence|simpl; lia].
    + intros ->. reflexivity.
  - intros country rows Hnd Hget Hrows Hnamed.
    cbn [result getHeatmapData Heatmap.data].
    rewrite heatmap_filter_country;
      [|exact Hnd|eapply get_Some_keys; exact Hget].
    unfold heatmapCells, countryVideos. rewrite Hget.
    change (default [] (Some rows)) with rows.
    rewrite map_map. cbn [HeatCell.value].
    assert (Hlen : 0 < Z.of_nat (length rows))
      by (destruct rows; [congruence|simpl; lia]).
    rewrite (Qsum_percentage _ _ _ Hlen).
    assert (Hsum : Zsum (map (fun category =>
                                default 0 (countCategories rows !! category))
                           (JsArray.sortStrings
                              (collectCategories (allVideos videoData))))
                   = Z.of_nat (length rows)).
    { rewrite <- (Zsum_rowsOfCategory
                    (JsArray.sortStrings (collectCategories (allVideos videoData)))
                    rows).
      - f_equal. apply map_ext_in. intros category Hcat.
        apply countCategories_lookup.
        apply (heatmap_categories videoData) in Hcat as (_ & _ & _ & H). exact H.
      - apply (heatmap_categories_NoDup videoData).
      - intros row Hrow. apply (heatmap_categories videoData).
        exists row. split; [eapply countryVideos_all; eauto|].
        split; [reflexivity|]. now apply Hnamed. }
    rewrite Hsum. field. now apply inject_Z_nonzero.
Qed.

End HeatmapFacts.

Module LoadFacts.
Import JsString DataLoader JsObj JsObjFacts ParserFacts HeatmapFacts.
Import Notions Examples.

Section Zone.
Context {zone : JsDate.TimeZone}.

Section Obj.
Context {V : Type}.
Implicit Types (o : JsObj.t V) (k : string) (v : V).

Lemma keys_replace o k v : has o k = true -> keys (replace k v o) = keys o.
Proof.
  unfold has. induction o as [|[k0 v0] o IH]; simpl; [reflexivity|].
  destruct (String.eqb_spec k0 k) as [->|Hne]; simpl; [reflexivity|].
  intros H. f_equal. now apply IH.
Qed.

Lemma keys_place o k v : Permutation (keys (place k v o)) (k :: keys o).
Proof.
  induction o as [|[k0 v0] o IH]; simpl; [reflexivity|].
  destruct (precedes k k0); simpl; [reflexivity|].
  etransitivity; [apply perm_skip, IH|apply perm_swap].
Qed.

Lemma keys_set_NoDup o k v : NoDup (keys o) -> NoDup (keys (set o k v)).
Proof.
  intros Hnd. unfold set. destruct (has o k) eqn:E.
  - now rewrite keys_replace.
  - rewrite keys_place. apply NoDup_cons. split; [|exact Hnd].
    intros Hin. apply list_elem_of_In, keys_get in Hin as [v' Hv'].
    unfold has in E. now rewrite Hv' in E.
Qed.
End Obj.

Lemma categoryName_truthy categories country id :
  categoryName categories country id <> EmptyString.
Proof.
  unfold categoryName.
  destruct (categories !! country) as [names|]; [|discriminate].
  destruct (names !! pretty id) as [title|]; [|discriminate].
  destruct (truthy title) eqn:E; [|discriminate].
  now apply truthy_ne.
Qed.

Lemma parseCSV_category_name categories text country row :
  In row (parseCSV categories text country) ->
  category_name row <> EmptyString.
Proof.
  intros Hin. apply parseCSV_makeRow in Hin as (headers & values & ->).
  apply categoryName_truthy.
Qed.

Lemma loadVideoData_keys categories fetched videoData :
  NoDup (keys videoData) ->
  NoDup (keys (loadVideoData categories fetched videoData)).
Proof.
  unfold loadVideoData. revert videoData.
  induction fetched as [|[country text] fetched IH]; intros videoData Hnd;
    simpl; [exact Hnd|].
  apply IH. now apply keys_set_NoDup.
Qed.

Lemma loadVideoData_get categories fetched videoData country rows :
  get (loadVideoData categories fetched videoData) country = Some rows ->
  get videoData country = Some rows
  \/ exists text, rows = parseCSV categories text country.
Proof.
  unfold loadVideoData. revert videoData.
  induction fetched as [|[c text] fetched IH]; intros videoData; simpl; [auto|].
  intros H. apply IH in H as [H|H]; [|auto].
  rewrite get_set in H. destruct (String.eqb_spec c country) as [->|_]; [|auto].
  injection H as <-. eauto.
Qed.

(** Every row of loaded data has a category name. *)
Lemma loadVideoData_named categories fetched country rows row :
  get (loadVideoData categories fetched []) country = Some rows ->
  In row rows -> category_name row <> EmptyString.
Proof.
  intros Hget Hin. apply loadVideoData_get in Hget as [Hget|[text ->]].
  - discriminate.
  - eapply parseCSV_category_name; eauto.
Qed.

End Zone.

End LoadFacts.

Module HeatmapWitness.
Import JsString DataLoader JsObj JsObjFacts ParserFacts HeatmapFacts LoadFacts.
Import Notions Examples.

(** The example is read in the zone of Greenwich. *)
#[local] Existing Instance JsDate.utc.

Lemma getHeatmapData_percentages_witness :
  (Qsum (map HeatCell.value
           (List.filter (fun cell => String.eqb (HeatCell.country cell) "US")
              (Heatmap.data (getHeatmapData heatData))))
   == 100)%Q.
Proof.
  apply (proj2 (proj2 (getHeatmapData_percentages heatData))
           "US" (countryVideos heatData "US")).
  - apply loadVideoData_keys. constructor.
  - reflexivity.
  - vm_compute. discriminate.
  - intros row Hin.
    apply (loadVideoData_named musicAndComedy heatFiles "US"
             (countryVideos heatData "US") row); [reflexivity|exact Hin].
Defined.
End HeatmapWitness.

Module TimingFacts.
Import JsString JsDate DataLoader JsArrayFacts JsObjFacts HeatmapFacts.
Import Notions Examples.

(** *** Buckets: sums over the classes of a classifier *)

Section Buckets.
Context {A K : Type} `{EqDecision K}.
Variables (classify : A -> option K) (weight : A -> Z).
Local Abbreviation bucket := (Notions.bucket classify).
Local Abbreviation classified := (Notions.classified classify).

Lemma Zsum_app l1 l2 : Zsum (l1 ++ l2) = Zsum l1 + Zsum l2.
Proof.
  induction l1 as [|x l1 IH]; cbn [app]; [reflexivity|].
  rewrite !Zsum_cons, IH. lia.
Qed.

Lemma bucket_absent (keys : list K) (x : A) :
  (forall k, classify x = Some k -> ~ In k keys) ->
  Zsum (map (fun k => Zsum (map weight (bucket k [x]))) keys) = 0.
Proof.
  induction keys as [|k keys IH]; cbn [map]; [reflexivity|].
  intros Hx. rewrite Zsum_cons, IH by
    (intros k' Hk' Hin; apply (Hx k' Hk'); now right).
  unfold bucket. cbn [List.filter]. case_bool_decide as E; [|reflexivity].
  exfalso. apply (Hx k E). now left.
Qed.

Lemma bucket_single (keys : list K) (x : A) (k : K) :
  NoDup keys -> In k keys -> classify x = Some k ->
  Zsum (map (fun k => Zsum (map weight (bucket k [x]))) keys) = weight x.
Proof.
  intros Hnd Hin Hx. induction Hnd as [|k0 keys Hnotin Hnd IH];
    cbn [map]; [destruct Hin|].
  rewrite Zsum_cons. unfold bucket at 1. cbn [List.filter].
  destruct Hin as [->|Hin].
  - rewrite bool_decide_eq_true_2 by exact Hx.
    rewrite bucket_absent.
    + cbn. lia.
    + intros k' Hk' Hin. rewrite Hx in Hk'. injection Hk' as <-.
      apply Hnotin. now apply list_elem_of_In.
  - rewrite IH by exact Hin.
    rewrite bool_decide_eq_false_2; [reflexivity|].
    rewrite Hx. intros [= ->]. apply Hnotin. now apply list_elem_of_In.
Qed.

Lemma bucket_cons k x l : bucket k (x :: l) = (bucket k [x] ++ bucket k l)%list.
Proof. unfold bucket. cbn [List.filter]. now destruct (bool_decide _). Qed.

(** The buckets of a duplicate-free list of keys that covers the
    classes split the classified elements. *)
Lemma Zsum_buckets (keys : list K) (l : list A) :
  NoDup keys ->
  (forall x k, classify x = Some k -> In k keys) ->
  Zsum (map (fun k => Zsum (map weight (bucket k l))) keys)
  = Zsum (map weight (classified l)).
Proof.
  intros Hnd Hcover. induction l as [|x l IH].
  - unfold bucket. cbn. clear. induction keys as [|k ks IHk]; cbn [map];
      [reflexivity|]. now rewrite Zsum_cons, IHk.
  - transitivity
      (Zsum (map (fun k => Zsum (map weight (bucket k [x]))) keys)
       + Zsum (map (fun k => Zsum (map weight (bucket k l))) keys)).
    + clear. induction keys as [|k ks IHk]; cbn [map]; [reflexivity|].
      rewrite !Zsum_cons, IHk, bucket_cons, map_app, Zsum_app. lia.
    + rewrite IH. unfold classified. cbn [List.filter].
      destruct (classify x) as [k|] eqn:Hx.
      * rewrite bool_decide_eq_true_2 by eauto.
        cbn [map]. rewrite Zsum_cons.
        rewrite (bucket_single keys x k); eauto.
      * rewrite bool_decide_eq_false_2 by (intros [? ?]; discriminate).
        rewrite bucket_absent; [lia|]. intros k Hk. rewrite Hx in Hk. discriminate.
Qed.
End Buckets.

(** *** The grid *)

Lemma hasSlot_empty day hour :
  (day < 7)%nat -> (hour < 24)%nat -> hasSlot emptyGrid day hour.
Proof.
  intros Hd Hh. unfold hasSlot, emptyGrid.
  rewrite lookup_replicate_2 by exact Hd. cbn [mbind option_bind].
  rewrite lookup_replicate_2 by exact Hh. eauto.
Qed.

Lemma lookup_alter_slot (f : Slot.t -> Slot.t) (timingData : list (list Slot.t))
    (day' hour' day hour : nat) :
  alter (alter f hour') day' timingData !! day ≫= (fun row : list Slot.t => row !! hour)
  = if decide (day = day' /\ hour = hour')
    then f <$> (timingData !! day ≫= (fun row : list Slot.t => row !! hour))
    else timingData !! day ≫= (fun row : list Slot.t => row !! hour).
Proof.
  destruct (decide (day = day')) as [->|Hd].
  - rewrite list_lookup_alter_eq.
    destruct (timingData !! day') as [row|]; cbn [fmap option_fmap option_map mbind option_bind].
    + destruct (decide (hour = hour')) as [->|Hh].
      * rewrite list_lookup_alter_eq. now rewrite decide_True by auto.
      * rewrite list_lookup_alter_ne by auto.
        rewrite decide_False by (intros [_ ?]; auto). reflexivity.
    + now destruct (decide _).
  - rewrite list_lookup_alter_ne by auto.
    rewrite decide_False by (intros [? _]; auto). reflexivity.
Qed.

Lemma hasSlot_alter (f : Slot.t -> Slot.t) (timingData : list (list Slot.t))
    (day' hour' day hour : nat) :
  hasSlot timingData day hour ->
  hasSlot (alter (alter f hour') day' timingData) day hour.
Proof.
  unfold hasSlot. rewrite lookup_alter_slot. intros [slot ->].
  destruct (decide _); cbn; eauto.
Qed.

Lemma slotAt_alter (f : Slot.t -> Slot.t) (timingData : list (list Slot.t))
    (day' hour' day hour : nat) :
  hasSlot timingData day hour ->
  slotAt (alter (alter f hour') day' timingData) day hour
  = if decide (day = day' /\ hour = hour')
    then f (slotAt timingData day hour)
    else slotAt timingData day hour.
Proof.
  unfold hasSlot, slotAt. rewrite lookup_alter_slot. intros [slot ->].
  now destruct (decide _).
Qed.

Lemma slotAt_emptyGrid day hour : slotAt emptyGrid day hour = Slot.empty.
Proof.
  unfold slotAt, emptyGrid.
  destruct (replicate 7 (replicate 24 Slot.empty) !! day) as [row|] eqn:Hrow;
    [|reflexivity].
  apply lookup_replicate in Hrow as [-> _]. cbn [mbind option_bind].
  destruct (replicate 24 Slot.empty !! hour) as [slot|] eqn:Hslot;
    [|reflexivity].
  apply lookup_replicate in Hslot as [-> _]. reflexivity.
Qed.

Section Timing.
Context {zone : JsDate.TimeZone}.
Variable Date_parse : string -> Date.
Local Abbreviation slotOf := (Notions.slotOf Date_parse).
Local Abbreviation timed := (Notions.timed Date_parse).
Local Abbreviation timedRows := (Notions.timedRows Date_parse).

Lemma getDay_range t : 0 <= getDay t <= 6.
Proof. unfold getDay. pose proof (Z.mod_pos_bound (day t + 4) 7). lia. Qed.

Lemma getHours_range t : 0 <= getHours t <= 23.
Proof. unfold getHours. pose proof (Z.mod_pos_bound (t / 3600000) 24). lia. Qed.

Lemma slotOf_timed video : is_Some (slotOf video) <-> timed video.
Proof.
  unfold Notions.slotOf, Notions.timed.
  destruct (props video !! "publish_time") as [text|]; [|split].
  - destruct (truthy text) eqn:E.
    + apply truthy_ne in E. destruct (Date_parse text) as [|t] eqn:Ht.
      * split; [intros [? [=]]|intros (? & ? & [= <-] & _ & H); congruence].
      * pose proof (getDay_range (localTime t)).
        pose proof (getHours_range (localTime t)).
        replace ((0 <=? getDay (localTime t)) && (getDay (localTime t) <=? 6)
                 && (0 <=? getHours (localTime t))
                 && (getHours (localTime t) <=? 23)) with true
          by (symmetry; rewrite !andb_true_iff, !Z.leb_le; lia).
        split; [eauto 6|eauto].
    + split; [intros [? [=]]|].
      intros (? & ? & [= <-] & Hne & _). apply truthy_ne in Hne. congruence.
  - intros [? [=]].
  - intros (? & ? & [=] & _).
Qed.

Lemma slotOf_range video day hour :
  slotOf video = Some (day, hour) -> (day < 7)%nat /\ (hour < 24)%nat.
Proof.
  unfold Notions.slotOf. destruct (props video !! _); [|discriminate].
  destruct (truthy _); [|discriminate].
  destruct (Date_parse _) as [|t]; [discriminate|].
  pose proof (getDay_range (localTime t)).
  pose proof (getHours_range (localTime t)).
  destruct (_ && _); [|discriminate]. intros [= <- <-]. lia.
Qed.

Lemma timingStep_slotOf timingData video :
  timingStep Date_parse timingData video
  = match slotOf video with
    | Some (day, hour) =>
        alter (alter (addVideo video) hour) day timingData
    | None => timingData
    end.
Proof.
  unfold timingStep, Notions.slotOf.
  destruct (props video !! _); [|reflexivity].
  destruct (truthy _); [|reflexivity].
  destruct (Date_parse _); [reflexivity|].
  now destruct (_ && _).
Qed.

(** The slot of a cell holds the rows of its bucket, in order. *)
Lemma slotAt_fold videos timingData day hour :
  hasSlot timingData day hour ->
  slotAt (fold_left (timingStep Date_parse) videos timingData) day hour
  = fold_left (fun slot video => addVideo video slot)
      (bucket slotOf (day, hour) videos) (slotAt timingData day hour).
Proof.
  revert timingData. induction videos as [|video videos IH];
    intros timingData Hslot; cbn [fold_left]; [reflexivity|].
  rewrite timingStep_slotOf, bucket_cons. rewrite fold_left_app.
  unfold bucket at 2. cbn [List.filter].
  destruct (slotOf video) as [[day' hour']|] eqn:E.
  - rewrite IH by now apply hasSlot_alter.
    rewrite slotAt_alter by exact Hslot.
    destruct (decide (day = day' /\ hour = hour')) as [[-> ->]|Hne].
    + now rewrite bool_decide_eq_true_2.
    + rewrite bool_decide_eq_false_2; [reflexivity|].
      intros [= -> ->]. now apply Hne.
  - rewrite IH by exact Hslot.
    now rewrite bool_decide_eq_false_2.
Qed.

Lemma fold_addVideo videos slot :
  let final := fold_left (fun slot video => addVideo video slot) videos slot in
  Slot.count final = Slot.count slot + Z.of_nat (length videos)
  /\ Slot.totalViews final
     = Slot.totalViews slot + Zsum (map views videos).
Proof.
  revert slot. induction videos as [|video videos IH]; intros slot;
    cbn [fold_left length map]; [cbn; lia|].
  destruct (IH (addVideo video slot)) as [-> ->].
  rewrite Zsum_cons. cbn [addVideo Slot.count Slot.totalViews]. lia.
Qed.

Lemma slotAt_fillGrid videos day hour :
  (day < 7)%nat -> (hour < 24)%nat ->
  let slot := slotAt (fillGrid Date_parse videos) day hour in
  Slot.count slot = Z.of_nat (length (bucket slotOf (day, hour) videos))
  /\ Slot.totalViews slot = Zsum (map views (bucket slotOf (day, hour) videos)).
Proof.
  intros Hd Hh. unfold fillGrid. cbn zeta.
  rewrite slotAt_fold by now apply hasSlot_empty.
  destruct (fold_addVideo (bucket slotOf (day, hour) videos)
              (slotAt emptyGrid day hour)) as [-> ->].
  rewrite slotAt_emptyGrid. cbn. lia.
Qed.

Lemma gridIndices_In day hour :
  In (day, hour) gridIndices <-> (day < 7)%nat /\ (hour < 24)%nat.
Proof.
  unfold gridIndices. rewrite in_flat_map. split.
  - intros (d & Hd & Hin). apply in_map_iff in Hin as (h & [= <- <-] & Hh).
    apply in_seq in Hd. apply in_seq in Hh. lia.
  - intros [Hd Hh]. exists day. split; [apply in_seq; lia|].
    apply in_map_iff. exists hour. split; [reflexivity|apply in_seq; lia].
Qed.

Lemma gridIndices_NoDup : NoDup gridIndices.
Proof. apply (bool_decide_unpack (NoDup gridIndices)). vm_compute. exact I. Qed.

Lemma overallTotals_sums (timingData : list (list Slot.t)) :
  (forall day hour, In (day, hour) gridIndices ->
     0 <= Slot.count (slotAt timingData day hour)
     /\ (Slot.count (slotAt timingData day hour) = 0 ->
         Slot.totalViews (slotAt timingData day hour) = 0)) ->
  overallTotals timingData
  = (Zsum (map (fun '(day, hour) => Slot.totalViews (slotAt timingData day hour))
             gridIndices),
     Zsum (map (fun '(day, hour) => Slot.count (slotAt timingData day hour))
             gridIndices)).
Proof.
  unfold overallTotals. generalize gridIndices as cells.
  intros cells Hcells.
  enough (H : forall totalViews totalVideos,
             fold_left
               (fun '(totalViews, totalVideos) '(day, hour) =>
                  let slot := slotAt timingData day hour in
                  if 0 <? Slot.count slot
                  then (totalViews + Slot.totalViews slot,
                        totalVideos + Slot.count slot)
                  else (totalViews, totalVideos))
               cells (totalViews, totalVideos)
             = (totalViews
                + Zsum (map (fun '(day, hour) =>
                               Slot.totalViews (slotAt timingData day hour)) cells),
                totalVideos
                + Zsum (map (fun '(day, hour) =>
                               Slot.count (slotAt timingData day hour)) cells))).
  { rewrite H. f_equal; lia. }
  induction cells as [|[day hour] cells IH]; intros totalViews totalVideos;
    cbn [fold_left map].
  - cbn. f_equal; lia.
  - rewrite !Zsum_cons. cbn zeta.
    destruct (Hcells day hour (or_introl eq_refl)) as [Hpos Hzero].
    destruct (Z.ltb_spec 0 (Slot.count (slotAt timingData day hour))).
    + rewrite IH by (intros; apply Hcells; now right). f_equal; lia.
    + rewrite IH by (intros; apply Hcells; now right).
      rewrite Hzero by lia. f_equal; lia.
Qed.

Lemma timedRows_timed videos video :
  In video (timedRows videos) <-> In video videos /\ timed video.
Proof.
  unfold Notions.timedRows, Notions.classified. rewrite filter_In, bool_decide_eq_true.
  now rewrite slotOf_timed.
Qed.

Lemma overallTotals_fillGrid videos :
  overallTotals (fillGrid Date_parse videos)
  = (Zsum (map views (timedRows videos)), Z.of_nat (length (timedRows videos))).
Proof.
  unfold Notions.timedRows. rewrite overallTotals_sums.
  - f_equal.
    + rewrite <- (Zsum_buckets slotOf views gridIndices videos gridIndices_NoDup).
      * f_equal. apply map_ext_in. intros [day hour] Hin.
        apply gridIndices_In in Hin as [Hd Hh].
        now destruct (slotAt_fillGrid videos day hour Hd Hh) as [_ ->].
      * intros video [day hour] Hs. apply gridIndices_In.
        eapply slotOf_range; eauto.
    + transitivity (Zsum (map (fun _ => 1) (classified slotOf videos))).
      * rewrite <- (Zsum_buckets slotOf (fun _ => 1) gridIndices videos
                      gridIndices_NoDup).
        -- f_equal. apply map_ext_in. intros [day hour] Hin.
           apply gridIndices_In in Hin as [Hd Hh].
           destruct (slotAt_fillGrid videos day hour Hd Hh) as [-> _].
           clear. induction (bucket slotOf (day, hour) videos) as [|x l IH];
             cbn [length map]; [reflexivity|].
           rewrite Zsum_cons, <- IH. lia.
        -- intros video [day hour] Hs. apply gridIndices_In.
           eapply slotOf_range; eauto.
      * clear. induction (classified slotOf videos) as [|x l IH];
          cbn [length map]; [reflexivity|].
        rewrite Zsum_cons, IH. lia.
  - intros day hour Hin. apply gridIndices_In in Hin as [Hd Hh].
    destruct (slotAt_fillGrid videos day hour Hd Hh) as [-> ->].
    split; [lia|].
    destruct (bucket slotOf (day, hour) videos); [reflexivity|cbn; lia].
Qed.

End Timing.

Lemma Qlt_bool_iff x y : Qlt_bool x y = true <-> (x < y)%Q.
Proof.
  unfold Qlt_bool. rewrite negb_true_iff, <- not_true_iff_false, Qle_bool_iff.
  split; [apply Qnot_le_lt|apply Qlt_not_le].
Qed.

Lemma capAt100_min x : (capAt100 x == Qmin 100 x)%Q.
Proof.
  unfold capAt100. destruct (Qlt_bool x 100) eqn:E.
  - apply Qlt_bool_iff in E. symmetry. apply Q.min_r. now apply Qlt_le_weak.
  - symmetry. apply Q.min_l. apply Qnot_lt_le. intros H.
    apply Qlt_bool_iff in H. congruence.
Qed.

Lemma capAt100_le x : (capAt100 x <= 100)%Q.
Proof. rewrite capAt100_min. apply Q.le_min_l. Qed.

Lemma average_nonneg total count : 0 <= total -> (0 <= average total count)%Q.
Proof.
  intros Ht. unfold average. destruct (Z.ltb_spec 0 count); [|apply Qle_refl].
  apply Qle_shift_div_l.
  - replace 0%Q with (inject_Z 0) by reflexivity. rewrite <- Zlt_Qlt. lia.
  - rewrite Qmult_0_l. replace 0%Q with (inject_Z 0) by reflexivity.
    rewrite <- Zle_Qle. lia.
Qed.

Lemma Zsum_nonneg (l : list Z) : Forall (fun x => 0 <= x) l -> 0 <= Zsum l.
Proof.
  induction 1 as [|x l Hx _ IH]; [cbn; lia|]. rewrite Zsum_cons. lia.
Qed.


(** The examples are read in the zone of Greenwich. *)
#[local] Existing Instance JsDate.utc.



End TimingFacts.

Module JsDateFacts.
Import JsDate.
Import Notions Examples.

Lemma daysFromYear_step y : 365 <= daysFromYear (y + 1) - daysFromYear y <= 366.
Proof. unfold daysFromYear. Z.to_euclidean_division_equations. lia. Qed.

Lemma daysFromYear_estimate y :
  -600 <= 400 * daysFromYear y - 146097 * (y - 1970) <= 600.
Proof. unfold daysFromYear. Z.to_euclidean_division_equations. lia. Qed.

Lemma yearFromDay_spec d :
  daysFromYear (yearFromDay d) <= d < daysFromYear (yearFromDay d + 1).
Proof.
  unfold yearFromDay.
  set (y0 := 1970 + 400 * d / 146097).
  pose proof (daysFromYear_estimate (y0 - 1)).
  pose proof (daysFromYear_estimate y0).
  pose proof (daysFromYear_estimate (y0 + 1)).
  pose proof (daysFromYear_estimate (y0 + 2)).
  assert (146097 * (y0 - 1970) <= 400 * d < 146097 * (y0 - 1970) + 146097).
  { unfold y0. Z.to_euclidean_division_equations. lia. }
  destruct (Z.ltb_spec d (daysFromYear y0)).
  - replace (y0 - 1 + 1) with y0 by lia. lia.
  - destruct (Z.leb_spec (daysFromYear (y0 + 1)) d).
    + replace (y0 + 1 + 1) with (y0 + 2) by lia. lia.
    + lia.
Qed.
End JsDateFacts.

Module WeekFacts.
Import JsDate DataLoader JsDateFacts.
Import Notions Examples.

Section Zone.
Context {zone : JsDate.TimeZone}.

Lemma day_bounds t : Z.abs t <= maxTime -> -100000000 <= day t <= 100000000.
Proof.
  unfold day, maxTime, msPerDay. intros H.
  Z.to_euclidean_division_equations. lia.
Qed.

Lemma dayWithinYear_range t : 0 <= dayWithinYear t <= 365.
Proof.
  unfold dayWithinYear, getFullYear.
  pose proof (yearFromDay_spec (day t)).
  pose proof (daysFromYear_step (yearFromDay (day t))). lia.
Qed.

(** January 1 of the year of a date, at midnight of the local time, is a
    valid date when the offsets of the zone are no more than a day, for
    the years the constructor does not read as 1900 + year. *)
Lemma newDate_january (t : Z) :
  let year := getFullYear (localTime t) in
  let january := daysFromYear year * msPerDay in
  Z.abs t <= maxTime -> 100 <= year ->
  Z.abs (offsetAt t) <= msPerDay -> Z.abs (offsetOf january) <= msPerDay ->
  newDate (Some year) (Some 0) (Some 1) = DateAt (utcTime january).
Proof.
  intros year january Ht Hy Hat Hof. unfold newDate.
  destruct (Z.leb_spec year 99); [lia|].
  rewrite andb_false_r.
  assert (Hm : makeDay year 0 1 = daysFromYear year).
  { unfold makeDay. change (0 / 12) with 0. change (0 mod 12) with 0.
    cbn [daysBeforeMonth].
    replace (year + 0) with year by lia. lia. }
  rewrite Hm. fold january. unfold timeClip.
  pose proof (yearFromDay_spec (day (localTime t))) as Hs.
  fold (getFullYear (localTime t)) in Hs. fold year in Hs.
  pose proof (daysFromYear_estimate year).
  assert (Hday : day (localTime t) <= 100000001).
  { unfold day, localTime, maxTime, msPerDay in *.
    Z.to_euclidean_division_equations. lia. }
  destruct (Z.leb_spec (Z.abs (utcTime january)) maxTime); [reflexivity|].
  unfold utcTime, january, maxTime, msPerDay in *. lia.
Qed.

(** The week of a date counts the weeks that have passed since the
    midnight that began its year in local time. *)
Lemma weekNumber_elapsed (t : Z) :
  let year := getFullYear (localTime t) in
  let january := daysFromYear year * msPerDay in
  Z.abs t <= maxTime -> 100 <= year ->
  Z.abs (offsetAt t) <= msPerDay -> Z.abs (offsetOf january) <= msPerDay ->
  weekNumber (DateAt t) = Some ((t - utcTime january) / msPerWeek).
Proof.
  intros year january Ht Hy Hat Hof. unfold weekNumber.
  now rewrite (newDate_january t Ht Hy Hat Hof).
Qed.

(** When the clock of the date is that of the midnight that began its
    year, the week is the day within the year over 7. *)
Lemma weekNumber_formula (t : Z) :
  let year := getFullYear (localTime t) in
  let january := daysFromYear year * msPerDay in
  Z.abs t <= maxTime -> 100 <= year ->
  Z.abs (offsetAt t) <= msPerDay -> offsetAt t = offsetOf january ->
  weekNumber (DateAt t) = Some (dayWithinYear (localTime t) / 7).
Proof.
  intros year january Ht Hy Hat Hsame.
  assert (Hof : Z.abs (offsetOf january) <= msPerDay) by now rewrite <- Hsame.
  rewrite (weekNumber_elapsed t Ht Hy Hat Hof).
  f_equal. unfold dayWithinYear, day. fold year january.
  change msPerWeek with (msPerDay * 7).
  rewrite <- Z.div_div by (unfold msPerDay; lia).
  f_equal.
  replace (t - utcTime january)
    with (localTime t + - daysFromYear year * msPerDay)
    by (unfold utcTime, localTime; subst january; lia).
  rewrite Z.div_add by (unfold msPerDay; lia). lia.
Qed.

Lemma periodKey_formula (t : Z) :
  let year := getFullYear (localTime t) in
  let january := daysFromYear year * msPerDay in
  Z.abs t <= maxTime -> 100 <= year ->
  Z.abs (offsetAt t) <= msPerDay -> offsetAt t = offsetOf january ->
  periodKey (DateAt t)
  = "Week " +:+ pretty (dayWithinYear (localTime t) / 7 + 1).
Proof.
  intros year january Ht Hy Hat Hsame. unfold periodKey.
  now rewrite (weekNumber_formula t Ht Hy Hat Hsame).
Qed.

(** When the clock of the date is ahead of that of the midnight that
    began its year, by less than a day, a date at midnight of a day whose
    number within the year is a multiple of 7 falls in the week before. *)
Lemma weekNumber_ahead (t : Z) :
  let year := getFullYear (localTime t) in
  let january := daysFromYear year * msPerDay in
  Z.abs t <= maxTime -> 100 <= year ->
  Z.abs (offsetAt t) <= msPerDay -> Z.abs (offsetOf january) <= msPerDay ->
  0 < offsetAt t - offsetOf january < msPerDay ->
  localTime t = day (localTime t) * msPerDay ->
  0 < dayWithinYear (localTime t) ->
  dayWithinYear (localTime t) mod 7 = 0 ->
  weekNumber (DateAt t) = Some (dayWithinYear (localTime t) / 7 - 1).
Proof.
  intros year january Ht Hy Hat Hof Hshift Hmidnight Hpos Hmod.
  rewrite (weekNumber_elapsed t Ht Hy Hat Hof).
  f_equal. unfold dayWithinYear in *. fold year january in Hpos, Hmod |- *.
  replace (t - utcTime january)
    with ((day (localTime t) - daysFromYear year) * msPerDay
          - (offsetAt t - offsetOf january))
    by (unfold utcTime; subst january; unfold localTime in *; lia).
  unfold msPerWeek, msPerDay in *.
  Z.to_euclidean_division_equations. lia.
Qed.

End Zone.

End WeekFacts.

Module TagFacts.
Import JsString DataLoader JsArrayFacts.
Import Notions Examples.

Lemma keepTag_true maxLength noneWords tag :
  keepTag maxLength noneWords tag = true ->
  (2 < String.length tag < maxLength)%nat
  /\ JsArray.includes nonePatterns tag = false
  /\ startsWith tag "[" && endsWith tag "]"
     && JsArray.includes nonePatterns (sliceInner tag) = false.
Proof.
  unfold keepTag.
  destruct (negb (truthy tag)); [discriminate|]. cbn [orb].
  destruct (Nat.leb_spec (String.length tag) 2); [discriminate|]. cbn [orb].
  destruct (Nat.leb_spec maxLength (String.length tag)); [discriminate|].
  destruct (JsArray.includes nonePatterns tag); [discriminate|].
  destruct (startsWith tag "[" && endsWith tag "]"
            && JsArray.includes nonePatterns (sliceInner tag));
    [discriminate|].
  intros _. repeat split; lia.
Qed.

Lemma bracketed_pattern pattern :
  In pattern nonePatterns ->
  startsWith ("[" +:+ pattern +:+ "]") "["
  && endsWith ("[" +:+ pattern +:+ "]") "]"
  && JsArray.includes nonePatterns (sliceInner ("[" +:+ pattern +:+ "]")) = true.
Proof.
  revert pattern. apply forallb_forall. vm_compute. reflexivity.
Qed.

Lemma In_take {A : Type} (n : nat) (l : list A) (x : A) : In x (take n l) -> In x l.
Proof.
  intros H. rewrite <- (take_drop n l). apply in_or_app. now left.
Qed.

(** C8. Tag cleaning with the length bound 30 maps the tag list of the
    example to the one tag gaming. Every tag it keeps is a token of the
    list with the quotes removed, trimmed and in lower case, has more than
    2 and fewer than 30 characters, and is neither a placeholder nor a
    placeholder in brackets. *)
Theorem videoTags_cleaning :
  rawTags exampleTags
  = ["gaming"; "none"; "[n/a]"; "x";
     "thisistoolongtobevalidasatagbecauseitexceedsthirtychars"]
  /\ videoTags exampleTags = ["gaming"]
  /\ videoTags quotedTags = ["gaming"]
  /\ forall tags tag,
      In tag (videoTags tags) ->
      (exists token, In token (split "|" tags)
                     /\ tag = toLowerCase (trim (removeQuotes token)))
      /\ (2 < String.length tag < 30)%nat
      /\ ~ In tag nonePatterns
      /\ (forall pattern, In pattern nonePatterns ->
                          tag <> "[" +:+ pattern +:+ "]").
Proof.
  split; [vm_compute; reflexivity|].
  split; [vm_compute; reflexivity|].
  split; [vm_compute; reflexivity|].
  intros tags tag Hin. unfold videoTags in Hin.
  apply In_take, filter_In in Hin as [Hraw Hkeep]. split; [|split; [|split]].
  - unfold rawTags in Hraw. apply in_map_iff in Hraw as (token & <- & Htoken).
    eauto.
  - apply keepTag_true in Hkeep. tauto.
  - apply keepTag_true in Hkeep as (_ & Hp & _). now apply includes_not_In.
  - intros pattern Hp ->. apply keepTag_true in Hkeep as (_ & _ & Hb).
    rewrite bracketed_pattern in Hb by exact Hp. discriminate.
Qed.

Lemma videoTags_cleaning_witness :
  In "gaming" (videoTags exampleTags)
  /\ (2 < String.length "gaming" < 30)%nat.
Proof.
  assert (Hin : In "gaming" (videoTags exampleTags)) by (left; reflexivity).
  split; [exact Hin|].
  exact (proj1 (proj2 (proj2 (proj2 (proj2 videoTags_cleaning))
                         exampleTags "gaming" Hin))).
Defined.

End TagFacts.

Module FlowFacts.
Import JsString DataLoader JsArrayFacts JsObjFacts LoadFacts.
Import Notions Examples.

(** *** The pair table *)

Lemma samePair_spec key key' : samePair key key' = true <-> key = key'.
Proof.
  destruct key as [a b], key' as [a' b']. unfold samePair. cbn [fst snd].
  rewrite andb_true_iff, !String.eqb_eq.
  split; [intros [-> ->]|intros [= -> ->]]; auto.
Qed.

Lemma samePair_refl key : samePair key key = true.
Proof. now apply samePair_spec. Qed.

Lemma pairGet_pairSet pairs key entry key' :
  pairGet (pairSet pairs key entry) key'
  = if samePair key key' then Some entry else pairGet pairs key'.
Proof.
  induction pairs as [|[k0 e0] pairs IH]; cbn [pairSet pairGet].
  - reflexivity.
  - destruct (samePair k0 key) eqn:E; cbn [pairGet].
    + apply samePair_spec in E as ->. now destruct (samePair key key').
    + rewrite IH. destruct (samePair key key') eqn:E'; [|reflexivity].
      apply samePair_spec in E' as ->. now rewrite E.
Qed.

Lemma pairGet_None pairs key :
  pairGet pairs key = None <-> ~ In key (map fst pairs).
Proof.
  induction pairs as [|[k0 e0] pairs IH]; cbn [pairGet map fst In]; [tauto|].
  destruct (samePair k0 key) eqn:E.
  - apply samePair_spec in E as ->. split; [discriminate|]. intros H. exfalso. auto.
  - rewrite IH. split; [|tauto]. intros H [->|?]; [|auto].
    now rewrite samePair_refl in E.
Qed.

Lemma pairSet_keys pairs key entry :
  map fst (pairSet pairs key entry)
  = match pairGet pairs key with
    | Some _ => map fst pairs
    | None => (map fst pairs ++ [key])%list
    end.
Proof.
  induction pairs as [|[k0 e0] pairs IH]; cbn [pairSet pairGet map fst app];
    [reflexivity|].
  destruct (samePair k0 key) eqn:E; cbn [map fst].
  - apply samePair_spec in E as ->. reflexivity.
  - rewrite IH. now destruct (pairGet pairs key).
Qed.

Lemma pairSet_NoDup pairs key entry :
  NoDup (map fst pairs) -> NoDup (map fst (pairSet pairs key entry)).
Proof.
  intros Hnd. rewrite pairSet_keys.
  destruct (pairGet pairs key) eqn:E; [exact Hnd|].
  apply pairGet_None in E.
  apply NoDup_app. split; [exact Hnd|]. split; [|apply NoDup_singleton].
  intros k Hk Hk'. apply list_elem_of_singleton in Hk'. subst k.
  apply E. now apply list_elem_of_In.
Qed.

Lemma pairGet_In pairs key entry :
  pairGet pairs key = Some entry -> In (key, entry) pairs.
Proof.
  induction pairs as [|[k0 e0] pairs IH]; cbn [pairGet]; [discriminate|].
  destruct (samePair k0 key) eqn:E; [|intros H; right; auto].
  apply samePair_spec in E as ->. intros [= ->]. now left.
Qed.

Lemma pairGet_of_In pairs key entry :
  NoDup (map fst pairs) -> In (key, entry) pairs -> pairGet pairs key = Some entry.
Proof.
  induction pairs as [|[k0 e0] pairs IH]; cbn [map fst pairGet];
    [intros _ []|].
  intros Hnd. apply NoDup_cons in Hnd as [Hnotin Hnd].
  intros [[= -> ->]|Hin]; [now rewrite samePair_refl|].
  destruct (samePair k0 key) eqn:E; [|auto].
  apply samePair_spec in E as ->. exfalso. apply Hnotin.
  apply list_elem_of_In, in_map_iff. now exists (key, entry).
Qed.

Lemma get_of_In {V : Type} (o : JsObj.t V) key value :
  NoDup (JsObj.keys o) -> In (key, value) o -> JsObj.get o key = Some value.
Proof.
  induction o as [|[k0 v0] o IH]; cbn [JsObj.keys map fst JsObj.get];
    [intros _ []|].
  intros Hnd. apply NoDup_cons in Hnd as [Hnotin Hnd].
  intros [[= -> ->]|Hin]; [now rewrite String.eqb_refl|].
  destruct (String.eqb_spec k0 key) as [->|_]; [|auto].
  exfalso. apply Hnotin. apply list_elem_of_In, in_map_iff. now exists (key, value).
Qed.

(** *** Occurrences *)

Lemma flowStep_occurrences video state :
  flowStep state video
  = if existsb throwing (occurrencesOf video) then None
    else Some (fold_left occurrenceStep (occurrencesOf video) state).
Proof.
  unfold flowStep, occurrencesOf.
  destruct (props video !! "tags") as [tags|]; [|reflexivity].
  destruct (_ && _); [|reflexivity].
  generalize (flowTags tags) as l. intros l. revert state.
  induction l as [|tag l IH]; intros state;
    cbn [forEachM fold_left map existsb]; [reflexivity|].
  unfold flowTagStep at 1, throwing at 1. cbn [fst snd].
  destruct (JsObj.inherited tag || JsObj.inherited (trim (category_name video)));
    cbn [orb]; [reflexivity|].
  apply IH.
Qed.

(** The loop throws at the first occurrence of an inherited name, and
    otherwise counts the occurrences one by one. *)
Lemma fold_flowStep videos state :
  forEachM flowStep videos state
  = if existsb throwing (occurrences videos) then None
    else Some (fold_left occurrenceStep (occurrences videos) state).
Proof.
  revert state. induction videos as [|video videos IH]; intros state;
    cbn [forEachM occurrences flat_map]; [reflexivity|].
  fold (occurrences videos).
  rewrite existsb_app, fold_left_app, flowStep_occurrences.
  destruct (existsb throwing (occurrencesOf video)); cbn [orb]; [reflexivity|].
  apply IH.
Qed.

Lemma getTagFlowData_cases videoData selectedCountry filterType :
  let occs := occurrences (videosToProcess videoData "global" selectedCountry) in
  getTagFlowData videoData selectedCountry filterType
  = if existsb throwing occs then Flow.mk [] [] selectedCountry
    else flowOf (fold_left occurrenceStep occs (FlowState.mk [] [] []))
           selectedCountry filterType.
Proof.
  intros occs. unfold getTagFlowData. rewrite fold_flowStep. fold occs.
  now destruct (existsb throwing occs).
Qed.

Lemma countWhere_snoc test l o :
  countWhere test (l ++ [o]) = countWhere test l + (if test o then 1 else 0).
Proof.
  unfold countWhere. rewrite List.filter_app, length_app. cbn [List.filter].
  destruct (test o); cbn [length]; lia.
Qed.

Lemma countWhere_nonneg test l : 0 <= countWhere test l.
Proof. unfold countWhere. lia. Qed.

(** *** The state after the loop *)

Lemma Counted_empty : Counted [] (FlowState.mk [] [] []).
Proof. split; cbn; intros; try constructor; reflexivity. Qed.

Lemma Counted_step done state o :
  Counted done state -> Counted (done ++ [o]) (occurrenceStep state o).
Proof.
  intros [Ht Hc Hp Htag Hcat Hpair].
  destruct o as [[tag category] [views likes]].
  unfold occurrenceStep, flowTagUpdate.
  split; cbn [FlowState.tagStats FlowState.categoryStats FlowState.tagCategoryPairs].
  - now apply keys_set_NoDup.
  - now apply keys_set_NoDup.
  - now apply pairSet_NoDup.
  - intros tag'. rewrite get_set, countWhere_snoc.
    change (ofTag tag' (tag, category, (views, likes)))
      with (String.eqb tag tag').
    specialize (Htag tag').
    destruct (String.eqb_spec tag tag') as [<-|Hne].
    + cbn [TagStats.count].
      destruct (JsObj.get (FlowState.tagStats state) tag) as [info|];
        cbn [default from_option id TagStats.count].
      * destruct Htag as [-> ?]. pose proof (countWhere_nonneg (ofTag tag) done). lia.
      * rewrite Htag. lia.
    + destruct (JsObj.get (FlowState.tagStats state) tag'); [split|]; try lia;
        destruct Htag; lia.
  - intros category'. rewrite get_set, countWhere_snoc.
    change (ofCategory category' (tag, category, (views, likes)))
      with (String.eqb category category').
    specialize (Hcat category').
    destruct (String.eqb_spec category category') as [<-|Hne].
    + cbn [CategoryStats.count].
      destruct (JsObj.get (FlowState.categoryStats state) category) as [info|];
        cbn [default from_option id CategoryStats.count].
      * destruct Hcat as [-> ?].
        pose proof (countWhere_nonneg (ofCategory category) done). lia.
      * rewrite Hcat. lia.
    + destruct (JsObj.get (FlowState.categoryStats state) category'); [split|];
        try lia; destruct Hcat; lia.
  - intros key'. rewrite pairGet_pairSet, countWhere_snoc.
    change (ofPair key' (tag, category, (views, likes)))
      with (samePair (tag, category) key').
    specialize (Hpair key').
    destruct (samePair (tag, category) key') eqn:E.
    + apply samePair_spec in E as <-.
      cbn [Pair.tag Pair.category Pair.count].
      destruct (pairGet (FlowState.tagCategoryPairs state) (tag, category))
        as [entry|]; cbn [default from_option id Pair.tag Pair.category Pair.count].
      * destruct Hpair as (-> & -> & ->). auto.
      * rewrite Hpair. auto.
    + destruct (pairGet (FlowState.tagCategoryPairs state) key');
        [destruct Hpair as (? & ? & ->)|]; repeat split; auto; lia.
Qed.

Lemma Counted_fold occs done state :
  Counted done state ->
  Counted (done ++ occs) (fold_left occurrenceStep occs state).
Proof.
  revert done state. induction occs as [|o occs IH]; intros done state H;
    cbn [fold_left].
  - now rewrite app_nil_r.
  - replace (done ++ o :: occs)%list with ((done ++ [o]) ++ occs)%list
      by now rewrite <- app_assoc.
    apply IH. now apply Counted_step.
Qed.

Lemma Counted_videos videos :
  Counted (occurrences videos)
    (fold_left occurrenceStep (occurrences videos) (FlowState.mk [] [] [])).
Proof. apply (Counted_fold _ [] _ Counted_empty). Qed.

End FlowFacts.

Module TopFacts.
Import JsString DataLoader JsArrayFacts JsObjFacts LoadFacts FlowFacts.
Import Notions Examples.

(** The keys of the entries with the largest counts, as [topTags] and
    [topCategories] select them. *)
Section Top.
Context {V : Type}.
Variables (count : V -> Z) (o : JsObj.t V) (limit : Z) (f : string -> Z).
Local Abbreviation ranked := (Notions.ranked count o).
Local Abbreviation top := (Notions.top count o limit).
Hypothesis keys_NoDup : NoDup (JsObj.keys o).
Hypothesis count_f : forall k v, JsObj.get o k = Some v -> count v = f k.

Lemma ranked_get k v : In (k, v) ranked -> JsObj.get o k = Some v.
Proof.
  intros Hin. apply get_of_In; [exact keys_NoDup|].
  unfold Notions.ranked in Hin. now apply sort_In in Hin.
Qed.

Lemma ranked_counts (l : list (string * V)) :
  (forall e, In e l -> In e ranked) ->
  map f (map fst l) = map (fun e => count (snd e)) l.
Proof.
  intros Hl. rewrite map_map. apply map_ext_in. intros [k v] Hin.
  symmetry. apply count_f. apply ranked_get. now apply Hl.
Qed.

Lemma ranked_sorted :
  StronglySorted (fun a b => count (snd b) <= count (snd a)) ranked.
Proof. apply (sort_descending (fun e : string * V => count (snd e)) o). Qed.

Lemma top_sorted : StronglySorted (fun a b => b <= a) (map f top).
Proof.
  unfold Notions.top. rewrite ranked_counts by apply slice0_In.
  apply (StronglySorted_fmap (fun e => count (snd e))
           (fun a b => count (snd b) <= count (snd a))); [auto|].
  destruct (slice0_prefix limit ranked) as [rest E].
  pose proof ranked_sorted as Hs. rewrite E in Hs.
  now apply StronglySorted_app_1_l in Hs.
Qed.

Lemma top_key k : In k top -> exists v, JsObj.get o k = Some v.
Proof.
  unfold Notions.top. intros Hin. apply in_map_iff in Hin as ([k' v] & <- & Hin).
  exists v. apply ranked_get. eapply slice0_In; eauto.
Qed.

Lemma top_length : 0 <= limit -> Z.of_nat (length top) <= limit.
Proof. intros H. unfold Notions.top. rewrite length_map. now apply slice0_length. Qed.

Lemma top_NoDup : NoDup top.
Proof.
  unfold Notions.top.
  destruct (slice0_prefix limit ranked) as [rest E].
  assert (H : NoDup (map fst ranked)).
  { unfold Notions.ranked. rewrite (Permutation_map _ (sort_perm _ _)).
    exact keys_NoDup. }
  rewrite E, map_app in H. now apply NoDup_app in H as [? _].
Qed.

(** Every key is kept unless the limit is reached. *)
Lemma top_complete k :
  0 <= limit -> In k (JsObj.keys o) ->
  In k top \/ Z.of_nat (length top) = limit.
Proof.
  intros Hlimit Hk. unfold Notions.top, JsArray.slice0.
  destruct (Z.ltb_spec limit 0); [lia|].
  destruct (Nat.le_gt_cases (length ranked) (Z.to_nat limit)) as [Hle|Hgt].
  - left. rewrite take_ge by exact Hle. unfold Notions.ranked.
    rewrite <- list_elem_of_In, (Permutation_map _ (sort_perm _ _)).
    now apply list_elem_of_In.
  - right. rewrite length_map, length_take. lia.
Qed.

(** A key that is left out counts no more than any key that is kept. *)
Lemma top_best k k' :
  In k top -> In k' (JsObj.keys o) -> ~ In k' top -> f k' <= f k.
Proof.
  unfold Notions.top. intros Hk Hk' Hout.
  destruct (slice0_prefix limit ranked) as [rest E].
  apply in_map_iff in Hk as ([k0 v] & <- & Hk).
  apply keys_get in Hk' as [v' Hv'].
  assert (Hin' : In (k', v') rest).
  { assert (H : In (k', v') ranked)
      by (apply sort_In; now apply get_Some_In).
    rewrite E in H. apply in_app_or in H as [H|H]; [|exact H].
    exfalso. apply Hout. apply in_map_iff. now exists (k', v'). }
  pose proof ranked_sorted as Hs. rewrite E in Hs.
  apply StronglySorted_app in Hs as (Hs & _ & _).
  specialize (Hs (k0, v) (k', v')). cbn [snd fst] in *.
  rewrite <- (count_f k' v' Hv').
  rewrite <- (count_f k0 v); [apply Hs; now apply list_elem_of_In|].
  apply ranked_get. eapply slice0_In; eauto.
Qed.
End Top.

Lemma map_imap_const {A B C : Type} (f : nat -> A -> B) (g : B -> C)
    (h : A -> C) (l : list A) :
  (forall i x, g (f i x) = h x) -> map g (imap f l) = map h l.
Proof.
  revert f. induction l as [|x l IH]; intros f Hf; [reflexivity|].
  rewrite imap_cons. cbn [map]. rewrite Hf. f_equal. apply IH.
  intros i y. apply Hf.
Qed.

(** *** The index of the nodes *)

Lemma indexNodes_lookup prefix names start (nodeIndex : gmap string nat) key i :
  indexNodes prefix names start nodeIndex !! key = Some i ->
  nodeIndex !! key = Some i
  \/ exists name, names !! (i - start)%nat = Some name
                  /\ key = prefix +:+ name /\ (start <= i)%nat.
Proof.
  revert start nodeIndex. induction names as [|name names IH];
    intros start nodeIndex; cbn [indexNodes]; [auto|].
  intros H. apply IH in H as [H|(name' & Hl & -> & Hle)].
  - rewrite lookup_insert in H. case_decide as E; [|auto].
    injection H as <-. right. exists name.
    rewrite Nat.sub_diag. auto.
  - right. exists name'. split; [|split; [reflexivity|lia]].
    replace (i - start)%nat with (S (i - S start)) by lia. exact Hl.
Qed.

Lemma indexNodes_Some prefix names start (nodeIndex : gmap string nat) key :
  is_Some (nodeIndex !! key)
  \/ (exists name, In name names /\ key = prefix +:+ name) ->
  is_Some (indexNodes prefix names start nodeIndex !! key).
Proof.
  revert start nodeIndex. induction names as [|name names IH];
    intros start nodeIndex; cbn [indexNodes].
  - intros [H|(name & [] & _)]. exact H.
  - intros H. apply IH. destruct H as [H|(name' & [<-|Hin] & ->)].
    + left. apply lookup_insert_is_Some.
      destruct (decide (prefix +:+ name = key)); auto.
    + left. apply lookup_insert_is_Some. now left.
    + right. eauto.
Qed.

Lemma nodeIndex_tag tags categories tag i :
  indexNodes "category_" categories (length tags) (indexNodes "tag_" tags 0 ∅)
    !! ("tag_" +:+ tag) = Some i ->
  tags !! i = Some tag.
Proof.
  intros H. apply indexNodes_lookup in H as [H|(name & _ & E & _)].
  - apply indexNodes_lookup in H as [H|(name & Hl & E & _)].
    + now rewrite lookup_empty in H.
    + cbv in E. injection E as ->. now rewrite Nat.sub_0_r in Hl.
  - discriminate.
Qed.

Lemma nodeIndex_category tags categories category i :
  indexNodes "category_" categories (length tags) (indexNodes "tag_" tags 0 ∅)
    !! ("category_" +:+ category) = Some i ->
  (length tags <= i)%nat /\ categories !! (i - length tags)%nat = Some category.
Proof.
  intros H. apply indexNodes_lookup in H as [H|(name & Hl & E & Hle)].
  - apply indexNodes_lookup in H as [H|(name & _ & E & _)].
    + now rewrite lookup_empty in H.
    + discriminate.
  - cbv in E. injection E as ->. auto.
Qed.

End TopFacts.

Module FlowTheorem.
Import JsString DataLoader JsArrayFacts JsObjFacts LoadFacts FlowFacts TopFacts.
Import Notions Examples.

Lemma sorted_by_key {A : Type} (key : A -> Z) (l : list A) :
  StronglySorted (fun a b => b <= a) (map key l) ->
  StronglySorted (fun a b => key b <= key a) l.
Proof.
  induction l as [|x l IH]; cbn [map]; [constructor|].
  intros H. apply StronglySorted_inv in H as [Hl Hx].
  constructor; [now apply IH|].
  apply List.Forall_forall. intros y Hy.
  rewrite List.Forall_forall in Hx. apply Hx. now apply in_map.
Qed.

Lemma flowPreset_limits filterType :
  let '(minFlowValue, tagLimit, categoryLimit) := flowPreset filterType in
  0 <= tagLimit /\ 0 <= categoryLimit.
Proof.
  unfold flowPreset. repeat destruct (String.eqb _ _); lia.
Qed.

Lemma flowPreset_threshold filterType :
  let '(minFlowValue, tagLimit, categoryLimit) := flowPreset filterType in
  0 < minFlowValue.
Proof.
  unfold flowPreset. repeat destruct (String.eqb _ _); lia.
Qed.

Lemma tag_count done state tag :
  Counted done state ->
  TagStats.count
    (default (TagStats.mk 0 0 []) (JsObj.get (FlowState.tagStats state) tag))
  = countWhere (ofTag tag) done.
Proof.
  intros H. pose proof (counted_tag _ _ H tag) as Ht.
  destruct (JsObj.get _ tag); cbn; [tauto|auto].
Qed.

Lemma category_count done state category :
  Counted done state ->
  CategoryStats.count
    (default (CategoryStats.mk 0 0 [])
       (JsObj.get (FlowState.categoryStats state) category))
  = countWhere (ofCategory category) done.
Proof.
  intros H. pose proof (counted_category _ _ H category) as Hc.
  destruct (JsObj.get _ category); cbn; [tauto|auto].
Qed.

Lemma tag_key done state tag :
  Counted done state -> 0 < countWhere (ofTag tag) done ->
  In tag (JsObj.keys (FlowState.tagStats state)).
Proof.
  intros H Hpos. pose proof (counted_tag _ _ H tag) as Ht.
  destruct (JsObj.get _ tag) eqn:E; [eapply get_Some_keys; eauto|lia].
Qed.

Lemma category_key done state category :
  Counted done state -> 0 < countWhere (ofCategory category) done ->
  In category (JsObj.keys (FlowState.categoryStats state)).
Proof.
  intros H Hpos. pose proof (counted_category _ _ H category) as Hc.
  destruct (JsObj.get _ category) eqn:E; [eapply get_Some_keys; eauto|lia].
Qed.

(** C9, as amended. [getTagFlowData] returns the result of its [catch]
    branch, without nodes and links, when a tag or a category of a
    processed row names a member that objects inherit, such as
    constructor. Otherwise its nodes are the tag nodes followed by the
    category nodes, each list without repetition, in descending order of
    the number of occurrences and no longer than the preset allows; every
    tag and every category that occurs is listed unless the limit of the
    preset is reached, and one left out occurs no more often than any
    that is kept. Every link joins a tag node and a category node, and
    the number of occurrences of its pair, which is its value, reaches
    the threshold of the preset; every pair of a listed tag and a listed
    category whose number reaches the threshold has a link. *)
Theorem getTagFlowData_nodes_links (videoData : VideoData)
    (selectedCountry filterType : string) :
  let occs := occurrences (videosToProcess videoData "global" selectedCountry) in
  let result := getTagFlowData videoData selectedCountry filterType in
  let '(minFlowValue, tagLimit, categoryLimit) := flowPreset filterType in
  (existsb throwing occs = true ->
   Flow.nodes result = [] /\ Flow.links result = [])
  /\ (existsb throwing occs = false ->
  exists tagNodes categoryNodes,
    Flow.nodes result = (tagNodes ++ categoryNodes)%list
    /\ Forall (fun node =>
                 Node.type node = TagNode
                 /\ Node.count node = countWhere (ofTag (Node.name node)) occs
                 /\ 0 < Node.count node)
         tagNodes
    /\ Forall (fun node =>
                 Node.type node = CategoryNode
                 /\ Node.count node
                    = countWhere (ofCategory (Node.name node)) occs
                 /\ 0 < Node.count node)
         categoryNodes
    /\ NoDup (map Node.name tagNodes)
    /\ NoDup (map Node.name categoryNodes)
    /\ StronglySorted (fun a b => Node.count b <= Node.count a) tagNodes
    /\ StronglySorted (fun a b => Node.count b <= Node.count a) categoryNodes
    /\ Z.of_nat (length tagNodes) <= tagLimit
    /\ Z.of_nat (length categoryNodes) <= categoryLimit
    /\ (forall tag,
          0 < countWhere (ofTag tag) occs ->
          In tag (map Node.name tagNodes)
          \/ Z.of_nat (length tagNodes) = tagLimit)
    /\ (forall category,
          0 < countWhere (ofCategory category) occs ->
          In category (map Node.name categoryNodes)
          \/ Z.of_nat (length categoryNodes) = categoryLimit)
    /\ (forall tag node,
          0 < countWhere (ofTag tag) occs ->
          ~ In tag (map Node.name tagNodes) ->
          In node tagNodes ->
          countWhere (ofTag tag) occs <= Node.count node)
    /\ (forall category node,
          0 < countWhere (ofCategory category) occs ->
          ~ In category (map Node.name categoryNodes) ->
          In node categoryNodes ->
          countWhere (ofCategory category) occs <= Node.count node)
    /\ Forall (fun link =>
                 minFlowValue <= Link.value link
                 /\ Link.value link
                    = countWhere (ofPair (Link.tag link, Link.category link)) occs
                 /\ (exists node,
                       tagNodes !! Link.source link = Some node
                       /\ Node.name node = Link.tag link)
                 /\ (length tagNodes <= Link.target link)%nat
                 /\ (exists node,
                       categoryNodes !! (Link.target link - length tagNodes)%nat
                       = Some node
                       /\ Node.name node = Link.category link))
         (Flow.links result)
    /\ (forall tag category,
          In tag (map Node.name tagNodes) ->
          In category (map Node.name categoryNodes) ->
          minFlowValue <= countWhere (ofPair (tag, category)) occs ->
          exists link,
            In link (Flow.links result)
            /\ Link.tag link = tag /\ Link.category link = category)).
Proof.
  intros occs result.
  pose proof (flowPreset_limits filterType) as Hlim.
  pose proof (flowPreset_threshold filterType) as Hmin.
  unfold result. rewrite getTagFlowData_cases.
  set (videos := videosToProcess videoData "global" selectedCountry) in *.
  fold occs.
  pose proof (Counted_videos videos) as HC. fold occs in HC.
  set (state := fold_left occurrenceStep occs (FlowState.mk [] [] [])) in *.
  unfold flowOf.
  destruct (flowPreset filterType) as [[minFlowValue tagLimit] categoryLimit].
  destruct Hlim as [HtagLimit HcategoryLimit].
  destruct (existsb throwing occs);
    (split; [intros H; try discriminate H; now split|]);
    intros Hthrows; [discriminate|clear Hthrows].
  cbn [Flow.nodes Flow.links].
  set (tags := topTags (FlowState.tagStats state) tagLimit).
  set (categories := topCategories (FlowState.categoryStats state) categoryLimit).
  assert (Htagf : forall k v, JsObj.get (FlowState.tagStats state) k = Some v ->
                              TagStats.count v = countWhere (ofTag k) occs).
  { intros k v Hk. pose proof (counted_tag _ _ HC k) as H.
    rewrite Hk in H. tauto. }
  assert (Hcatf : forall k v, JsObj.get (FlowState.categoryStats state) k = Some v ->
                              CategoryStats.count v
                              = countWhere (ofCategory k) occs).
  { intros k v Hk. pose proof (counted_category _ _ HC k) as H.
    rewrite Hk in H. tauto. }
  assert (Htagpos : forall tag, In tag tags -> 0 < countWhere (ofTag tag) occs).
  { intros tag Hin.
    apply (top_key TagStats.count _ _ (counted_tags_NoDup _ _ HC)) in Hin
      as [v Hv].
    pose proof (counted_tag _ _ HC tag) as H. rewrite Hv in H. lia. }
  assert (Hcatpos : forall c, In c categories ->
                              0 < countWhere (ofCategory c) occs).
  { intros c Hin.
    apply (top_key CategoryStats.count _ _ (counted_categories_NoDup _ _ HC))
      in Hin as [v Hv].
    pose proof (counted_category _ _ HC c) as H. rewrite Hv in H. lia. }
  assert (HtagCount :
            map Node.count (imap (tagNode (FlowState.tagStats state)) tags)
            = map (fun tag => countWhere (ofTag tag) occs) tags).
  { apply map_imap_const. intros i tag. cbn [tagNode Node.count].
    now apply tag_count. }
  assert (HcatCount :
            map Node.count
              (imap (categoryNode (FlowState.categoryStats state)) categories)
            = map (fun c => countWhere (ofCategory c) occs) categories).
  { apply map_imap_const. intros i c. cbn [categoryNode Node.count].
    now apply category_count. }
  assert (HtagName :
            map Node.name (imap (tagNode (FlowState.tagStats state)) tags) = tags).
  { rewrite <- (map_id tags) at 2. now apply map_imap_const. }
  assert (HcatName :
            map Node.name
              (imap (categoryNode (FlowState.categoryStats state)) categories)
            = categories).
  { rewrite <- (map_id categories) at 2. now apply map_imap_const. }
  eexists _, _. split; [reflexivity|].
  rewrite HtagName, HcatName, !length_imap.
  split; [|split; [|split; [|split; [|split; [|split; [|split; [|split;
    [|split; [|split; [|split; [|split; [|split]]]]]]]]]]]].
  - apply List.Forall_forall. intros node Hin.
    apply list_elem_of_In, elem_of_lookup_imap in Hin as (i & tag & -> & Hi).
    split; [reflexivity|]. cbn [tagNode Node.count Node.name].
    rewrite (tag_count occs) by exact HC. split; [reflexivity|].
    apply Htagpos, list_elem_of_In, list_elem_of_lookup. eauto.
  - apply List.Forall_forall. intros node Hin.
    apply list_elem_of_In, elem_of_lookup_imap in Hin as (i & c & -> & Hi).
    split; [reflexivity|]. cbn [categoryNode Node.count Node.name].
    rewrite (category_count occs) by exact HC. split; [reflexivity|].
    apply Hcatpos, list_elem_of_In, list_elem_of_lookup. eauto.
  - exact (top_NoDup TagStats.count (FlowState.tagStats state) tagLimit
             (counted_tags_NoDup _ _ HC)).
  - exact (top_NoDup CategoryStats.count (FlowState.categoryStats state)
             categoryLimit (counted_categories_NoDup _ _ HC)).
  - assert (Hs : StronglySorted (fun a b => b <= a)
                     (map (fun tag => countWhere (ofTag tag) occs) tags))
      by exact (top_sorted TagStats.count (FlowState.tagStats state) tagLimit
                  (fun tag => countWhere (ofTag tag) occs)
                  (counted_tags_NoDup _ _ HC) Htagf).
    rewrite <- HtagCount in Hs. now apply sorted_by_key.
  - assert (Hs : StronglySorted (fun a b => b <= a)
                     (map (fun c => countWhere (ofCategory c) occs) categories))
      by exact (top_sorted CategoryStats.count (FlowState.categoryStats state)
                  categoryLimit (fun c => countWhere (ofCategory c) occs)
                  (counted_categories_NoDup _ _ HC) Hcatf).
    rewrite <- HcatCount in Hs. now apply sorted_by_key.
  - exact (top_length TagStats.count (FlowState.tagStats state) tagLimit
             HtagLimit).
  - exact (top_length CategoryStats.count (FlowState.categoryStats state)
             categoryLimit HcategoryLimit).
  - intros tag Hpos.
    apply (top_complete TagStats.count (FlowState.tagStats state) tagLimit);
      [exact HtagLimit|]. eapply tag_key; eauto.
  - intros category Hpos.
    apply (top_complete CategoryStats.count (FlowState.categoryStats state)
             categoryLimit); [exact HcategoryLimit|].
    eapply category_key; eauto.
  - intros tag node Hpos Hout Hin.
    apply list_elem_of_In, elem_of_lookup_imap in Hin as (i & kept & -> & Hk).
    cbn [tagNode Node.count]. rewrite (tag_count occs) by exact HC.
    apply (top_best TagStats.count (FlowState.tagStats state) tagLimit
             (fun tag => countWhere (ofTag tag) occs)
             (counted_tags_NoDup _ _ HC) Htagf kept tag).
    + change (In kept tags). apply list_elem_of_In, list_elem_of_lookup. eauto.
    + eapply tag_key; eauto.
    + exact Hout.
  - intros category node Hpos Hout Hin.
    apply list_elem_of_In, elem_of_lookup_imap in Hin as (i & kept & -> & Hk).
    cbn [categoryNode Node.count]. rewrite (category_count occs) by exact HC.
    apply (top_best CategoryStats.count (FlowState.categoryStats state)
             categoryLimit (fun c => countWhere (ofCategory c) occs)
             (counted_categories_NoDup _ _ HC) Hcatf kept category).
    + change (In kept categories).
      apply list_elem_of_In, list_elem_of_lookup. eauto.
    + eapply category_key; eauto.
    + exact Hout.
  - apply List.Forall_forall. intros link Hin.
    apply in_flat_map in Hin as (flow & Hflow & Hin).
    unfold significantFlows in Hflow. apply filter_In in Hflow as [Hflow Hkeep].
    apply andb_prop in Hkeep as [Hkeep _].
    apply andb_prop in Hkeep as [Hmin' _]. apply Z.leb_le in Hmin'.
    apply in_map_iff in Hflow as ([key entry] & Hentry & Hflow).
    cbn [snd] in Hentry. subst entry.
    apply (pairGet_of_In _ _ _ (counted_pairs_NoDup _ _ HC)) in Hflow.
    pose proof (counted_pair _ _ HC key) as Hpair. rewrite Hflow in Hpair.
    destruct Hpair as (Htag & Hcat & Hcount).
    unfold flowLink in Hin. fold tags categories in Hin.
    destruct (_ !! ("tag_" +:+ Pair.tag flow)) as [sourceIndex|] eqn:Hs;
      [|destruct Hin].
    destruct (_ !! ("category_" +:+ Pair.category flow)) as [targetIndex|] eqn:Ht;
      [|destruct Hin].
    destruct Hin as [<-|[]].
    cbn [Link.value Link.tag Link.category Link.source Link.target].
    apply nodeIndex_tag in Hs. apply nodeIndex_category in Ht as [Hle Ht].
    split; [exact Hmin'|]. split; [|split; [|split]].
    + rewrite Hcount. destruct key. cbn [fst snd] in *. now subst.
    + eexists. rewrite list_lookup_imap, Hs. split; reflexivity.
    + exact Hle.
    + eexists. rewrite list_lookup_imap, Ht. split; reflexivity.
  - intros tag category Htag Hcat Hcount.
    pose proof (counted_pair _ _ HC (tag, category)) as Hpair.
    destruct (pairGet (FlowState.tagCategoryPairs state) (tag, category))
      as [entry|] eqn:Hget; [|lia].
    cbn [fst snd] in Hpair. destruct Hpair as (Het & Hec & Hen).
    assert (Hsource :
              is_Some (indexNodes "category_" categories (length tags)
                         (indexNodes "tag_" tags 0 ∅) !! ("tag_" +:+ tag))).
    { apply indexNodes_Some. left. apply indexNodes_Some. right. eauto. }
    assert (Htarget :
              is_Some (indexNodes "category_" categories (length tags)
                         (indexNodes "tag_" tags 0 ∅)
                         !! ("category_" +:+ category))).
    { apply indexNodes_Some. right. eauto. }
    destruct Hsource as [sourceIndex Hsource].
    destruct Htarget as [targetIndex Htarget].
    eexists. split.
    + apply in_flat_map. exists entry. split.
      * unfold significantFlows. apply filter_In. split.
        -- apply in_map_iff. exists ((tag, category), entry).
           split; [reflexivity|]. now apply pairGet_In.
        -- rewrite Het, Hec, Hen.
           rewrite (proj2 (Z.leb_le _ _) Hcount).
           now rewrite !(proj2 (includes_In _ _)).
      * unfold flowLink. rewrite Het, Hec. fold tags categories.
        rewrite Hsource, Htarget. now left.
    + cbn [Link.tag Link.category]. auto.
Qed.

End FlowTheorem.

Module FlowExamples.
Import JsString DataLoader FlowFacts FlowTheorem.
Import Notions Examples.

Lemma getTagFlowData_nodes_links_witness :
  existsb throwing (occurrences (videosToProcess flowData "global" "US")) = false
  /\ (exists link,
        In link (Flow.links (getTagFlowData flowData "US" "detailed"))
        /\ Link.tag link = "abc" /\ Link.category link = "Music")
  /\ existsb throwing (occurrences (videosToProcess constructorData "global" "US"))
     = true
  /\ Flow.nodes (getTagFlowData constructorData "US" "detailed") = [].
Proof.
  assert (Hflow : existsb throwing
                    (occurrences (videosToProcess flowData "global" "US"))
                  = false) by (vm_compute; reflexivity).
  assert (Hthrows : existsb throwing
                      (occurrences (videosToProcess constructorData "global" "US"))
                    = true) by (vm_compute; reflexivity).
  split; [exact Hflow|]. split; [|split; [exact Hthrows|]].
  - pose proof (getTagFlowData_nodes_links flowData "US" "detailed") as H.
    cbv zeta in H. change (flowPreset "detailed") with (3, 20, 8) in H.
    cbv beta iota in H.
    destruct (proj2 H Hflow)
      as (tagNodes & categoryNodes & Hn & _ & _ & _ & _ & _ & _ & _ & _
          & Htags & Hcategories & _ & _ & _ & Hlinks).
    assert (Hlen : length (tagNodes ++ categoryNodes) = 3%nat)
      by (rewrite <- Hn; vm_compute; reflexivity).
    rewrite length_app in Hlen.
    apply Hlinks.
    + destruct (Htags "abc") as [Hin|Hfull];
        [vm_compute; reflexivity|exact Hin|lia].
    + destruct (Hcategories "Music") as [Hin|Hfull];
        [vm_compute; reflexivity|exact Hin|lia].
    + vm_compute. discriminate.
  - pose proof (getTagFlowData_nodes_links constructorData "US" "detailed") as H.
    cbv zeta in H. change (flowPreset "detailed") with (3, 20, 8) in H.
    cbv beta iota in H.
    exact (proj1 (proj1 H Hthrows)).
Defined.

(** The category nodes follow their counts, not the alphabet. *)
Lemma getTagFlowData_categories_by_count :
  map (fun node => (Node.name node, Node.count node))
    (Flow.nodes (getTagFlowData flowData "US" "detailed"))
  = [("abc", 4); ("Music", 3); ("Comedy", 1)]
  /\ map (fun link => (Link.source link, Link.target link, Link.value link))
       (Flow.links (getTagFlowData flowData "US" "detailed"))
     = [(0%nat, 1%nat, 3)]
  /\ String.ltb "Comedy" "Music" = true
  /\ ~ StronglySorted (fun a b => String.leb a b = true) ["Music"; "Comedy"].
Proof.
  split; [vm_compute; reflexivity|].
  split; [vm_compute; reflexivity|].
  split; [vm_compute; reflexivity|].
  intros H. apply StronglySorted_inv in H as [_ H].
  apply Forall_inv in H. vm_compute in H. discriminate.
Qed.
End FlowExamples.

Module RacingFacts.
Import JsString JsDate DataLoader JsArrayFacts JsObjFacts WeekFacts.
Import Notions Examples.

Section Zone.
Context {zone : JsDate.TimeZone}.

Lemma compare_prefix p a b :
  String.compare (p +:+ a) (p +:+ b) = String.compare a b.
Proof.
  induction p as [|c p IH]; [reflexivity|].
  change (String c p +:+ a) with (String c (p +:+ a)).
  change (String c p +:+ b) with (String c (p +:+ b)).
  cbn [String.compare]. unfold Ascii.compare. now rewrite N.compare_refl.
Qed.

Lemma ltb_week m n :
  String.ltb (pretty n) (pretty m) = true -> String.ltb (week n) (week m) = true.
Proof. unfold String.ltb, week. now rewrite compare_prefix. Qed.

Lemma ltb_not_leb a b : String.ltb a b = true -> String.leb b a = false.
Proof.
  unfold String.ltb, String.leb. rewrite (String.compare_antisym b a).
  now destruct (String.compare a b).
Qed.

(** In a list in ascending order, the smaller of two members comes first. *)
Lemma sorted_before (l : list string) a b :
  StronglySorted (fun x y => String.leb x y = true) l ->
  In a l -> In b l -> String.ltb a b = true ->
  exists l1 l2 l3, l = (l1 ++ a :: l2 ++ b :: l3)%list.
Proof.
  intros Hs Ha Hb Hlt. apply ltb_not_leb in Hlt as Hnle.
  apply in_split in Hb as (l1' & l3 & ->).
  apply StronglySorted_app in Hs as (_ & _ & Hs).
  apply StronglySorted_inv in Hs as [_ Hb].
  apply in_app_or in Ha as [Ha|[->|Ha]].
  - apply in_split in Ha as (l1 & l2 & ->).
    exists l1, l2, l3. now rewrite <- app_assoc.
  - unfold String.leb in Hnle. unfold String.ltb in Hlt.
    destruct (String.compare a a); discriminate.
  - rewrite List.Forall_forall in Hb. specialize (Hb a Ha). congruence.
Qed.

(** The periods of the rows the loop reaches. *)
Lemma racingStep_periods state video state' :
  racingStep state video = Some state' ->
  NoDup (snd state) ->
  NoDup (snd state')
  /\ forall p, In p (snd state') ->
               In p (snd state)
               \/ exists d, trendingDateParsed video = ObjectDate d
                            /\ p = periodKey d.
Proof.
  destruct state as [data periods]. unfold racingStep.
  destruct (props video !! "tags") as [tags|]; [|intros [= <-]; auto].
  destruct (truthy tags); [|intros [= <-]; auto].
  destruct (trendingDateParsed video) as [|s|d]; [intros [= <-]; auto|discriminate|].
  intros [= <-] Hnd. cbn [snd]. split; [now apply setAdd_NoDup|].
  intros p Hp. apply setAdd_In in Hp as [? | ->]; eauto.
Qed.

Lemma forEachM_periods videos state state' :
  forEachM racingStep videos state = Some state' ->
  NoDup (snd state) ->
  NoDup (snd state')
  /\ forall p, In p (snd state') ->
               In p (snd state)
               \/ exists video d, In video videos
                                  /\ trendingDateParsed video = ObjectDate d
                                  /\ p = periodKey d.
Proof.
  revert state. induction videos as [|video videos IH]; intros state;
    cbn [forEachM].
  - intros [= <-]. auto.
  - destruct (racingStep state video) as [state1|] eqn:E; [|discriminate].
    intros H Hnd. destruct (racingStep_periods _ _ _ E Hnd) as [Hnd1 H1].
    destruct (IH _ H Hnd1) as [Hnd' H']. split; [exact Hnd'|].
    intros p Hp. apply H' in Hp as [Hp|(v & d & ? & ? & ?)].
    + apply H1 in Hp as [?|(d & ? & ?)]; [auto|].
      right. exists video, d. auto with datatypes.
    + right. exists v, d. auto with datatypes.
Qed.

(** C10, as amended. The periods of [getTagRacingData], and the entries of
    [racingData] with them, are in ascending order of the code units of
    their labels and without repetition. Of two weeks in the result, the
    one whose number sorts first as a text comes first: week 10 before
    week 2. The week of a date whose year is 100 or later, in a zone
    whose offsets are no more than a day, is the number of whole weeks
    that have passed since the midnight that began the year in local
    time, plus 1; it is the day within the year divided by 7, plus 1,
    when the clock of the date is that of the beginning of the year, and
    one less on some days when the clock has been put forward since: in
    central Europe, 2 April 2018 is in week 13, not in week 91 / 7 + 1. *)
Theorem getTagRacingData_periods (videoData : VideoData)
    (filterType selectedCountry : string) :
  let videos := videosToProcess videoData "global" selectedCountry in
  let result := getTagRacingData videoData filterType selectedCountry in
  map RacingPeriod.period (Racing.racingData result) = Racing.periods result
  /\ StronglySorted (fun a b => String.leb a b = true) (Racing.periods result)
  /\ NoDup (Racing.periods result)
  /\ (forall p, In p (Racing.periods result) ->
        exists video d, In video videos
                        /\ trendingDateParsed video = ObjectDate d
                        /\ p = periodKey d)
  /\ (forall t,
        let year := getFullYear (localTime t) in
        let january := daysFromYear year * msPerDay in
        Z.abs t <= maxTime -> 100 <= year ->
        Z.abs (offsetAt t) <= msPerDay -> Z.abs (offsetOf january) <= msPerDay ->
        periodKey (DateAt t) = week ((t - utcTime january) / msPerWeek + 1)
        /\ (offsetAt t = offsetOf january ->
            periodKey (DateAt t) = week (dayWithinYear (localTime t) / 7 + 1))
        /\ 0 <= dayWithinYear (localTime t) <= 365)
  /\ (forall m n,
        In (week m) (Racing.periods result) ->
        In (week n) (Racing.periods result) ->
        String.ltb (pretty n) (pretty m) = true ->
        exists l1 l2 l3,
          Racing.periods result = (l1 ++ week n :: l2 ++ week m :: l3)%list)
  /\ String.ltb (pretty 10) (pretty 2) = true
  /\ Racing.periods (getTagRacingData (zone := utc) winterData "overview" "global")
     = [week 10; week 2]
  /\ parseTrendingDate (zone := cet2018) "18.02.04" = Some (DateAt 1522620000000)
  /\ dayWithinYear (localTime (zone := cet2018) 1522620000000) = 91
  /\ periodKey (zone := cet2018) (DateAt 1522620000000) = week 13.
Proof.
  intros videos result.
  assert (Hper : exists periods,
             Racing.periods result = JsArray.sortStrings periods
             /\ map RacingPeriod.period (Racing.racingData result)
                = Racing.periods result
             /\ NoDup periods
             /\ forall p, In p periods ->
                  exists video d, In video videos
                                  /\ trendingDateParsed video = ObjectDate d
                                  /\ p = periodKey d).
  { unfold result, getTagRacingData. fold videos.
    destruct (forEachM racingStep videos ([], [])) as [[data periods]|] eqn:E.
    - destruct (forEachM_periods _ _ _ E) as [Hnd Hin]; [constructor|].
      exists periods. destruct (racingPreset filterType) as [tagLimit minOcc].
      cbn [Racing.periods Racing.racingData snd] in *.
      split; [reflexivity|]. split; [|split; [exact Hnd|]].
      + rewrite map_map. cbn [RacingPeriod.period]. apply map_id.
      + intros p Hp. apply Hin in Hp as [[]|?]. assumption.
    - exists []. cbn. repeat split; try constructor. intros p []. }
  destruct Hper as (periods & Hsorted & Hmap & Hnd & Hin).
  split; [exact Hmap|]. rewrite Hsorted.
  split; [apply sortStrings_sorted|].
  split; [now rewrite sortStrings_perm|].
  split; [|split; [|split; [|split; [|split; [|split; [|split]]]]]].
  - intros p Hp. apply Hin.
    now apply (Permutation_in _ (sortStrings_perm periods)).
  - intros t year january Ht Hy Hat Hof. split; [|split].
    + unfold periodKey. now rewrite (weekNumber_elapsed t Ht Hy Hat Hof).
    + intros Hsame. now apply periodKey_formula.
    + apply dayWithinYear_range.
  - intros m n Hm Hn Hlt.
    apply (sorted_before _ (week n) (week m)); auto using sortStrings_sorted, ltb_week.
  - vm_compute. reflexivity.
  - vm_compute. reflexivity.
  - vm_compute. reflexivity.
  - vm_compute. reflexivity.
  - vm_compute. reflexivity.
Qed.

End Zone.

(** The examples are read in the zone of Greenwich. *)
#[local] Existing Instance JsDate.utc.

Lemma getTagRacingData_periods_witness :
  Z.abs 1520208000000 <= maxTime
  /\ 100 <= getFullYear (localTime 1520208000000)
  /\ periodKey (DateAt 1520208000000)
     = week (dayWithinYear (localTime 1520208000000) / 7 + 1)
  /\ periodKey (DateAt 1520208000000) = week 10.
Proof.
  assert (H1 : Z.abs 1520208000000 <= maxTime) by (vm_compute; discriminate).
  assert (H2 : 100 <= getFullYear (localTime 1520208000000))
    by (vm_compute; discriminate).
  assert (H3 : Z.abs (offsetAt 1520208000000) <= msPerDay)
    by (vm_compute; discriminate).
  assert (H4 : Z.abs (offsetOf (daysFromYear
                                  (getFullYear (localTime 1520208000000))
                                * msPerDay)) <= msPerDay)
    by (vm_compute; discriminate).
  split; [exact H1|]. split; [exact H2|]. split; [|vm_compute; reflexivity].
  exact (proj1 (proj2 (proj1 (proj2 (proj2 (proj2 (proj2
           (getTagRacingData_periods winterData "overview" "global")))))
           1520208000000 H1 H2 H3 H4)) eq_refl).
Defined.

(** Labels with different numbers of digits may still be in the order of
    their weeks, and where the clock is put forward in spring the week of
    a date is not always the day within its year over 7, plus 1. *)
Lemma getTagRacingData_sparse_weeks :
  Racing.periods (getTagRacingData sparseData "overview" "global")
  = [week 1; week 10]
  /\ String.length (pretty 1) <> String.length (pretty 10)
  /\ StronglySorted Z.lt [1; 10]
  /\ parseTrendingDate (zone := cet2018) "18.02.04" = Some (DateAt 1522620000000)
  /\ periodKey (zone := cet2018) (DateAt 1522620000000) = week 13
  /\ week (dayWithinYear (localTime (zone := cet2018) 1522620000000) / 7 + 1)
     = week 14.
Proof.
  split; [vm_compute; reflexivity|]. split; [vm_compute; discriminate|].
  split; [repeat constructor|].
  split; [vm_compute; reflexivity|]. split; vm_compute; reflexivity.
Qed.

End RacingFacts.

Module CalendarFacts.
Import JsDate JsDateFacts WeekFacts.
Import Notions Examples.

Lemma daysFromYear_next y :
  daysFromYear (y + 1) = daysFromYear y + 365 + leapDay y.
Proof.
  unfold leapDay, inLeapYear, daysFromYear.
  destruct (Z.eqb_spec (y mod 4) 0), (Z.eqb_spec (y mod 100) 0),
    (Z.eqb_spec (y mod 400) 0); cbn [andb orb negb];
    Z.to_euclidean_division_equations; lia.
Qed.

Lemma daysFromYear_mono a b : a <= b -> daysFromYear a <= daysFromYear b.
Proof.
  intros H. unfold daysFromYear. Z.to_euclidean_division_equations. lia.
Qed.

Lemma yearFromDay_unique y d :
  daysFromYear y <= d < daysFromYear (y + 1) -> yearFromDay d = y.
Proof.
  intros H. pose proof (yearFromDay_spec d) as Hs.
  destruct (Z.lt_trichotomy (yearFromDay d) y) as [Hlt|[Heq|Hgt]]; [|exact Heq|].
  - pose proof (daysFromYear_mono (yearFromDay d + 1) y). lia.
  - pose proof (daysFromYear_mono (y + 1) (yearFromDay d)). lia.
Qed.

Lemma leapDay_range y : 0 <= leapDay y <= 1.
Proof. unfold leapDay. destruct (inLeapYear y); lia. Qed.

(** The fields of the date made of a year, a month and a day of it. *)
Lemma calendar_fields y m d :
  0 <= m <= 11 -> 1 <= d <= daysInMonth y m ->
  let t := makeDay y m d * msPerDay in
  getFullYear t = y /\ getMonth t = m /\ getDate t = d.
Proof.
  intros Hm Hd. cbn zeta.
  assert (Hday : day (makeDay y m d * msPerDay) = makeDay y m d).
  { unfold day. apply Z.div_mul. unfold msPerDay. lia. }
  assert (Hmake : makeDay y m d = daysFromYear y + daysBeforeMonth y m + d - 1).
  { unfold makeDay. rewrite Z.div_small, Z.mod_small by lia.
    now rewrite Z.add_0_r. }
  pose proof (leapDay_range y) as Hleap.
  pose proof (daysFromYear_next y) as Hnext.
  assert (Hin : 0 <= daysBeforeMonth y m + d - 1 < 365 + leapDay y).
  { assert (Hcase : m = 0 \/ m = 1 \/ m = 2 \/ m = 3 \/ m = 4 \/ m = 5 \/ m = 6
                    \/ m = 7 \/ m = 8 \/ m = 9 \/ m = 10 \/ m = 11) by lia.
    repeat destruct Hcase as [->|Hcase]; try subst m;
      cbn [daysInMonth daysBeforeMonth] in *; lia. }
  assert (Hyear : getFullYear (makeDay y m d * msPerDay) = y).
  { unfold getFullYear. rewrite Hday. apply yearFromDay_unique. lia. }
  assert (Hwithin : dayWithinYear (makeDay y m d * msPerDay)
                    = daysBeforeMonth y m + d - 1).
  { unfold dayWithinYear. rewrite Hyear, Hday. lia. }
  split; [exact Hyear|].
  assert (Hmonth : getMonth (makeDay y m d * msPerDay) = m).
  { unfold getMonth. rewrite Hyear, Hwithin. unfold monthOfYearDay.
    assert (Hcase : m = 0 \/ m = 1 \/ m = 2 \/ m = 3 \/ m = 4 \/ m = 5 \/ m = 6
                    \/ m = 7 \/ m = 8 \/ m = 9 \/ m = 10 \/ m = 11) by lia.
    repeat destruct Hcase as [->|Hcase]; try subst m;
      cbn [daysInMonth daysBeforeMonth] in *;
      repeat match goal with
             | |- context [if ?a <? ?b then _ else _] =>
                 destruct (Z.ltb_spec a b); try lia
             end. }
  split; [exact Hmonth|].
  unfold getDate. rewrite Hyear, Hmonth, Hwithin. lia.
Qed.

End CalendarFacts.

Module TrendingDateFacts.
Import JsString JsDate DataLoader JsDateFacts WeekFacts CalendarFacts.
Import Notions Examples.

Section Zone.
Context {zone : JsDate.TimeZone}.

Lemma split_without sep s : without sep s = true -> split sep s = [s].
Proof.
  induction s as [|c s IH]; cbn [without split]; [reflexivity|].
  intros H. apply andb_prop in H as [Hc Hs]. apply negb_true_iff in Hc.
  now rewrite Hc, IH.
Qed.

Lemma split_part sep s rest :
  without sep s = true ->
  split sep (s +:+ String sep rest) = s :: split sep rest.
Proof.
  induction s as [|c s IH]; cbn [without].
  - intros _. change (EmptyString +:+ String sep rest) with (String sep rest).
    cbn [split]. now rewrite Ascii.eqb_refl.
  - intros H. apply andb_prop in H as [Hc Hs]. apply negb_true_iff in Hc.
    change (String c s +:+ String sep rest) with (String c (s +:+ String sep rest)).
    cbn [split]. now rewrite Hc, IH.
Qed.

Lemma twoDigits_read n :
  0 <= n <= 99 ->
  without "." (twoDigits n) = true /\ parseInt (twoDigits n) = Some n.
Proof.
  intros Hn.
  assert (H : forallb
                (fun k => without "." (twoDigits k)
                          && match parseInt (twoDigits k) with
                             | Some v => v =? k
                             | None => false
                             end)
                (map Z.of_nat (seq 0 100)) = true) by (vm_compute; reflexivity).
  rewrite forallb_forall in H.
  assert (Hin : In n (map Z.of_nat (seq 0 100))).
  { apply in_map_iff. exists (Z.to_nat n). split; [lia|]. apply in_seq. lia. }
  apply H in Hin. apply andb_prop in Hin as [Hw Hp].
  split; [exact Hw|]. destruct (parseInt (twoDigits n)); [|discriminate].
  apply Z.eqb_eq in Hp. now subst.
Qed.

Lemma daysInMonth_le y m : daysInMonth y m <= 31.
Proof.
  pose proof (leapDay_range y). unfold daysInMonth.
  repeat match goal with
         | |- context [match ?x with _ => _ end] => destruct x
         end; lia.
Qed.

Lemma parseTrendingDate_text year day month :
  0 <= year <= 99 -> 0 <= day <= 99 -> 0 <= month <= 99 ->
  parseTrendingDate (dateText year day month)
  = Some (newDate (Some (2000 + year)) (Some (month - 1)) (Some day)).
Proof.
  intros Hy Hd Hm.
  destruct (twoDigits_read year Hy) as [Hwy Hpy].
  destruct (twoDigits_read day Hd) as [Hwd Hpd].
  destruct (twoDigits_read month Hm) as [Hwm Hpm].
  unfold parseTrendingDate, dateText.
  change (twoDigits year +:+ "." +:+ twoDigits day +:+ "." +:+ twoDigits month)
    with (twoDigits year
          +:+ String "." (twoDigits day +:+ String "." (twoDigits month))).
  rewrite (split_part _ _ _ Hwy), (split_part _ _ _ Hwd), (split_without _ _ Hwm).
  cbn [length Nat.eqb lookup list_lookup parseIntProp].
  now rewrite Hpy, Hpd, Hpm.
Qed.

(** C3. [parseTrendingDate] reads the text of a date, two digits each for
    the year, the day and the month, as that calendar date of the years
    2000 to 2099, at the midnight of local time when the zone has that
    midnight; it returns null exactly when the text has not three parts,
    and never throws. A text of three parts that are not numbers yields an
    invalid date object, not null. *)
Theorem parseTrendingDate_dates :
  (forall year day month,
      0 <= year <= 99 -> 1 <= month <= 12 ->
      1 <= day <= daysInMonth (2000 + year) (month - 1) ->
      let midnight := makeDay (2000 + year) (month - 1) day * msPerDay in
      Z.abs (offsetOf midnight) <= msPerDay ->
      offsetAt (utcTime midnight) = offsetOf midnight ->
      exists t,
        parseTrendingDate (dateText year day month) = Some (DateAt t)
        /\ getFullYear (localTime t) = 2000 + year
        /\ getMonth (localTime t) = month - 1
        /\ getDate (localTime t) = day)
  /\ (forall dateStr,
        parseTrendingDate dateStr = None
        <-> length (split "." dateStr) <> 3%nat)
  /\ dateText 17 14 11 = "17.14.11"
  /\ parseTrendingDate (zone := utc) "17.14.11" = Some (DateAt 1510617600000)
  /\ (getFullYear 1510617600000, getMonth 1510617600000 + 1,
      getDate 1510617600000) = (2017, 11, 14)
  /\ parseTrendingDate "bad" = None
  /\ parseTrendingDate "a.b.c" = Some InvalidDate.
Proof.
  split; [|split; [|repeat split; vm_compute; reflexivity]].
  - intros year day month Hy Hm Hd midnight Hoffset Hregular.
    assert (Hday : 0 <= day <= 99).
    { pose proof (daysInMonth_le (2000 + year) (month - 1)). lia. }
    rewrite parseTrendingDate_text by lia.
    exists (utcTime midnight).
    assert (Hlocal : localTime (utcTime midnight) = midnight).
    { unfold localTime. rewrite Hregular. unfold utcTime. lia. }
    rewrite Hlocal.
    split; [|apply calendar_fields; lia].
    f_equal. unfold newDate.
    destruct (Z.leb_spec (2000 + year) 99); [lia|]. rewrite andb_false_r.
    fold midnight. unfold timeClip.
    destruct (Z.leb_spec (Z.abs (utcTime midnight)) maxTime);
      [reflexivity|exfalso].
    destruct (calendar_fields (2000 + year) (month - 1) day ltac:(lia) Hd)
      as (Hyear & _ & _).
    pose proof (yearFromDay_spec (makeDay (2000 + year) (month - 1) day)) as Hs.
    unfold getFullYear, JsDate.day in Hyear.
    rewrite Z.div_mul in Hyear by (unfold msPerDay; lia). rewrite Hyear in Hs.
    pose proof (daysFromYear_mono 2000 (2000 + year) ltac:(lia)) as Hlow.
    pose proof (daysFromYear_mono (2000 + year + 1) 2100 ltac:(lia)) as Hhigh.
    change (daysFromYear 2000) with 10957 in Hlow.
    change (daysFromYear 2100) with 47482 in Hhigh.
    unfold utcTime in *. subst midnight. unfold maxTime, msPerDay in *. lia.
  - intros dateStr. unfold parseTrendingDate.
    destruct (Nat.eqb_spec (length (split "." dateStr)) 3); split;
      intros; congruence.
Qed.

End Zone.

(** The examples are read in the zone of Greenwich. *)
#[local] Existing Instance JsDate.utc.

Lemma parseTrendingDate_dates_witness :
  0 <= 17 <= 99 /\ 1 <= 11 <= 12 /\ 1 <= 14 <= daysInMonth (2000 + 17) (11 - 1)
  /\ exists t, parseTrendingDate (dateText 17 14 11) = Some (DateAt t)
               /\ getFullYear (localTime t) = 2000 + 17.
Proof.
  assert (Hy : 0 <= 17 <= 99) by lia.
  assert (Hm : 1 <= 11 <= 12) by lia.
  assert (Hd : 1 <= 14 <= daysInMonth (2000 + 17) (11 - 1))
    by (vm_compute; split; discriminate).
  assert (Ho : Z.abs (offsetOf (makeDay (2000 + 17) (11 - 1) 14 * msPerDay))
               <= msPerDay) by (vm_compute; discriminate).
  split; [exact Hy|]. split; [exact Hm|]. split; [exact Hd|].
  destruct (proj1 parseTrendingDate_dates 17 14 11 Hy Hm Hd Ho eq_refl)
    as (t & Ht & Hyear & _).
  exists t. split; [exact Ht|exact Hyear].
Defined.

End TrendingDateFacts.

(** * Properties of the other functions of the loader and of its callers *)

Module LineFacts.
Import JsString DataLoader Notions Terms TrendingDateFacts.

Lemma append_assoc (a b c : string) : (a +:+ b) +:+ c = a +:+ (b +:+ c).
Proof.
  induction a as [|x a IH]; [reflexivity|].
  change (String x a +:+ b) with (String x (a +:+ b)).
  change (String x (a +:+ b) +:+ c) with (String x ((a +:+ b) +:+ c)).
  change (String x a +:+ (b +:+ c)) with (String x (a +:+ (b +:+ c))).
  now rewrite IH.
Qed.

Lemma append_empty (a : string) : a +:+ EmptyString = a.
Proof.
  induction a as [|x a IH]; [reflexivity|].
  change (String x a +:+ EmptyString) with (String x (a +:+ EmptyString)).
  now rewrite IH.
Qed.

Lemma length_append (a b : string) :
  String.length (a +:+ b) = (String.length a + String.length b)%nat.
Proof.
  induction a as [|c a IH]; [reflexivity|].
  change (String c a +:+ b) with (String c (a +:+ b)). cbn. now rewrite IH.
Qed.

(** Inside quotes the loop copies every character but the quote. *)
Lemma loop_quoted s rest result current :
  without dquote s = true ->
  parseCSVLine_loop (s +:+ rest) result current true
  = parseCSVLine_loop rest result (current +:+ s) true.
Proof.
  revert current. induction s as [|c s IH]; intros current H.
  - now rewrite append_empty.
  - change (String c s +:+ rest) with (String c (s +:+ rest)).
    cbn [without] in H. apply andb_prop in H as [Hc Hs].
    cbn [parseCSVLine_loop]. apply negb_true_iff in Hc. rewrite Hc.
    cbn [negb andb]. rewrite andb_false_r. rewrite IH by exact Hs.
    f_equal. rewrite append_assoc. reflexivity.
Qed.

(** Outside quotes it copies every character but the quote and the comma. *)
Lemma loop_plain s rest result current :
  without dquote s = true -> without "," s = true ->
  parseCSVLine_loop (s +:+ rest) result current false
  = parseCSVLine_loop rest result (current +:+ s) false.
Proof.
  revert current. induction s as [|c s IH]; intros current Hq Hc.
  - now rewrite append_empty.
  - change (String c s +:+ rest) with (String c (s +:+ rest)).
    cbn [without] in Hq, Hc.
    apply andb_prop in Hq as [Hq Hqs]. apply andb_prop in Hc as [Hc Hcs].
    cbn [parseCSVLine_loop]. apply negb_true_iff in Hq, Hc. rewrite Hq, Hc.
    cbn [negb andb]. rewrite IH by assumption.
    f_equal. rewrite append_assoc. reflexivity.
Qed.

Lemma loop_written field rest result current :
  writable field ->
  parseCSVLine_loop (written field +:+ rest) result current false
  = parseCSVLine_loop rest result (current +:+ fst field) false.
Proof.
  destruct field as [s quoted]. intros [Hq Hc]. cbn [fst snd] in *.
  unfold written. cbn [fst snd]. destruct quoted.
  - change (String dquote (s +:+ String dquote EmptyString) +:+ rest)
      with (String dquote ((s +:+ String dquote EmptyString) +:+ rest)).
    cbn [parseCSVLine_loop].
    replace (Ascii.eqb dquote dquote) with true by reflexivity. cbn [negb].
    rewrite append_assoc, loop_quoted by exact Hq.
    change (String dquote EmptyString +:+ rest) with (String dquote rest).
    cbn [parseCSVLine_loop].
    replace (Ascii.eqb dquote dquote) with true by reflexivity. reflexivity.
  - apply loop_plain; auto.
Qed.

Lemma join_cons sep s t l :
  join sep (s :: t :: l) = s +:+ String sep (join sep (t :: l)).
Proof. reflexivity. Qed.

Lemma loop_fields fields result :
  Forall writable fields -> fields <> [] ->
  parseCSVLine_loop (join "," (map written fields)) result EmptyString false
  = (result ++ map fst fields)%list.
Proof.
  intros Hall. revert result.
  induction Hall as [|field rest Hfield Hrest IH]; intros result Hne;
    [congruence|].
  destruct rest as [|next rest].
  - cbn [map]. unfold join. cbn [String.concat].
    rewrite <- (append_empty (written field)).
    rewrite loop_written by exact Hfield. reflexivity.
  - cbn [map]. rewrite join_cons.
    rewrite loop_written by exact Hfield.
    cbn [parseCSVLine_loop].
    replace (Ascii.eqb "," dquote) with false by reflexivity.
    replace (Ascii.eqb "," ",") with true by reflexivity. cbn [negb andb].
    change (map written (next :: rest)) with (map written (next :: rest)).
    specialize (IH (result ++ [EmptyString +:+ fst field])%list).
    cbn [map] in IH. rewrite IH by congruence.
    rewrite <- app_assoc. reflexivity.
Qed.

(** X1. A line written from values, each between double quotes or plain,
    reads back as those values: [parseCSVLine] undoes the writing when no
    value holds a double quote and no plain value holds a comma. Values
    between quotes may hold commas. *)
Theorem parseCSVLine_written (fields : list (string * bool)) :
  Forall writable fields -> fields <> [] ->
  parseCSVLine (join "," (map written fields)) = map fst fields.
Proof.
  intros Hall Hne. unfold parseCSVLine. now rewrite loop_fields.
Qed.

Lemma parseCSVLine_written_witness :
  Forall writable [("a, b", true); ("7", false)]
  /\ [("a, b", true); ("7", false)] <> []
  /\ parseCSVLine (join "," (map written [("a, b", true); ("7", false)]))
     = ["a, b"; "7"].
Proof.
  assert (H : Forall writable [("a, b", true); ("7", false)]).
  { repeat constructor; cbn; congruence. }
  assert (Hne : [("a, b", true); ("7", false)] <> []) by congruence.
  split; [exact H|]. split; [exact Hne|].
  exact (parseCSVLine_written _ H Hne).
Defined.

(** The loop never puts a double quote into a value. *)
Lemma loop_without line result current inQuotes :
  Forall (fun value => without dquote value = true) result ->
  without dquote current = true ->
  Forall (fun value => without dquote value = true)
    (parseCSVLine_loop line result current inQuotes).
Proof.
  revert result current inQuotes.
  induction line as [|c line IH]; intros result current inQuotes Hr Hc.
  - cbn. apply Forall_app. split; [exact Hr|]. now constructor.
  - cbn [parseCSVLine_loop].
    destruct (Ascii.eqb c dquote) eqn:Eq; [now apply IH|].
    destruct (Ascii.eqb c "," && negb inQuotes).
    + apply IH; [|reflexivity]. apply Forall_app. split; [exact Hr|].
      now constructor.
    + apply IH; [exact Hr|].
      clear - Hc Eq. induction current as [|d current IH].
      * change (EmptyString +:+ String c EmptyString) with (String c EmptyString).
        cbn [without]. now rewrite Eq.
      * change (String d current +:+ String c EmptyString)
          with (String d (current +:+ String c EmptyString)).
        cbn [without] in *. apply andb_prop in Hc as [-> Hc]. now apply IH.
Qed.

Lemma loop_length line result current inQuotes :
  (length result < length (parseCSVLine_loop line result current inQuotes))%nat.
Proof.
  revert result current inQuotes.
  induction line as [|c line IH]; intros result current inQuotes.
  - cbn. rewrite length_app. cbn. lia.
  - cbn [parseCSVLine_loop].
    destruct (Ascii.eqb c dquote); [apply IH|].
    destruct (Ascii.eqb c "," && negb inQuotes); [|apply IH].
    etransitivity; [|apply IH]. rewrite length_app. cbn. lia.
Qed.

(** On a line without quotes the loop splits at the commas. *)
Lemma loop_split line result current :
  without dquote line = true ->
  parseCSVLine_loop line result current false
  = (result ++ match split "," line with
               | first :: others => (current +:+ first) :: others
               | [] => []
               end)%list.
Proof.
  revert result current.
  induction line as [|c line IH]; intros result current H.
  - cbn. now rewrite append_empty.
  - cbn [without] in H. apply andb_prop in H as [Hc H].
    apply negb_true_iff in Hc. cbn [parseCSVLine_loop split]. rewrite Hc.
    destruct (Ascii.eqb c ",") eqn:Ec; cbn [negb andb].
    + rewrite IH by exact H. rewrite append_empty, <- app_assoc.
      destruct (split "," line) as [|first others] eqn:Es.
      * destruct line; cbn in Es; [discriminate|].
        destruct (Ascii.eqb a ","); [discriminate|].
        destruct (split "," line); discriminate.
      * reflexivity.
    + rewrite IH by exact H.
      destruct (split "," line) as [|first others] eqn:Es.
      * destruct line; cbn in Es; [discriminate|].
        destruct (Ascii.eqb a ","); [discriminate|].
        destruct (split "," line); discriminate.
      * now rewrite append_assoc.
Qed.

Lemma parseCSVLine_plain line :
  without dquote line = true -> parseCSVLine line = split "," line.
Proof.
  intros H. unfold parseCSVLine. rewrite loop_split by exact H.
  cbn [app]. now destruct (split "," line).
Qed.

(** X2. [parseCSVLine] returns at least one value and no value holds a
    double quote: quotes only switch the reading of commas, so a doubled
    quote inside a quoted value is dropped, not read as one quote. On a
    line without double quotes it returns what splitting the line at its
    commas returns. *)
Theorem parseCSVLine_quotes :
  (forall line,
      Forall (fun value => without dquote value = true) (parseCSVLine line)
      /\ (1 <= length (parseCSVLine line))%nat)
  /\ (forall line,
        without dquote line = true -> parseCSVLine line = split "," line)
  /\ parseCSVLine
       (String dquote
          ("a" +:+ String dquote (String dquote ("b" +:+ String dquote ",c"))))
     = ["ab"; "c"].
Proof.
  split; [|split; [|reflexivity]].
  - intros line. split.
    + apply loop_without; [constructor|reflexivity].
    + pose proof (loop_length line [] EmptyString false). cbn in H.
      unfold parseCSVLine. lia.
  - apply parseCSVLine_plain.
Qed.

Lemma parseCSVLine_quotes_witness :
  without dquote "a,b,,c" = true
  /\ parseCSVLine "a,b,,c" = ["a"; "b"; ""; "c"].
Proof.
  assert (H : without dquote "a,b,,c" = true) by reflexivity.
  split; [exact H|].
  exact (proj1 (proj2 parseCSVLine_quotes) "a,b,,c" H).
Defined.

End LineFacts.

Module CategoryFacts.
Import JsString DataLoader Aggregation Notions Terms ParserFacts.

Section Zone.
Context {zone : JsDate.TimeZone}.

Lemma titlesOf_cons key item items :
  titlesOf key (item :: items)
  = match (if String.eqb (Item.id item) key then Item.snippet item else None) with
    | Some title => title :: titlesOf key items
    | None => titlesOf key items
    end.
Proof. reflexivity. Qed.

Lemma forEachM_titles (items : list Item.t) (categoryMap : gmap string string) :
  Forall titled items ->
  exists result,
    forEachM
      (fun categoryMap item =>
         (fun title => <[Item.id item := title]> categoryMap)
           <$> Item.snippet item)
      items categoryMap = Some result
    /\ forall key,
        result !! key
        = match last (titlesOf key items) with
          | Some title => Some title
          | None => categoryMap !! key
          end.
Proof.
  intros Hall. revert categoryMap.
  induction Hall as [|item items [title Htitle] _ IH]; intros categoryMap.
  - exists categoryMap. split; reflexivity.
  - cbn [forEachM]. rewrite Htitle. cbn [fmap option_fmap option_map].
    destruct (IH (<[Item.id item := title]> categoryMap)) as (result & Hres & Hkey).
    exists result. split; [exact Hres|]. intros key. rewrite Hkey.
    rewrite titlesOf_cons, Htitle.
    destruct (String.eqb_spec (Item.id item) key) as [->|Hne].
    + destruct (titlesOf key items) as [|t ts] eqn:Et.
      * cbn. now rewrite lookup_insert_eq.
      * change (last (title :: t :: ts)) with (last (t :: ts)).
        destruct (last (t :: ts)) eqn:El; [reflexivity|].
        now apply last_None in El.
    + destruct (last (titlesOf key items)); [reflexivity|].
      now rewrite lookup_insert_ne.
Qed.

Lemma forEachM_untitled (items : list Item.t) (categoryMap : gmap string string) :
  ~ Forall titled items ->
  forEachM
    (fun categoryMap item =>
       (fun title => <[Item.id item := title]> categoryMap)
         <$> Item.snippet item)
    items categoryMap = None.
Proof.
  revert categoryMap. induction items as [|item items IH]; intros categoryMap H.
  - destruct H. constructor.
  - cbn [forEachM]. destruct (Item.snippet item) as [title|] eqn:E; [|reflexivity].
    cbn. apply IH. intros Hall. apply H. constructor; [|exact Hall].
    unfold titled. rewrite E. eauto.
Qed.

(** X3. A category file whose items all have a snippet names a category
    id by the last title the file gives for it, and Unknown when it gives
    none or an empty one. A file with an item that has no snippet is
    discarded as a whole. The file of one country leaves the names of
    the other countries alone, and every parsed row is named after the
    number read in its category_id. *)
Theorem loadCategories_names (categories : Categories) (country : string)
    (items : list Item.t) :
  let loaded := loadCategories [(country, Some items)] categories in
  (Forall titled items ->
   forall id,
     categoryName loaded country id = nameOf (last (titlesOf (pretty id) items)))
  /\ (~ Forall titled items -> loaded = categories)
  /\ (forall country' id,
        country' <> country ->
        categoryName loaded country' id = categoryName categories country' id)
  /\ (forall text row,
        In row (parseCSV loaded text country) ->
        category_name row = categoryName loaded country (category_id row)).
Proof.
  intros loaded. unfold loaded, loadCategories. cbn [fold_left processCategoryData].
  split; [|split; [|split]].
  - intros Hall id.
    destruct (forEachM_titles items ∅ Hall) as (result & -> & Hkey).
    unfold categoryName. rewrite lookup_insert_eq, Hkey.
    destruct (last (titlesOf (pretty id) items)); reflexivity.
  - intros Hnot. now rewrite forEachM_untitled.
  - intros country' id Hne.
    destruct (forEachM _ items ∅); [|reflexivity].
    unfold categoryName. now rewrite lookup_insert_ne.
  - intros text row Hin.
    destruct (parseCSV_makeRow _ _ _ _ Hin) as (headers & values & ->).
    reflexivity.
Qed.

End Zone.

(** The examples are read in the zone of Greenwich. *)
#[local] Existing Instance JsDate.utc.

Lemma loadCategories_names_witness :
  Forall titled [Item.mk "10" (Some "Music"); Item.mk "10" (Some "Pop")]
  /\ categoryName
       (loadCategories
          [("US", Some [Item.mk "10" (Some "Music"); Item.mk "10" (Some "Pop")])]
          ∅) "US" 10
     = "Pop".
Proof.
  assert (H : Forall titled
                [Item.mk "10" (Some "Music"); Item.mk "10" (Some "Pop")]).
  { constructor; [now exists "Music"|].
    constructor; [now exists "Pop"|]. constructor. }
  split; [exact H|].
  exact (proj1 (loadCategories_names ∅ "US" _) H 10).
Defined.

End CategoryFacts.

Module GroupFacts.
Import JsString DataLoader Aggregation Notions Terms.
Import JsObjFacts LoadFacts HeatmapFacts TimingFacts FlowFacts.

Section Grouping.
Context {A V : Type}.
Variables (key : A -> string) (init : A -> V) (upd : A -> V -> V).
Local Abbreviation step := (groupStep key init upd).
Local Abbreviation group := (groupOf key).
Local Abbreviation value := (groupValue init upd).

Lemma groupOf_snoc k l x :
  group k (l ++ [x])
  = (group k l ++ if String.eqb (key x) k then [x] else [])%list.
Proof. unfold groupOf. rewrite List.filter_app. cbn. now destruct (_ =? _)%string. Qed.

(** After the loop the entry of a key is the value of its group. *)
Lemma get_fold_group l k :
  JsObj.get (fold_left step l []) k = value (group k l).
Proof.
  induction l as [|x l IH] using rev_ind; [reflexivity|].
  rewrite fold_left_app. cbn [fold_left]. unfold groupStep at 1.
  rewrite get_set, groupOf_snoc.
  destruct (String.eqb_spec (key x) k) as [<-|Hne].
  - rewrite IH. destruct (group (key x) l) as [|y ys] eqn:E.
    + reflexivity.
    + change (value ((y :: ys) ++ [x])%list)
        with (Some (fold_left (fun v z => upd z v) ((y :: ys) ++ [x])%list (init y))).
      rewrite fold_left_app. reflexivity.
  - now rewrite app_nil_r.
Qed.

Lemma keys_fold_group l : NoDup (JsObj.keys (fold_left step l [])).
Proof.
  induction l as [|x l IH] using rev_ind; [constructor|].
  rewrite fold_left_app. cbn [fold_left]. now apply keys_set_NoDup.
Qed.

Lemma key_fold_group l k :
  In k (JsObj.keys (fold_left step l [])) <-> exists x, In x l /\ key x = k.
Proof.
  split.
  - intros Hin. apply keys_get in Hin as [v Hv].
    rewrite get_fold_group in Hv.
    destruct (group k l) as [|x xs] eqn:E; [discriminate|].
    assert (Hx : In x (group k l)) by (rewrite E; now left).
    apply filter_In in Hx as [Hx Hk]. apply String.eqb_eq in Hk. eauto.
  - intros (x & Hx & <-).
    destruct (JsObj.get (fold_left step l []) (key x)) as [v|] eqn:E.
    + eapply get_Some_keys; eauto.
    + rewrite get_fold_group in E.
      assert (Hin : In x (group (key x) l)).
      { apply filter_In. split; [exact Hx|apply String.eqb_refl]. }
      destruct (group (key x) l); [destruct Hin|discriminate].
Qed.

(** Every entry of the table is the value of the group of its key. *)
Lemma entry_fold_group l k v :
  In (k, v) (fold_left step l []) -> value (group k l) = Some v.
Proof.
  intros Hin. rewrite <- get_fold_group.
  apply get_of_In; [apply keys_fold_group|exact Hin].
Qed.

(** The sums of a weight over the groups of a list of keys that has no
    repetition and holds the key of every element add up to the sum over
    all elements. *)
Lemma Zsum_groups (weight : A -> Z) (keys : list string) l :
  NoDup keys -> (forall x, In x l -> In (key x) keys) ->
  Zsum (map (fun k => Zsum (map weight (group k l))) keys) = Zsum (map weight l).
Proof.
  intros Hnd Hkeys.
  set (classify := fun x => if JsArray.includes keys (key x)
                            then Some (key x) else None).
  assert (Hclass : forall x, In x l -> classify x = Some (key x)).
  { intros x Hx. unfold classify.
    now rewrite (proj2 (JsArrayFacts.includes_In _ _) (Hkeys x Hx)). }
  transitivity
    (Zsum (map (fun k => Zsum (map weight (bucket classify k l))) keys)).
  - f_equal. apply map_ext. intros k. f_equal. f_equal.
    unfold groupOf, bucket. apply filter_ext_in.
    intros x Hx. rewrite (Hclass x Hx).
    destruct (String.eqb_spec (key x) k) as [->|Hne].
    + now rewrite bool_decide_eq_true_2.
    + rewrite bool_decide_eq_false_2; [reflexivity|congruence].
  - rewrite (Zsum_buckets classify weight).
    + f_equal. f_equal. unfold classified.
      rewrite (filter_ext_in _ (fun _ => true)).
      * clear. induction l as [|x l' IH]; [reflexivity|]. cbn. now rewrite IH.
      * intros x Hx. apply bool_decide_eq_true_2. rewrite (Hclass x Hx). eauto.
    + exact Hnd.
    + intros x k. unfold classify.
      destruct (JsArray.includes keys (key x)) eqn:E; [|discriminate].
      intros [= <-]. now apply JsArrayFacts.includes_In.
Qed.

(** A measure of the entries that is the sum of a weight over the group
    adds up, over the table, to the sum over all elements. *)
Lemma Zsum_fold_group (measure : V -> Z) (weight : A -> Z) l :
  (forall k v, value (group k l) = Some v ->
     measure v = Zsum (map weight (group k l))) ->
  Zsum (map measure (JsObj.values (fold_left step l []))) = Zsum (map weight l).
Proof.
  intros Hmeasure.
  rewrite <- (Zsum_groups weight (JsObj.keys (fold_left step l [])) l).
  - unfold JsObj.values, JsObj.keys. rewrite !map_map. f_equal.
    apply map_ext_in. intros [k v] Hin. cbn [fst snd].
    now rewrite (Hmeasure k v) by now apply entry_fold_group.
  - apply keys_fold_group.
  - intros x Hx. apply key_fold_group. eauto.
Qed.

End Grouping.
End GroupFacts.

Module TableFacts.
Import JsString DataLoader Aggregation Notions Examples Terms.
Import JsObjFacts LoadFacts HeatmapFacts TimingFacts FlowFacts GroupFacts.

Lemma fold_add_Zsum {A : Type} (weight : A -> Z) (l : list A) (start : Z) :
  fold_left (fun sum x => sum + weight x) l start = start + Zsum (map weight l).
Proof.
  revert start. induction l as [|x l IH]; intros start; cbn [fold_left map].
  - unfold Zsum. cbn. lia.
  - rewrite IH, Zsum_cons. lia.
Qed.

Lemma sumOf_Zsum (field : Row -> Z) (rows : list Row) :
  sumOf field rows = Zsum (map field rows).
Proof. unfold sumOf. now rewrite fold_add_Zsum. Qed.

Lemma Zsum_ones {A : Type} (l : list A) :
  Zsum (map (fun _ => 1) l) = Z.of_nat (length l).
Proof.
  induction l as [|x l IH]; [reflexivity|].
  cbn [map length]. rewrite Zsum_cons, IH. lia.
Qed.

Lemma Zsum_map_id (l : list Z) : Zsum (map (fun n => n) l) = Zsum l.
Proof. now rewrite map_id. Qed.

(** The selection of [getCategoryDistributionByCountry]. *)
Lemma distribution_fold videoData country :
  getCategoryDistributionByCountry videoData country
  = fold_left countCategory (videosToProcess videoData "all" country) [].
Proof.
  unfold getCategoryDistributionByCountry, videosToProcess.
  now destruct (String.eqb country "all").
Qed.

Lemma count_value (xs : list Row) n :
  groupValue (fun _ : Row => 0) (fun _ n => n + 1) xs = Some n ->
  n = Z.of_nat (length xs) /\ 0 < n.
Proof.
  destruct xs as [|x xs]; [discriminate|]. intros [= <-].
  rewrite (fold_add_Zsum (fun _ => 1)), Zsum_ones. cbn [length]. lia.
Qed.

Lemma distribution_get videoData country category :
  JsObj.get (getCategoryDistributionByCountry videoData country) category
  = if 0 <? rowsOfCategory category (videosToProcess videoData "all" country)
    then Some (rowsOfCategory category (videosToProcess videoData "all" country))
    else None.
Proof.
  rewrite distribution_fold.
  change countCategory
    with (groupStep category_name (fun _ : Row => 0) (fun _ n => n + 1)).
  rewrite get_fold_group. unfold rowsOfCategory.
  set (videos := videosToProcess videoData "all" country).
  fold (groupOf category_name category videos).
  destruct (groupValue _ _ (groupOf category_name category videos)) as [n|] eqn:E.
  - apply count_value in E as [-> Hpos].
    now rewrite (proj2 (Z.ltb_lt _ _) Hpos).
  - destruct (groupOf category_name category videos); [reflexivity|discriminate].
Qed.

(** X4. In the result of [getCategoryDistributionByCountry] every
    category name is listed once, with the number of rows of the
    selection that have it; a name that no row has is not listed, the
    numbers add up to the number of rows, and a country that is not
    loaded gives the empty object. *)
Theorem getCategoryDistributionByCountry_counts (videoData : VideoData)
    (country : string) :
  let videos := videosToProcess videoData "all" country in
  let result := getCategoryDistributionByCountry videoData country in
  NoDup (JsObj.keys result)
  /\ (forall category,
        JsObj.get result category
        = if 0 <? rowsOfCategory category videos
          then Some (rowsOfCategory category videos)
          else None)
  /\ Zsum (JsObj.values result) = Z.of_nat (length videos)
  /\ (country <> "all" -> JsObj.get videoData country = None -> result = []).
Proof.
  intros videos result.
  split; [|split; [intros category; apply distribution_get|]];
    unfold result; rewrite distribution_fold; fold videos;
    change countCategory
      with (groupStep category_name (fun _ : Row => 0) (fun _ n => n + 1)).
  { apply keys_fold_group. }
  split.
  - rewrite <- Zsum_map_id.
    rewrite (Zsum_fold_group _ _ _ (fun n => n) (fun _ => 1)).
    + apply Zsum_ones.
    + intros k n Hn. apply count_value in Hn as [-> _]. now rewrite Zsum_ones.
  - intros Hall Hnone. unfold videos, videosToProcess, countryVideos.
    rewrite (proj2 (String.eqb_neq _ _) Hall), Hnone. reflexivity.
Qed.

Lemma getCategoryDistributionByCountry_counts_witness :
  "XX" <> "all" /\ JsObj.get heatData "XX" = None
  /\ getCategoryDistributionByCountry heatData "XX" = []
  /\ getCategoryDistributionByCountry heatData "US" = [("Music", 2); ("Comedy", 1)].
Proof.
  assert (H1 : "XX" <> "all") by congruence.
  assert (H2 : JsObj.get heatData "XX" = None) by reflexivity.
  split; [exact H1|]. split; [exact H2|]. split.
  - exact (proj2 (proj2 (proj2
             (getCategoryDistributionByCountry_counts heatData "XX"))) H1 H2).
  - vm_compute. reflexivity.
Defined.

Lemma engagement_value (xs : list Row) e :
  groupValue (fun _ : Row => Engagement.mk 0 0 0)
    (fun v old =>
       Engagement.mk (Engagement.Likes old + likes v)
         (Engagement.Dislikes old + dislikes v)
         (Engagement.Comments old + comment_count v)) xs = Some e ->
  e = Engagement.mk (Zsum (map likes xs)) (Zsum (map dislikes xs))
        (Zsum (map comment_count xs)).
Proof.
  assert (H : forall start,
             fold_left
               (fun old v =>
                  Engagement.mk (Engagement.Likes old + likes v)
                    (Engagement.Dislikes old + dislikes v)
                    (Engagement.Comments old + comment_count v)) xs start
             = Engagement.mk (Engagement.Likes start + Zsum (map likes xs))
                 (Engagement.Dislikes start + Zsum (map dislikes xs))
                 (Engagement.Comments start + Zsum (map comment_count xs))).
  { induction xs as [|x xs IH]; intros [a b c]; cbn [fold_left map].
    - unfold Zsum. cbn. f_equal; lia.
    - rewrite IH, !Zsum_cons. cbn. f_equal; lia. }
  destruct xs as [|x xs]; [discriminate|]. intros [= <-].
  exact (H (Engagement.mk 0 0 0)).
Qed.

Lemma categoryEngagement_fold videoData country :
  getCategoryEngagementByCountry videoData country
  = fold_left
      (groupStep categoryOrUnknown (fun _ : Row => Engagement.mk 0 0 0)
         (fun v old =>
            Engagement.mk (Engagement.Likes old + likes v)
              (Engagement.Dislikes old + dislikes v)
              (Engagement.Comments old + comment_count v)))
      (videosToProcess videoData "all" country) [].
Proof. reflexivity. Qed.

Lemma categoryEngagement_get videoData country category :
  JsObj.get (getCategoryEngagementByCountry videoData country) category
  = match groupOf categoryOrUnknown category
            (videosToProcess videoData "all" country) with
    | [] => None
    | rows =>
        Some (Engagement.mk (Zsum (map likes rows))
                (Zsum (map dislikes rows))
                (Zsum (map comment_count rows)))
    end.
Proof.
  rewrite categoryEngagement_fold, get_fold_group.
  destruct (groupOf categoryOrUnknown category _) as [|row rows];
    [reflexivity|].
  destruct (groupValue _ _ (row :: rows)) as [e|] eqn:E; [|discriminate].
  now apply engagement_value in E as ->.
Qed.

(** X10. [getCategoryEngagementByCountry] lists every category of the
    selection once, with the sums of the likes, dislikes and comments of
    its rows; rows without a category name are counted under Unknown.
    The sums of the entries add up to the sums over the selection. *)
Theorem getCategoryEngagementByCountry_sums (videoData : VideoData)
    (country : string) :
  let videos := videosToProcess videoData "all" country in
  let result := getCategoryEngagementByCountry videoData country in
  NoDup (JsObj.keys result)
  /\ (forall category,
        JsObj.get result category
        = match groupOf categoryOrUnknown category videos with
          | [] => None
          | rows =>
              Some (Engagement.mk (Zsum (map likes rows))
                      (Zsum (map dislikes rows))
                      (Zsum (map comment_count rows)))
          end)
  /\ Zsum (map Engagement.Likes (JsObj.values result)) = Zsum (map likes videos)
  /\ Zsum (map Engagement.Dislikes (JsObj.values result))
     = Zsum (map dislikes videos)
  /\ Zsum (map Engagement.Comments (JsObj.values result))
     = Zsum (map comment_count videos)
  /\ (forall row, In row videos -> category_name row = EmptyString ->
        In "Unknown" (JsObj.keys result)).
Proof.
  intros videos result.
  split; [|split; [intros category; apply categoryEngagement_get|]];
    unfold result; rewrite categoryEngagement_fold; fold videos.
  { apply keys_fold_group. }
  split; [|split; [|split]].
  - apply Zsum_fold_group. intros k e He.
    now apply engagement_value in He as ->.
  - apply Zsum_fold_group. intros k e He.
    now apply engagement_value in He as ->.
  - apply Zsum_fold_group. intros k e He.
    now apply engagement_value in He as ->.
  - intros row Hin Hname. apply key_fold_group. exists row.
    split; [exact Hin|]. unfold categoryOrUnknown. now rewrite Hname.
Qed.

End TableFacts.

Module LoadedFacts.
Import JsString DataLoader Aggregation Notions Examples Terms.
Import JsObjFacts ParserFacts LoadFacts HeatmapFacts FlowFacts.

Section Zone.
Context {zone : JsDate.TimeZone}.

Lemma textsOf_cons country code text fetched :
  textsOf country ((code, text) :: fetched)
  = if String.eqb code country then text :: textsOf country fetched
    else textsOf country fetched.
Proof. unfold textsOf. cbn. now destruct (String.eqb code country). Qed.

Lemma loadVideoData_last categories fetched videoData country :
  JsObj.get (loadVideoData categories fetched videoData) country
  = match last (textsOf country fetched) with
    | Some text => Some (parseCSV categories text country)
    | None => JsObj.get videoData country
    end.
Proof.
  revert videoData. induction fetched as [|[code text] fetched IH];
    intros videoData; [reflexivity|].
  change (loadVideoData categories ((code, text) :: fetched) videoData)
    with (loadVideoData categories fetched
            (JsObj.set videoData code (parseCSV categories text code))).
  rewrite IH, textsOf_cons, get_set.
  destruct (String.eqb_spec code country) as [->|Hne].
  - destruct (textsOf country fetched) as [|t ts]; [reflexivity|].
    change (last (text :: t :: ts)) with (last (t :: ts)).
    destruct (last (t :: ts)) eqn:El; [reflexivity|].
    now apply last_None in El.
  - reflexivity.
Qed.

Lemma parseCSV_country categories text country row :
  In row (parseCSV categories text country) -> DataLoader.country row = country.
Proof.
  intros Hin. now destruct (parseCSV_makeRow _ _ _ _ Hin) as (? & ? & ->).
Qed.

Lemma loadVideoData_tagged categories fetched :
  Tagged (loadVideoData categories fetched []).
Proof.
  assert (Hnd : NoDup (JsObj.keys (loadVideoData categories fetched [])))
    by (apply loadVideoData_keys; constructor).
  split; [exact Hnd|]. apply List.Forall_forall. intros [code rows] Hin.
  apply (get_of_In _ _ _ Hnd) in Hin.
  apply loadVideoData_get in Hin as [Hin|[text ->]]; [discriminate|].
  apply List.Forall_forall. intros row. apply parseCSV_country.
Qed.

Lemma filter_all {A : Type} (f : A -> bool) (l : list A) :
  (forall x, In x l -> f x = true) -> List.filter f l = l.
Proof.
  induction l as [|x l IH]; intros H; [reflexivity|]. cbn.
  rewrite (H x) by now left. f_equal. apply IH. intros y Hy. apply H. now right.
Qed.

Lemma filter_none {A : Type} (f : A -> bool) (l : list A) :
  (forall x, In x l -> f x = false) -> List.filter f l = [].
Proof.
  induction l as [|x l IH]; intros H; [reflexivity|]. cbn.
  rewrite (H x) by now left. apply IH. intros y Hy. apply H. now right.
Qed.

Lemma allVideos_cons code rows (videoData : VideoData) :
  allVideos ((code, rows) :: videoData) = (rows ++ allVideos videoData)%list.
Proof. reflexivity. Qed.

Lemma allVideos_In (videoData : VideoData) row :
  In row (allVideos videoData)
  <-> exists code rows, In (code, rows) videoData /\ In row rows.
Proof.
  induction videoData as [|[code rows] videoData IH].
  - split; [intros []|intros (? & ? & [] & _)].
  - rewrite allVideos_cons, in_app_iff, IH. split.
    + intros [H|(c & rs & H1 & H2)].
      * exists code, rows. split; [now left|exact H].
      * exists c, rs. split; [now right|exact H2].
    + intros (c & rs & [[= <- <-]|H1] & H2); [now left|right; eauto].
Qed.

(** In loaded data the rows that carry the code of a country are the rows
    listed for it. *)
Lemma filter_country (videoData : VideoData) code :
  Tagged videoData ->
  List.filter (fun video => String.eqb (country video) code) (allVideos videoData)
  = countryVideos videoData code.
Proof.
  intros [Hnd Hall]. induction videoData as [|[code' rows] videoData IH];
    [reflexivity|].
  apply Forall_cons_1 in Hall as [Hrows Hall].
  cbn [JsObj.keys map fst] in Hnd. apply NoDup_cons in Hnd as [Hnotin Hnd].
  rewrite allVideos_cons, List.filter_app. unfold countryVideos.
  cbn [JsObj.get]. destruct (String.eqb_spec code' code) as [->|Hne].
  - rewrite filter_all.
    + rewrite filter_none; [now rewrite app_nil_r|].
      intros row Hrow. apply allVideos_In in Hrow as (c & rs & Hin & Hrow).
      rewrite List.Forall_forall in Hall. specialize (Hall _ Hin). cbn in Hall.
      rewrite List.Forall_forall in Hall. rewrite (Hall _ Hrow).
      apply String.eqb_neq. intros ->. apply Hnotin.
      apply list_elem_of_In. apply in_map_iff. now exists (code, rs).
    + intros row Hrow. rewrite List.Forall_forall in Hrows.
      rewrite (Hrows _ Hrow). apply String.eqb_refl.
  - rewrite filter_none.
    + cbn [app]. now apply IH.
    + intros row Hrow. rewrite List.Forall_forall in Hrows.
      rewrite (Hrows _ Hrow). now apply String.eqb_neq.
Qed.

(** X23. After [loadVideoData] the rows of a country are those parsed
    from the last text that arrived for it: a reload replaces the rows of
    the country as a whole and leaves the other countries as they were.
    Every country is listed once, and every row carries the code of the
    country it is listed under. *)
Theorem loadVideoData_replaces (categories : Categories)
    (fetched : list (string * string)) (videoData : VideoData) (country : string) :
  JsObj.get (loadVideoData categories fetched videoData) country
  = match last (textsOf country fetched) with
    | Some text => Some (parseCSV categories text country)
    | None => JsObj.get videoData country
    end
  /\ (NoDup (JsObj.keys videoData) ->
      NoDup (JsObj.keys (loadVideoData categories fetched videoData)))
  /\ Tagged (loadVideoData categories fetched []).
Proof.
  split; [apply loadVideoData_last|]. split.
  - apply loadVideoData_keys.
  - apply loadVideoData_tagged.
Qed.

End Zone.

(** The examples are read in the zone of Greenwich. *)
#[local] Existing Instance JsDate.utc.

Lemma loadVideoData_replaces_witness :
  NoDup (JsObj.keys usData)
  /\ NoDup (JsObj.keys (loadVideoData ∅ [("US", "views")] usData))
  /\ JsObj.get (loadVideoData ∅ [("US", "views")] usData) "US" = Some [].
Proof.
  assert (H : NoDup (JsObj.keys usData)) by (repeat constructor; set_solver).
  split; [exact H|]. split.
  - exact (proj1 (proj2 (loadVideoData_replaces ∅ [("US", "views")] usData "US")) H).
  - exact (proj1 (loadVideoData_replaces ∅ [("US", "views")] usData "US")).
Defined.

End LoadedFacts.

Module EngagementFacts.
Import JsString DataLoader Aggregation Notions Examples Terms.
Import JsObjFacts JsArrayFacts ParserFacts LoadFacts HeatmapFacts FlowFacts.
Import GroupFacts TableFacts LoadedFacts.

Lemma engagementOf_Zsum rows :
  engagementOf rows
  = Engagement.mk (Zsum (map likes rows)) (Zsum (map dislikes rows))
      (Zsum (map comment_count rows)).
Proof. unfold engagementOf. now rewrite !sumOf_Zsum. Qed.

(** The rows [getFilteredEngagementMetrics] adds up. *)
Lemma filtered_rows videoData country category :
  getFilteredEngagementMetrics videoData country category
  = engagementOf
      (List.filter
         (fun video => String.eqb category "all"
                       || String.eqb (category_name video) category)
         (List.filter
            (fun video => String.eqb country "all"
                          || String.eqb (DataLoader.country video) country)
            (allVideos videoData))).
Proof.
  unfold getFilteredEngagementMetrics.
  destruct (String.eqb country "all"), (String.eqb category "all");
    cbn [negb orb]; rewrite ?(filter_all (fun _ : Row => true)); auto.
Qed.

Lemma getAvailableCategories_In videoData category :
  In category (getAvailableCategories videoData)
  <-> exists row, In row (allVideos videoData)
                  /\ category_name row = category
                  /\ category <> EmptyString.
Proof. apply heatmap_categories. Qed.

Lemma getAvailableCategories_NoDup videoData :
  NoDup (getAvailableCategories videoData).
Proof. apply heatmap_categories_NoDup. Qed.

(** X7. [getAvailableCategories] lists the category names of the rows
    that are not empty, each once, in ascending order of their code
    units; it is the list of categories of the heat map. *)
Theorem getAvailableCategories_sorted (videoData : VideoData) :
  StronglySorted (fun a b => String.leb a b = true)
    (getAvailableCategories videoData)
  /\ NoDup (getAvailableCategories videoData)
  /\ (forall category,
        In category (getAvailableCategories videoData)
        <-> exists row, In row (allVideos videoData)
                        /\ category_name row = category
                        /\ category <> EmptyString)
  /\ getAvailableCategories videoData
     = Heatmap.categories (getHeatmapData videoData).
Proof.
  split; [apply sortStrings_sorted|].
  split; [apply getAvailableCategories_NoDup|].
  split; [apply getAvailableCategories_In|reflexivity].
Qed.

Lemma filtered_category videoData category :
  category <> "all" ->
  getFilteredEngagementMetrics videoData "all" category
  = engagementOf (groupOf category_name category (allVideos videoData)).
Proof.
  intros Hne. rewrite filtered_rows.
  rewrite (proj2 (String.eqb_neq _ _) Hne). cbn [String.eqb orb].
  now rewrite (filter_all (fun _ => true)).
Qed.

(** X5. With no filter [getFilteredEngagementMetrics] returns the overall
    metrics, and when every row has a category name, none of them the
    word all, the metrics of the available categories add up to the
    overall metrics: every row is counted under exactly one category. *)
Theorem getFilteredEngagementMetrics_categories (videoData : VideoData) :
  (forall row, In row (allVideos videoData) ->
     category_name row <> EmptyString /\ category_name row <> "all") ->
  let total := getEngagementMetrics videoData in
  let part := getFilteredEngagementMetrics videoData "all" in
  let categories := getAvailableCategories videoData in
  part "all" = total
  /\ Zsum (map (fun category => Engagement.Likes (part category)) categories)
     = Engagement.Likes total
  /\ Zsum (map (fun category => Engagement.Dislikes (part category)) categories)
     = Engagement.Dislikes total
  /\ Zsum (map (fun category => Engagement.Comments (part category)) categories)
     = Engagement.Comments total.
Proof.
  intros Hnamed total part categories.
  split; [reflexivity|].
  assert (Hkeys : forall row, In row (allVideos videoData) ->
                    In (category_name row) categories).
  { intros row Hrow. apply getAvailableCategories_In. exists row.
    split; [exact Hrow|]. split; [reflexivity|]. now apply Hnamed. }
  assert (Hpart : forall category, In category categories ->
                    part category
                    = engagementOf
                        (groupOf category_name category (allVideos videoData))).
  { intros category Hin. apply filtered_category.
    apply getAvailableCategories_In in Hin as (row & Hrow & <- & _).
    now apply Hnamed. }
  assert (Hsum : forall weight : Row -> Z,
             Zsum (map (fun category =>
                          Zsum (map weight
                                  (groupOf category_name category
                                     (allVideos videoData))))
                     categories)
             = Zsum (map weight (allVideos videoData))).
  { intros weight. apply Zsum_groups; [|exact Hkeys].
    apply getAvailableCategories_NoDup. }
  unfold total, getEngagementMetrics. rewrite engagementOf_Zsum.
  cbn [Engagement.Likes Engagement.Dislikes Engagement.Comments].
  rewrite <- (Hsum likes), <- (Hsum dislikes), <- (Hsum comment_count).
  repeat split; f_equal; apply map_ext_in; intros category Hin;
    rewrite (Hpart category Hin), engagementOf_Zsum; reflexivity.
Qed.

Lemma getFilteredEngagementMetrics_categories_witness :
  (forall row, In row (allVideos heatData) ->
     category_name row <> EmptyString /\ category_name row <> "all")
  /\ getAvailableCategories heatData = ["Comedy"; "Music"; "Unknown"]
  /\ Zsum (map (fun category =>
                  Engagement.Likes
                    (getFilteredEngagementMetrics heatData "all" category))
             (getAvailableCategories heatData))
     = Engagement.Likes (getEngagementMetrics heatData).
Proof.
  assert (H : forall row, In row (allVideos heatData) ->
                category_name row <> EmptyString /\ category_name row <> "all").
  { apply List.Forall_forall.
    apply (proj1 (List.Forall_map category_name
                    (fun name => name <> EmptyString /\ name <> "all") _)).
    replace (map category_name (allVideos heatData))
      with ["Music"; "Music"; "Comedy"; "Unknown"] by (vm_compute; reflexivity).
    repeat constructor; congruence. }
  split; [exact H|]. split; [vm_compute; reflexivity|].
  exact (proj1 (proj2 (getFilteredEngagementMetrics_categories heatData H))).
Defined.

Lemma groupOf_categoryOrUnknown category rows :
  category <> EmptyString -> category <> "Unknown" ->
  groupOf categoryOrUnknown category rows = groupOf category_name category rows.
Proof.
  intros Hne Hunknown. unfold groupOf. apply filter_ext. intros row.
  unfold categoryOrUnknown, truthy.
  destruct (String.eqb_spec (category_name row) EmptyString) as [->|_];
    cbn [negb]; [|reflexivity].
  rewrite (proj2 (String.eqb_neq "Unknown" category)) by congruence.
  symmetry. apply String.eqb_neq. congruence.
Qed.

(** X6. In loaded data, where every row carries the code of the country
    it is listed under, [getFilteredEngagementMetrics] for a country adds
    up the rows listed for it, which gives zeros for a country that is
    not loaded; with a category as well it adds up the rows of the
    category among them, and for a category with a name other than
    Unknown that has a row in the country it agrees with the entry that
    [getCategoryEngagementByCountry] holds for the category. *)
Theorem getFilteredEngagementMetrics_country (videoData : VideoData)
    (country category : string) :
  Tagged videoData -> country <> "all" -> category <> "all" ->
  let rows := countryVideos videoData country in
  getFilteredEngagementMetrics videoData country "all" = engagementOf rows
  /\ getFilteredEngagementMetrics videoData country category
     = engagementOf (groupOf category_name category rows)
  /\ (JsObj.get videoData country = None ->
      getFilteredEngagementMetrics videoData country category
      = Engagement.mk 0 0 0)
  /\ (category <> EmptyString -> category <> "Unknown" ->
      groupOf category_name category rows <> [] ->
      JsObj.get (getCategoryEngagementByCountry videoData country) category
      = Some (getFilteredEngagementMetrics videoData country category)).
Proof.
  intros Htagged Hcountry Hcategory rows.
  assert (Hrows : List.filter
                    (fun video => String.eqb country "all"
                                  || String.eqb (DataLoader.country video) country)
                    (allVideos videoData) = rows).
  { rewrite (proj2 (String.eqb_neq _ _) Hcountry). cbn [orb].
    now apply filter_country. }
  assert (Hboth : getFilteredEngagementMetrics videoData country category
                  = engagementOf (groupOf category_name category rows)).
  { rewrite filtered_rows, Hrows.
    now rewrite (proj2 (String.eqb_neq _ _) Hcategory). }
  split; [|split; [exact Hboth|split]].
  - rewrite filtered_rows, Hrows. cbn [String.eqb orb].
    now rewrite (filter_all (fun _ => true)).
  - intros Hnone. rewrite Hboth. unfold rows, countryVideos. now rewrite Hnone.
  - intros Hne Hunknown Hsome.
    rewrite categoryEngagement_get, Hboth. unfold videosToProcess.
    rewrite (proj2 (String.eqb_neq _ _) Hcountry). fold rows.
    rewrite groupOf_categoryOrUnknown by assumption.
    rewrite engagementOf_Zsum.
    now destruct (groupOf category_name category rows).
Qed.

Lemma getFilteredEngagementMetrics_country_witness :
  Tagged heatData /\ "US" <> "all" /\ "Music" <> "all"
  /\ getFilteredEngagementMetrics heatData "US" "Music"
     = engagementOf (groupOf category_name "Music" (countryVideos heatData "US")).
Proof.
  assert (H1 : Tagged heatData).
  { split; [|vm_compute; repeat constructor].
    apply (bool_decide_unpack (NoDup (JsObj.keys heatData))).
    vm_compute. exact I. }
  assert (H2 : "US" <> "all") by congruence.
  assert (H3 : "Music" <> "all") by congruence.
  split; [exact H1|]. split; [exact H2|]. split; [exact H3|].
  exact (proj1 (proj2
           (getFilteredEngagementMetrics_country heatData "US" "Music" H1 H2 H3))).
Defined.

End EngagementFacts.

Module TopVideoFacts.
Import JsString DataLoader Aggregation Notions Examples Terms.
Import JsObjFacts JsArrayFacts ParserFacts LoadFacts HeatmapFacts FlowFacts.
Import GroupFacts TableFacts LoadedFacts LineFacts.

Lemma slice0_take {A : Type} (n : Z) (l : list A) :
  0 <= n -> JsArray.slice0 n l = take (Z.to_nat n) l.
Proof.
  intros Hn. unfold JsArray.slice0.
  now rewrite (proj2 (Z.ltb_ge n 0)) by lia.
Qed.

(** The elements a descending sort and a cut leave out are no larger
    than those that are kept. *)
Lemma top_of_sorted {A : Type} (key : A -> Z) (limit : Z) (l : list A) :
  let kept := JsArray.slice0 limit (JsArray.sort (fun a b => key b - key a) l) in
  StronglySorted (fun a b => key b <= key a) kept
  /\ exists rest,
      Permutation l (kept ++ rest)
      /\ Forall (fun x => Forall (fun y => key x <= key y) kept) rest.
Proof.
  intros kept.
  pose proof (sort_descending key l) as Hsorted.
  destruct (slice0_prefix limit (JsArray.sort (fun a b => key b - key a) l))
    as [rest Hrest].
  fold kept in Hrest. rewrite Hrest in Hsorted. split.
  - now apply StronglySorted_app_1_l in Hsorted.
  - exists rest. split.
    + rewrite <- Hrest. symmetry. apply sort_perm.
    + apply List.Forall_forall. intros x Hx.
      apply List.Forall_forall. intros y Hy.
      apply (StronglySorted_app_1_elem_of _ _ _ _ _ Hsorted);
        now apply list_elem_of_In.
Qed.

Lemma length_substring (n : nat) (s : string) :
  String.length (String.substring 0 n s) = Nat.min n (String.length s).
Proof.
  revert s. induction n as [|n IH]; intros [|c s]; cbn; auto.
Qed.

Lemma shortTitle_length title : (String.length (shortTitle title) <= 33)%nat.
Proof.
  unfold shortTitle. destruct (Nat.ltb_spec 30 (String.length title)); [|lia].
  rewrite length_append, length_substring.
    change (String.length "...") with 3%nat. lia.
Qed.

(** X8. [getTopVideosByViewsFiltered] returns rows with positive views
    in descending order of their views, as many as the limit allows;
    every row of the selection that it leaves out has no more views than
    any row it returns. The ratio of an entry is its likes over its
    views, and with a country selected every entry is of that country. *)
Theorem getTopVideosByViewsFiltered_top (videoData : VideoData) (limit : Z)
    (selectedCountry : string) :
  let selection :=
    List.filter (fun v => String.eqb selectedCountry "all"
                          || String.eqb (country v) selectedCountry)
      (allVideos videoData) in
  let candidates := List.filter (fun v => 0 <? views v) selection in
  let result := getTopVideosByViewsFiltered videoData limit selectedCountry in
  StronglySorted (fun a b => RankedVideo.views b <= RankedVideo.views a) result
  /\ (0 <= limit ->
      length result = Nat.min (Z.to_nat limit) (length candidates))
  /\ Forall (fun entry =>
               0 < RankedVideo.views entry
               /\ (RankedVideo.ratio entry
                   == inject_Z (RankedVideo.likes entry)
                      / inject_Z (RankedVideo.views entry))%Q
               /\ (selectedCountry <> "all" ->
                   RankedVideo.country entry = selectedCountry))
       result
  /\ exists rest,
      Permutation (map views candidates) (map RankedVideo.views result ++ rest)
      /\ Forall (fun left =>
                   Forall (fun entry => left <= RankedVideo.views entry) result)
           rest.
Proof.
  intros selection candidates result.
  assert (Hsel : (if negb (String.eqb selectedCountry "all")
                  then List.filter (fun v => String.eqb (country v) selectedCountry)
                         (allVideos videoData)
                  else allVideos videoData) = selection).
  { unfold selection. destruct (String.eqb selectedCountry "all"); cbn [negb orb].
    - now rewrite (filter_all (fun _ : Row => true)).
    - reflexivity. }
  unfold result, getTopVideosByViewsFiltered. rewrite Hsel. fold candidates.
  destruct (top_of_sorted views limit candidates) as (Hsorted & rest & Hperm & Hrest).
  set (kept := JsArray.slice0 limit
                 (JsArray.sort (fun a b => views b - views a) candidates)) in *.
  assert (Hkept : forall video, In video kept -> In video candidates).
  { intros video Hin. apply (Permutation_in _ (Permutation_sym Hperm)).
    apply in_app_iff. now left. }
  split; [|split; [|split]].
  - clear - Hsorted. induction Hsorted as [|video l _ IH Hall]; [constructor|].
    cbn [map]. constructor; [exact IH|].
    apply List.Forall_forall. intros entry Hin.
    apply in_map_iff in Hin as (other & <- & Hin).
    rewrite List.Forall_forall in Hall. now apply Hall.
  - intros Hlimit. rewrite length_map. unfold kept.
    rewrite slice0_take, length_take by exact Hlimit.
    now rewrite (Permutation_length (sort_perm _ candidates)).
  - apply List.Forall_forall. intros entry Hin.
    apply in_map_iff in Hin as (video & <- & Hin).
    apply Hkept in Hin. apply filter_In in Hin as [Hin Hpos].
    cbn [RankedVideo.views RankedVideo.ratio RankedVideo.likes RankedVideo.country].
    rewrite Hpos. split; [lia|]. split; [reflexivity|].
    intros Hne. apply filter_In in Hin as [_ Hc].
    rewrite (proj2 (String.eqb_neq _ _) Hne) in Hc. now apply String.eqb_eq.
  - exists (map views rest). split.
    + rewrite map_map. cbn [RankedVideo.views].
      rewrite <- map_app. now apply Permutation_map.
    + apply List.Forall_forall. intros left Hleft.
      apply in_map_iff in Hleft as (video & <- & Hvideo).
      apply List.Forall_forall. intros entry Hentry.
      apply in_map_iff in Hentry as (other & <- & Hother).
      rewrite List.Forall_forall in Hrest. specialize (Hrest _ Hvideo).
      rewrite List.Forall_forall in Hrest. now apply Hrest.
Qed.

Lemma getTopVideosByViewsFiltered_top_witness :
  0 <= 2
  /\ "all" <> "US"
  /\ map RankedVideo.views (getTopVideosByViewsFiltered sampleData 2 "US")
     = [400; 300]
  /\ length (getTopVideosByViewsFiltered sampleData 2 "US")
     = Nat.min (Z.to_nat 2)
         (length (List.filter (fun v => 0 <? views v)
                    (List.filter
                       (fun v => String.eqb "US" "all"
                                 || String.eqb (country v) "US")
                       (allVideos sampleData)))).
Proof.
  assert (H : 0 <= 2) by lia.
  split; [exact H|]. split; [congruence|]. split; [vm_compute; reflexivity|].
  exact (proj1 (proj2 (getTopVideosByViewsFiltered_top sampleData 2 "US")) H).
Defined.

(** X9. [getTopVideosByViews] throws when one of the rows it selects has
    no title, and only then. When it returns, it holds one entry for
    every selected row, in descending order of their views and as many
    as the limit allows; an entry holds the views, likes, comments,
    channel, country and category of its row, and the title of the row
    when that has at most 30 characters, else its first 30 characters
    followed by three dots, so that no title has more than 33. *)
Theorem getTopVideosByViews_titles (videoData : VideoData) (limit : Z) :
  let selected :=
    JsArray.slice0 limit
      (JsArray.sort (fun a b => views b - views a) (allVideos videoData)) in
  (getTopVideosByViews videoData limit = None
   <-> Exists (fun video => props video !! "title" = None) selected)
  /\ (forall result,
        getTopVideosByViews videoData limit = Some result ->
        Forall2
          (fun video entry =>
             (exists title,
                 props video !! "title" = Some title
                 /\ ((String.length title <= 30)%nat ->
                     TopVideo.title entry = title)
                 /\ ((30 < String.length title)%nat ->
                     TopVideo.title entry
                     = String.substring 0 30 title +:+ "..."))
             /\ TopVideo.views entry = views video
             /\ TopVideo.likes entry = likes video
             /\ TopVideo.comments entry = comment_count video
             /\ TopVideo.channel entry = props video !! "channel_title"
             /\ TopVideo.country entry = country video
             /\ TopVideo.category entry = category_name video)
          selected result
        /\ map TopVideo.views result = map views selected
        /\ StronglySorted (fun a b => TopVideo.views b <= TopVideo.views a) result
        /\ (0 <= limit ->
            length result
            = Nat.min (Z.to_nat limit) (length (allVideos videoData)))
        /\ Forall (fun entry => (String.length (TopVideo.title entry) <= 33)%nat)
             result)
  /\ (forall title,
        (String.length title <= 30)%nat -> shortTitle title = title)
  /\ (forall title,
        (30 < String.length title)%nat ->
        shortTitle title = String.substring 0 30 title +:+ "..."
        /\ String.length (shortTitle title) = 33%nat).
Proof.
  intros selected. split; [|split; [|split]].
  - unfold getTopVideosByViews. fold selected. rewrite mapM_None.
    split; intros H; apply List.Exists_exists in H as (video & Hin & Hv);
      apply List.Exists_exists; exists video; (split; [exact Hin|]).
    + now destruct (props video !! "title").
    + now rewrite Hv.
  - intros result Hres. unfold getTopVideosByViews in Hres. fold selected in Hres.
    apply mapM_Some in Hres.
    assert (Hviews : map TopVideo.views result = map views selected).
    { clear - Hres. induction Hres as [|video entry l k Hentry _ IH];
        [reflexivity|].
      cbn [map]. rewrite IH. f_equal.
      destruct (props video !! "title"); [|discriminate].
      now injection Hentry as <-. }
    split; [|split; [exact Hviews|split; [|split]]].
    + clear - Hres. induction Hres as [|video entry l k Hentry _ IH];
        constructor; [|exact IH].
      destruct (props video !! "title") as [title|]; [|discriminate].
      injection Hentry as <-.
      cbn [TopVideo.title TopVideo.views TopVideo.likes TopVideo.comments
             TopVideo.channel TopVideo.country TopVideo.category].
      split; [|repeat split]. exists title. split; [reflexivity|].
      unfold shortTitle. split; intros Hlen.
      * now rewrite (proj2 (Nat.ltb_ge _ _)) by lia.
      * now rewrite (proj2 (Nat.ltb_lt _ _)) by lia.
    + destruct (top_of_sorted views limit (allVideos videoData)) as [Hsorted _].
      fold selected in Hsorted.
      apply (StronglySorted_fmap views _ (fun a b => b <= a)) in Hsorted.
      * change (views <$> selected) with (map views selected) in Hsorted.
        rewrite <- Hviews in Hsorted. clear - Hsorted.
        induction result as [|entry result IH]; [constructor|].
        cbn [map] in Hsorted. apply StronglySorted_inv in Hsorted as [Hs Hall].
        constructor; [now apply IH|].
        apply List.Forall_forall. intros other Hin.
        rewrite List.Forall_forall in Hall. apply Hall.
        apply in_map_iff. now exists other.
      * auto.
    + intros Hlimit.
      rewrite <- (length_map TopVideo.views), Hviews, length_map.
      unfold selected. rewrite slice0_take, length_take by exact Hlimit.
      now rewrite (Permutation_length (sort_perm _ _)).
    + clear - Hres. induction Hres as [|video entry l k Hentry _ IH];
        constructor; [|exact IH].
      destruct (props video !! "title"); [|discriminate].
      injection Hentry as <-. apply shortTitle_length.
  - intros title Hle. unfold shortTitle.
    now rewrite (proj2 (Nat.ltb_ge _ _)) by lia.
  - intros title Hlt. unfold shortTitle.
    rewrite (proj2 (Nat.ltb_lt _ _)) by lia. split; [reflexivity|].
    rewrite length_append, length_substring.
    change (String.length "...") with 3%nat. lia.
Qed.

Lemma getTopVideosByViews_titles_witness :
  getTopVideosByViews usData 1 = None
  /\ (30 < String.length "The title of a video that is too long")%nat
  /\ shortTitle "The title of a video that is too long"
     = "The title of a video that is t...".
Proof.
  split.
  - apply (proj1 (getTopVideosByViews_titles usData 1)).
    vm_compute. constructor. reflexivity.
  - split; [vm_compute; lia|reflexivity].
Defined.

End TopVideoFacts.

Module PerformanceFacts.
Import JsString DataLoader Aggregation JsNum Notions Examples Terms.
Import JsObjFacts JsArrayFacts ParserFacts ViewsByCountryFacts LoadFacts.
Import HeatmapFacts FlowFacts GroupFacts TableFacts LoadedFacts EngagementFacts.

Lemma Zsum_perm (l k : list Z) : Permutation l k -> Zsum l = Zsum k.
Proof.
  intros H. induction H; rewrite ?Zsum_cons; lia.
Qed.

Lemma filter_filter_sub {A : Type} (f g : A -> bool) (l : list A) :
  (forall x, f x = true -> g x = true) ->
  List.filter f (List.filter g l) = List.filter f l.
Proof.
  intros Hsub. induction l as [|x l IH]; [reflexivity|]. cbn.
  destruct (g x) eqn:Eg; cbn; destruct (f x) eqn:Ef; rewrite ?IH; auto.
  rewrite (Hsub x Ef) in Eg. discriminate.
Qed.

Lemma byTotalViews_sorted (l : list Performance.t) :
  StronglySorted
    (fun a b => Performance.totalViews b <= Performance.totalViews a)
    (JsArray.sort byTotalViews l).
Proof. apply (sort_descending Performance.totalViews). Qed.

(** The entry of a list of rows, when there is one. *)
Lemma performanceOf_Some name rows entry :
  performanceOf name rows = Some entry ->
  rows <> []
  /\ Performance.name entry = name
  /\ Performance.totalViews entry = Zsum (map views rows)
  /\ Performance.totalLikes entry = Zsum (map likes rows)
  /\ Performance.totalComments entry = Zsum (map comment_count rows)
  /\ Performance.videoCount entry = Z.of_nat (length rows)
  /\ Performance.avgViews entry
     = JsNum.div (sumViews rows) (Z.of_nat (length rows))
  /\ exists q,
      Performance.avgViews entry = Fin q
      /\ (q == inject_Z (Performance.totalViews entry)
               / inject_Z (Performance.videoCount entry))%Q.
Proof.
  unfold performanceOf. destruct rows as [|row rows]; [discriminate|].
  cbn [length Nat.ltb Nat.leb]. intros [= <-].
  cbn [Performance.name Performance.totalViews Performance.totalLikes
       Performance.totalComments Performance.videoCount Performance.avgViews].
  rewrite <- !sumOf_Zsum.
  repeat split; try reflexivity; [congruence|].
  apply div_positive. cbn [length]. lia.
Qed.

Lemma performanceOf_None name rows :
  performanceOf name rows = None <-> rows = [].
Proof.
  unfold performanceOf. destruct rows; cbn; split; congruence.
Qed.

Lemma omap_names {A : Type} (f : A -> option Performance.t) (name : A -> string)
    (l : list A) :
  (forall x entry, f x = Some entry -> Performance.name entry = name x) ->
  map Performance.name (omap f l)
  = map name (List.filter (fun x => bool_decide (is_Some (f x))) l).
Proof.
  intros Hname. induction l as [|x l IH]; [reflexivity|].
  cbn [List.filter]. change (omap f (x :: l))
    with (match f x with Some y => y :: omap f l | None => omap f l end).
  destruct (f x) as [entry|] eqn:E.
  - rewrite bool_decide_eq_true_2 by eauto. cbn [map].
    now rewrite IH, (Hname x entry E).
  - rewrite bool_decide_eq_false_2 by (intros [? ?]; discriminate). exact IH.
Qed.

Lemma In_omap {A B : Type} (f : A -> option B) (l : list A) (y : B) :
  In y (omap f l) <-> exists x, In x l /\ f x = Some y.
Proof.
  rewrite <- list_elem_of_In, list_elem_of_omap.
  split; intros (x & Hx & Hy); exists x; (split; [|exact Hy]);
    now apply list_elem_of_In.
Qed.

Lemma getViewsByCountry_get videoData country :
  In country (JsObj.keys videoData) ->
  JsObj.get (getViewsByCountry videoData) country
  = Some (CountryViews.mk (sumViews (countryVideos videoData country))
            (JsNum.div (sumViews (countryVideos videoData country))
               (Z.of_nat (length (countryVideos videoData country))))
            (Z.of_nat (length (countryVideos videoData country)))).
Proof.
  intros Hin. unfold getViewsByCountry. rewrite get_fold_set.
  rewrite (proj2 (existsb_exists _ _)); [reflexivity|].
  exists country. split; [exact Hin|apply String.eqb_refl].
Qed.

(** X11. [getCountryPerformance] holds one entry for every country that
    has rows and none for the others, in descending order of the total
    views. Each entry holds the sums and the number of the rows of its
    country; its average is a finite number, never NaN, and the entry
    agrees with the one [getViewsByCountry] holds for the country. *)
Theorem getCountryPerformance_entries (videoData : VideoData) :
  let result := getCountryPerformance videoData in
  StronglySorted
    (fun a b => Performance.totalViews b <= Performance.totalViews a) result
  /\ Permutation (map Performance.name result)
       (List.filter (hasVideos videoData) (JsObj.keys videoData))
  /\ Forall
       (fun entry =>
          let rows := countryVideos videoData (Performance.name entry) in
          rows <> []
          /\ Performance.totalViews entry = Zsum (map views rows)
          /\ Performance.totalLikes entry = Zsum (map likes rows)
          /\ Performance.totalComments entry = Zsum (map comment_count rows)
          /\ Performance.videoCount entry = Z.of_nat (length rows)
          /\ (exists q,
                 Performance.avgViews entry = Fin q
                 /\ (q == inject_Z (Performance.totalViews entry)
                          / inject_Z (Performance.videoCount entry))%Q)
          /\ JsObj.get (getViewsByCountry videoData) (Performance.name entry)
             = Some (CountryViews.mk (Performance.totalViews entry)
                       (Performance.avgViews entry)
                       (Performance.videoCount entry)))
       result.
Proof.
  intros result. unfold result, getCountryPerformance.
  split; [apply byTotalViews_sorted|]. split.
  - rewrite (Permutation_map _ (sort_perm _ _)).
    rewrite (omap_names _ (fun country => country)).
    + rewrite map_id. erewrite filter_ext; [reflexivity|].
      intros country. unfold hasVideos, countryVideos.
      destruct (JsObj.get videoData country) as [[|row rows]|]; reflexivity.
    + intros country entry He. now apply performanceOf_Some in He.
  - apply List.Forall_forall. intros entry Hin.
    apply sort_In, In_omap in Hin as (country & Hcountry & He).
    pose proof (performanceOf_Some _ _ _ He)
      as (Hne & Hname & Hv & Hl & Hc & Hn & Havg & Hq).
    cbv zeta. rewrite Hname.
    repeat (split; [assumption|]).
    rewrite (getViewsByCountry_get _ _ Hcountry), Hv, Havg, Hn.
    f_equal. f_equal. apply sumViews_foldr.
Qed.

(** X12. [getCategoryPerformance] holds one entry for every available
    category, in descending order of the total views; an entry holds the
    sums and the number of the rows that have its category name, and its
    average is a finite number. The numbers of rows of the entries add up
    to the number of rows that have a category name. *)
Theorem getCategoryPerformance_entries (videoData : VideoData) :
  let result := getCategoryPerformance videoData in
  StronglySorted
    (fun a b => Performance.totalViews b <= Performance.totalViews a) result
  /\ Permutation (map Performance.name result) (getAvailableCategories videoData)
  /\ Forall
       (fun entry =>
          let rows :=
            groupOf category_name (Performance.name entry) (allVideos videoData) in
          rows <> []
          /\ Performance.totalViews entry = Zsum (map views rows)
          /\ Performance.totalLikes entry = Zsum (map likes rows)
          /\ Performance.totalComments entry = Zsum (map comment_count rows)
          /\ Performance.videoCount entry = Z.of_nat (length rows)
          /\ exists q,
              Performance.avgViews entry = Fin q
              /\ (q == inject_Z (Performance.totalViews entry)
                       / inject_Z (Performance.videoCount entry))%Q)
       result
  /\ Zsum (map Performance.videoCount result)
     = Z.of_nat (length (List.filter (fun video => truthy (category_name video))
                           (allVideos videoData))).
Proof.
  intros result. unfold result, getCategoryPerformance.
  set (entryOf := fun category =>
                    performanceOf category
                      (List.filter
                         (fun video => String.eqb (category_name video) category)
                         (allVideos videoData))).
  assert (Hsome : forall category,
             In category (getAvailableCategories videoData) ->
             is_Some (entryOf category)).
  { intros category Hin. destruct (entryOf category) eqn:E; [eauto|].
    apply performanceOf_None in E.
    apply getAvailableCategories_In in Hin as (row & Hrow & Hname & _).
    assert (Hin : In row (List.filter
                            (fun video => String.eqb (category_name video) category)
                            (allVideos videoData))).
    { apply filter_In. split; [exact Hrow|]. now apply String.eqb_eq. }
    rewrite E in Hin. destruct Hin. }
  assert (Hnames : map Performance.name
                     (omap entryOf (getAvailableCategories videoData))
                   = getAvailableCategories videoData).
  { rewrite (omap_names _ (fun category => category)).
    - rewrite map_id. apply filter_all. intros category Hin.
      apply bool_decide_eq_true_2. now apply Hsome.
    - intros category entry He. now apply performanceOf_Some in He. }
  split; [apply byTotalViews_sorted|]. split; [|split].
  - now rewrite (Permutation_map _ (sort_perm _ _)), Hnames.
  - apply List.Forall_forall. intros entry Hin.
    apply sort_In, In_omap in Hin as (category & Hcategory & He).
    pose proof (performanceOf_Some _ _ _ He)
      as (Hne & Hname & Hv & Hl & Hc & Hn & _ & Hq).
    cbv zeta. rewrite Hname. unfold groupOf. repeat split; assumption.
  - rewrite (Zsum_perm _ _ (Permutation_map _ (sort_perm _ _))).
    set (named := List.filter (fun video => truthy (category_name video))
                    (allVideos videoData)).
    rewrite <- Zsum_ones.
    rewrite <- (Zsum_groups category_name (fun _ => 1)
                  (getAvailableCategories videoData) named).
    + assert (Hcount : forall category,
                 In category (getAvailableCategories videoData) ->
                 exists entry,
                   entryOf category = Some entry
                   /\ Performance.videoCount entry
                      = Zsum (map (fun _ => 1)
                                (groupOf category_name category named))).
      { intros category Hin. destruct (Hsome category Hin) as [entry He].
        exists entry. split; [exact He|].
        apply performanceOf_Some in He as (_ & _ & _ & _ & _ & -> & _).
        rewrite Zsum_ones. f_equal. f_equal. unfold groupOf, named.
        symmetry. apply filter_filter_sub. intros row Hname.
        apply String.eqb_eq in Hname. apply truthy_ne. rewrite Hname.
        now apply getAvailableCategories_In in Hin as (_ & _ & _ & Hne). }
      generalize Hcount. generalize (getAvailableCategories videoData).
      intros categories. induction categories as [|category categories IH];
        intros Hall; [reflexivity|].
      change (omap entryOf (category :: categories))
        with (match entryOf category with
              | Some y => y :: omap entryOf categories
              | None => omap entryOf categories
              end).
      destruct (Hall category (or_introl eq_refl)) as (entry & He & Hn).
      rewrite He. cbn [map]. rewrite !Zsum_cons, Hn. f_equal.
      apply IH. intros c Hc. apply Hall. now right.
    + apply getAvailableCategories_NoDup.
    + intros row Hrow. apply filter_In in Hrow as [Hrow Hname].
      apply getAvailableCategories_In. exists row. split; [exact Hrow|].
      split; [reflexivity|]. now apply truthy_ne.
Qed.

End PerformanceFacts.

Module CountryFacts.
Import JsString DataLoader Aggregation JsNum Notions Examples Terms.
Import JsObjFacts JsArrayFacts ParserFacts ViewsByCountryFacts LoadFacts.
Import HeatmapFacts FlowFacts GroupFacts TableFacts LoadedFacts EngagementFacts.
Import PerformanceFacts.

Lemma get_None_keys {V : Type} (o : JsObj.t V) k :
  JsObj.get o k = None <-> ~ In k (JsObj.keys o).
Proof.
  split.
  - intros Hnone Hin. apply keys_get in Hin as [v Hv]. congruence.
  - intros Hnot. destruct (JsObj.get o k) eqn:E; [|reflexivity].
    destruct Hnot. eapply get_Some_keys; eauto.
Qed.

Lemma getCountryVideoCounts_get videoData country :
  JsObj.get (getCountryVideoCounts videoData) country
  = (fun rows => Z.of_nat (length rows)) <$> JsObj.get videoData country.
Proof.
  unfold getCountryVideoCounts. rewrite get_fold_set.
  change (JsObj.get [] country) with (@None Z).
  destruct (existsb (String.eqb country) (JsObj.keys videoData)) eqn:E.
  - apply existsb_exists in E as (c & Hin & Hc). apply String.eqb_eq in Hc as <-.
    apply keys_get in Hin as [rows Hrows]. unfold countryVideos.
    now rewrite Hrows.
  - destruct (JsObj.get videoData country) as [rows|] eqn:Hget; [|reflexivity].
    apply get_Some_keys in Hget. apply not_true_iff_false in E. destruct E.
    apply existsb_exists. exists country. split; [exact Hget|apply String.eqb_refl].
Qed.

Lemma groupOf_NoDup (keys : list string) k :
  NoDup keys ->
  groupOf (fun c : string => c) k keys = if JsArray.includes keys k then [k] else [].
Proof.
  intros Hnd. induction Hnd as [|c keys Hnotin Hnd IH]; [reflexivity|].
  unfold groupOf in *. cbn [List.filter JsArray.includes existsb].
  fold (JsArray.includes keys k).
  rewrite IH. rewrite (String.eqb_sym k c).
  destruct (String.eqb_spec c k) as [->|Hne]; cbn [orb]; [|reflexivity].
  rewrite (proj2 (includes_not_In keys k)); [reflexivity|].
  now rewrite <- list_elem_of_In.
Qed.

Lemma length_allVideos (videoData : VideoData) :
  Z.of_nat (length (allVideos videoData))
  = Zsum (map (fun rows => Z.of_nat (length rows)) (JsObj.values videoData)).
Proof.
  induction videoData as [|[code rows] videoData IH]; [reflexivity|].
  rewrite allVideos_cons, length_app, Nat2Z.inj_add, IH.
  cbn [JsObj.values map snd]. now rewrite Zsum_cons.
Qed.

Lemma values_countryVideos (videoData : VideoData) :
  NoDup (JsObj.keys videoData) ->
  map (countryVideos videoData) (JsObj.keys videoData) = JsObj.values videoData.
Proof.
  intros Hnd. unfold JsObj.keys, JsObj.values. rewrite map_map.
  apply map_ext_in. intros [code rows] Hin. unfold countryVideos. cbn [fst snd].
  now rewrite (get_of_In _ _ _ Hnd Hin).
Qed.

Lemma countryCounts_sum (videoData : VideoData) :
  NoDup (JsObj.keys videoData) ->
  Zsum (JsObj.values (getCountryVideoCounts videoData))
  = Z.of_nat (length (allVideos videoData)).
Proof.
  intros Hnd. unfold getCountryVideoCounts.
  change (fun countryCounts country =>
            JsObj.set countryCounts country
              (Z.of_nat (length (countryVideos videoData country))))
    with (groupStep (fun c : string => c) (fun _ => 0)
            (fun c (_ : Z) => Z.of_nat (length (countryVideos videoData c)))).
  rewrite <- Zsum_map_id.
  rewrite (Zsum_fold_group _ _ _ (fun n => n)
             (fun c => Z.of_nat (length (countryVideos videoData c)))).
  - rewrite length_allVideos, <- (values_countryVideos _ Hnd).
    now rewrite map_map.
  - intros k v. rewrite (groupOf_NoDup _ _ Hnd).
    destruct (JsArray.includes _ k); [|discriminate].
    intros [= <-]. cbn. unfold Zsum. cbn. lia.
Qed.

(** X13. [getCountryVideoCounts] holds for every loaded country the
    number of its rows, which is the [videoCount] that
    [getViewsByCountry] reports, and nothing for a country that is not
    loaded; the numbers add up to the number of all rows. *)
Theorem getCountryVideoCounts_lengths (videoData : VideoData) :
  (forall country,
      JsObj.get (getCountryVideoCounts videoData) country
      = (fun rows => Z.of_nat (length rows)) <$> JsObj.get videoData country)
  /\ (forall country,
        JsObj.get (getCountryVideoCounts videoData) country
        = CountryViews.videoCount
            <$> JsObj.get (getViewsByCountry videoData) country)
  /\ (NoDup (JsObj.keys videoData) ->
      Zsum (JsObj.values (getCountryVideoCounts videoData))
      = Z.of_nat (length (allVideos videoData))).
Proof.
  split; [apply getCountryVideoCounts_get|]. split.
  - intros country. rewrite getCountryVideoCounts_get.
    destruct (JsObj.get videoData country) as [rows|] eqn:Hget.
    + rewrite getViewsByCountry_get by (eapply get_Some_keys; eauto).
      unfold countryVideos. now rewrite Hget.
    + unfold getViewsByCountry. rewrite get_fold_set.
      destruct (existsb _ _) eqn:E; [|reflexivity].
      apply existsb_exists in E as (c & Hin & Hc).
      apply String.eqb_eq in Hc as <-.
      apply keys_get in Hin as [v Hv]. congruence.
  - apply countryCounts_sum.
Qed.

Lemma getCountryVideoCounts_lengths_witness :
  NoDup (JsObj.keys heatData)
  /\ getCountryVideoCounts heatData = [("US", 3); ("CA", 1)]
  /\ Zsum (JsObj.values (getCountryVideoCounts heatData))
     = Z.of_nat (length (allVideos heatData)).
Proof.
  assert (H : NoDup (JsObj.keys heatData)).
  { apply (bool_decide_unpack (NoDup (JsObj.keys heatData))).
    vm_compute. exact I. }
  split; [exact H|]. split; [vm_compute; reflexivity|].
  exact (proj2 (proj2 (getCountryVideoCounts_lengths heatData)) H).
Defined.

Lemma hasVideos_spec videoData country :
  hasVideos videoData country = true
  <-> exists row rows, JsObj.get videoData country = Some (row :: rows).
Proof.
  unfold hasVideos. destruct (JsObj.get videoData country) as [[|row rows]|];
    cbn; split; try discriminate; eauto; intros (? & ? & ?); discriminate.
Qed.

(** X20. [getAvailableCountriesLegacy] lists the codes of the countries
    that have at least one row, in ascending order of their code units
    and each once; a country whose file gave no row is left out. These are
    the countries [getCountryPerformance] has entries for. *)
Theorem getAvailableCountriesLegacy_sorted (videoData : VideoData) :
  let result := getAvailableCountriesLegacy videoData in
  StronglySorted (fun a b => String.leb a b = true) result
  /\ (forall country,
        In country result
        <-> exists row rows, JsObj.get videoData country = Some (row :: rows))
  /\ (NoDup (JsObj.keys videoData) -> NoDup result)
  /\ Permutation result
       (map Performance.name (getCountryPerformance videoData)).
Proof.
  intros result. unfold result, getAvailableCountriesLegacy.
  split; [apply sortStrings_sorted|]. split; [|split].
  - intros country. unfold JsArray.sortStrings. rewrite sort_In, filter_In, hasVideos_spec.
    split; [tauto|]. intros (row & rows & Hget). split; [|eauto].
    eapply get_Some_keys; eauto.
  - intros Hnd. rewrite sortStrings_perm.
    apply NoDup_ListNoDup, List.NoDup_filter. now apply NoDup_ListNoDup.
  - rewrite sortStrings_perm. symmetry.
    unfold getCountryPerformance.
    rewrite (Permutation_map _ (sort_perm _ _)).
    rewrite (omap_names _ (fun country => country)).
    + rewrite map_id. erewrite filter_ext; [reflexivity|].
      intros country. unfold hasVideos, countryVideos.
      destruct (JsObj.get videoData country) as [[|row rows]|]; reflexivity.
    + intros country entry He. now apply performanceOf_Some in He.
Qed.

Lemma getAvailableCountriesLegacy_sorted_witness :
  NoDup (JsObj.keys emptyData)
  /\ getAvailableCountriesLegacy emptyData = []
  /\ getAvailableCountriesLegacy heatData = ["CA"; "US"]
  /\ NoDup (getAvailableCountriesLegacy emptyData).
Proof.
  assert (H : NoDup (JsObj.keys emptyData)).
  { apply (bool_decide_unpack (NoDup (JsObj.keys emptyData))).
    vm_compute. exact I. }
  split; [exact H|]. split; [vm_compute; reflexivity|].
  split; [vm_compute; reflexivity|].
  exact (proj1 (proj2 (proj2 (getAvailableCountriesLegacy_sorted emptyData))) H).
Defined.

End CountryFacts.

Module ChannelFacts.
Import JsString DataLoader Aggregation JsNum Notions Examples Terms.
Import JsObjFacts JsArrayFacts ParserFacts LoadFacts.
Import HeatmapFacts FlowFacts GroupFacts TableFacts LoadedFacts TopVideoFacts.
Import PerformanceFacts.

Local Abbreviation channelStep :=
  (groupStep channelOf
     (fun video => Channel.mk (channel_title video) 0 0 [])
     (fun video old =>
        Channel.mk (Channel.name old) (Channel.videoCount old + 1)
          (Channel.totalViews old + views video)
          (JsArray.setAdd (Channel.countries old) (country video)))).

Local Abbreviation channelValue :=
  (groupValue
     (fun video => Channel.mk (channel_title video) 0 0 [])
     (fun video old =>
        Channel.mk (Channel.name old) (Channel.videoCount old + 1)
          (Channel.totalViews old + views video)
          (JsArray.setAdd (Channel.countries old) (country video)))).

(** The loop throws at the first row whose title names an inherited
    member, and otherwise fills the table of the channels. *)
Lemma channels_fold videos start :
  forEachM addChannel videos start
  = if existsb (fun video => JsObj.inherited (channelOf video)) videos
    then None
    else Some (fold_left channelStep videos start).
Proof.
  revert start. induction videos as [|video videos IH]; intros start;
    [reflexivity|].
  cbn [forEachM existsb fold_left]. unfold addChannel at 1.
  fold (channelOf video).
  destruct (JsObj.inherited (channelOf video)); cbn [orb]; [reflexivity|].
  apply IH.
Qed.

Lemma getAllChannels_cases videoData :
  getAllChannels videoData
  = if existsb (fun video => JsObj.inherited (channelOf video))
         (allVideos videoData)
    then None
    else Some (JsArray.sort
                 (fun a b => Channel.totalViews b - Channel.totalViews a)
                 (JsObj.values (fold_left channelStep (allVideos videoData) []))).
Proof.
  unfold getAllChannels. rewrite channels_fold.
  now destruct (existsb _ _).
Qed.

Lemma getAllChannels_None videoData :
  getAllChannels videoData = None
  <-> Exists (fun video => JsObj.inherited (channelOf video) = true)
        (allVideos videoData).
Proof.
  rewrite getAllChannels_cases, List.Exists_exists, <- existsb_exists.
  destruct (existsb _ _); split; congruence.
Qed.

Lemma getAllChannels_Some videoData channels :
  getAllChannels videoData = Some channels ->
  channels
  = JsArray.sort (fun a b => Channel.totalViews b - Channel.totalViews a)
      (JsObj.values (fold_left channelStep (allVideos videoData) [])).
Proof.
  rewrite getAllChannels_cases. destruct (existsb _ _); congruence.
Qed.

Lemma fold_channel (rows : list Row) (start : Channel.t) :
  let final :=
    fold_left
      (fun old video =>
         Channel.mk (Channel.name old) (Channel.videoCount old + 1)
           (Channel.totalViews old + views video)
           (JsArray.setAdd (Channel.countries old) (country video)))
      rows start in
  Channel.name final = Channel.name start
  /\ Channel.videoCount final = Channel.videoCount start + Z.of_nat (length rows)
  /\ Channel.totalViews final = Channel.totalViews start + Zsum (map views rows)
  /\ (NoDup (Channel.countries start) -> NoDup (Channel.countries final))
  /\ forall code,
      In code (Channel.countries final)
      <-> In code (Channel.countries start)
          \/ exists row, In row rows /\ country row = code.
Proof.
  revert start. induction rows as [|row rows IH]; intros start.
  - cbn [fold_left length map]. cbv zeta.
    split; [reflexivity|]. split; [cbn; lia|].
    split; [unfold Zsum; cbn; lia|]. split; [auto|].
    intros code. split; [now left|]. intros [H|(row & [] & _)]. exact H.
  - cbn [fold_left]. cbv zeta in IH |- *.
    destruct (IH (Channel.mk (Channel.name start) (Channel.videoCount start + 1)
                    (Channel.totalViews start + views row)
                    (JsArray.setAdd (Channel.countries start) (country row))))
      as (Hname & Hcount & Hviews & Hnd & Hin).
    cbn [Channel.name Channel.videoCount Channel.totalViews Channel.countries]
      in *.
    split; [exact Hname|]. split; [rewrite Hcount; cbn [length]; lia|].
    split; [rewrite Hviews; cbn [map]; rewrite Zsum_cons; lia|].
    split; [intros H; now apply Hnd, setAdd_NoDup|].
    intros code. rewrite Hin, setAdd_In. split.
    + intros [[H| ->]|(r & Hr & Hc)]; [now left| |].
      * right. exists row. split; [now left|reflexivity].
      * right. exists r. split; [now right|exact Hc].
    + intros [H|(r & [<-|Hr] & Hc)]; [now left; left| |].
      * left. right. now symmetry.
      * right. eauto.
Qed.

(** The entry of a channel: its rows are counted and added up, and its
    countries are those of its rows. *)
Lemma channel_value (rows : list Row) (channel : Channel.t) :
  channelValue rows = Some channel ->
  rows <> []
  /\ Channel.name channel = default None (channel_title <$> head rows)
  /\ Channel.videoCount channel = Z.of_nat (length rows)
  /\ Channel.totalViews channel = Zsum (map views rows)
  /\ NoDup (Channel.countries channel)
  /\ forall code,
      In code (Channel.countries channel)
      <-> exists row, In row rows /\ country row = code.
Proof.
  destruct rows as [|row rows]; [discriminate|]. intros [= <-].
  pose proof (fold_channel (row :: rows)
                (Channel.mk (channel_title row) 0 0 [])) as H.
  cbv zeta in H. destruct H as (Hname & Hcount & Hviews & Hnd & Hin).
  split; [congruence|]. split; [exact Hname|]. split; [exact Hcount|].
  split; [exact Hviews|]. split; [exact (Hnd NoDup_nil_2)|].
  intros code. destruct (Hin code) as [H1 H2]. split.
  - intros H. destruct (H1 H) as [[]|Hrow]. exact Hrow.
  - intros H. apply H2. now right.
Qed.

Lemma channel_entry videos key channel :
  In (key, channel) (fold_left channelStep videos []) ->
  channelValue (groupOf channelOf key videos) = Some channel
  /\ channelKey (Channel.name channel) = key.
Proof.
  intros Hin.
  apply entry_fold_group in Hin as Hvalue. split; [exact Hvalue|].
  apply channel_value in Hvalue as (Hne & Hname & _).
  rewrite Hname.
  destruct (groupOf channelOf key videos) as [|row rows] eqn:E; [congruence|].
  assert (Hrow : In row (groupOf channelOf key videos)) by (rewrite E; now left).
  apply filter_In in Hrow as [_ Hkey]. now apply String.eqb_eq in Hkey.
Qed.

Lemma getAllChannels_In videoData channels channel :
  getAllChannels videoData = Some channels ->
  In channel channels
  <-> exists key,
      In (key, channel) (fold_left channelStep (allVideos videoData) []).
Proof.
  intros ->%getAllChannels_Some. rewrite sort_In. unfold JsObj.values.
  rewrite in_map_iff. split.
  - intros ([key ch] & <- & Hin). now exists key.
  - intros (key & Hin). now exists (key, channel).
Qed.

(** The keys of the table, of which the list holds one entry each. *)
Lemma getAllChannels_keys videoData channels :
  getAllChannels videoData = Some channels ->
  exists keys,
    length channels = length keys
    /\ NoDup keys
    /\ forall k, In k keys
                 <-> exists row, In row (allVideos videoData) /\ channelOf row = k.
Proof.
  intros ->%getAllChannels_Some.
  exists (JsObj.keys (fold_left channelStep (allVideos videoData) [])).
  split; [|split].
  - rewrite (Permutation_length (sort_perm _ _)).
    unfold JsObj.values, JsObj.keys. now rewrite !length_map.
  - apply keys_fold_group.
  - intros k. apply key_fold_group.
Qed.

Lemma getAllChannels_sorted videoData channels :
  getAllChannels videoData = Some channels ->
  StronglySorted (fun a b => Channel.totalViews b <= Channel.totalViews a)
    channels.
Proof.
  intros ->%getAllChannels_Some. apply (sort_descending Channel.totalViews).
Qed.

(** X14. [getAllChannels] throws when the channel title of a row names a
    member that objects inherit, such as constructor or toString, and
    only then. When it returns, it lists the channels in descending order
    of their total views, each key once. An entry holds the number and
    the views of the rows of its channel, and the countries of those
    rows, each once; the numbers of rows of the entries add up to the
    number of all rows, and their views to the views of all rows. *)
Theorem getAllChannels_totals (videoData : VideoData) :
  let videos := allVideos videoData in
  (getAllChannels videoData = None
   <-> Exists (fun video => JsObj.inherited (channelOf video) = true) videos)
  /\ forall channels,
  getAllChannels videoData = Some channels ->
  StronglySorted (fun a b => Channel.totalViews b <= Channel.totalViews a)
    channels
  /\ NoDup (map (fun channel => channelKey (Channel.name channel)) channels)
  /\ Zsum (map Channel.videoCount channels) = Z.of_nat (length videos)
  /\ Zsum (map Channel.totalViews channels) = Zsum (map views videos)
  /\ Forall
       (fun channel =>
          let rows := groupOf channelOf (channelKey (Channel.name channel)) videos in
          rows <> []
          /\ Channel.videoCount channel = Z.of_nat (length rows)
          /\ Channel.totalViews channel = Zsum (map views rows)
          /\ NoDup (Channel.countries channel)
          /\ forall code,
              In code (Channel.countries channel)
              <-> exists row, In row rows /\ country row = code)
       channels.
Proof.
  intros videos. split; [apply getAllChannels_None|].
  intros channels Hsome.
  split; [now apply (getAllChannels_sorted videoData)|].
  assert (Hperm : Permutation channels
                    (JsObj.values (fold_left channelStep videos []))).
  { rewrite (getAllChannels_Some _ _ Hsome). apply sort_perm. }
  split; [|split; [|split]].
  - rewrite (Permutation_map _ Hperm).
    replace (map (fun channel => channelKey (Channel.name channel))
               (JsObj.values (fold_left channelStep videos [])))
      with (JsObj.keys (fold_left channelStep videos [])).
    + apply keys_fold_group.
    + unfold JsObj.keys, JsObj.values. rewrite map_map.
      apply map_ext_in. intros [key channel] Hin. cbn [fst snd].
      now apply channel_entry in Hin as [_ <-].
  - rewrite (Zsum_perm _ _ (Permutation_map _ Hperm)).
    rewrite (Zsum_fold_group _ _ _ Channel.videoCount (fun _ => 1)).
    + apply Zsum_ones.
    + intros k v Hv. apply channel_value in Hv as (_ & _ & -> & _).
      now rewrite Zsum_ones.
  - rewrite (Zsum_perm _ _ (Permutation_map _ Hperm)).
    apply Zsum_fold_group.
    intros k v Hv. now apply channel_value in Hv as (_ & _ & _ & -> & _).
  - apply List.Forall_forall. intros channel Hin.
    apply (getAllChannels_In _ _ _ Hsome) in Hin as [key Hin].
    apply channel_entry in Hin as [Hvalue Hkey]. cbv zeta. rewrite Hkey.
    apply channel_value in Hvalue as (Hne & _ & Hcount & Hviews & Hnd & Hcodes).
    repeat split; try assumption; apply Hcodes.
Qed.

Lemma getAllChannels_totals_witness :
  getAllChannels inheritedData = None
  /\ channel_title <$> last (allVideos inheritedData) = Some (Some "constructor").
Proof.
  split; [|vm_compute; reflexivity].
  apply (proj1 (getAllChannels_totals inheritedData)).
  apply List.Exists_exists.
  destruct (last (allVideos inheritedData)) as [video|] eqn:E;
    [|vm_compute in E; discriminate].
  exists video. split.
  - apply list_elem_of_In, last_Some_elem_of. exact E.
  - vm_compute in E. injection E as <-. vm_compute. reflexivity.
Defined.

Lemma StronglySorted_filter {A : Type} (R : A -> A -> Prop) (f : A -> bool)
    (l : list A) :
  StronglySorted R l -> StronglySorted R (List.filter f l).
Proof.
  induction 1 as [|x l _ IH Hall]; [constructor|]. cbn.
  destruct (f x); [|exact IH]. constructor; [exact IH|].
  apply List.Forall_forall. intros y Hy. apply filter_In in Hy as [Hy _].
  rewrite List.Forall_forall in Hall. now apply Hall.
Qed.

Lemma StronglySorted_slice0 {A : Type} (R : A -> A -> Prop) (n : Z) (l : list A) :
  StronglySorted R l -> StronglySorted R (JsArray.slice0 n l).
Proof.
  intros H. destruct (slice0_prefix n l) as [rest Hrest].
  rewrite Hrest in H. now apply StronglySorted_app_1_l in H.
Qed.

(** X16. [getChannelsByCountry] throws when [getAllChannels] does, and
    only then. When it returns, it lists, in descending order of their
    total views, channels of [getAllChannels] that have a row in the
    country, and no more of them than the limit; it lists all of them
    when the limit allows. [getChannelLeaderboard] with a country is
    [getChannelsByCountry], and with the selector all it is
    [getTopChannels]. *)
Theorem getChannelsByCountry_rows (videoData : VideoData) (code : string)
    (limit : Z) :
  (getChannelsByCountry videoData code limit = None
   <-> getAllChannels videoData = None)
  /\ getChannelLeaderboard videoData limit code
     = (if String.eqb code "all" then getTopChannels videoData limit
        else getChannelsByCountry videoData code limit)
  /\ forall channels,
  getAllChannels videoData = Some channels ->
  let eligible :=
    List.filter (fun channel => JsArray.includes (Channel.countries channel) code)
      channels in
  exists result,
    getChannelsByCountry videoData code limit = Some result
    /\ StronglySorted (fun a b => Channel.totalViews b <= Channel.totalViews a)
         result
    /\ (0 <= limit -> Z.of_nat (length result) <= limit)
    /\ (Z.of_nat (length eligible) <= limit -> result = eligible)
    /\ Forall
         (fun channel =>
            In channel channels
            /\ exists row,
                In row (allVideos videoData)
                /\ country row = code
                /\ channelOf row = channelKey (Channel.name channel))
         result.
Proof.
  split; [|split].
  - unfold getChannelsByCountry.
    destruct (getAllChannels videoData); cbn; split; congruence.
  - unfold getChannelLeaderboard, getTopChannels, getChannelsByCountry.
    destruct (getAllChannels videoData); cbn; now destruct (String.eqb code "all").
  - intros channels Hsome eligible.
    exists (JsArray.slice0 limit eligible).
    split; [unfold getChannelsByCountry; now rewrite Hsome|].
    split; [|split; [|split]].
    + apply StronglySorted_slice0, StronglySorted_filter.
      now apply (getAllChannels_sorted videoData).
    + apply slice0_length.
    + intros Hlen. unfold JsArray.slice0.
      destruct (Z.ltb_spec limit 0); [lia|].
      apply take_ge. lia.
    + apply List.Forall_forall. intros channel Hin.
      apply slice0_In, filter_In in Hin as [Hin Hcode].
      split; [exact Hin|].
      apply (getAllChannels_In _ _ _ Hsome) in Hin as [key Hin].
      apply channel_entry in Hin as [Hvalue Hkey].
      apply channel_value in Hvalue as (_ & _ & _ & _ & _ & Hcodes).
      apply includes_In, Hcodes in Hcode as (row & Hrow & Hc).
      apply filter_In in Hrow as [Hrow Hk]. apply String.eqb_eq in Hk.
      exists row. repeat split; congruence.
Qed.

Lemma getChannelsByCountry_rows_witness :
  getAllChannels channelsData
  = Some [Channel.mk (Some "B") 1 200 ["US"];
          Channel.mk (Some "A") 3 160 ["US"; "CA"]]
  /\ getChannelsByCountry channelsData "CA" 5
     = Some [Channel.mk (Some "A") 3 160 ["US"; "CA"]]
  /\ getChannelsByCountry inheritedData "US" 5 = None.
Proof.
  assert (Hall : getAllChannels channelsData
                 = Some [Channel.mk (Some "B") 1 200 ["US"];
                         Channel.mk (Some "A") 3 160 ["US"; "CA"]])
    by (vm_compute; reflexivity).
  split; [exact Hall|]. split.
  - destruct (proj2 (proj2 (getChannelsByCountry_rows channelsData "CA" 5))
                _ Hall) as (result & Hresult & _ & _ & Hfull & _).
    rewrite Hresult. f_equal. apply Hfull. vm_compute. discriminate.
  - apply (proj1 (getChannelsByCountry_rows inheritedData "US" 5)).
    vm_compute. reflexivity.
Defined.

End ChannelFacts.

Module ChannelCountFacts.
Import JsString DataLoader Aggregation JsNum Notions Examples Terms.
Import JsObjFacts JsArrayFacts ParserFacts LoadFacts.
Import HeatmapFacts FlowFacts GroupFacts TableFacts LoadedFacts TopVideoFacts.
Import PerformanceFacts ChannelFacts.

Lemma addValue_In s x y : In y (addValue s x) <-> In y s \/ y = x.
Proof.
  unfold addValue. destruct (bool_decide_reflect (x ∈ s)) as [Hx|Hx].
  - split; [now left|]. intros [H| ->]; [exact H|now apply list_elem_of_In].
  - rewrite in_app_iff. cbn [In]. intuition congruence.
Qed.

Lemma addValue_NoDup s x : NoDup s -> NoDup (addValue s x).
Proof.
  intros Hnd. unfold addValue. destruct (bool_decide_reflect (x ∈ s)) as [Hx|Hx];
    [exact Hnd|].
  apply NoDup_app. split; [exact Hnd|]. split; [|apply NoDup_singleton].
  intros y Hy Hy'. apply list_elem_of_singleton in Hy'. congruence.
Qed.

Lemma uniqueChannels_spec (videos : list Row) (start : list (option string)) :
  let final :=
    fold_left (fun uniqueChannels video =>
                 addValue uniqueChannels (channel_title video))
      videos start in
  (NoDup start -> NoDup final)
  /\ forall x, In x final
               <-> In x start \/ exists row, In row videos /\ channel_title row = x.
Proof.
  revert start. induction videos as [|video videos IH]; intros start; cbv zeta.
  - cbn. split; [auto|]. intros x. split; [now left|].
    intros [H|(row & [] & _)]. exact H.
  - cbn [fold_left]. destruct (IH (addValue start (channel_title video)))
      as [Hnd Hin].
    split; [intros H; now apply Hnd, addValue_NoDup|].
    intros x. rewrite Hin, addValue_In. split.
    + intros [[H| ->]|(row & Hrow & Hx)]; [now left| |].
      * right. exists video. split; [now left|reflexivity].
      * right. exists row. split; [now right|exact Hx].
    + intros [H|(row & [<-|Hrow] & Hx)]; [now left; left| |].
      * left. right. now symmetry.
      * right. eauto.
Qed.

(** The titles that are present among optional titles. *)
Lemma present_In (s : list (option string)) a :
  In a (omap (fun x => x) s) <-> In (Some a) s.
Proof.
  rewrite In_omap. split; [now intros (x & Hx & ->)|]. intros H. eauto.
Qed.

Lemma present_NoDup (s : list (option string)) :
  NoDup s -> NoDup (omap (fun x => x) s).
Proof.
  induction 1 as [|x s Hx Hnd IH]; [constructor|].
  change (omap (fun x => x) (x :: s))
    with (match x with
          | Some a => a :: omap (fun x => x) s
          | None => omap (fun x => x) s
          end).
  destruct x as [a|]; [|exact IH]. constructor; [|exact IH].
  rewrite list_elem_of_In, present_In. now rewrite <- list_elem_of_In.
Qed.

Lemma present_length (s : list (option string)) :
  NoDup s ->
  length s
  = (length (omap (fun x => x) s) + if bool_decide (None ∈ s) then 1 else 0)%nat.
Proof.
  induction 1 as [|x s Hx Hnd IH]; [reflexivity|].
  change (omap (fun x => x) (x :: s))
    with (match x with
          | Some a => a :: omap (fun x => x) s
          | None => omap (fun x => x) s
          end).
  destruct x as [a|]; cbn [length]; rewrite IH.
  - destruct (bool_decide_reflect (None ∈ s)) as [H|H].
    + rewrite bool_decide_eq_true_2 by now right. lia.
    + rewrite bool_decide_eq_false_2; [lia|].
      intros H'. apply elem_of_cons in H' as [?|?]; [discriminate|auto].
  - rewrite (bool_decide_eq_false_2 (None ∈ s)) by exact Hx.
    rewrite bool_decide_eq_true_2 by now left. lia.
Qed.

(** How many keys a set of optional titles gives: the title that is
    missing and the title undefined share one key. *)
Lemma keys_of_titles (s : list (option string)) (keys : list string) :
  NoDup s -> NoDup keys ->
  (forall k, In k keys <-> exists x, In x s /\ channelKey x = k) ->
  length s
  = (length keys
     + if bool_decide (None ∈ s) && bool_decide (Some "undefined" ∈ s)
       then 1 else 0)%nat.
Proof.
  intros Hs Hkeys Hin.
  pose proof (present_NoDup s Hs) as Hp.
  rewrite (present_length s Hs).
  assert (Hkey : forall k, In k keys
                           <-> In k (omap (fun x => x) s)
                               \/ (In None s /\ k = "undefined")).
  { intros k. rewrite Hin, present_In. split.
    - intros ([a|] & Hx & <-); [now left|right; auto].
    - intros [H|[H ->]]; [now exists (Some k)|now exists None]. }
  destruct (bool_decide_reflect (None ∈ s)) as [Hnone|Hnone]; cbn [andb].
  - destruct (bool_decide_reflect (Some "undefined" ∈ s)) as [Hu|Hu].
    + f_equal. apply Permutation_length, NoDup_Permutation; auto.
      intros k. rewrite !list_elem_of_In, Hkey. split; [now left|].
      intros [H|[_ ->]]; [exact H|]. apply present_In. now apply list_elem_of_In.
    + rewrite Nat.add_0_r, Nat.add_1_r.
      change (S (length (omap (fun x => x) s)))
        with (length ("undefined" :: omap (fun x => x) s)).
      apply Permutation_length, NoDup_Permutation; auto.
      * constructor; [|exact Hp].
        rewrite list_elem_of_In, present_In. now rewrite <- list_elem_of_In.
      * intros k. rewrite elem_of_cons, !list_elem_of_In, Hkey.
        apply list_elem_of_In in Hnone. split.
        -- intros [->|H]; [right; auto|now left].
        -- intros [H|[_ ->]]; [now right|now left].
  - rewrite !Nat.add_0_r. apply Permutation_length, NoDup_Permutation; auto.
    intros k. rewrite !list_elem_of_In, Hkey. split; [now left|].
    intros [H|[H _]]; [exact H|]. destruct Hnone. now apply list_elem_of_In.
Qed.

(** X15. When [getAllChannels] returns, [getTotalChannelCount] is the
    number of channels that it lists, or one more: one more exactly when
    some row has no channel title and another has the title undefined,
    which are two values of the set and one key of the table. When every
    row has a channel title the two numbers agree. [getTotalChannelCount]
    itself never throws. *)
Theorem getTotalChannelCount_channels (videoData : VideoData)
    (channels : list Channel.t) :
  getAllChannels videoData = Some channels ->
  let titles := map channel_title (allVideos videoData) in
  let count := getTotalChannelCount videoData in
  let listed := length channels in
  (listed <= count <= listed + 1)%nat
  /\ (count = S listed <-> In None titles /\ In (Some "undefined") titles)
  /\ ((forall row, In row (allVideos videoData) -> is_Some (channel_title row)) ->
      count = listed).
Proof.
  intros Hsome titles count listed.
  set (videos := allVideos videoData).
  set (s := fold_left (fun uniqueChannels video =>
                         addValue uniqueChannels (channel_title video))
              videos []).
  destruct (uniqueChannels_spec videos []) as [Hnd Hin]. fold s in Hnd, Hin.
  assert (Hs : forall x, In x s <-> In x titles).
  { intros x. rewrite Hin. unfold titles. rewrite in_map_iff. fold videos.
    split.
    - intros [[]|(row & Hrow & Hx)]. eauto.
    - intros (row & Hx & Hrow). right. eauto. }
  destruct (getAllChannels_keys _ _ Hsome) as (keys & Hlisted & Hkeys & Hkey).
  fold listed in Hlisted. fold videos in Hkey.
  assert (Hcount : count
                   = (listed
                      + if bool_decide (None ∈ s)
                           && bool_decide (Some "undefined" ∈ s)
                        then 1 else 0)%nat).
  { rewrite Hlisted. apply keys_of_titles.
    - apply Hnd. constructor.
    - exact Hkeys.
    - intros k. rewrite Hkey. split.
      + intros (row & Hrow & <-). exists (channel_title row). split; [|reflexivity].
        apply Hin. right. eauto.
      + intros (x & Hx & <-). apply Hin in Hx as [[]|(row & Hrow & <-)]. eauto. }
  assert (Hboth : bool_decide (None ∈ s) && bool_decide (Some "undefined" ∈ s)
                  = true
                  <-> In None titles /\ In (Some "undefined") titles).
  { rewrite andb_true_iff, !bool_decide_eq_true, !list_elem_of_In, !Hs.
    reflexivity. }
  destruct (bool_decide (None ∈ s) && bool_decide (Some "undefined" ∈ s)) eqn:E.
  - destruct (proj1 Hboth eq_refl) as [Hnone Hu].
    split; [lia|]. split; [|].
    + split; [intros _; now split|lia].
    + intros Hall. exfalso.
      unfold titles in Hnone. apply in_map_iff in Hnone as (row & Hnone & Hrow).
      destruct (Hall row Hrow) as [? ?]. congruence.
  - split; [lia|]. split; [|lia].
    split; [lia|]. intros H. apply Hboth in H. discriminate.
Qed.

Lemma getTotalChannelCount_channels_witness :
  getAllChannels channelsData
  = Some [Channel.mk (Some "B") 1 200 ["US"];
          Channel.mk (Some "A") 3 160 ["US"; "CA"]]
  /\ (forall row, In row (allVideos channelsData) -> is_Some (channel_title row))
  /\ getTotalChannelCount channelsData = 2%nat
  /\ (length <$> getAllChannels untitledData) = Some 1%nat
  /\ getTotalChannelCount untitledData = 2%nat.
Proof.
  assert (Hall : getAllChannels channelsData
                 = Some [Channel.mk (Some "B") 1 200 ["US"];
                         Channel.mk (Some "A") 3 160 ["US"; "CA"]])
    by (vm_compute; reflexivity).
  assert (Htitled : forall row, In row (allVideos channelsData) ->
                      is_Some (channel_title row)).
  { apply List.Forall_forall. vm_compute. repeat constructor; eauto. }
  split; [exact Hall|]. split; [exact Htitled|].
  split; [|split; vm_compute; reflexivity].
  exact (proj2 (proj2 (getTotalChannelCount_channels channelsData _ Hall))
           Htitled).
Defined.

End ChannelCountFacts.

Module DateKeyFacts.
Import JsString JsDate DataLoader Aggregation Notions Examples Terms.
Import JsDateFacts WeekFacts CalendarFacts TrendingDateFacts LineFacts.

Section Zone.
Context {zone : JsDate.TimeZone}.

Lemma without_append sep a b :
  without sep (a +:+ b) = without sep a && without sep b.
Proof.
  induction a as [|c a IH]; [reflexivity|].
  change (String c a +:+ b) with (String c (a +:+ b)). cbn [without].
  now rewrite IH, andb_assoc.
Qed.

Lemma digitChar_digit d :
  0 <= d <= 9 -> Ascii.eqb (digitChar d) "T" = false.
Proof.
  intros H.
  assert (Hd : d = 0 \/ d = 1 \/ d = 2 \/ d = 3 \/ d = 4 \/ d = 5 \/ d = 6
               \/ d = 7 \/ d = 8 \/ d = 9) by lia.
  repeat (destruct Hd as [->|Hd]; [reflexivity|]). now subst.
Qed.

Lemma padStart_without width n : without "T" (padStart width n) = true.
Proof.
  revert n. induction width as [|w IH]; intros n; [reflexivity|].
  cbn [padStart]. rewrite without_append, IH. cbn [without andb].
  rewrite digitChar_digit; [reflexivity|].
  pose proof (Z.mod_pos_bound n 10). lia.
Qed.

Lemma yearString_without y : without "T" (yearString y) = true.
Proof.
  unfold yearString. destruct (_ && _); [apply padStart_without|].
  rewrite without_append, padStart_without. now destruct (y <? 0).
Qed.

Lemma isoDate_without t : without "T" (isoDate t) = true.
Proof.
  unfold isoDate.
  now rewrite !without_append, yearString_without, !padStart_without.
Qed.

Lemma toISOString_date t :
  exists time, toISOString t = isoDate t +:+ String "T" time.
Proof.
  exists (padStart 2 (getHours t) +:+ ":" +:+ padStart 2 (getMinutes t)
          +:+ ":" +:+ padStart 2 (getSeconds t) +:+ "."
          +:+ padStart 3 (getMilliseconds t) +:+ "Z").
  unfold toISOString, isoDate. now rewrite !append_assoc.
Qed.

(** The key of a day is the date part of the text of the date. *)
Lemma dateKey_isoDate t : dateKey t = isoDate t.
Proof.
  unfold dateKey. destruct (toISOString_date t) as [time ->].
  now rewrite (split_part _ _ _ (isoDate_without t)).
Qed.

Lemma padStart_length width n : String.length (padStart width n) = width.
Proof.
  revert n. induction width as [|w IH]; intros n; [reflexivity|].
  cbn [padStart]. rewrite length_append, IH. cbn. lia.
Qed.

Lemma padStart_years n :
  0 <= n <= 99 ->
  padStart 4 (2000 + n) = "20" +:+ twoDigits n /\ padStart 2 n = twoDigits n.
Proof.
  intros Hn.
  assert (H : forallb
                (fun k => String.eqb (padStart 4 (2000 + k)) ("20" +:+ twoDigits k)
                          && String.eqb (padStart 2 k) (twoDigits k))
                (map Z.of_nat (seq 0 100)) = true) by (vm_compute; reflexivity).
  rewrite forallb_forall in H.
  assert (Hin : In n (map Z.of_nat (seq 0 100))).
  { apply in_map_iff. exists (Z.to_nat n). split; [lia|]. apply in_seq. lia. }
  apply H, andb_prop in Hin as [H1 H2].
  now apply String.eqb_eq in H1, H2.
Qed.

(** The date the constructor makes of a day of the years 2000 to 2099:
    the midnight that begins the day in local time. *)
Lemma newDate_trending year day month :
  0 <= year <= 99 -> 1 <= month <= 12 ->
  1 <= day <= daysInMonth (2000 + year) (month - 1) ->
  let midnight := makeDay (2000 + year) (month - 1) day * msPerDay in
  Z.abs (offsetOf midnight) <= msPerDay ->
  newDate (Some (2000 + year)) (Some (month - 1)) (Some day)
  = DateAt (utcTime midnight).
Proof.
  intros Hy Hm Hd midnight Hoffset. unfold newDate.
  destruct (Z.leb_spec (2000 + year) 99); [lia|]. rewrite andb_false_r.
  fold midnight. unfold timeClip.
  destruct (Z.leb_spec (Z.abs (utcTime midnight)) maxTime); [reflexivity|exfalso].
  destruct (calendar_fields (2000 + year) (month - 1) day ltac:(lia) Hd)
    as (Hyear & _ & _).
  pose proof (yearFromDay_spec (makeDay (2000 + year) (month - 1) day)) as Hs.
  unfold getFullYear, JsDate.day in Hyear.
  rewrite Z.div_mul in Hyear by (unfold msPerDay; lia). rewrite Hyear in Hs.
  pose proof (daysFromYear_mono 2000 (2000 + year) ltac:(lia)) as Hlow.
  pose proof (daysFromYear_mono (2000 + year + 1) 2100 ltac:(lia)) as Hhigh.
  change (daysFromYear 2000) with 10957 in Hlow.
  change (daysFromYear 2100) with 47482 in Hhigh.
  unfold utcTime in *. subst midnight. unfold maxTime, msPerDay in *. lia.
Qed.

(** The text of a date depends on its day only. *)
Lemma isoDate_day t1 t2 : JsDate.day t1 = JsDate.day t2 -> isoDate t1 = isoDate t2.
Proof.
  intros H. unfold isoDate, getDate, getMonth, dayWithinYear, getFullYear.
  now rewrite H.
Qed.

Lemma isoDate_trending year day month :
  0 <= year <= 99 -> 1 <= month <= 12 ->
  1 <= day <= daysInMonth (2000 + year) (month - 1) ->
  isoDate (makeDay (2000 + year) (month - 1) day * msPerDay)
  = "20" +:+ twoDigits year +:+ "-" +:+ twoDigits month
    +:+ "-" +:+ twoDigits day.
Proof.
  intros Hy Hm Hd.
  assert (Hday : 0 <= day <= 99).
  { pose proof (daysInMonth_le (2000 + year) (month - 1)). lia. }
  unfold isoDate.
  destruct (calendar_fields (2000 + year) (month - 1) day ltac:(lia) Hd)
    as (-> & -> & ->).
  unfold yearString.
  rewrite (proj2 (Z.leb_le 0 (2000 + year))) by lia.
  rewrite (proj2 (Z.leb_le (2000 + year) 9999)) by lia. cbn [andb].
  replace (month - 1 + 1) with month by lia.
  destruct (padStart_years year Hy) as [-> _].
  destruct (padStart_years month ltac:(lia)) as [_ ->].
  destruct (padStart_years day Hday) as [_ ->].
  now rewrite !append_assoc.
Qed.

(** X24. The key under which the timelines count a row is the date part
    of the text [toISOString] gives, which is the day in Greenwich. A
    trending date written with two digits each for the year, the day and
    the month is the midnight that begins that day in local time: where
    local time is that of Greenwich or behind it, the key is the day
    written year first, 17.14.11 being counted under 2017-11-14, and
    where local time is ahead of Greenwich the key is the day before,
    2017-11-13 one hour east. *)
Theorem dateKey_trending :
  (forall t, dateKey t = isoDate t)
  /\ (forall year day month,
        0 <= year <= 99 -> 1 <= month <= 12 ->
        1 <= day <= daysInMonth (2000 + year) (month - 1) ->
        let midnight := makeDay (2000 + year) (month - 1) day * msPerDay in
        let offset := offsetOf midnight in
        Z.abs offset <= msPerDay ->
        exists t,
          parseTrendingDate (dateText year day month) = Some (DateAt t)
          /\ t = midnight - offset
          /\ (- msPerDay < offset <= 0 ->
              dateKey t
              = "20" +:+ twoDigits year +:+ "-" +:+ twoDigits month
                +:+ "-" +:+ twoDigits day)
          /\ (0 < offset <= msPerDay ->
              dateKey t = dateKey (midnight - msPerDay)))
  /\ (forall t,
        0 <= getFullYear t <= 9999 -> String.length (dateKey t) = 10%nat)
  /\ (exists t,
        parseTrendingDate (zone := fixedZone 3600000) "17.14.11"
        = Some (DateAt t)
        /\ dateKey t = "2017-11-13").
Proof.
  split; [apply dateKey_isoDate|]. split; [|split].
  - intros year day month Hy Hm Hd midnight offset Hoffset.
    assert (Hday : 0 <= day <= 99).
    { pose proof (daysInMonth_le (2000 + year) (month - 1)). lia. }
    exists (midnight - offset). split; [|split; [reflexivity|split]].
    + rewrite parseTrendingDate_text by lia. f_equal.
      now apply newDate_trending.
    + intros Hwest. rewrite dateKey_isoDate.
      rewrite <- (isoDate_trending year day month Hy Hm Hd).
      apply isoDate_day. fold midnight. subst midnight.
      unfold JsDate.day, msPerDay in *.
      Z.to_euclidean_division_equations. lia.
    + intros Heast. rewrite !dateKey_isoDate.
      apply isoDate_day. subst midnight.
      unfold JsDate.day, msPerDay in *.
      Z.to_euclidean_division_equations. lia.
  - intros t Hy. rewrite dateKey_isoDate. unfold isoDate, yearString.
    rewrite (proj2 (Z.leb_le 0 _)) by lia.
    rewrite (proj2 (Z.leb_le _ 9999)) by lia. cbn [andb].
    rewrite !length_append, !padStart_length. reflexivity.
  - exists 1510614000000. split; [vm_compute; reflexivity|].
    rewrite dateKey_isoDate. vm_compute. reflexivity.
Qed.

End Zone.

(** The examples are read in the zone of Greenwich. *)
#[local] Existing Instance JsDate.utc.

Lemma dateKey_trending_witness :
  0 <= 17 <= 99 /\ 1 <= 11 <= 12 /\ 1 <= 14 <= daysInMonth (2000 + 17) (11 - 1)
  /\ (exists t,
        parseTrendingDate "17.14.11" = Some (DateAt t)
        /\ dateKey t = "2017-11-14")
  /\ (exists t,
        parseTrendingDate (zone := fixedZone 3600000) "17.14.11"
        = Some (DateAt t)
        /\ dateKey t = dateKey (1510617600000 - msPerDay)).
Proof.
  assert (Hy : 0 <= 17 <= 99) by lia.
  assert (Hm : 1 <= 11 <= 12) by lia.
  assert (Hd : 1 <= 14 <= daysInMonth (2000 + 17) (11 - 1))
    by (vm_compute; split; discriminate).
  split; [exact Hy|]. split; [exact Hm|]. split; [exact Hd|]. split.
  - destruct (proj1 (proj2 (dateKey_trending (zone := utc))) 17 14 11 Hy Hm Hd)
      as (t & Ht & _ & Hwest & _); [vm_compute; discriminate|].
    exists t. split; [exact Ht|]. apply Hwest. vm_compute. split; [reflexivity|discriminate].
  - destruct (proj1 (proj2 (dateKey_trending (zone := fixedZone 3600000)))
                17 14 11 Hy Hm Hd)
      as (t & Ht & _ & _ & Heast); [vm_compute; discriminate|].
    exists t. split; [exact Ht|]. apply Heast. vm_compute.
    split; [reflexivity|discriminate].
Defined.

End DateKeyFacts.

Module TimelineFacts.
Import JsString JsDate DataLoader Aggregation Notions Examples Terms.
Import JsObjFacts JsArrayFacts ParserFacts LoadFacts HeatmapFacts FlowFacts.
Import GroupFacts TableFacts LoadedFacts PerformanceFacts DateKeyFacts.

Section Zone.
Context {zone : JsDate.TimeZone}.

Local Abbreviation dayStep :=
  (groupStep (fun p : Z * Row => dateKey (fst p))
     (fun p => TimelineEntry.mk (fst p) 0 0)
     (fun p old =>
        TimelineEntry.mk (TimelineEntry.date old) (TimelineEntry.count old + 1)
          (TimelineEntry.totalViews old + views (snd p)))).

Local Abbreviation dayValue :=
  (groupValue
     (fun p : Z * Row => TimelineEntry.mk (fst p) 0 0)
     (fun p old =>
        TimelineEntry.mk (TimelineEntry.date old) (TimelineEntry.count old + 1)
          (TimelineEntry.totalViews old + views (snd p)))).

Lemma timelineStep_cases timelineData video :
  timelineStep timelineData video
  = if badDate video then None
    else Some match timeOf video with
              | Some t => dayStep timelineData (t, video)
              | None => timelineData
              end.
Proof.
  unfold timelineStep, badDate, timeOf.
  destruct (trendingDateParsed video) as [|s|[|t]]; reflexivity.
Qed.

Lemma dated_cons video videos :
  dated (video :: videos)
  = match timeOf video with
    | Some t => (t, video) :: dated videos
    | None => dated videos
    end.
Proof. unfold dated. cbn. now destruct (timeOf video). Qed.

Lemma forEachM_timeline videos timelineData :
  forEachM timelineStep videos timelineData
  = if existsb badDate videos then None
    else Some (fold_left dayStep (dated videos) timelineData).
Proof.
  revert timelineData. induction videos as [|video videos IH];
    intros timelineData; [reflexivity|].
  cbn [forEachM existsb]. rewrite timelineStep_cases, dated_cons.
  destruct (badDate video); [reflexivity|]. cbn [orb]. rewrite IH.
  destruct (existsb badDate videos); [reflexivity|].
  now destruct (timeOf video).
Qed.

Lemma timelineOf_cases videos :
  timelineOf videos
  = if existsb badDate videos then None
    else Some (JsArray.sort
                 (fun a b => TimelineEntry.date a - TimelineEntry.date b)
                 (JsObj.values (fold_left dayStep (dated videos) []))).
Proof.
  unfold timelineOf. rewrite forEachM_timeline.
  now destruct (existsb badDate videos).
Qed.

Lemma timeline_selection videoData country :
  getTimelineDataByCountry videoData country
  = timelineOf (videosToProcess videoData "all" country).
Proof.
  unfold getTimelineDataByCountry, getTimelineData, videosToProcess.
  now destruct (String.eqb country "all").
Qed.

(** What a parsed row holds for its trending date. *)
Lemma parsed_trending_date categories text code row s :
  In row (parseCSV categories text code) ->
  props row !! "trending_date" = Some s -> s <> EmptyString ->
  trendingDateParsed row
  = match parseTrendingDate s with
    | Some d => ObjectDate d
    | None => FalsyDate
    end.
Proof.
  intros Hin Hs Hne.
  destruct (parseCSV_makeRow _ _ _ _ Hin) as (headers & values & ->).
  apply makeRow_props in Hs.
  unfold trendingDateParsed. cbn [trending_date_parsed makeRow].
  rewrite Hs. rewrite (proj2 (truthy_ne s) Hne).
  now destruct (parseTrendingDate s).
Qed.

(** X17. [getTimelineDataByCountry] throws exactly when a row of the
    selection has an invalid date, or a text, for its trending date. A
    parsed row has an invalid date when [parseTrendingDate] makes one of
    its trending_date, as it does of a.b.c: one such line in a file makes
    the timeline of its country, and of all countries, throw. *)
Theorem getTimelineDataByCountry_throws (videoData : VideoData) (country : string) :
  let videos := videosToProcess videoData "all" country in
  (getTimelineDataByCountry videoData country = None
   <-> existsb badDate videos = true)
  /\ (forall categories text code row s,
        In row (parseCSV categories text code) ->
        props row !! "trending_date" = Some s -> s <> EmptyString ->
        (badDate row = true <-> parseTrendingDate s = Some InvalidDate))
  /\ parseTrendingDate "a.b.c" = Some InvalidDate
  /\ getTimelineData
       (loadVideoData (zone := JsDate.utc) ∅
          [("US", join nl ["trending_date"; "17.14.11"; "a.b.c"])] [])
     = None.
Proof.
  intros videos. split; [|split; [|split; reflexivity]].
  - rewrite timeline_selection, timelineOf_cases. fold videos.
    destruct (existsb badDate videos); split; congruence.
  - intros categories text code row s Hin Hs Hne. unfold badDate.
    rewrite (parsed_trending_date _ _ _ _ _ Hin Hs Hne).
    destruct (parseTrendingDate s) as [[|t]|]; split; congruence.
Qed.

Lemma fold_day (rows : list (Z * Row)) (start : TimelineEntry.t) :
  fold_left
    (fun old p =>
       TimelineEntry.mk (TimelineEntry.date old) (TimelineEntry.count old + 1)
         (TimelineEntry.totalViews old + views (snd p)))
    rows start
  = TimelineEntry.mk (TimelineEntry.date start)
      (TimelineEntry.count start + Z.of_nat (length rows))
      (TimelineEntry.totalViews start
       + Zsum (map (fun p => views (snd p)) rows)).
Proof.
  revert start. induction rows as [|p rows IH]; intros [d c v].
  - cbn. unfold Zsum. cbn. f_equal; lia.
  - cbn [fold_left]. rewrite IH. cbn [map length]. rewrite Zsum_cons.
    cbn [TimelineEntry.date TimelineEntry.count TimelineEntry.totalViews].
    f_equal; lia.
Qed.

Lemma day_value (rows : list (Z * Row)) (entry : TimelineEntry.t) :
  dayValue rows = Some entry ->
  TimelineEntry.count entry = Z.of_nat (length rows)
  /\ TimelineEntry.totalViews entry = Zsum (map (fun p => views (snd p)) rows)
  /\ exists row others, rows = (TimelineEntry.date entry, row) :: others.
Proof.
  destruct rows as [|[t row] rows]; [discriminate|]. intros [= <-].
  set (final := fold_left _ _ _).
  assert (Hf : final
               = TimelineEntry.mk t
                   (0 + Z.of_nat (length ((t, row) :: rows)))
                   (0 + Zsum (map (fun p => views (snd p)) ((t, row) :: rows))))
    by exact (fold_day ((t, row) :: rows) (TimelineEntry.mk t 0 0)).
  rewrite Hf.
  cbn [TimelineEntry.date TimelineEntry.count TimelineEntry.totalViews].
  split; [lia|]. split; [lia|]. eauto.
Qed.

Lemma timeline_entry videos key entry :
  In (key, entry) (fold_left dayStep (dated videos) []) ->
  dayValue (groupOf (fun p : Z * Row => dateKey (fst p)) key (dated videos))
  = Some entry
  /\ dateKey (TimelineEntry.date entry) = key.
Proof.
  intros Hin. apply entry_fold_group in Hin as Hvalue.
  split; [exact Hvalue|].
  apply day_value in Hvalue as (_ & _ & row & others & Hrows).
  assert (Hrow : In (TimelineEntry.date entry, row)
                   (groupOf (fun p : Z * Row => dateKey (fst p)) key
                      (dated videos))) by (rewrite Hrows; now left).
  apply filter_In in Hrow as [_ Hkey]. now apply String.eqb_eq in Hkey.
Qed.

(** X18. When [getTimelineDataByCountry] returns, its entries are in
    ascending order of their dates, one for every day key of the rows
    that have a trending date. An entry holds the number and the views of
    the rows of its day and the date of the first of them; the numbers
    add up to the number of rows that have a date. A country that is not
    loaded gives the empty list. *)
Theorem getTimelineDataByCountry_entries (videoData : VideoData)
    (country : string) (entries : list TimelineEntry.t) :
  getTimelineDataByCountry videoData country = Some entries ->
  let rows := dated (videosToProcess videoData "all" country) in
  StronglySorted (fun a b => TimelineEntry.date a <= TimelineEntry.date b)
    entries
  /\ NoDup (map (fun entry => dateKey (TimelineEntry.date entry)) entries)
  /\ Zsum (map TimelineEntry.count entries) = Z.of_nat (length rows)
  /\ Zsum (map TimelineEntry.totalViews entries)
     = Zsum (map (fun p => views (snd p)) rows)
  /\ Forall
       (fun entry =>
          let day :=
            groupOf (fun p : Z * Row => dateKey (fst p))
              (dateKey (TimelineEntry.date entry)) rows in
          TimelineEntry.count entry = Z.of_nat (length day)
          /\ TimelineEntry.totalViews entry
             = Zsum (map (fun p => views (snd p)) day)
          /\ exists row others, day = (TimelineEntry.date entry, row) :: others)
       entries
  /\ (country <> "all" -> JsObj.get videoData country = None -> entries = []).
Proof.
  rewrite timeline_selection, timelineOf_cases.
  destruct (existsb badDate _); [discriminate|]. intros [= <-] rows.
  fold rows.
  assert (Hperm : Permutation
                    (JsArray.sort
                       (fun a b => TimelineEntry.date a - TimelineEntry.date b)
                       (JsObj.values (fold_left dayStep rows [])))
                    (JsObj.values (fold_left dayStep rows [])))
    by apply sort_perm.
  split; [|split; [|split; [|split; [|split]]]].
  - apply (sort_sorted _ (fun a b => TimelineEntry.date a <= TimelineEntry.date b));
      intros; lia.
  - rewrite (Permutation_map _ Hperm).
    replace (map (fun entry => dateKey (TimelineEntry.date entry))
               (JsObj.values (fold_left dayStep rows [])))
      with (JsObj.keys (fold_left dayStep rows [])).
    + apply keys_fold_group.
    + unfold JsObj.keys, JsObj.values. rewrite map_map.
      apply map_ext_in. intros [key entry] Hin. cbn [fst snd].
      now apply timeline_entry in Hin as [_ <-].
  - rewrite (Zsum_perm _ _ (Permutation_map _ Hperm)).
    rewrite (Zsum_fold_group _ _ _ TimelineEntry.count (fun _ => 1)).
    + apply Zsum_ones.
    + intros k v Hv. apply day_value in Hv as (-> & _). now rewrite Zsum_ones.
  - rewrite (Zsum_perm _ _ (Permutation_map _ Hperm)).
    apply Zsum_fold_group.
    intros k v Hv. now apply day_value in Hv as (_ & -> & _).
  - apply List.Forall_forall. intros entry Hin.
    apply sort_In in Hin. unfold JsObj.values in Hin.
    apply in_map_iff in Hin as ([key e] & <- & Hin). cbn [snd].
    apply timeline_entry in Hin as [Hvalue Hkey]. cbv zeta. rewrite Hkey.
    now apply day_value in Hvalue.
  - intros Hall Hnone. unfold rows, videosToProcess, countryVideos.
    rewrite (proj2 (String.eqb_neq _ _) Hall), Hnone. reflexivity.
Qed.

End Zone.

(** The examples are read in the zone of Greenwich. *)
#[local] Existing Instance JsDate.utc.

Lemma getTimelineDataByCountry_throws_witness :
  In (makeRow ∅ "US" ["trending_date"] ["a.b.c"])
    (parseCSV ∅ (join nl ["trending_date"; "a.b.c"]) "US")
  /\ props (makeRow ∅ "US" ["trending_date"] ["a.b.c"]) !! "trending_date"
     = Some "a.b.c"
  /\ "a.b.c" <> EmptyString
  /\ badDate (makeRow ∅ "US" ["trending_date"] ["a.b.c"]) = true.
Proof.
  assert (H1 : In (makeRow ∅ "US" ["trending_date"] ["a.b.c"])
                 (parseCSV ∅ (join nl ["trending_date"; "a.b.c"]) "US"))
    by (left; reflexivity).
  assert (H2 : props (makeRow ∅ "US" ["trending_date"] ["a.b.c"])
                 !! "trending_date" = Some "a.b.c") by reflexivity.
  assert (H3 : "a.b.c" <> EmptyString) by congruence.
  split; [exact H1|]. split; [exact H2|]. split; [exact H3|].
  apply (proj1 (proj2 (getTimelineDataByCountry_throws [] "all"))
           _ _ _ _ _ H1 H2 H3).
  reflexivity.
Defined.

Lemma getTimelineDataByCountry_entries_witness :
  getTimelineDataByCountry winterData "US"
  = Some [TimelineEntry.mk 1515369600000 1 0; TimelineEntry.mk 1520208000000 1 0]
  /\ Zsum (map TimelineEntry.count
             [TimelineEntry.mk 1515369600000 1 0;
              TimelineEntry.mk 1520208000000 1 0])
     = Z.of_nat (length (dated (videosToProcess winterData "all" "US"))).
Proof.
  assert (H : getTimelineDataByCountry winterData "US"
              = Some [TimelineEntry.mk 1515369600000 1 0;
                      TimelineEntry.mk 1520208000000 1 0])
    by (vm_compute; reflexivity).
  split; [exact H|].
  exact (proj1 (proj2 (proj2
           (getTimelineDataByCountry_entries winterData "US" _ H)))).
Defined.

End TimelineFacts.

Module EvolutionFacts.
Import JsString JsDate DataLoader Aggregation Notions Examples Terms.
Import JsObjFacts JsArrayFacts ParserFacts LoadFacts HeatmapFacts FlowFacts.
Import GroupFacts TableFacts LoadedFacts PerformanceFacts DateKeyFacts.
Import TimelineFacts.

Lemma step_cases tagTimelineData allDates video :
  if tagged video && badDate video
  then TagEvolution.step (tagTimelineData, allDates) video = None
  else exists data,
      TagEvolution.step (tagTimelineData, allDates) video
      = Some (data, match dayOf video with
                    | Some key => JsArray.setAdd allDates key
                    | None => allDates
                    end).
Proof.
  unfold TagEvolution.step, tagged, badDate, dayOf, tagged, timeOf.
  destruct (props video !! "tags") as [tags|]; cbn [andb]; [|eauto].
  destruct (truthy tags); cbn [andb]; [|eauto].
  destruct (trendingDateParsed video) as [|s|[|t]]; cbn; eauto.
Qed.

Lemma forEachM_step videos tagTimelineData allDates :
  if existsb (fun video => tagged video && badDate video) videos
  then forEachM TagEvolution.step videos (tagTimelineData, allDates) = None
  else exists data,
      forEachM TagEvolution.step videos (tagTimelineData, allDates)
      = Some (data, daysOf videos allDates).
Proof.
  revert tagTimelineData allDates.
  induction videos as [|video videos IH]; intros tagTimelineData allDates.
  - cbn. eauto.
  - cbn [existsb forEachM].
    pose proof (step_cases tagTimelineData allDates video) as Hstep.
    destruct (tagged video && badDate video); cbn [orb].
    + now rewrite Hstep.
    + destruct Hstep as [data ->].
      specialize (IH data (match dayOf video with
                           | Some key => JsArray.setAdd allDates key
                           | None => allDates
                           end)).
      destruct (existsb _ videos); [exact IH|].
      destruct IH as [data' ->]. now exists data'.
Qed.

Lemma daysOf_spec videos start :
  (NoDup start -> NoDup (daysOf videos start))
  /\ forall key,
      In key (daysOf videos start)
      <-> In key start \/ exists video, In video videos /\ dayOf video = Some key.
Proof.
  revert start. induction videos as [|video videos IH]; intros start.
  - cbn. split; [auto|]. intros key. split; [now left|].
    intros [H|(video & [] & _)]. exact H.
  - unfold daysOf. cbn [fold_left].
    fold (daysOf videos (match dayOf video with
                         | Some key => JsArray.setAdd start key
                         | None => start
                         end)).
    destruct (IH (match dayOf video with
                  | Some key => JsArray.setAdd start key
                  | None => start
                  end)) as [Hnd Hin].
    split.
    + intros H. apply Hnd. destruct (dayOf video); [now apply setAdd_NoDup|exact H].
    + intros key. rewrite Hin. destruct (dayOf video) as [k|] eqn:E.
      * rewrite setAdd_In. split.
        -- intros [[H| ->]|(v & Hv & Hk)]; [now left| |].
           ++ right. exists video. split; [now left|exact E].
           ++ right. exists v. split; [now right|exact Hk].
        -- intros [H|(v & [<-|Hv] & Hk)]; [now left; left| |].
           ++ left. right. congruence.
           ++ right. eauto.
      * split.
        -- intros [H|(v & Hv & Hk)]; [now left|]. right. exists v.
           split; [now right|exact Hk].
        -- intros [H|(v & [<-|Hv] & Hk)]; [now left|congruence|].
           right. eauto.
Qed.

Lemma preset_limit filterType : 0 <= fst (TagEvolution.preset filterType).
Proof.
  unfold TagEvolution.preset.
  destruct (String.eqb filterType "top-tags"); [cbn; lia|].
  destruct (String.eqb filterType "trending"); cbn; lia.
Qed.

(** X19. [getTagEvolutionData] returns the empty result of its [catch]
    branch when a row with tags has an invalid date, or a text, for its
    trending date: one such row blanks the chart. Otherwise its dates
    are the day keys of the rows that have tags and a date, each once and
    in ascending order of their code units; every tag has one point for
    every date, in the order of the dates, and there are no more tags
    than the preset allows. *)
Theorem getTagEvolutionData_dates (videoData : VideoData) (filterType : string) :
  let videos := allVideos videoData in
  let result := getTagEvolutionData videoData filterType in
  (existsb (fun video => tagged video && badDate video) videos = true ->
   result = Evolution.mk [] [] [] None)
  /\ (existsb (fun video => tagged video && badDate video) videos = false ->
      StronglySorted (fun a b => String.leb a b = true) (Evolution.dates result)
      /\ NoDup (Evolution.dates result)
      /\ (forall key,
            In key (Evolution.dates result)
            <-> exists video, In video videos /\ dayOf video = Some key)
      /\ map TagTimeline.tag (Evolution.timelineData result)
         = Evolution.tags result
      /\ Forall (fun tagData =>
                   map TimelinePoint.dateKey (TagTimeline.timeline tagData)
                   = Evolution.dates result)
           (Evolution.timelineData result)
      /\ is_Some (Evolution.totalUsage result)
      /\ Z.of_nat (length (Evolution.tags result))
         <= fst (TagEvolution.preset filterType)).
Proof.
  intros videos result. unfold result, getTagEvolutionData. fold videos.
  set (loop := forEachM TagEvolution.step videos _).
  assert (Hloop : if existsb (fun video => tagged video && badDate video) videos
                  then loop = None
                  else exists data, loop = Some (data, daysOf videos []))
    by exact (forEachM_step videos [] []).
  clearbody loop.
  destruct (existsb _ videos); split; try discriminate.
  - intros _. now rewrite Hloop.
  - intros _. destruct Hloop as [data ->].
    pose proof (preset_limit filterType) as Hlimit.
    destruct (TagEvolution.preset filterType) as [tagLimit minOccurrences].
    cbn [fst] in Hlimit.
    cbn [Evolution.dates Evolution.tags Evolution.timelineData
         Evolution.totalUsage].
    destruct (daysOf_spec videos []) as [Hnd Hin].
    split; [apply sortStrings_sorted|].
    split; [rewrite sortStrings_perm; apply Hnd; constructor|].
    split; [|split; [|split; [|split]]].
    + intros key. unfold JsArray.sortStrings. rewrite sort_In, Hin.
      split; [intros [[]|H]; exact H|now right].
    + rewrite map_map. cbn [TagTimeline.tag]. apply map_id.
    + apply List.Forall_forall. intros tagData Htag.
      apply in_map_iff in Htag as (tag & <- & _). cbn [TagTimeline.timeline].
      rewrite map_map. cbn [TimelinePoint.dateKey TagEvolution.point].
      apply map_id.
    + eauto.
    + unfold TagEvolution.significantTags. rewrite length_map.
      now apply slice0_length.
Qed.

Lemma getTagEvolutionData_dates_witness :
  existsb (fun video => tagged video && badDate video) (allVideos winterData)
  = false
  /\ Evolution.dates (getTagEvolutionData winterData "overview")
     = ["2018-01-08"; "2018-03-05"]
  /\ NoDup (Evolution.dates (getTagEvolutionData winterData "overview")).
Proof.
  assert (H : existsb (fun video => tagged video && badDate video)
                (allVideos winterData) = false) by (vm_compute; reflexivity).
  split; [exact H|]. split; [vm_compute; reflexivity|].
  exact (proj1 (proj2 (proj2 (getTagEvolutionData_dates winterData "overview") H))).
Defined.

End EvolutionFacts.

Module DateOrderFacts.
Import JsString JsDate DataLoader Aggregation Notions Examples Terms.
Import JsDateFacts WeekFacts CalendarFacts TrendingDateFacts LineFacts.
Import RacingFacts DateKeyFacts.

Lemma compare_cons c d s1 s2 :
  String.compare (String c s1) (String d s2)
  = match Ascii.compare c d with
    | Eq => String.compare s1 s2
    | Lt => Lt
    | Gt => Gt
    end.
Proof. cbn [String.compare]. now destruct (Ascii.compare c d). Qed.

Lemma compare_digitChar x y :
  0 <= x <= 9 -> 0 <= y <= 9 ->
  Ascii.compare (digitChar x) (digitChar y) = (x ?= y).
Proof.
  intros Hx Hy. unfold Ascii.compare, digitChar.
  rewrite !N_ascii_embedding by lia.
  rewrite Z2N.inj_compare by lia. apply Z.add_compare_mono_l.
Qed.

(** Numbers written with the same number of digits compare as texts the
    way they compare as numbers. *)
Lemma compare_padStart width a b s1 s2 :
  0 <= a < 10 ^ Z.of_nat width -> 0 <= b < 10 ^ Z.of_nat width ->
  String.compare (padStart width a +:+ s1) (padStart width b +:+ s2)
  = match a ?= b with
    | Eq => String.compare s1 s2
    | Lt => Lt
    | Gt => Gt
    end.
Proof.
  revert a b s1 s2. induction width as [|w IH]; intros a b s1 s2 Ha Hb.
  - change (10 ^ Z.of_nat 0) with 1 in *.
    replace a with 0 by lia. replace b with 0 by lia. reflexivity.
  - rewrite Nat2Z.inj_succ, Z.pow_succ_r in Ha, Hb by lia.
    cbn [padStart]. rewrite !append_assoc.
    change (String ?c EmptyString +:+ ?s) with (String c s).
    rewrite IH by (split; [apply Z.div_pos; lia|apply Z.div_lt_upper_bound; lia]).
    rewrite compare_cons.
    rewrite compare_digitChar
      by (pose proof (Z.mod_pos_bound a 10); pose proof (Z.mod_pos_bound b 10); lia).
    destruct (Z.compare_spec (a / 10) (b / 10)) as [Hq|Hq|Hq].
    + destruct (Z.compare_spec (a mod 10) (b mod 10)) as [Hr|Hr|Hr];
        destruct (Z.compare_spec a b) as [Hab|Hab|Hab]; try reflexivity;
        exfalso; revert Hq Hr Hab; Z.to_euclidean_division_equations; lia.
    + destruct (Z.compare_spec a b) as [Hab|Hab|Hab]; try reflexivity;
        exfalso; revert Hq Hab; Z.to_euclidean_division_equations; lia.
    + destruct (Z.compare_spec a b) as [Hab|Hab|Hab]; try reflexivity;
        exfalso; revert Hq Hab; Z.to_euclidean_division_equations; lia.
Qed.

(** The month of a day of the year, and the days before it. *)
Lemma monthOfYearDay_spec y n :
  0 <= n <= 365 ->
  let m := monthOfYearDay y n in
  0 <= m <= 11
  /\ daysBeforeMonth y m <= n
  /\ (m < 11 -> n < daysBeforeMonth y (m + 1))
  /\ n - daysBeforeMonth y m <= 31.
Proof.
  intros Hn. cbv zeta. unfold monthOfYearDay.
  pose proof (leapDay_range y) as Hl.
  repeat match goal with
         | |- context [if ?a <? ?b then _ else _] =>
             destruct (Z.ltb_spec a b)
         end;
    change (0 + 1) with 1; change (1 + 1) with 2; change (2 + 1) with 3;
    change (3 + 1) with 4; change (4 + 1) with 5; change (5 + 1) with 6;
    change (6 + 1) with 7; change (7 + 1) with 8; change (8 + 1) with 9;
    change (9 + 1) with 10; change (10 + 1) with 11;
    cbn [daysBeforeMonth] in *; lia.
Qed.

Lemma daysBeforeMonth_mono y m1 m2 :
  0 <= m1 <= 11 -> 0 <= m2 <= 11 -> m1 <= m2 ->
  daysBeforeMonth y m1 <= daysBeforeMonth y m2.
Proof.
  intros H1 H2 Hle. pose proof (leapDay_range y) as Hl.
  assert (Hm1 : m1 = 0 \/ m1 = 1 \/ m1 = 2 \/ m1 = 3 \/ m1 = 4 \/ m1 = 5
                \/ m1 = 6 \/ m1 = 7 \/ m1 = 8 \/ m1 = 9 \/ m1 = 10 \/ m1 = 11)
    by lia.
  assert (Hm2 : m2 = 0 \/ m2 = 1 \/ m2 = 2 \/ m2 = 3 \/ m2 = 4 \/ m2 = 5
                \/ m2 = 6 \/ m2 = 7 \/ m2 = 8 \/ m2 = 9 \/ m2 = 10 \/ m2 = 11)
    by lia.
  repeat (destruct Hm1 as [->|Hm1]);
    repeat (destruct Hm2 as [->|Hm2]); subst;
    cbn [daysBeforeMonth]; lia.
Qed.

(** The fields of a date follow its day. *)
Lemma fields_order t1 t2 :
  JsDate.day t1 < JsDate.day t2 ->
  getFullYear t1 < getFullYear t2
  \/ (getFullYear t1 = getFullYear t2
      /\ (getMonth t1 < getMonth t2
          \/ (getMonth t1 = getMonth t2 /\ getDate t1 < getDate t2))).
Proof.
  intros Hlt.
  pose proof (yearFromDay_spec (JsDate.day t1)) as H1.
  pose proof (yearFromDay_spec (JsDate.day t2)) as H2.
  fold (getFullYear t1) in H1. fold (getFullYear t2) in H2.
  destruct (Z.lt_trichotomy (getFullYear t1) (getFullYear t2)) as [Hy|[Hy|Hy]];
    [now left| |].
  - right. split; [exact Hy|].
    pose proof (dayWithinYear_range t1) as Hn1.
    pose proof (dayWithinYear_range t2) as Hn2.
    assert (Hn : dayWithinYear t1 < dayWithinYear t2).
    { unfold dayWithinYear. rewrite Hy. lia. }
    unfold getDate, getMonth. rewrite <- Hy.
    pose proof (monthOfYearDay_spec (getFullYear t1) _ Hn1) as (Hm1 & Hb1 & Hu1 & _).
    pose proof (monthOfYearDay_spec (getFullYear t1) _ Hn2) as (Hm2 & Hb2 & Hu2 & _).
    set (m1 := monthOfYearDay (getFullYear t1) (dayWithinYear t1)) in *.
    set (m2 := monthOfYearDay (getFullYear t1) (dayWithinYear t2)) in *.
    destruct (Z.lt_trichotomy m1 m2) as [Hm|[Hm|Hm]]; [now left| |].
    + right. split; [exact Hm|]. rewrite Hm. lia.
    + exfalso.
      pose proof (daysBeforeMonth_mono (getFullYear t1) (m2 + 1) m1
                    ltac:(lia) ltac:(lia) ltac:(lia)).
      specialize (Hu2 ltac:(lia)). lia.
  - exfalso.
    pose proof (daysFromYear_mono (getFullYear t2 + 1) (getFullYear t1)
                  ltac:(lia)).
    lia.
Qed.

Lemma fields_range t :
  1 <= getMonth t + 1 <= 12 /\ 0 <= getDate t <= 99.
Proof.
  pose proof (dayWithinYear_range t) as Hn.
  pose proof (monthOfYearDay_spec (getFullYear t) _ Hn) as (Hm & Hb & _ & Hd).
  unfold getDate, getMonth. lia.
Qed.

Lemma isoDate_compare t1 t2 :
  0 <= getFullYear t1 <= 9999 -> 0 <= getFullYear t2 <= 9999 ->
  String.compare (isoDate t1) (isoDate t2)
  = match getFullYear t1 ?= getFullYear t2 with
    | Eq => match getMonth t1 ?= getMonth t2 with
            | Eq => getDate t1 ?= getDate t2
            | c => c
            end
    | c => c
    end.
Proof.
  intros Hy1 Hy2. unfold isoDate, yearString.
  rewrite !(proj2 (Z.leb_le 0 _)) by lia.
  rewrite !(proj2 (Z.leb_le _ 9999)) by lia. cbn [andb].
  destruct (fields_range t1) as [Hm1 Hd1].
  destruct (fields_range t2) as [Hm2 Hd2].
  rewrite compare_padStart by (cbn; lia).
  destruct (getFullYear t1 ?= getFullYear t2); try reflexivity.
  change ("-" +:+ ?s) with (String "-" s). rewrite compare_cons.
  change (Ascii.compare "-" "-") with Eq. cbv iota.
  rewrite compare_padStart by (cbn; lia).
  replace (getMonth t1 + 1 ?= getMonth t2 + 1)
    with (getMonth t1 ?= getMonth t2)
    by (rewrite !(Z.add_comm _ 1); symmetry; apply Z.add_compare_mono_l).
  destruct (getMonth t1 ?= getMonth t2); try reflexivity.
  change ("-" +:+ padStart 2 (getDate t1))
    with (String "-" (padStart 2 (getDate t1))).
  change ("-" +:+ padStart 2 (getDate t2))
    with (String "-" (padStart 2 (getDate t2))).
  rewrite compare_cons. change (Ascii.compare "-" "-") with Eq. cbv iota.
  rewrite <- (append_empty (padStart 2 (getDate t1))).
  rewrite <- (append_empty (padStart 2 (getDate t2))).
  rewrite compare_padStart by (cbn; lia).
  now destruct (getDate t1 ?= getDate t2).
Qed.

(** X25. For dates of the years 0 to 9999 the day keys of the timelines
    sort as texts the way their days follow each other: a date of an
    earlier day has the smaller key, and dates of one day have one key.
    The dates that [sort()] leaves in ascending order of their keys are
    in the order of time. *)
Theorem dateKey_chronological (t1 t2 : Z) :
  0 <= getFullYear t1 <= 9999 -> 0 <= getFullYear t2 <= 9999 ->
  (JsDate.day t1 = JsDate.day t2 -> dateKey t1 = dateKey t2)
  /\ (JsDate.day t1 < JsDate.day t2 ->
      String.ltb (dateKey t1) (dateKey t2) = true)
  /\ (String.leb (dateKey t1) (dateKey t2) = true ->
      JsDate.day t1 <= JsDate.day t2).
Proof.
  intros Hy1 Hy2.
  assert (Hsame : JsDate.day t1 = JsDate.day t2 -> dateKey t1 = dateKey t2).
  { intros Hday. rewrite !dateKey_isoDate.
    unfold isoDate, getDate, getMonth, dayWithinYear, getFullYear.
    now rewrite Hday. }
  assert (Hless : forall a b,
             0 <= getFullYear a <= 9999 -> 0 <= getFullYear b <= 9999 ->
             JsDate.day a < JsDate.day b ->
             String.compare (dateKey a) (dateKey b) = Lt).
  { intros a b Ha Hb Hlt. rewrite !dateKey_isoDate, isoDate_compare by assumption.
    destruct (fields_order a b Hlt) as [Hy|[Hy [Hm|[Hm Hd]]]].
    - now rewrite (proj2 (Z.compare_lt_iff _ _) Hy).
    - rewrite Hy, Z.compare_refl. now rewrite (proj2 (Z.compare_lt_iff _ _) Hm).
    - rewrite Hy, Hm, !Z.compare_refl. now apply Z.compare_lt_iff. }
  split; [exact Hsame|]. split.
  - intros Hlt. unfold String.ltb. now rewrite (Hless t1 t2).
  - intros Hle. destruct (Z.le_gt_cases (JsDate.day t1) (JsDate.day t2))
      as [H|H]; [exact H|exfalso].
    apply (Hless t2 t1 Hy2 Hy1) in H.
    unfold String.leb in Hle. rewrite String.compare_antisym, H in Hle.
    discriminate.
Qed.

Lemma dateKey_chronological_witness :
  0 <= getFullYear 1515369600000 <= 9999
  /\ 0 <= getFullYear 1520208000000 <= 9999
  /\ JsDate.day 1515369600000 < JsDate.day 1520208000000
  /\ String.ltb (dateKey 1515369600000) (dateKey 1520208000000) = true.
Proof.
  assert (H1 : 0 <= getFullYear 1515369600000 <= 9999)
    by (vm_compute; split; discriminate).
  assert (H2 : 0 <= getFullYear 1520208000000 <= 9999)
    by (vm_compute; split; discriminate).
  assert (H3 : JsDate.day 1515369600000 < JsDate.day 1520208000000)
    by (vm_compute; reflexivity).
  split; [exact H1|]. split; [exact H2|]. split; [exact H3|].
  exact (proj1 (proj2 (dateKey_chronological _ _ H1 H2)) H3).
Defined.

End DateOrderFacts.

Module AppFacts.
Import JsString JsDate DataLoader Aggregation App JsNum Notions Examples Terms.
Import JsObjFacts JsArrayFacts ParserFacts ViewsByCountryFacts ViewsVsLikesFacts.
Import LoadFacts HeatmapFacts TimingFacts FlowFacts GroupFacts TableFacts.
Import LoadedFacts EngagementFacts PerformanceFacts CountryFacts.

Lemma ordered_spec lower upper :
  let '(low, high) := ordered lower upper in
  (forall a b, low = Some a -> high = Some b -> (a <= b)%Q)
  /\ ordered low high = (low, high)
  /\ ((low, high) = (lower, upper) \/ (low, high) = (upper, lower))
  /\ (is_Some low <-> is_Some lower) /\ (is_Some high <-> is_Some upper).
Proof.
  unfold ordered. destruct lower as [a|], upper as [b|];
    try (repeat split; auto; intros; discriminate).
  destruct (Qlt_bool b a) eqn:E.
  - apply Qlt_bool_iff in E. repeat split; eauto.
    + intros x y [= <-] [= <-]. now apply Qlt_le_weak.
    + destruct (Qlt_bool a b) eqn:E'; [|reflexivity].
      apply Qlt_bool_iff in E'. exfalso. apply (Qlt_irrefl a).
      now apply (Qlt_trans _ b).
  - repeat split; eauto.
    + intros x y [= <-] [= <-]. apply Qnot_lt_le. intros H.
      apply Qlt_bool_iff in H. congruence.
    + now rewrite E.
Qed.

(** X21. [getScatterFilters] puts two typed bounds in order: the filters
    it returns never hold a lower bound above the upper one, reading them
    again changes nothing, and a bound is present exactly when one was
    typed. The scatter plot drawn from them holds at most 300 points,
    whose views and likes lie between the two typed bounds in whichever
    order they were typed. *)
Theorem getScatterFilters_ordered (shuffle : list Row -> list Row)
    (videoData : VideoData) (selectedCountry : string) (typed : Filters.t) :
  (forall rows, Permutation (shuffle rows) rows) ->
  let filters := getScatterFilters typed in
  (forall a b, Filters.minViews filters = Some a ->
               Filters.maxViews filters = Some b -> (a <= b)%Q)
  /\ (forall a b, Filters.minLikes filters = Some a ->
                  Filters.maxLikes filters = Some b -> (a <= b)%Q)
  /\ getScatterFilters filters = filters
  /\ Z.of_nat (length (scatterData shuffle videoData selectedCountry typed))
     <= 300
  /\ Forall
       (fun point =>
          (forall a b,
              Filters.minViews typed = Some a -> Filters.maxViews typed = Some b ->
              (a <= inject_Z (Point.views point) <= b)%Q
              \/ (b <= inject_Z (Point.views point) <= a)%Q)
          /\ (forall a b,
                Filters.minLikes typed = Some a -> Filters.maxLikes typed = Some b ->
                (a <= inject_Z (Point.likes point) <= b)%Q
                \/ (b <= inject_Z (Point.likes point) <= a)%Q))
       (scatterData shuffle videoData selectedCountry typed)
  /\ ((is_Some (Filters.minViews filters) <-> is_Some (Filters.minViews typed))
      /\ (is_Some (Filters.maxViews filters)
          <-> is_Some (Filters.maxViews typed))
      /\ (is_Some (Filters.minLikes filters)
          <-> is_Some (Filters.minLikes typed))
      /\ (is_Some (Filters.maxLikes filters)
          <-> is_Some (Filters.maxLikes typed))).
Proof.
  intros Hperm filters. unfold filters, getScatterFilters.
  pose proof (ordered_spec (Filters.minViews typed) (Filters.maxViews typed))
    as Hviews.
  pose proof (ordered_spec (Filters.minLikes typed) (Filters.maxLikes typed))
    as Hlikes.
  unfold scatterData, getScatterFilters.
  destruct (ordered (Filters.minViews typed) (Filters.maxViews typed))
    as [minViews maxViews].
  destruct (ordered (Filters.minLikes typed) (Filters.maxLikes typed))
    as [minLikes maxLikes].
  destruct Hviews as (Hv & Hvi & Hvs & Hvmin & Hvmax).
  destruct Hlikes as (Hl & Hli & Hls & Hlmin & Hlmax).
  cbn [Filters.minViews Filters.maxViews Filters.minLikes Filters.maxLikes].
  split; [exact Hv|]. split; [exact Hl|].
  split; [now rewrite Hvi, Hli|].
  split; [|split; [|repeat split; tauto]].
  - unfold getViewsVsLikes. rewrite length_map. now apply slice0_length.
  - apply List.Forall_forall. intros point Hin.
    unfold getViewsVsLikes in Hin.
    apply in_map_iff in Hin as (video & <- & Hin).
    apply slice0_In in Hin. apply (Permutation_in _ (Hperm _)) in Hin.
    apply filter_In in Hin as [Hin Hlk]. apply filter_In in Hin as [_ Hvw].
    cbn [Filters.minViews Filters.maxViews Filters.minLikes Filters.maxLikes]
      in Hlk, Hvw.
    apply atLeast_atMost in Hlk as [Hl1 Hl2].
    apply atLeast_atMost in Hvw as [Hv1 Hv2].
    cbn [Point.views Point.likes]. split; intros a b Ha Hb.
    + destruct Hvs as [[= -> ->]|[= -> ->]]; [left|right];
        split; (apply Hv1 || apply Hv2); assumption.
    + destruct Hls as [[= -> ->]|[= -> ->]]; [left|right];
        split; (apply Hl1 || apply Hl2); assumption.
Qed.

Lemma getScatterFilters_ordered_witness :
  (forall rows : list Row, Permutation (rev rows) rows)
  /\ getScatterFilters (Filters.mk (Some 300%Q) (Some 100%Q) None None)
     = Filters.mk (Some 100%Q) (Some 300%Q) None None
  /\ map Point.views
       (scatterData (@rev Row) sampleData "all"
          (Filters.mk (Some 300%Q) (Some 100%Q) None None))
     = [300; 100]
  /\ Z.of_nat (length (scatterData (@rev Row) sampleData "all"
                         (Filters.mk (Some 300%Q) (Some 100%Q) None None)))
     <= 300.
Proof.
  assert (Hperm : forall rows : list Row, Permutation (rev rows) rows).
  { intros rows. symmetry. apply Permutation_rev. }
  split; [exact Hperm|]. split; [reflexivity|]. split; [vm_compute; reflexivity|].
  exact (proj1 (proj2 (proj2 (proj2
           (getScatterFilters_ordered (@rev Row) sampleData "all"
              (Filters.mk (Some 300%Q) (Some 100%Q) None None) Hperm))))).
Defined.

End AppFacts.

Module StatsFacts.
Import JsString JsDate DataLoader Aggregation App JsNum Notions Examples Terms.
Import JsObjFacts JsArrayFacts ParserFacts ViewsByCountryFacts ViewsVsLikesFacts.
Import LoadFacts HeatmapFacts TimingFacts FlowFacts GroupFacts TableFacts.
Import LoadedFacts EngagementFacts PerformanceFacts CountryFacts.

Lemma Zsum_allVideos (weight : Row -> Z) (videoData : VideoData) :
  Zsum (map weight (allVideos videoData))
  = Zsum (map (fun rows => Zsum (map weight rows)) (JsObj.values videoData)).
Proof.
  induction videoData as [|[code rows] videoData IH]; [reflexivity|].
  rewrite allVideos_cons, map_app, Zsum_app, IH.
  cbn [JsObj.values map snd]. now rewrite Zsum_cons.
Qed.

Lemma names_spec (names start : list string) :
  (NoDup start -> NoDup (fold_left JsArray.setAdd names start))
  /\ forall name,
      In name (fold_left JsArray.setAdd names start)
      <-> In name start \/ In name names.
Proof.
  revert start. induction names as [|n names IH]; intros start.
  - cbn. split; [auto|]. intros name. tauto.
  - cbn [fold_left]. destruct (IH (JsArray.setAdd start n)) as [Hnd Hin].
    split; [intros H; now apply Hnd, setAdd_NoDup|].
    intros name. rewrite Hin, setAdd_In. cbn [In]. intuition congruence.
Qed.

(** X22. The statistics of the overview agree with the tables of the
    data loader: the total of the views is the sum of the totals that
    [getViewsByCountry] holds, the number of videos the sum of
    [getCountryVideoCounts], and the likes those of the engagement
    metrics. The number of categories is the number of available
    categories when no row has an empty category name. The two averages
    are NaN exactly when there is no row, and otherwise the total of the
    views and the total of the likes over the number of videos. *)
Theorem getStats_totals (videoData : VideoData) :
  NoDup (JsObj.keys videoData) ->
  let stats := getStats videoData in
  Stats.totalViews stats
  = Zsum (map CountryViews.totalViews (JsObj.values (getViewsByCountry videoData)))
  /\ Stats.totalVideos stats
     = Zsum (JsObj.values (getCountryVideoCounts videoData))
  /\ Stats.totalLikes stats = Engagement.Likes (getEngagementMetrics videoData)
  /\ (Z.of_nat (length (getAvailableCategories videoData))
      <= Stats.categoriesCount stats)
  /\ ((forall row, In row (allVideos videoData) ->
         category_name row <> EmptyString) ->
      Stats.categoriesCount stats
      = Z.of_nat (length (getAvailableCategories videoData)))
  /\ (Stats.avgViewsPerVideo stats = NaN <-> allVideos videoData = [])
  /\ (Stats.avgLikesPerVideo stats = NaN <-> allVideos videoData = [])
  /\ (allVideos videoData <> [] ->
      exists avgViews avgLikes,
        Stats.avgViewsPerVideo stats = Fin avgViews
        /\ (avgViews == inject_Z (Stats.totalViews stats)
                        / inject_Z (Stats.totalVideos stats))%Q
        /\ Stats.avgLikesPerVideo stats = Fin avgLikes
        /\ (avgLikes == inject_Z (Stats.totalLikes stats)
                        / inject_Z (Stats.totalVideos stats))%Q).
Proof.
  intros Hnd stats. unfold stats, getStats.
  cbn [Stats.totalViews Stats.totalVideos Stats.totalLikes Stats.categoriesCount
       Stats.avgViewsPerVideo Stats.avgLikesPerVideo].
  set (names := fold_left JsArray.setAdd (map category_name (allVideos videoData)) []).
  destruct (names_spec (map category_name (allVideos videoData)) [])
    as [Hnames Hin]. fold names in Hnames, Hin.
  assert (Hsub : forall name, In name (getAvailableCategories videoData) ->
                              In name names).
  { intros name Hname. apply getAvailableCategories_In in Hname
      as (row & Hrow & <- & _).
    apply Hin. right. now apply in_map. }
  split; [|split; [|split; [|split; [|split; [|split; [|split]]]]]].
  - unfold getViewsByCountry.
    change (fun result country =>
              JsObj.set result country
                (CountryViews.mk (sumViews (countryVideos videoData country))
                   (JsNum.div (sumViews (countryVideos videoData country))
                      (Z.of_nat (length (countryVideos videoData country))))
                   (Z.of_nat (length (countryVideos videoData country)))))
      with (groupStep (fun c : string => c) (fun _ => CountryViews.mk 0 NaN 0)
              (fun c (_ : CountryViews.t) =>
                 CountryViews.mk (sumViews (countryVideos videoData c))
                   (JsNum.div (sumViews (countryVideos videoData c))
                      (Z.of_nat (length (countryVideos videoData c))))
                   (Z.of_nat (length (countryVideos videoData c))))).
    rewrite (Zsum_fold_group _ _ _ CountryViews.totalViews
               (fun c => Zsum (map views (countryVideos videoData c)))).
    + rewrite sumOf_Zsum, Zsum_allVideos, <- (values_countryVideos _ Hnd).
      now rewrite map_map.
    + intros k v. rewrite (groupOf_NoDup _ _ Hnd).
      destruct (JsArray.includes _ k); [|discriminate].
      intros [= <-]. cbn [CountryViews.totalViews map].
      rewrite Zsum_cons. unfold Zsum at 2. cbn [foldr].
      rewrite sumViews_foldr. fold (Zsum (map views (countryVideos videoData k))).
      lia.
  - symmetry. now apply countryCounts_sum.
  - reflexivity.
  - apply inj_le. apply NoDup_incl_length.
    + apply NoDup_ListNoDup, getAvailableCategories_NoDup.
    + exact Hsub.
  - intros Hnamed. f_equal. apply Permutation_length, NoDup_Permutation.
    + apply Hnames. constructor.
    + apply getAvailableCategories_NoDup.
    + intros name. rewrite !list_elem_of_In. split; [|apply Hsub].
      intros Hname. apply Hin in Hname as [[]|Hname].
      apply in_map_iff in Hname as (row & <- & Hrow).
      apply getAvailableCategories_In. exists row.
      split; [exact Hrow|]. split; [reflexivity|]. now apply Hnamed.
  - destruct (allVideos videoData) as [|row rows] eqn:E.
    + split; reflexivity.
    + split; [|discriminate]. intros Hnan. exfalso.
      destruct (div_positive (sumOf views (row :: rows))
                  (Z.of_nat (length (row :: rows)))) as (q & Hq & _);
        [cbn [length]; lia|]. congruence.
  - destruct (allVideos videoData) as [|row rows] eqn:E.
    + split; reflexivity.
    + split; [|discriminate]. intros Hnan. exfalso.
      destruct (div_positive (sumOf likes (row :: rows))
                  (Z.of_nat (length (row :: rows)))) as (q & Hq & _);
        [cbn [length]; lia|]. congruence.
  - intros Hrows.
    assert (Hpos : 0 < Z.of_nat (length (allVideos videoData)))
      by (destruct (allVideos videoData); [congruence|cbn [length]; lia]).
    destruct (div_positive (sumOf views (allVideos videoData)) _ Hpos)
      as (avgViews & Hviews & Hqv).
    destruct (div_positive (sumOf likes (allVideos videoData)) _ Hpos)
      as (avgLikes & Hlikes & Hql).
    exists avgViews, avgLikes. auto.
Qed.

Lemma getStats_totals_witness :
  NoDup (JsObj.keys heatData)
  /\ Stats.totalVideos (getStats heatData) = 4
  /\ Stats.categoriesCount (getStats heatData) = 3
  /\ Stats.totalViews (getStats heatData)
     = Zsum (map CountryViews.totalViews
               (JsObj.values (getViewsByCountry heatData))).
Proof.
  assert (H : NoDup (JsObj.keys heatData)).
  { apply (bool_decide_unpack (NoDup (JsObj.keys heatData))).
    vm_compute. exact I. }
  split; [exact H|]. split; [reflexivity|]. split; [reflexivity|].
  exact (proj1 (getStats_totals heatData H)).
Defined.

End StatsFacts.

Module TableTextFacts.
Import JsString JsDate DataLoader Notions Examples Terms.
Import JsStringFacts ParserFacts TrendingDateFacts LineFacts DateKeyFacts LoadedFacts.

Section Zone.
Context {zone : JsDate.TimeZone}.

Lemma trimStart_length s : (String.length (trimStart s) <= String.length s)%nat.
Proof.
  induction s as [|c s IH]; [reflexivity|]. cbn [trimStart].
  destruct (isWhiteSpace c); cbn [String.length]; lia.
Qed.

Lemma trimStart_append a y :
  a <> EmptyString -> trimStart a = a -> trimStart (a +:+ y) = a +:+ y.
Proof.
  destruct a as [|c a]; [congruence|]. intros _ H.
  change (String c a +:+ y) with (String c (a +:+ y)).
  cbn [trimStart] in *. destruct (isWhiteSpace c); [|reflexivity].
  pose proof (trimStart_length a) as Hlen. rewrite H in Hlen.
  cbn [String.length] in Hlen. lia.
Qed.

Lemma append_nonempty x b : b <> EmptyString -> x +:+ b <> EmptyString.
Proof. destruct x; [auto|discriminate]. Qed.

Lemma trimEnd_append x b :
  b <> EmptyString -> trimEnd b = b -> trimEnd (x +:+ b) = x +:+ b.
Proof.
  intros Hne Hb. induction x as [|c x IH]; [exact Hb|].
  change (String c x +:+ b) with (String c (x +:+ b)).
  cbn [trimEnd]. rewrite IH.
  pose proof (append_nonempty x b Hne). now destruct (x +:+ b).
Qed.

(** A text with nothing to trim at either end. *)
Lemma tight_ends s :
  s <> EmptyString -> trim s = s -> trimStart s = s /\ trimEnd s = s.
Proof.
  intros Hne Htrim.
  assert (Hstart : trimStart s = s) by (rewrite <- Htrim at 1; rewrite trimStart_trim; exact Htrim).
  split; [exact Hstart|]. unfold trim in Htrim. now rewrite Hstart in Htrim.
Qed.

Lemma tight_append a x b :
  a <> EmptyString -> trim a = a -> b <> EmptyString -> trim b = b ->
  trim (a +:+ (x +:+ b)) = a +:+ (x +:+ b).
Proof.
  intros Ha Hta Hb Htb.
  destruct (tight_ends a Ha Hta) as [Hsa _].
  destruct (tight_ends b Hb Htb) as [_ Heb].
  unfold trim. rewrite trimStart_append by assumption.
  rewrite <- !append_assoc. apply trimEnd_append; assumption.
Qed.

Lemma tight_join sep (parts : list string) :
  Forall (fun part => part <> EmptyString /\ trim part = part) parts ->
  parts <> [] ->
  join sep parts <> EmptyString /\ trim (join sep parts) = join sep parts.
Proof.
  induction 1 as [|part parts [Hne Htrim] Hall IH]; [congruence|]. intros _.
  destruct parts as [|next parts].
  - unfold join. cbn [String.concat]. auto.
  - rewrite join_cons. destruct (IH ltac:(congruence)) as [Hne' Htrim'].
    split; [destruct part; [congruence|discriminate]|].
    change (String sep (join sep (next :: parts)))
      with (String sep EmptyString +:+ join sep (next :: parts)).
    now apply tight_append.
Qed.

Lemma without_join c sep (parts : list string) :
  Ascii.eqb sep c = false ->
  Forall (fun part => without c part = true) parts ->
  without c (join sep parts) = true.
Proof.
  intros Hsep. induction 1 as [|part parts Hpart Hall IH]; [reflexivity|].
  destruct parts as [|next parts].
  - unfold join. cbn [String.concat]. exact Hpart.
  - rewrite join_cons, without_append, Hpart. cbn [without andb].
    now rewrite Hsep, IH.
Qed.

(** Splitting undoes joining when no part holds the separator. *)
Lemma split_join sep (parts : list string) :
  Forall (fun part => without sep part = true) parts -> parts <> [] ->
  split sep (join sep parts) = parts.
Proof.
  induction 1 as [|part parts Hpart Hall IH]; [congruence|]. intros _.
  destruct parts as [|next parts].
  - unfold join. cbn [String.concat]. now apply split_without.
  - rewrite join_cons, split_part by exact Hpart. f_equal.
    apply IH. congruence.
Qed.

Lemma assignHeaders_other headers index values (row : gmap string string) name :
  ~ In name (map trim headers) ->
  assignHeaders headers index values row !! name = row !! name.
Proof.
  revert index row. induction headers as [|header headers IH];
    intros index row Hnot; [reflexivity|].
  cbn [assignHeaders]. rewrite IH by (intros H; apply Hnot; now right).
  apply lookup_insert_ne. intros H. apply Hnot. now left.
Qed.

Lemma assignHeaders_at headers index values (row : gmap string string) i header :
  NoDup (map trim headers) -> headers !! i = Some header ->
  assignHeaders headers index values row !! trim header
  = Some (cell values (index + i)).
Proof.
  revert index row i. induction headers as [|first headers IH];
    intros index row i Hnd Hi; [discriminate|].
  cbn [map] in Hnd. apply NoDup_cons in Hnd as [Hnotin Hnd].
  cbn [assignHeaders]. destruct i as [|i].
  - injection Hi as ->. rewrite assignHeaders_other.
    + rewrite lookup_insert_eq. now rewrite Nat.add_0_r.
    + now rewrite <- list_elem_of_In.
  - cbn in Hi. rewrite (IH _ _ i Hnd Hi). f_equal. f_equal. lia.
Qed.

Lemma cell_clean values i value :
  values !! i = Some value -> cleanValue value -> cell values i = value.
Proof.
  intros Hi (Hne & Htrim & _). unfold cell. rewrite Hi.
  now rewrite (proj2 (HeatmapFacts.truthy_ne value) Hne).
Qed.

Lemma clean_trimmed (values : list string) :
  Forall cleanValue values -> map trim values = values.
Proof.
  induction 1 as [|value values (_ & Htrim & _) _ IH]; [reflexivity|].
  cbn [map]. now rewrite Htrim, IH.
Qed.

(** What the loop over the headers leaves under a clean header of a line
    of clean values. *)
Lemma assignHeaders_clean headers values i header value :
  Forall cleanValue headers -> NoDup headers ->
  Forall cleanValue values ->
  headers !! i = Some header -> values !! i = Some value ->
  assignHeaders headers 0 values ∅ !! header = Some value.
Proof.
  intros Hheaders Hnd Hvalues Hi Hv.
  assert (Hclean : cleanValue header).
  { rewrite List.Forall_forall in Hheaders. apply Hheaders.
    apply list_elem_of_In. now apply list_elem_of_lookup_2 in Hi. }
  destruct Hclean as (_ & Htrim & _). rewrite <- Htrim.
  rewrite (assignHeaders_at _ _ _ _ i) by (rewrite ?clean_trimmed; auto).
  f_equal. apply cell_clean; [exact Hv|].
  rewrite List.Forall_forall in Hvalues. apply Hvalues.
  apply list_elem_of_In. now apply list_elem_of_lookup_2 in Hv.
Qed.

(** A property that the parser assigns nothing to holds the text copied
    under its header. *)
Lemma makeRow_prop_text categories country headers values name :
  ~ In name assigned ->
  (name = "trending_date_parsed" ->
   assignHeaders headers 0 values ∅ !! "trending_date" = None) ->
  prop (makeRow categories country headers values) name
  = Text <$> assignHeaders headers 0 values ∅ !! name.
Proof.
  intros Hname Hdate. unfold prop.
  repeat match goal with
         | |- context [String.eqb name ?k] =>
             rewrite (proj2 (String.eqb_neq name k))
               by (intros ->; apply Hname; cbn; tauto)
         end.
  cbn [trending_date_parsed makeRow props].
  destruct (assignHeaders headers 0 values ∅ !! "trending_date") as [s|] eqn:E;
    [destruct (truthy s)|].
  - destruct (String.eqb_spec name "trending_date_parsed") as [->|Hne].
    + specialize (Hdate eq_refl). discriminate.
    + f_equal. apply lookup_foldr_delete_other.
      cbn [In]. intros [H|H]; [congruence|auto].
  - f_equal. now apply lookup_foldr_delete_other.
  - f_equal. now apply lookup_foldr_delete_other.
Qed.

(** A property that the parser reads a number for. *)
Lemma makeRow_prop_number categories country headers values name :
  In name ["views"; "likes"; "dislikes"; "comment_count"; "category_id"] ->
  prop (makeRow categories country headers values) name
  = Some (Number
            (orZero (parseIntProp (assignHeaders headers 0 values ∅ !! name)))).
Proof.
  cbn [In]. intros [<-|[<-|[<-|[<-|[<-|[]]]]]]; reflexivity.
Qed.

Lemma clean_line (values : list string) :
  Forall cleanValue values -> values <> [] ->
  let line := join "," values in
  line <> EmptyString /\ trim line = line
  /\ without nl line = true
  /\ parseCSVLine line = values
  /\ split "," line = values.
Proof.
  intros Hall Hne line.
  destruct (tight_join "," values) as [Hline Htrim]; [|exact Hne|].
  { eapply Forall_impl; [exact Hall|]. now intros v (? & ? & _). }
  assert (Hsplit : split "," line = values).
  { apply split_join; [|exact Hne].
    eapply Forall_impl; [exact Hall|]. now intros v (_ & _ & ? & _). }
  split; [exact Hline|]. split; [exact Htrim|]. split; [|split; [|exact Hsplit]].
  - apply without_join; [reflexivity|].
    eapply Forall_impl; [exact Hall|]. now intros v (_ & _ & _ & _ & ?).
  - rewrite parseCSVLine_plain; [exact Hsplit|].
    apply without_join; [reflexivity|].
    eapply Forall_impl; [exact Hall|]. now intros v (_ & _ & _ & ? & _).
Qed.


End Zone.

(** The examples are read in the zone of Greenwich. *)
#[local] Existing Instance JsDate.utc.


End TableTextFacts.

Module TagFilterFacts.
Import JsString JsDate DataLoader Notions Examples Terms.
Import JsArrayFacts HeatmapFacts TagFacts.

Lemma keepTag_flow tag :
  keepTag 30 true tag = true -> (String.length tag < 25)%nat ->
  keepTag 25 false tag = true.
Proof.
  intros Hkeep Hlen.
  apply keepTag_true in Hkeep as (Hl & Hnone & Hbracket).
  unfold keepTag. rewrite Hnone, Hbracket.
  assert (Htruthy : truthy tag = true).
  { apply truthy_ne. intros ->. cbn in Hl. lia. }
  rewrite Htruthy. cbn [negb orb andb].
  rewrite (proj2 (Nat.leb_gt _ _)) by lia.
  rewrite (proj2 (Nat.leb_gt _ _)) by lia. reflexivity.
Qed.

(** X27. The filter of the flow diagram keeps every tag that the filter
    of the racing and evolution charts keeps, when the tag has fewer than
    25 characters: it differs only in its length bound and in keeping
    tags with the word none in them. The charts take at most 8 tags
    of a row, and every tag of the flow diagram has more than 2 and fewer
    than 25 characters. *)
Theorem flowTags_videoTags (tags : string) :
  Forall (fun tag => (String.length tag < 25)%nat -> In tag (flowTags tags))
    (videoTags tags)
  /\ (length (videoTags tags) <= 8)%nat
  /\ Forall (fun tag => (2 < String.length tag < 25)%nat) (flowTags tags)
  /\ keepTag 30 true "none of these" = false
  /\ keepTag 25 false "none of these" = true.
Proof.
  split; [|split; [|split; [|split; reflexivity]]].
  - apply List.Forall_forall. intros tag Hin Hlen.
    unfold videoTags in Hin. apply In_take, filter_In in Hin as [Hin Hkeep].
    unfold flowTags. apply filter_In. split; [exact Hin|].
    now apply keepTag_flow.
  - unfold videoTags. rewrite length_take. lia.
  - apply List.Forall_forall. intros tag Hin.
    unfold flowTags in Hin. apply filter_In in Hin as [_ Hkeep].
    now apply keepTag_true in Hkeep as (Hl & _).
Qed.

Lemma flowTags_videoTags_witness :
  videoTags "rock|none of these|pop" = ["rock"; "pop"]
  /\ flowTags "rock|none of these|pop" = ["rock"; "none of these"; "pop"]
  /\ (String.length "rock" < 25)%nat
  /\ In "rock" (flowTags "rock|none of these|pop").
Proof.
  assert (H : (String.length "rock" < 25)%nat) by (cbn; lia).
  split; [reflexivity|]. split; [reflexivity|]. split; [exact H|].
  pose proof (proj1 (flowTags_videoTags "rock|none of these|pop")) as Hall.
  rewrite List.Forall_forall in Hall. apply Hall; [|exact H].
  left. reflexivity.
Defined.

End TagFilterFacts.

Module RacingTagFacts.
Import JsString JsDate DataLoader Aggregation Notions Examples Terms.
Import JsObjFacts JsArrayFacts ParserFacts LoadFacts HeatmapFacts FlowFacts.
Import GroupFacts TableFacts LoadedFacts PerformanceFacts ChannelFacts.

Section Zone.
Context {zone : JsDate.TimeZone}.

Lemma fold_racingTagStep_keys video period tags (data : TagPeriodData) :
  NoDup (JsObj.keys data) ->
  NoDup (JsObj.keys (fold_left (racingTagStep video period) tags data)).
Proof.
  revert data. induction tags as [|tag tags IH]; intros data Hnd; [exact Hnd|].
  cbn [fold_left]. apply IH. unfold racingTagStep. now apply keys_set_NoDup.
Qed.

Lemma racingStep_cases (data : TagPeriodData) periods video :
  if tagged video && textDate video
  then racingStep (data, periods) video = None
  else exists data',
      racingStep (data, periods) video
      = Some (data', match periodOf video with
                     | Some period => JsArray.setAdd periods period
                     | None => periods
                     end)
      /\ (NoDup (JsObj.keys data) -> NoDup (JsObj.keys data')).
Proof.
  unfold racingStep, tagged, textDate, periodOf, tagged.
  destruct (props video !! "tags") as [tags|]; cbn [andb]; [|eauto].
  destruct (truthy tags); cbn [andb]; [|eauto].
  destruct (trendingDateParsed video) as [|s|d]; cbn; eauto.
  eexists. split; [reflexivity|]. apply fold_racingTagStep_keys.
Qed.

Lemma forEachM_racingStep videos (data : TagPeriodData) periods :
  if existsb (fun video => tagged video && textDate video) videos
  then forEachM racingStep videos (data, periods) = None
  else exists data',
      forEachM racingStep videos (data, periods)
      = Some (data', periodsOf videos periods)
      /\ (NoDup (JsObj.keys data) -> NoDup (JsObj.keys data')).
Proof.
  revert data periods.
  induction videos as [|video videos IH]; intros data periods.
  - cbn. eauto.
  - cbn [existsb forEachM].
    pose proof (racingStep_cases data periods video) as Hstep.
    destruct (tagged video && textDate video); cbn [orb].
    + now rewrite Hstep.
    + destruct Hstep as (data1 & -> & Hnd1).
      specialize (IH data1 (match periodOf video with
                            | Some period => JsArray.setAdd periods period
                            | None => periods
                            end)).
      destruct (existsb _ videos); [exact IH|].
      destruct IH as (data2 & -> & Hnd2). exists data2. split; [reflexivity|].
      auto.
Qed.

Lemma periodsOf_In videos start period :
  In period (periodsOf videos start)
  <-> In period start
      \/ exists video, In video videos /\ periodOf video = Some period.
Proof.
  revert start. induction videos as [|video videos IH]; intros start.
  - cbn. split; [now left|]. intros [H|(video & [] & _)]. exact H.
  - unfold periodsOf. cbn [fold_left].
    fold (periodsOf videos (match periodOf video with
                            | Some p => JsArray.setAdd start p
                            | None => start
                            end)).
    rewrite IH. destruct (periodOf video) as [p|] eqn:E.
    + rewrite setAdd_In. split.
      * intros [[H| ->]|(v & Hv & Hp)]; [now left| |].
        -- right. exists video. split; [now left|exact E].
        -- right. exists v. split; [now right|exact Hp].
      * intros [H|(v & [<-|Hv] & Hp)]; [now left; left| |].
        -- left. right. congruence.
        -- right. eauto.
    + split.
      * intros [H|(v & Hv & Hp)]; [now left|]. right. exists v.
        split; [now right|exact Hp].
      * intros [H|(v & [<-|Hv] & Hp)]; [now left|congruence|].
        right. eauto.
Qed.

Lemma NoDup_keys_filter {V : Type} (f : string * V -> bool) (o : JsObj.t V) :
  NoDup (JsObj.keys o) -> NoDup (JsObj.keys (List.filter f o)).
Proof.
  unfold JsObj.keys. induction o as [|entry o IH]; [auto|]. cbn [map List.filter].
  intros Hnd. apply NoDup_cons in Hnd as [Hnotin Hnd].
  destruct (f entry); [|now apply IH]. cbn [map]. constructor; [|now apply IH].
  intros Hin. apply Hnotin. apply list_elem_of_In in Hin.
  apply list_elem_of_In. apply in_map_iff in Hin as (e & He & Hin).
  apply filter_In in Hin as [Hin _]. apply in_map_iff. eauto.
Qed.

Lemma significantTags_NoDup (data : TagPeriodData) tagLimit minOccurrences :
  NoDup (JsObj.keys data) ->
  NoDup (significantTags data tagLimit minOccurrences).
Proof.
  intros Hnd. unfold significantTags.
  set (kept := List.filter _ data).
  assert (Hkept : NoDup (map fst kept)) by now apply NoDup_keys_filter.
  set (sorted := JsArray.sort _ kept).
  assert (Hsorted : NoDup (map fst sorted)).
  { unfold sorted. now rewrite (Permutation_map _ (sort_perm _ kept)). }
  destruct (slice0_prefix tagLimit sorted) as [rest Hrest].
  rewrite Hrest, map_app in Hsorted. now apply NoDup_app in Hsorted as [? _].
Qed.

Lemma racingPreset_limit filterType : 0 <= fst (racingPreset filterType).
Proof.
  unfold racingPreset.
  destruct (String.eqb filterType "top-tags"); [cbn; lia|].
  destruct (String.eqb filterType "trending"); cbn; lia.
Qed.

(** X28. [getTagRacingData] returns the empty result of its [catch]
    branch when a row with tags has a text in place of its trending
    date. Otherwise its periods are the periods of the rows that have
    tags and a date object, and a row whose date is invalid is counted
    under Week NaN. The tags are distinct and no more than the preset
    allows, and every period lists each of them once, in descending
    order of their counts. *)
Theorem getTagRacingData_tags (videoData : VideoData)
    (filterType selectedCountry : string) :
  let videos := videosToProcess videoData "global" selectedCountry in
  let result := getTagRacingData videoData filterType selectedCountry in
  let throws := existsb (fun video => tagged video && textDate video) videos in
  (throws = true -> result = Racing.mk [] [] [])
  /\ (throws = false ->
      (forall period,
          In period (Racing.periods result)
          <-> exists video, In video videos /\ periodOf video = Some period)
      /\ (forall video,
            In video videos -> tagged video = true ->
            trendingDateParsed video = ObjectDate InvalidDate ->
            In "Week NaN" (Racing.periods result)))
  /\ Z.of_nat (length (Racing.tags result)) <= fst (racingPreset filterType)
  /\ NoDup (Racing.tags result)
  /\ Forall
       (fun period =>
          Permutation (map RacingTag.tag (RacingPeriod.tags period))
            (Racing.tags result)
          /\ StronglySorted (fun a b => RacingTag.count b <= RacingTag.count a)
               (RacingPeriod.tags period))
       (Racing.racingData result).
Proof.
  intros videos result throws. unfold result, getTagRacingData. fold videos.
  set (loop := forEachM racingStep videos _).
  assert (Hloop : if throws then loop = None
                  else exists data',
                      loop = Some (data', periodsOf videos [])
                      /\ (NoDup (JsObj.keys ([] : TagPeriodData)) ->
                          NoDup (JsObj.keys data')))
    by exact (forEachM_racingStep videos [] []).
  clearbody loop. pose proof (racingPreset_limit filterType) as Hlimit.
  destruct throws.
  - rewrite Hloop. cbn [Racing.tags Racing.periods Racing.racingData length].
    split; [auto|]. split; [discriminate|]. split; [exact Hlimit|].
    split; constructor.
  - destruct Hloop as (data & -> & Hnd). specialize (Hnd (NoDup_nil_2)).
    destruct (racingPreset filterType) as [tagLimit minOccurrences].
    cbn [fst] in Hlimit.
    cbn [Racing.tags Racing.periods Racing.racingData].
    split; [discriminate|].
    assert (Hperiods : forall period,
               In period (JsArray.sortStrings (periodsOf videos []))
               <-> exists video, In video videos /\ periodOf video = Some period).
    { intros period. unfold JsArray.sortStrings. rewrite sort_In, periodsOf_In.
      split; [intros [[]|H]; exact H|now right]. }
    split; [intros _; split; [exact Hperiods|]|].
    + intros video Hin Htag Hdate. apply Hperiods. exists video.
      split; [exact Hin|]. unfold periodOf. now rewrite Htag, Hdate.
    + split; [unfold significantTags; rewrite length_map; now apply slice0_length|].
      split; [now apply significantTags_NoDup|].
      apply List.Forall_forall. intros period Hin.
      apply in_map_iff in Hin as (p & <- & _). cbn [RacingPeriod.tags]. split.
      * rewrite (Permutation_map _ (sort_perm _ _)), map_map.
        cbn [RacingTag.tag racingEntry]. now rewrite map_id.
      * apply (sort_descending RacingTag.count).
Qed.

End Zone.

(** The examples are read in the zone of Greenwich. *)
#[local] Existing Instance JsDate.utc.

Lemma getTagRacingData_tags_witness :
  existsb (fun video => tagged video && textDate video)
    (videosToProcess winterData "global" "global") = false
  /\ forall period,
      In period (Racing.periods (getTagRacingData winterData "overview" "global"))
      <-> exists video,
          In video (videosToProcess winterData "global" "global")
          /\ periodOf video = Some period.
Proof.
  assert (H : existsb (fun video => tagged video && textDate video)
                (videosToProcess winterData "global" "global") = false)
    by (vm_compute; reflexivity).
  split; [exact H|].
  exact (proj1 (proj1 (proj2
           (getTagRacingData_tags winterData "overview" "global")) H)).
Defined.

End RacingTagFacts.

Module AverageFacts.
Import JsString DataLoader Aggregation JsNum Notions Examples Terms Visualizations.
Import JsObjFacts JsArrayFacts ParserFacts LoadFacts.
Import HeatmapFacts FlowFacts GroupFacts TableFacts RacingTagFacts.

Section Zone.
Context {zone : JsDate.TimeZone}.

Local Abbreviation totalStep :=
  (groupStep RacingTag.tag
     (fun tag => TagTotal.mk (RacingTag.tag tag) 0 0 0 0)
     (fun tag old =>
        TagTotal.mk (TagTotal.tag old)
          (TagTotal.count old + RacingTag.count tag)
          (TagTotal.totalViews old + RacingTag.totalViews tag)
          (TagTotal.totalLikes old + RacingTag.totalLikes tag)
          (TagTotal.periods old + 1))).

Local Abbreviation totalValue :=
  (groupValue
     (fun tag => TagTotal.mk (RacingTag.tag tag) 0 0 0 0)
     (fun tag old =>
        TagTotal.mk (TagTotal.tag old)
          (TagTotal.count old + RacingTag.count tag)
          (TagTotal.totalViews old + RacingTag.totalViews tag)
          (TagTotal.totalLikes old + RacingTag.totalLikes tag)
          (TagTotal.periods old + 1))).

(** The two loops visit the entries of all periods in order. *)
Lemma tagTotals_fold (racingData : list RacingPeriod.t) start :
  fold_left
    (fun tagTotals period =>
       fold_left addTag (RacingPeriod.tags period) tagTotals)
    racingData start
  = fold_left totalStep (flat_map RacingPeriod.tags racingData) start.
Proof.
  revert start. induction racingData as [|period rest IH]; intros start;
    [reflexivity|].
  cbn [fold_left flat_map]. rewrite fold_left_app. apply IH.
Qed.

Lemma fold_total (entries : list RacingTag.t) (start : TagTotal.t) :
  let final :=
    fold_left
      (fun old tag =>
         TagTotal.mk (TagTotal.tag old)
           (TagTotal.count old + RacingTag.count tag)
           (TagTotal.totalViews old + RacingTag.totalViews tag)
           (TagTotal.totalLikes old + RacingTag.totalLikes tag)
           (TagTotal.periods old + 1))
      entries start in
  TagTotal.tag final = TagTotal.tag start
  /\ TagTotal.count final
     = TagTotal.count start + Zsum (map RacingTag.count entries)
  /\ TagTotal.totalViews final
     = TagTotal.totalViews start + Zsum (map RacingTag.totalViews entries)
  /\ TagTotal.totalLikes final
     = TagTotal.totalLikes start + Zsum (map RacingTag.totalLikes entries)
  /\ TagTotal.periods final
     = TagTotal.periods start + Z.of_nat (length entries).
Proof.
  revert start. induction entries as [|tag entries IH]; intros start.
  - cbn [fold_left length map]. cbv zeta. unfold Zsum. cbn.
    repeat split; lia.
  - cbn [fold_left]. cbv zeta in IH |- *.
    destruct (IH (TagTotal.mk (TagTotal.tag start)
                    (TagTotal.count start + RacingTag.count tag)
                    (TagTotal.totalViews start + RacingTag.totalViews tag)
                    (TagTotal.totalLikes start + RacingTag.totalLikes tag)
                    (TagTotal.periods start + 1)))
      as (Htag & Hcount & Hviews & Hlikes & Hperiods).
    cbn [TagTotal.tag TagTotal.count TagTotal.totalViews TagTotal.totalLikes
           TagTotal.periods] in *.
    cbn [map length]. rewrite !Zsum_cons.
    repeat split; [exact Htag|lia..].
Qed.

Lemma total_value (entries : list RacingTag.t) (total : TagTotal.t) :
  totalValue entries = Some total ->
  entries <> []
  /\ TagTotal.tag total = default EmptyString (RacingTag.tag <$> head entries)
  /\ TagTotal.count total = Zsum (map RacingTag.count entries)
  /\ TagTotal.totalViews total = Zsum (map RacingTag.totalViews entries)
  /\ TagTotal.totalLikes total = Zsum (map RacingTag.totalLikes entries)
  /\ TagTotal.periods total = Z.of_nat (length entries).
Proof.
  destruct entries as [|tag entries]; [discriminate|]. intros [= <-].
  pose proof (fold_total (tag :: entries)
                (TagTotal.mk (RacingTag.tag tag) 0 0 0 0)) as H.
  cbv zeta in H. destruct H as (Htag & Hcount & Hviews & Hlikes & Hperiods).
  split; [congruence|]. split; [exact Htag|].
  split; [exact Hcount|]. split; [exact Hviews|].
  split; [exact Hlikes|exact Hperiods].
Qed.

Lemma total_entry entries key total :
  In (key, total) (fold_left totalStep entries []) ->
  totalValue (groupOf RacingTag.tag key entries) = Some total
  /\ TagTotal.tag total = key.
Proof.
  intros Hin. apply entry_fold_group in Hin as Hvalue. split; [exact Hvalue|].
  apply total_value in Hvalue as (Hne & Htag & _). rewrite Htag.
  destruct (groupOf RacingTag.tag key entries) as [|tag tags] eqn:E;
    [congruence|].
  assert (Hrow : In tag (groupOf RacingTag.tag key entries))
    by (rewrite E; now left).
  apply filter_In in Hrow as [_ Hkey]. now apply String.eqb_eq in Hkey.
Qed.

(** The rounded quotient of two integers, the second one positive. *)
Lemma round_div a b :
  0 < b -> round (div a b) = Fin (inject_Z (roundDiv a b)).
Proof.
  intros Hb. unfold div, round, roundDiv.
  destruct (Z.eqb_spec b 0) as [->|_]; [lia|].
  f_equal. f_equal.
  rewrite (Qfloor_comp _ ((a # Z.to_pos b) + (1 # 2))).
  - unfold Qfloor, Qplus. cbn [Qnum Qden].
    rewrite Pos2Z.inj_mul, Z2Pos.id by lia.
    f_equal; lia.
  - rewrite Qred_correct.
    replace (Z.sgn b) with 1 by lia. replace (Z.abs b) with b by lia.
    now rewrite Z.mul_1_r.
Qed.

Lemma roundDiv_nearest a b :
  0 < b -> 2 * b * roundDiv a b <= 2 * a + b < 2 * b * (roundDiv a b + 1).
Proof.
  intros Hb. unfold roundDiv.
  pose proof (Z.mul_div_le (2 * a + b) (2 * b)).
  pose proof (Z.mul_succ_div_gt (2 * a + b) (2 * b)).
  lia.
Qed.

Lemma length_groupOf_perm {A : Type} (key : A -> string) k (l l' : list A) :
  Permutation l l' -> length (groupOf key k l) = length (groupOf key k l').
Proof.
  intros H. unfold groupOf. induction H; cbn [List.filter].
  - reflexivity.
  - destruct (String.eqb _ _); cbn [length]; congruence.
  - destruct (String.eqb (key x) k), (String.eqb (key y) k); reflexivity.
  - congruence.
Qed.

Lemma length_groupOf_tags (f : string -> RacingTag.t) k (tags : list string) :
  (forall tag, RacingTag.tag (f tag) = tag) -> NoDup tags -> In k tags ->
  length (groupOf RacingTag.tag k (map f tags)) = 1%nat.
Proof.
  intros Hf Hnd Hin. unfold groupOf.
  induction tags as [|tag tags IH]; [destruct Hin|].
  apply NoDup_cons in Hnd as [Hnot Hnd].
  cbn [map List.filter]. rewrite Hf.
  destruct (String.eqb_spec tag k) as [->|Hne].
  - cbn [length]. f_equal.
    assert (Hnone : forall l, ~ In k l ->
              List.filter (fun x => String.eqb (RacingTag.tag x) k) (map f l) = []).
    { induction l as [|t l IHl]; [reflexivity|]. intros Hl.
      cbn [map List.filter]. rewrite Hf.
      destruct (String.eqb_spec t k) as [->|_]; [exfalso; apply Hl; now left|].
      apply IHl. intros H. apply Hl. now right. }
    rewrite Hnone; [reflexivity|]. now rewrite <- list_elem_of_In.
  - destruct Hin as [->|Hin]; [congruence|]. now apply IH.
Qed.

Lemma calculateAverageTagData_In racingData average :
  In average (calculateAverageTagData racingData)
  <-> exists key total,
        In (key, total)
          (fold_left totalStep (flat_map RacingPeriod.tags racingData) [])
        /\ average = averageOf total.
Proof.
  unfold calculateAverageTagData. rewrite sort_In, tagTotals_fold.
  unfold JsObj.values. rewrite map_map, in_map_iff. split.
  - intros ([key total] & <- & Hin). now exists key, total.
  - intros (key & total & Hin & ->). now exists (key, total).
Qed.

(** The entries of the periods of [getTagRacingData]: every period lists
    every tag of the result once. *)
Lemma racingData_groups videoData filterType selectedCountry tag :
  let result := getTagRacingData videoData filterType selectedCountry in
  In tag (Racing.tags result) ->
  length (groupOf RacingTag.tag tag
            (flat_map RacingPeriod.tags (Racing.racingData result)))
  = length (Racing.periods result).
Proof.
  intros result. unfold result, getTagRacingData.
  set (videos := videosToProcess videoData "global" selectedCountry).
  set (loop := forEachM racingStep videos _).
  assert (Hloop :
            if existsb (fun video => tagged video && textDate video) videos
            then loop = None
            else exists data,
                loop = Some (data, periodsOf videos [])
                /\ (NoDup (JsObj.keys ([] : TagPeriodData))
                    -> NoDup (JsObj.keys data)))
    by exact (forEachM_racingStep videos [] []).
  clearbody loop.
  destruct (existsb _ videos); [rewrite Hloop; intros []|].
  destruct Hloop as (data & -> & Hnd). specialize (Hnd (NoDup_nil_2)).
  destruct (racingPreset filterType) as [tagLimit minOccurrences].
  cbn [Racing.tags Racing.racingData Racing.periods]. intros Hin.
  induction (JsArray.sortStrings (periodsOf videos [])) as [|period rest IH];
    [reflexivity|].
  cbn [map flat_map RacingPeriod.tags length]. unfold groupOf in *.
  rewrite List.filter_app, length_app, IH.
  fold (groupOf RacingTag.tag tag
          (JsArray.sort (fun a b => RacingTag.count b - RacingTag.count a)
             (map (racingEntry data period)
                (significantTags data tagLimit minOccurrences)))).
  rewrite (length_groupOf_perm _ _ _ _ (sort_perm _ _)).
  rewrite length_groupOf_tags;
    [reflexivity|reflexivity|now apply significantTags_NoDup|exact Hin].
Qed.


End Zone.

End AverageFacts.

Module HeatmapTableFacts.
Import JsString DataLoader Aggregation JsNum Notions Examples Terms.
Import JsObjFacts JsArrayFacts ParserFacts LoadFacts.
Import HeatmapFacts FlowFacts GroupFacts TableFacts CountryFacts.

Lemma rowsOfCategory_nonneg category rows : 0 <= rowsOfCategory category rows.
Proof. unfold rowsOfCategory. lia. Qed.

(** X30. The heat map agrees with the tables of the other charts: the
    [totalVideos] of an entry is the number [getCountryVideoCounts] gives
    for its country, and its [count] is the number that
    [getCategoryDistributionByCountry] gives for its category in that
    country, and 0 when the category is not listed there. *)
Theorem getHeatmapData_tables (videoData : VideoData) :
  Forall
    (fun cell =>
       let country := HeatCell.country cell in
       JsObj.get (getCountryVideoCounts videoData) country
       = Some (HeatCell.totalVideos cell)
       /\ (country <> "all" ->
           HeatCell.count cell
           = default 0
               (JsObj.get (getCategoryDistributionByCountry videoData country)
                  (HeatCell.category cell))))
    (Heatmap.data (getHeatmapData videoData)).
Proof.
  apply List.Forall_forall. intros cell Hin.
  cbn [getHeatmapData Heatmap.data] in Hin.
  apply in_flat_map in Hin as (country & Hcountry & Hin).
  unfold heatmapCells in Hin.
  apply in_map_iff in Hin as (category & <- & Hcat).
  cbn [HeatCell.country HeatCell.category HeatCell.count HeatCell.totalVideos].
  assert (Hne : category <> EmptyString).
  { apply (heatmap_categories videoData) in Hcat as (_ & _ & _ & H). exact H. }
  split.
  - rewrite getCountryVideoCounts_get.
    apply keys_get in Hcountry as [rows Hrows].
    unfold countryVideos. now rewrite Hrows.
  - intros Hall. rewrite countCategories_lookup by exact Hne.
    rewrite distribution_get. unfold videosToProcess.
    rewrite (proj2 (String.eqb_neq _ _) Hall).
    pose proof (rowsOfCategory_nonneg category (countryVideos videoData country)).
    destruct (Z.ltb_spec 0 (rowsOfCategory category
                              (countryVideos videoData country)));
      cbn [default]; [reflexivity|lia].
Qed.

End HeatmapTableFacts.
